(** * Property resolution and time-bounded cache of ga-multi-mcp

    A shallow embedding of [ga_multi_mcp/property_resolver.py] and of
    the caching part of [ga_multi_mcp/ga_client.py], with the
    properties the specification states about them, followed by
    further properties of the same code, of the directory fetch and
    the report filters of [ga_client.py], of [config.py], of the cache
    and search tools of [server.py] and of [date_parser.py].

    Conventions of the embedding.
    - Python [str] is [string]; the text operations ([lower], [strip],
      [isalnum], [in]) and the regular expressions are given on ASCII
      text.
    - Python [float] scores and timestamps are exact rationals [Q];
      every comparison of the source is kept with its strictness.
      Where a statement depends on the order of two scores, the
      scores are floats and the arithmetic of the interpreter is a
      parameter ([FloatEngine]), with binary64 as its instance.
    - A [dict] whose iteration order the code depends on (the alias
      table) is an association list; the client cache, only ever
      accessed by key, is a [gmap].
    - An [async] method is a function from the state before the call
      to an outcome and the state after it; the clock value read by the
      call and the answer the remote directory would give are
      arguments.
    - A date is its year, month and day; the day [datetime.now()]
      gives is an argument of the parser. *)

From Stdlib Require Import ZArith QArith Qminmax Lqa Lia.
From Stdlib Require Import List String Ascii Bool Arith.
From Stdlib Require Import Sorting.Sorted Sorting.Permutation.
From Stdlib Require Import Floats.
From stdpp Require Import gmap strings list fin_maps.

Close Scope Q_scope.
Open Scope string_scope.
Open Scope list_scope.

(** ** Python text operations *)

Module PyStr.

Definition in_range (lo hi : nat) (c : ascii) : bool :=
  (lo <=? nat_of_ascii c)%nat && (nat_of_ascii c <=? hi)%nat.

Definition isupper (c : ascii) : bool := in_range 65 90 c.
Definition isdigit (c : ascii) : bool := in_range 48 57 c.
Definition isalpha (c : ascii) : bool := isupper c || in_range 97 122 c.
Definition isalnum (c : ascii) : bool := isalpha c || isdigit c.

(** [str.isspace] on ASCII: tab, line feed, vertical tab, form feed,
    carriage return, the four separators 0x1c-0x1f and the space. *)
Definition isspace (c : ascii) : bool :=
  in_range 9 13 c || in_range 28 32 c.

Definition to_lower (c : ascii) : ascii :=
  if isupper c then ascii_of_nat (nat_of_ascii c + 32) else c.

(** [s.lower()] *)
Fixpoint lower (s : string) : string :=
  match s with
  | EmptyString => EmptyString
  | String c s' => String (to_lower c) (lower s')
  end.

Fixpoint lstrip (s : string) : string :=
  match s with
  | EmptyString => EmptyString
  | String c s' => if isspace c then lstrip s' else s
  end.

Fixpoint rstrip (s : string) : string :=
  match s with
  | EmptyString => EmptyString
  | String c s' =>
      match rstrip s' with
      | EmptyString => if isspace c then EmptyString else String c EmptyString
      | r => String c r
      end
  end.

(** [s.strip()] *)
Definition strip (s : string) : string := rstrip (lstrip s).

(** ["".join(c for c in s if c.isalnum())] *)
Fixpoint alnum_only (s : string) : string :=
  match s with
  | EmptyString => EmptyString
  | String c s' =>
      if isalnum c then String c (alnum_only s') else alnum_only s'
  end.

(** [a in b] on strings: [a] occurs in [b] as a contiguous block. *)
Fixpoint contains (a b : string) : bool :=
  String.prefix a b ||
  match b with
  | EmptyString => false
  | String _ b' => contains a b'
  end.

(** [s[:n]] for [0 <= n] *)
Fixpoint take (n : nat) (s : string) : string :=
  match n, s with
  | S n', String c s' => String c (take n' s')
  | _, _ => EmptyString
  end.

Definition len (s : string) : nat := String.length s.

End PyStr.

(** ** [difflib.SequenceMatcher(None, a, b).ratio()]

    The standard-library matcher the resolver calls, for sequences
    below the 200-element mark at which difflib's popularity heuristic
    starts: the longest matching block (earliest in [a], then earliest
    in [b]) is taken, the pieces to its left and to its right are
    matched recursively, and the ratio is [2.0 * matches / length]. *)

Module Difflib.

Fixpoint common_prefix (a b : list ascii) : nat :=
  match a, b with
  | x :: a', y :: b' =>
      if Ascii.eqb x y then S (common_prefix a' b') else O
  | _, _ => O
  end.

Definition block : Type := (nat * nat * nat)%type.

Definition block_size (m : block) : nat := snd m.

Fixpoint scan_b (ai b : list ascii) (i j : nat) (best : block) : block :=
  match b with
  | [] => best
  | _ :: b' =>
      let k := common_prefix ai b in
      scan_b ai b' i (S j)
        (if (block_size best <? k)%nat then (i, j, k) else best)
  end.

Fixpoint scan_a (a b : list ascii) (i : nat) (best : block) : block :=
  match a with
  | [] => best
  | _ :: a' => scan_a a' b (S i) (scan_b a b i O best)
  end.

Definition find_longest_match (a b : list ascii) : block :=
  scan_a a b O (O, O, O).

Fixpoint matching_total (fuel : nat) (a b : list ascii) : nat :=
  match fuel with
  | O => O
  | S fuel' =>
      let '(i, j, k) := find_longest_match a b in
      if (k =? 0)%nat then O
      else (k
            + matching_total fuel' (firstn i a) (firstn j b)
            + matching_total fuel' (skipn (i + k) a) (skipn (j + k) b))%nat
  end.

Definition matches (a b : list ascii) : nat :=
  matching_total (S (List.length a)) a b.

Definition ratio (a b : string) : Q :=
  let la := list_ascii_of_string a in
  let lb := list_ascii_of_string b in
  let total := (List.length la + List.length lb)%nat in
  if (total =? 0)%nat then 1%Q
  else (2 * inject_Z (Z.of_nat (matches la lb)) / inject_Z (Z.of_nat total))%Q.

End Difflib.

(** ** Exceptions, numbers and records *)

Inductive exn : Type :=
| ConfigError
| GAClientError
| ZeroDivisionError.

Inductive result (A : Type) : Type :=
| Ok (a : A)
| Raise (e : exn).

Arguments Ok {A} a.
Arguments Raise {A} e.

#[global] Instance result_ret : MRet result := fun _ a => Ok a.

#[global] Instance result_bind : MBind result :=
  fun _ _ f m => match m with Ok a => f a | Raise e => Raise e end.

(** [x < y] on scores, as a test. *)
Definition Qltb (x y : Q) : bool := negb (Qle_bool y x).

(** [max(x, y)]: the first argument unless the second is strictly
    greater. *)
Definition py_max (x y : Q) : Q := if Qltb x y then y else x.

(** [a / b] on [int]s *)
Definition py_truediv (a b : nat) : result Q :=
  if (b =? 0)%nat then Raise ZeroDivisionError
  else Ok (inject_Z (Z.of_nat a) / inject_Z (Z.of_nat b))%Q.

(** [l[:n]] *)
Definition py_slice_to {A : Type} (n : Z) (l : list A) : list A :=
  if (n <? 0)%Z then firstn (Z.to_nat (Z.of_nat (List.length l) + n)) l
  else firstn (Z.to_nat n) l.

Record GAProperty : Type := {
  id : string;
  name : string;
  display_name : string;
  account_id : string;
  website_url : option string
}.

Record PropertyMatch : Type := {
  property : GAProperty;
  confidence : Q;
  matched_on : string
}.

(** The record [discover_properties] builds for a directory entry
    (ga_client.py, lines 183-196). *)
Definition clean_name (display : string) : string :=
  PyStr.take 30 (PyStr.alnum_only (PyStr.lower display)).

Definition build_property (prop_id display account : string)
    (url : option string) : GAProperty :=
  {| id := prop_id; name := clean_name display; display_name := display;
     account_id := account; website_url := url |}.

(** [custom_aliases]: owner key -> aliases, in insertion order. *)
Definition alias_table : Type := list (string * list string).

(** ** The match engine: bodies of [resolve] and [search] *)

Section MatchEngine.

(** [SequenceMatcher(None, a, b).ratio()] *)
Variable ratio : string -> string -> Q.

Definition best_match : Type := option (GAProperty * Q * string).

(** [best_match is None or score > best_match[1]] *)
Definition improves (score : Q) (best : best_match) : bool :=
  match best with
  | None => true
  | Some (_, s, _) => Qltb s score
  end.

Definition display_clean_of (prop : GAProperty) : string :=
  PyStr.alnum_only (PyStr.lower (display_name prop)).

(** The containment test and score of [resolve] (lines 145-148): the
    effective score, when the test and the 30% gate are passed. *)
Definition partial_candidate (query_clean : string) (prop : GAProperty)
    : result (option Q) :=
  let display_clean := display_clean_of prop in
  if PyStr.contains query_clean (name prop)
     || PyStr.contains query_clean display_clean
  then
    partial_score ←
      py_truediv (PyStr.len query_clean)
                 (Nat.max (PyStr.len (name prop)) (PyStr.len display_clean));
    if Qltb 0.3 partial_score
    then Ok (Some (0.7 + partial_score * 0.3)%Q)
    else Ok None
  else Ok None.

(** One iteration of the fuzzy loop of [resolve] (lines 128-150). *)
Definition fuzzy_step (fuzzy_threshold : Q) (query_clean : string)
    (best : best_match) (prop : GAProperty) : result best_match :=
  let name_score := ratio query_clean (name prop) in
  let best :=
    if Qltb fuzzy_threshold name_score && improves name_score best
    then Some (prop, name_score, "fuzzy_name") else best in
  let display_score := ratio query_clean (display_clean_of prop) in
  let best :=
    if Qltb fuzzy_threshold display_score && improves display_score best
    then Some (prop, display_score, "fuzzy_display") else best in
  partial ← partial_candidate query_clean prop;
  match partial with
  | Some effective_score =>
      if improves effective_score best
      then Ok (Some (prop, effective_score, "partial"))
      else Ok best
  | None => Ok best
  end.

Fixpoint fuzzy_loop (fuzzy_threshold : Q) (query_clean : string)
    (best : best_match) (props : list GAProperty) : result best_match :=
  match props with
  | [] => Ok best
  | prop :: rest =>
      best' ← fuzzy_step fuzzy_threshold query_clean best prop;
      fuzzy_loop fuzzy_threshold query_clean best' rest
  end.

(** The inner loop of stage 4 (lines 119-123). *)
Definition alias_owner (prop_name : string) (prop : GAProperty) : bool :=
  String.eqb (name prop) prop_name
  || String.eqb (PyStr.lower (display_name prop)) (PyStr.lower prop_name).

(** Stage 4 (lines 116-123): entries in iteration order; an entry
    whose aliases match but that owns no record is passed over. *)
Fixpoint alias_stage (query_lower : string) (props : list GAProperty)
    (aliases : alias_table) : option GAProperty :=
  match aliases with
  | [] => None
  | (prop_name, names) :: rest =>
      if existsb (String.eqb query_lower) (List.map PyStr.lower names)
      then match List.find (alias_owner prop_name) props with
           | Some prop => Some prop
           | None => alias_stage query_lower props rest
           end
      else alias_stage query_lower props rest
  end.

Definition found (prop : GAProperty) (tag : string) : PropertyMatch :=
  {| property := prop; confidence := 1; matched_on := tag |}.

(** [resolve], from line 88 on, over the loaded list. *)
Definition resolve_body (fuzzy_threshold : Q) (custom_aliases : alias_table)
    (query : string) (props : list GAProperty)
    : result (option PropertyMatch) :=
  match props with
  | [] => Ok None
  | _ :: _ =>
    let query_lower := PyStr.strip (PyStr.lower query) in
    let query_clean := PyStr.alnum_only query_lower in
    match List.find (fun prop => String.eqb (id prop) query) props with
    | Some prop => Ok (Some (found prop "exact_id"))
    | None =>
    match List.find (fun prop => String.eqb (name prop) query_clean) props with
    | Some prop => Ok (Some (found prop "exact_name"))
    | None =>
    match List.find (fun prop =>
            String.eqb (PyStr.lower (display_name prop)) query_lower) props with
    | Some prop => Ok (Some (found prop "display_name"))
    | None =>
    match alias_stage query_lower props custom_aliases with
    | Some prop => Ok (Some (found prop "alias"))
    | None =>
      best ← fuzzy_loop fuzzy_threshold query_clean None props;
      match best with
      | Some (prop, score, tag) =>
          Ok (Some {| property := prop; confidence := score;
                      matched_on := tag |})
      | None => Ok None
      end
    end end end end
  end.

(** One iteration of the loop of [search] (lines 184-213): the entry
    appended for [prop], if any. *)
Definition search_entry (query query_clean : string) (prop : GAProperty)
    : result (option PropertyMatch) :=
  if String.eqb (id prop) query || String.eqb (name prop) query_clean
  then Ok (Some (found prop "exact"))
  else
    let name_score := ratio query_clean (name prop) in
    let display_clean := display_clean_of prop in
    let display_score := ratio query_clean display_clean in
    let best_score := py_max name_score display_score in
    best_score ←
      (if PyStr.contains query_clean (name prop)
          || PyStr.contains query_clean display_clean
       then
         q ← py_truediv (PyStr.len query_clean)
               (Nat.max (Nat.max (PyStr.len (name prop))
                                 (PyStr.len display_clean)) 1);
         Ok (py_max best_score (0.7 + q * 0.3)%Q)
       else Ok best_score);
    if Qltb 0.3 best_score then
      Ok (Some {| property := prop; confidence := best_score;
                  matched_on := if Qltb best_score 1 then "fuzzy"
                                else "exact" |})
    else Ok None.

Fixpoint search_loop (query query_clean : string)
    (props : list GAProperty) : result (list PropertyMatch) :=
  match props with
  | [] => Ok []
  | prop :: rest =>
      entry ← search_entry query query_clean prop;
      more ← search_loop query query_clean rest;
      Ok (match entry with Some m => m :: more | None => more end)
  end.

(** [matches.sort(key=lambda m: m.confidence, reverse=True)]: the
    list sort is stable, also under [reverse=True]. *)
Fixpoint insert_desc (m : PropertyMatch) (sorted : list PropertyMatch)
    : list PropertyMatch :=
  match sorted with
  | [] => [m]
  | m' :: rest =>
      if Qltb (confidence m) (confidence m')
      then m' :: insert_desc m rest
      else m :: sorted
  end.

Definition sort_desc (ms : list PropertyMatch) : list PropertyMatch :=
  List.fold_right insert_desc [] ms.

(** [search], from line 176 on, over the loaded list. *)
Definition search_body (query : string) (max_results : Z)
    (props : list GAProperty) : result (list PropertyMatch) :=
  match props with
  | [] => Ok []
  | _ :: _ =>
    let query_lower := PyStr.strip (PyStr.lower query) in
    let query_clean := PyStr.alnum_only query_lower in
    matches ← search_loop query query_clean props;
    Ok (py_slice_to max_results (sort_desc matches))
  end.

End MatchEngine.



(** ** Configuration (config.py) *)

Module Config.

Record t : Type := {
  credentials_path : string;
  cache_ttl : Z;
  property_cache_ttl : Z;
  fuzzy_threshold : Q;
  custom_aliases : alias_table
}.

(** The threshold [from_env] settles on (lines 112-122).  [var] is
    GA_FUZZY_THRESHOLD: [None] when unset or empty, [Some None] when
    [float] rejects its text, [Some (Some x)] when it parses to [x]. *)
Definition fuzzy_threshold_from_env (var : option (option Q)) : result Q :=
  match var with
  | None => Ok 0.6%Q
  | Some None => Raise ConfigError
  | Some (Some x) =>
      if Qle_bool 0 x && Qle_bool x 1 then Ok x else Raise ConfigError
  end.

End Config.

(** ** The client's time-bounded cache (ga_client.py) *)

Module GAClient.

Record CacheEntry (V : Type) : Type := {
  data : V;
  expires_at : Q
}.

Arguments data {V} _.
Arguments expires_at {V} _.

(** [entry.is_valid()], the clock reading [now]. *)
Definition is_valid {V : Type} (now : Q) (entry : CacheEntry V) : bool :=
  Qltb now (expires_at entry).

(** The client, as far as caching goes.  [fetches] is a ghost
    counter: how many times [discover_properties] went past its cache
    test to the remote directory. *)
Record t (V : Type) : Type := {
  cache_ttl : Z;
  property_cache_ttl : Z;
  _cache : gmap string (CacheEntry V);
  fetches : nat
}.

Arguments cache_ttl {V} _.
Arguments property_cache_ttl {V} _.
Arguments _cache {V} _.
Arguments fetches {V} _.

Definition with_cache {V : Type} (c : t V)
    (m : gmap string (CacheEntry V)) : t V :=
  {| cache_ttl := cache_ttl c; property_cache_ttl := property_cache_ttl c;
     _cache := m; fetches := fetches c |}.

Definition with_fetch {V : Type} (c : t V) : t V :=
  {| cache_ttl := cache_ttl c; property_cache_ttl := property_cache_ttl c;
     _cache := _cache c; fetches := S (fetches c) |}.

(** [GAClient.__init__] *)
Definition init {V : Type} (config : Config.t) : t V :=
  {| cache_ttl := Config.cache_ttl config;
     property_cache_ttl := Config.property_cache_ttl config;
     _cache := ∅; fetches := O |}.

(** [_get_cached(key)]: the value returned and the client after. *)
Definition _get_cached {V : Type} (now : Q) (key : string) (c : t V)
    : option V * t V :=
  match _cache c !! key with
  | Some entry =>
      if is_valid now entry then (Some (data entry), c)
      else (None, with_cache c (delete key (_cache c)))
  | None => (None, c)
  end.

(** [ttl or self.cache_ttl] *)
Definition effective_ttl {V : Type} (ttl : option Z) (c : t V) : Z :=
  match ttl with
  | Some n => if (n =? 0)%Z then cache_ttl c else n
  | None => cache_ttl c
  end.

(** [_set_cached(key, data, ttl)] *)
Definition _set_cached {V : Type} (now : Q) (key : string) (v : V)
    (ttl : option Z) (c : t V) : t V :=
  let expires := (now + inject_Z (effective_ttl ttl c))%Q in
  with_cache c (<[key := {| data := v; expires_at := expires |}]> (_cache c)).

(** [clear_cache(pattern)]: the count returned and the client after. *)
Definition clear_cache {V : Type} (pattern : option string) (c : t V)
    : nat * t V :=
  match pattern with
  | None => (size (_cache c), with_cache c ∅)
  | Some p =>
      (size (filter (λ kv, PyStr.contains p kv.1 = true) (_cache c)),
       with_cache c (filter (λ kv, PyStr.contains p kv.1 ≠ true) (_cache c)))
  end.

(** [get_cache_stats()]: total, valid and expired entries. *)
Definition get_cache_stats {V : Type} (now : Q) (c : t V)
    : nat * nat * nat :=
  let total := size (_cache c) in
  let valid := size (filter (λ kv, is_valid now kv.2 = true) (_cache c)) in
  (total, valid, (total - valid)%nat).

Definition total_entries {V : Type} (c : t V) : nat := size (_cache c).

(** [discover_properties()].  [remote] is what the directory listing
    and the construction of the records (lines 159-196) produce if
    they run now: the list, or the [GAClientError] of a failure.  The
    call reads the clock twice: [now] is the reading of the cache test
    (line 156, in [is_valid]) and [stored] the reading of
    [_set_cached] (line 198), taken after the listing has answered. *)
Definition discover_properties_at (now stored : Q)
    (remote : result (list GAProperty)) (c : t (list GAProperty))
    : result (list GAProperty) * t (list GAProperty) :=
  let '(cached, c) := _get_cached now "properties" c in
  match cached with
  | Some (prop :: rest) => (Ok (prop :: rest), c)
  | _ =>
      let c := with_fetch c in
      match remote with
      | Ok properties =>
          (Ok properties,
           _set_cached stored "properties" properties
             (Some (property_cache_ttl c)) c)
      | Raise e => (Raise e, c)
      end
  end.

(** The call with both readings of the clock giving [now]: a listing
    that takes no time. *)
Definition discover_properties (now : Q)
    (remote : result (list GAProperty)) (c : t (list GAProperty))
    : result (list GAProperty) * t (list GAProperty) :=
  discover_properties_at now now remote c.

End GAClient.

(** ** The resolver facade (property_resolver.py) *)

Module PropertyResolver.

Record t : Type := {
  client : GAClient.t (list GAProperty);
  fuzzy_threshold : Q;
  custom_aliases : alias_table;
  _properties : option (list GAProperty)
}.

Definition with_state (r : t) (c : GAClient.t (list GAProperty))
    (ps : option (list GAProperty)) : t :=
  {| client := c; fuzzy_threshold := fuzzy_threshold r;
     custom_aliases := custom_aliases r; _properties := ps |}.

(** [x or y] on an optional float: [None] and [0.0] are falsy. *)
Definition float_or (x : option Q) (y : Q) : Q :=
  match x with
  | Some v => if Qeq_bool v 0 then y else v
  | None => y
  end.

(** [x or y] on an optional dict: [None] and [{}] are falsy. *)
Definition dict_or (x : option alias_table) (y : alias_table) : alias_table :=
  match x with
  | Some (entry :: rest) => entry :: rest
  | _ => y
  end.

(** [PropertyResolver.__init__]; [global_client] and [config] are
    what [get_ga_client()] and [get_config()] return. *)
Definition init (config : Config.t)
    (global_client : GAClient.t (list GAProperty))
    (client : option (GAClient.t (list GAProperty)))
    (fuzzy_threshold : option Q) (custom_aliases : option alias_table) : t :=
  {| client := match client with Some c => c | None => global_client end;
     fuzzy_threshold := float_or fuzzy_threshold (Config.fuzzy_threshold config);
     custom_aliases := dict_or custom_aliases (Config.custom_aliases config);
     _properties := None |}.

Section Methods.

Variable ratio : string -> string -> Q.

Definition _ensure_properties_loaded (now : Q)
    (remote : result (list GAProperty)) (r : t) : result unit * t :=
  match _properties r with
  | None =>
      let '(res, c) := GAClient.discover_properties now remote (client r) in
      match res with
      | Ok ps => (Ok tt, with_state r c (Some ps))
      | Raise e => (Raise e, with_state r c None)
      end
  | Some _ => (Ok tt, r)
  end.

Definition resolve (now : Q) (remote : result (list GAProperty))
    (query : string) (r : t) : result (option PropertyMatch) * t :=
  let '(loaded, r) := _ensure_properties_loaded now remote r in
  match loaded with
  | Raise e => (Raise e, r)
  | Ok _ =>
      match _properties r with
      | None => (Ok None, r)
      | Some props =>
          (resolve_body ratio (fuzzy_threshold r) (custom_aliases r)
             query props, r)
      end
  end.

Definition search (now : Q) (remote : result (list GAProperty))
    (query : string) (max_results : Z) (r : t)
    : result (list PropertyMatch) * t :=
  let '(loaded, r) := _ensure_properties_loaded now remote r in
  match loaded with
  | Raise e => (Raise e, r)
  | Ok _ =>
      match _properties r with
      | None => (Ok [], r)
      | Some props => (search_body ratio query max_results props, r)
      end
  end.

Definition get_property_id (now : Q) (remote : result (list GAProperty))
    (query : string) (r : t) : result (option string) * t :=
  let '(res, r) := resolve now remote query r in
  (m ← res; Ok (match m with Some m => Some (id (property m)) | None => None end),
   r).

Definition list_all (now : Q) (remote : result (list GAProperty))
    (r : t) : result (list GAProperty) * t :=
  let '(loaded, r) := _ensure_properties_loaded now remote r in
  match loaded with
  | Raise e => (Raise e, r)
  | Ok _ => (Ok (match _properties r with Some ps => ps | None => [] end), r)
  end.

End Methods.

(** [clear_cache()] *)
Definition clear_cache (r : t) : t := with_state r (client r) None.

End PropertyResolver.

(** ** The specification's wording of [search]

    Definitions written after section 4.3 of the specification, to be
    compared with [search_entry] and [search_body] above. *)

Module Spec.

(** canonical(s): lower-case, strip everything except letters and
    digits. *)
Definition canonical (s : string) : string :=
  PyStr.alnum_only (PyStr.lower s).

Section Search.

Variable ratio : string -> string -> Q.

(** bestScore = max(nameSimilarity, displaySimilarity), raised to
    the containment score when the containment condition holds. *)
Definition best_score (query : string) (prop : GAProperty) : Q :=
  let q := canonical query in
  let d := canonical (display_name prop) in
  let similarity := py_max (ratio q (name prop)) (ratio q d) in
  if PyStr.contains q (name prop) || PyStr.contains q d
  then py_max similarity
         (0.7 + (inject_Z (Z.of_nat (PyStr.len q))
                 / inject_Z (Z.of_nat
                     (Nat.max (Nat.max (PyStr.len (name prop))
                                       (PyStr.len d)) 1))) * 0.3)%Q
  else similarity.

(** A record whose raw id or canonical name equals the raw or
    canonical query is forced to 1.0, stage exact; any other record
    is included when bestScore > 0.3, stage exact if the score
    equals 1.0 and fuzzy otherwise. *)
Definition entry (query : string) (prop : GAProperty)
    : option PropertyMatch :=
  if String.eqb (id prop) query
     || String.eqb (name prop) (canonical query)
  then Some {| property := prop; confidence := 1; matched_on := "exact" |}
  else
    let s := best_score query prop in
    if Qltb 0.3 s
    then Some {| property := prop; confidence := s;
                 matched_on := if Qeq_bool s 1 then "exact" else "fuzzy" |}
    else None.

(** The included records, in snapshot order. *)
Definition included (query : string) (props : list GAProperty)
    : list PropertyMatch :=
  omap (entry query) props.

End Search.

(** Descending confidence. *)
Definition descending (ms : list PropertyMatch) : Prop :=
  StronglySorted (fun m m' => (confidence m' <= confidence m)%Q) ms.

End Spec.

(** ** Sample data *)

Module Sample.

Definition config : Config.t :=
  {| Config.credentials_path := "/etc/ga/credentials.json";
     Config.cache_ttl := 300;
     Config.property_cache_ttl := 3600;
     Config.fuzzy_threshold := 0.6;
     Config.custom_aliases := [] |}.

Definition acme : list GAProperty :=
  [ build_property "111" "Acme Blog" "1001" None;
    build_property "222" "Acme Shop" "1001" None ].

Definition my_site : GAProperty :=
  build_property "333" "My Site" "1001" None.

Definition my_site_aliases : alias_table :=
  [ ("mysite", ["primary site"; "main"]) ].

Definition acme_blog_site : GAProperty :=
  build_property "444" "Acme Blog Site" "1001" None.

(** Two directory entries carrying one and the same id. *)
Definition twin_a : GAProperty := build_property "555" "North" "1001" None.
Definition twin_b : GAProperty := build_property "555" "South" "1001" None.

Definition fresh_client : GAClient.t (list GAProperty) :=
  GAClient.init config.

(** A resolver as [__init__] leaves it, with the given overrides. *)
Definition resolver (threshold : option Q) (aliases : option alias_table)
    : PropertyResolver.t :=
  PropertyResolver.init config fresh_client None threshold aliases.

(** The same resolver holding [props] as its loaded list. *)
Definition loaded (threshold : option Q) (aliases : option alias_table)
    (props : list GAProperty) : PropertyResolver.t :=
  PropertyResolver.with_state (resolver threshold aliases)
    fresh_client (Some props).

End Sample.

Module Trace.

(** A directory that is legitimately empty: the first [resolve], at
    time 0, fetches and caches the empty list; the resolver is then
    reset by [clear_cache]. *)
Definition first_call : PropertyResolver.t :=
  (PropertyResolver.resolve Difflib.ratio 0 (Ok []) "acme"
     (Sample.resolver None None)).2.

Definition cleared : PropertyResolver.t :=
  PropertyResolver.clear_cache first_call.

Definition cached_empty : GAClient.CacheEntry (list GAProperty) :=
  {| GAClient.data := []; GAClient.expires_at := (0 + inject_Z 3600)%Q |}.

End Trace.

(** ** Vocabulary of the statements about the fuzzy stage *)

Section FuzzyVocabulary.

Variable ratio : string -> string -> Q.

(** [len(query_clean) / max(len(prop.name), len(display_clean))], the
    quotient of line 146, as a number. *)
Definition partial_quotient (query_clean : string) (prop : GAProperty) : Q :=
  (inject_Z (Z.of_nat (PyStr.len query_clean))
   / inject_Z (Z.of_nat (Nat.max (PyStr.len (name prop))
                                 (PyStr.len (display_clean_of prop)))))%Q.

(** [query_clean in prop.name or query_clean in display_clean] *)
Definition contained (query_clean : string) (prop : GAProperty) : bool :=
  PyStr.contains query_clean (name prop)
  || PyStr.contains query_clean (display_clean_of prop).

(** The three gates of the fuzzy loop, and the tag and score a record
    passing one of them is entered with. *)
Inductive candidate (fuzzy_threshold : Q) (query_clean : string)
    (prop : GAProperty) : Q -> string -> Prop :=
| by_name :
    (fuzzy_threshold < ratio query_clean (name prop))%Q ->
    candidate fuzzy_threshold query_clean prop
      (ratio query_clean (name prop)) "fuzzy_name"
| by_display :
    (fuzzy_threshold < ratio query_clean (display_clean_of prop))%Q ->
    candidate fuzzy_threshold query_clean prop
      (ratio query_clean (display_clean_of prop)) "fuzzy_display"
| by_containment :
    contained query_clean prop = true ->
    (0.3 < partial_quotient query_clean prop)%Q ->
    candidate fuzzy_threshold query_clean prop
      (0.7 + partial_quotient query_clean prop * 0.3)%Q "partial".

(** Some gate lets the record through. *)
Definition passes (fuzzy_threshold : Q) (query_clean : string)
    (prop : GAProperty) : bool :=
  Qltb fuzzy_threshold (ratio query_clean (name prop))
  || Qltb fuzzy_threshold (ratio query_clean (display_clean_of prop))
  || (contained query_clean prop
      && Qltb 0.3 (partial_quotient query_clean prop)).

(** The conditional replacement of [best_match] each gate performs. *)
Definition offer (gate : bool) (prop : GAProperty) (score : Q) (tag : string)
    (best : best_match) : best_match :=
  if gate && improves score best then Some (prop, score, tag) else best.

End FuzzyVocabulary.

(** A matching block lies within sequences of lengths [na] and [nb]. *)
Definition fits (na nb : nat) (m : Difflib.block) : Prop :=
  (m.1.1 + m.2 <= na)%nat /\ (m.1.2 + m.2 <= nb)%nat.

(** Stages 1 to 3 of [resolve] all miss. *)
Definition exact_stages_miss (query : string) (props : list GAProperty) : Prop :=
  forall prop, In prop props ->
    id prop <> query
    /\ name prop <> PyStr.alnum_only (PyStr.strip (PyStr.lower query))
    /\ PyStr.lower (display_name prop) <> PyStr.strip (PyStr.lower query).

(** A record carries an owner key: as its name, character for
    character, or as its display name up to case. *)
Definition owns (key : string) (prop : GAProperty) : Prop :=
  name prop = key \/ PyStr.lower (display_name prop) = PyStr.lower key.

(** An alias-table entry is satisfied: the lower-cased, stripped query
    is one of its lower-cased aliases, and some record carries its
    owner key. *)
Definition entry_satisfied (query : string) (props : list GAProperty)
    (entry : string * list string) : Prop :=
  In (PyStr.strip (PyStr.lower query)) (List.map PyStr.lower entry.2)
  /\ exists prop, In prop props /\ owns entry.1 prop.

(** ** Sequences of calls on one resolver *)

Module Session.

(** A call of one of the four asynchronous methods of the resolver. *)
Inductive call : Type :=
| Resolve (query : string)
| Search (query : string) (max_results : Z)
| ListAll
| GetPropertyId (query : string).

(** A call together with the clock reading it sees and the answer the
    remote directory would give it. *)
Record event : Type := {
  at_time : Q;
  directory : result (list GAProperty);
  what : call
}.

Section Run.

Variable ratio : string -> string -> Q.

(** The resolver after the call. *)
Definition perform (r : PropertyResolver.t) (ev : event) : PropertyResolver.t :=
  match what ev with
  | Resolve query =>
      (PropertyResolver.resolve ratio (at_time ev) (directory ev) query r).2
  | Search query max_results =>
      (PropertyResolver.search ratio (at_time ev) (directory ev)
         query max_results r).2
  | ListAll =>
      (PropertyResolver.list_all (at_time ev) (directory ev) r).2
  | GetPropertyId query =>
      (PropertyResolver.get_property_id ratio (at_time ev) (directory ev)
         query r).2
  end.

Definition run (r : PropertyResolver.t) (events : list event)
    : PropertyResolver.t :=
  List.fold_left perform events r.

End Run.

End Session.

(** The score a [best_match] holds. *)
Definition score_of (best : best_match) : option Q :=
  match best with
  | Some (_, score, _) => Some score
  | None => None
  end.

(** ** The match engine over floats

    [resolve] and [search] once more, with every score the float the
    interpreter computes and every comparison the interpreter's own.
    The exact rationals of the engine above agree with the code on each
    gate, but not on the order of two scores that differ in the last
    binary digit ([0.7 + (2 / 6) * 0.3] is below [2.0 * 2 / 5] as
    floats, and equal to it as rationals); the statements about that
    order are made over this engine.  The arithmetic is a parameter:
    the floats, [x < y], the float of a decimal literal, [a / b] on
    two ints, [x + y] and [x * y]. *)

Module FloatEngine.

Record arithmetic : Type := {
  float : Type;
  (** [x < y] *)
  flt : float -> float -> bool;
  (** the float a decimal literal, or [float(text)], denotes *)
  round : Q -> float;
  (** [a / b] on two ints, [b] not zero *)
  truediv : nat -> nat -> float;
  fadd : float -> float -> float;
  fmul : float -> float -> float
}.

Definition f0_3 (A : arithmetic) : float A := round A 0.3.
Definition f0_7 (A : arithmetic) : float A := round A 0.7.
Definition f1_0 (A : arithmetic) : float A := round A 1.

Section Engine.

Variable A : arithmetic.

(** [SequenceMatcher(None, a, b).ratio()] *)
Variable ratio : string -> string -> float A.

Record PropertyMatch : Type := {
  property : GAProperty;
  confidence : float A;
  matched_on : string
}.

(** [max(x, y)]: the first argument unless the second is greater. *)
Definition py_max (x y : float A) : float A := if flt A x y then y else x.

(** [a / b] on [int]s *)
Definition py_truediv (a b : nat) : result (float A) :=
  if (b =? 0)%nat then Raise ZeroDivisionError else Ok (truediv A a b).

Definition best_match : Type := option (GAProperty * float A * string).

(** [best_match is None or score > best_match[1]] *)
Definition improves (score : float A) (best : best_match) : bool :=
  match best with
  | None => true
  | Some (_, s, _) => flt A s score
  end.

(** The containment test and score of [resolve] (lines 145-148). *)
Definition partial_candidate (query_clean : string) (prop : GAProperty)
    : result (option (float A)) :=
  let display_clean := display_clean_of prop in
  if PyStr.contains query_clean (name prop)
     || PyStr.contains query_clean display_clean
  then
    partial_score ←
      py_truediv (PyStr.len query_clean)
                 (Nat.max (PyStr.len (name prop)) (PyStr.len display_clean));
    if flt A (f0_3 A) partial_score
    then Ok (Some (fadd A (f0_7 A) (fmul A partial_score (f0_3 A))))
    else Ok None
  else Ok None.

(** One iteration of the fuzzy loop of [resolve] (lines 128-150). *)
Definition fuzzy_step (fuzzy_threshold : float A) (query_clean : string)
    (best : best_match) (prop : GAProperty) : result best_match :=
  let name_score := ratio query_clean (name prop) in
  let best :=
    if flt A fuzzy_threshold name_score && improves name_score best
    then Some (prop, name_score, "fuzzy_name") else best in
  let display_score := ratio query_clean (display_clean_of prop) in
  let best :=
    if flt A fuzzy_threshold display_score && improves display_score best
    then Some (prop, display_score, "fuzzy_display") else best in
  partial ← partial_candidate query_clean prop;
  match partial with
  | Some effective_score =>
      if improves effective_score best
      then Ok (Some (prop, effective_score, "partial"))
      else Ok best
  | None => Ok best
  end.

Fixpoint fuzzy_loop (fuzzy_threshold : float A) (query_clean : string)
    (best : best_match) (props : list GAProperty) : result best_match :=
  match props with
  | [] => Ok best
  | prop :: rest =>
      best' ← fuzzy_step fuzzy_threshold query_clean best prop;
      fuzzy_loop fuzzy_threshold query_clean best' rest
  end.

Definition found (prop : GAProperty) (tag : string) : PropertyMatch :=
  {| property := prop; confidence := f1_0 A; matched_on := tag |}.

(** [resolve], from line 88 on, over the loaded list. *)
Definition resolve_body (fuzzy_threshold : float A)
    (custom_aliases : alias_table) (query : string) (props : list GAProperty)
    : result (option PropertyMatch) :=
  match props with
  | [] => Ok None
  | _ :: _ =>
    let query_lower := PyStr.strip (PyStr.lower query) in
    let query_clean := PyStr.alnum_only query_lower in
    match List.find (fun prop => String.eqb (id prop) query) props with
    | Some prop => Ok (Some (found prop "exact_id"))
    | None =>
    match List.find (fun prop => String.eqb (name prop) query_clean) props with
    | Some prop => Ok (Some (found prop "exact_name"))
    | None =>
    match List.find (fun prop =>
            String.eqb (PyStr.lower (display_name prop)) query_lower) props with
    | Some prop => Ok (Some (found prop "display_name"))
    | None =>
    match alias_stage query_lower props custom_aliases with
    | Some prop => Ok (Some (found prop "alias"))
    | None =>
      best ← fuzzy_loop fuzzy_threshold query_clean None props;
      match best with
      | Some (prop, score, tag) =>
          Ok (Some {| property := prop; confidence := score;
                      matched_on := tag |})
      | None => Ok None
      end
    end end end end
  end.

(** One iteration of the loop of [search] (lines 184-213): the entry
    appended for [prop], if any. *)
Definition search_entry (query query_clean : string) (prop : GAProperty)
    : result (option PropertyMatch) :=
  if String.eqb (id prop) query || String.eqb (name prop) query_clean
  then Ok (Some (found prop "exact"))
  else
    let name_score := ratio query_clean (name prop) in
    let display_clean := display_clean_of prop in
    let display_score := ratio query_clean display_clean in
    let best_score := py_max name_score display_score in
    best_score ←
      (if PyStr.contains query_clean (name prop)
          || PyStr.contains query_clean display_clean
       then
         q ← py_truediv (PyStr.len query_clean)
               (Nat.max (Nat.max (PyStr.len (name prop))
                                 (PyStr.len display_clean)) 1);
         Ok (py_max best_score (fadd A (f0_7 A) (fmul A q (f0_3 A))))
       else Ok best_score);
    if flt A (f0_3 A) best_score then
      Ok (Some {| property := prop; confidence := best_score;
                  matched_on := if flt A best_score (f1_0 A) then "fuzzy"
                                else "exact" |})
    else Ok None.

Fixpoint search_loop (query query_clean : string)
    (props : list GAProperty) : result (list PropertyMatch) :=
  match props with
  | [] => Ok []
  | prop :: rest =>
      entry ← search_entry query query_clean prop;
      more ← search_loop query query_clean rest;
      Ok (match entry with Some m => m :: more | None => more end)
  end.

(** [matches.sort(key=lambda m: m.confidence, reverse=True)]: the
    list sort compares keys with [<] only and is stable, also under
    [reverse=True]. *)
Fixpoint insert_desc (m : PropertyMatch) (sorted : list PropertyMatch)
    : list PropertyMatch :=
  match sorted with
  | [] => [m]
  | m' :: rest =>
      if flt A (confidence m) (confidence m')
      then m' :: insert_desc m rest
      else m :: sorted
  end.

Definition sort_desc (ms : list PropertyMatch) : list PropertyMatch :=
  List.fold_right insert_desc [] ms.

(** [search], from line 176 on, over the loaded list. *)
Definition search_body (query : string) (max_results : Z)
    (props : list GAProperty) : result (list PropertyMatch) :=
  match props with
  | [] => Ok []
  | _ :: _ =>
    let query_lower := PyStr.strip (PyStr.lower query) in
    let query_clean := PyStr.alnum_only query_lower in
    matches ← search_loop query query_clean props;
    Ok (py_slice_to max_results (sort_desc matches))
  end.

(** [resolve] and [search] with the loading in front, as in
    [PropertyResolver]; [self.fuzzy_threshold] is the float of the
    configured number. *)
Definition fuzzy_threshold (r : PropertyResolver.t) : float A :=
  round A (PropertyResolver.fuzzy_threshold r).

Definition resolve (now : Q)
    (remote : result (list GAProperty)) (query : string)
    (r : PropertyResolver.t)
    : result (option PropertyMatch) * PropertyResolver.t :=
  let '(loaded, r) := PropertyResolver._ensure_properties_loaded now remote r in
  match loaded with
  | Raise e => (Raise e, r)
  | Ok _ =>
      match PropertyResolver._properties r with
      | None => (Ok None, r)
      | Some props =>
          (resolve_body (fuzzy_threshold r)
             (PropertyResolver.custom_aliases r) query props, r)
      end
  end.

Definition search (now : Q) (remote : result (list GAProperty))
    (query : string) (max_results : Z) (r : PropertyResolver.t)
    : result (list PropertyMatch) * PropertyResolver.t :=
  let '(loaded, r) := PropertyResolver._ensure_properties_loaded now remote r in
  match loaded with
  | Raise e => (Raise e, r)
  | Ok _ =>
      match PropertyResolver._properties r with
      | None => (Ok [], r)
      | Some props => (search_body query max_results props, r)
      end
  end.

End Engine.

Arguments property {A} _.
Arguments confidence {A} _.
Arguments matched_on {A} _.

(** Exact arithmetic: scores as the rational numbers their formulas
    denote.  At this instance the engine is the one of the rational
    scores above. *)
Definition exact : arithmetic :=
  {| float := Q;
     flt := Qltb;
     round := fun q => q;
     truediv := fun a b => (inject_Z (Z.of_nat a) / inject_Z (Z.of_nat b))%Q;
     fadd := Qplus;
     fmul := Qmult |}.

(** Binary64, the floats of CPython, by the kernel's own.  An int
    below 2^53 is a float exactly, and the quotient of two floats is
    the float nearest the quotient of the numbers: [a / b] on such
    ints is as in Python, and so is the float of a decimal literal
    whose numerator and denominator are such ints (0.3, 0.7, 1.0 and
    the default threshold 0.6 among them). *)
Definition of_Z (z : Z) : PrimFloat.float :=
  match z with
  | Z0 => PrimFloat.zero
  | Zpos _ => PrimFloat.of_uint63 (Uint63.of_Z z)
  | Zneg p => PrimFloat.opp (PrimFloat.of_uint63 (Uint63.of_Z (Zpos p)))
  end.

Definition of_int (n : nat) : PrimFloat.float := of_Z (Z.of_nat n).

Definition binary64 : arithmetic :=
  {| float := PrimFloat.float;
     flt := PrimFloat.ltb;
     round := fun q => PrimFloat.div (of_Z (Qnum q)) (of_Z (Zpos (Qden q)));
     truediv := fun a b => PrimFloat.div (of_int a) (of_int b);
     fadd := PrimFloat.add;
     fmul := PrimFloat.mul |}.

(** [_calculate_ratio(matches, length)] of difflib:
    [2.0 * matches / length], and 1.0 for two empty texts. *)
Definition ratio64 (a b : string) : PrimFloat.float :=
  let la := list_ascii_of_string a in
  let lb := list_ascii_of_string b in
  let total := (List.length la + List.length lb)%nat in
  if (total =? 0)%nat then PrimFloat.one
  else PrimFloat.div
         (PrimFloat.mul PrimFloat.two (of_int (Difflib.matches la lb)))
         (of_int total).

(** The place of a float among the numbers: its sign class, then its
    exponent and its mantissa, both counted downwards for a negative
    float. *)
Definition rank (f : spec_float) : Z * Z * Z :=
  match f with
  | S754_nan => (0, 0, 0)%Z
  | S754_zero _ => (0, 0, 0)%Z
  | S754_infinity true => (-2, 0, 0)%Z
  | S754_infinity false => (2, 0, 0)%Z
  | S754_finite true m e => (-1, - e, - Z.pos m)%Z
  | S754_finite false m e => (1, e, Z.pos m)%Z
  end.

Definition below (a b : Z * Z * Z) : Prop :=
  (a.1.1 < b.1.1
   \/ (a.1.1 = b.1.1
       /\ (a.1.2 < b.1.2 \/ (a.1.2 = b.1.2 /\ a.2 < b.2))))%Z.

End FloatEngine.

(** A match of the engine at exact arithmetic, as a match of the
    engine of rational scores. *)
Definition rational (m : FloatEngine.PropertyMatch FloatEngine.exact)
    : PropertyMatch :=
  {| property := FloatEngine.property m;
     confidence := FloatEngine.confidence m;
     matched_on := FloatEngine.matched_on m |}.

(** ** The specification's wording of [search], over floats *)

Module FloatSpec.

Section Search.

Variable A : FloatEngine.arithmetic.
Variable ratio : string -> string -> FloatEngine.float A.

(** Neither is less than the other: the two floats are equal as
    numbers. *)
Definition equal (x y : FloatEngine.float A) : bool :=
  negb (FloatEngine.flt A x y) && negb (FloatEngine.flt A y x).

(** bestScore = max(nameSimilarity, displaySimilarity), raised to
    the containment score when the containment condition holds. *)
Definition best_score (query : string) (prop : GAProperty)
    : FloatEngine.float A :=
  let q := Spec.canonical query in
  let d := Spec.canonical (display_name prop) in
  let similarity := FloatEngine.py_max A (ratio q (name prop)) (ratio q d) in
  if PyStr.contains q (name prop) || PyStr.contains q d
  then FloatEngine.py_max A similarity
         (FloatEngine.fadd A (FloatEngine.f0_7 A)
            (FloatEngine.fmul A
               (FloatEngine.truediv A (PyStr.len q)
                  (Nat.max (Nat.max (PyStr.len (name prop)) (PyStr.len d)) 1))
               (FloatEngine.f0_3 A)))
  else similarity.

(** A record whose raw id or canonical name equals the raw or
    canonical query is forced to 1.0, stage exact; any other record
    is included when bestScore > 0.3, stage exact if the score
    equals 1.0 and fuzzy otherwise. *)
Definition entry (query : string) (prop : GAProperty)
    : option (FloatEngine.PropertyMatch A) :=
  if String.eqb (id prop) query
     || String.eqb (name prop) (Spec.canonical query)
  then Some {| FloatEngine.property := prop;
               FloatEngine.confidence := FloatEngine.f1_0 A;
               FloatEngine.matched_on := "exact" |}
  else
    let s := best_score query prop in
    if FloatEngine.flt A (FloatEngine.f0_3 A) s
    then Some {| FloatEngine.property := prop;
                 FloatEngine.confidence := s;
                 FloatEngine.matched_on :=
                   if equal s (FloatEngine.f1_0 A) then "exact" else "fuzzy" |}
    else None.

(** The included records, in snapshot order. *)
Definition included (query : string) (props : list GAProperty)
    : list (FloatEngine.PropertyMatch A) :=
  omap (entry query) props.

(** Descending confidence: no entry is less than a later one. *)
Definition descending (ms : list (FloatEngine.PropertyMatch A)) : Prop :=
  StronglySorted
    (fun m m' =>
       FloatEngine.flt A (FloatEngine.confidence m) (FloatEngine.confidence m')
       = false) ms.


(** [<] orders the floats of [S] as numbers are ordered: it is
    irreflexive and transitive, and of two floats one of which is less
    than the other, any third is above the lesser or below the greater.
    This is so of any floats none of which is a NaN. *)
Definition orders (S : FloatEngine.float A -> Prop) : Prop :=
  (forall x, S x -> FloatEngine.flt A x x = false)
  /\ (forall x y z, S x -> S y -> S z ->
        FloatEngine.flt A x y = true -> FloatEngine.flt A y z = true ->
        FloatEngine.flt A x z = true)
  /\ (forall x y z, S x -> S y -> S z ->
        FloatEngine.flt A x y = true ->
        FloatEngine.flt A x z = true \/ FloatEngine.flt A z y = true).

(** The candidates a record enters the fuzzy stage of [resolve] with:
    the score and tag of each of the three gates it passes. *)
Definition candidates (fuzzy_threshold : FloatEngine.float A)
    (query_clean : string) (prop : GAProperty)
    : list (FloatEngine.float A * string) :=
  let name_score := ratio query_clean (name prop) in
  let display_score := ratio query_clean (display_clean_of prop) in
  let quotient :=
    FloatEngine.truediv A (PyStr.len query_clean)
      (Nat.max (PyStr.len (name prop)) (PyStr.len (display_clean_of prop))) in
  (if FloatEngine.flt A fuzzy_threshold name_score
   then [(name_score, "fuzzy_name")] else [])
  ++ (if FloatEngine.flt A fuzzy_threshold display_score
      then [(display_score, "fuzzy_display")] else [])
  ++ (if contained query_clean prop
         && FloatEngine.flt A (FloatEngine.f0_3 A) quotient
      then [(FloatEngine.fadd A (FloatEngine.f0_7 A)
               (FloatEngine.fmul A quotient (FloatEngine.f0_3 A)), "partial")]
      else []).

(** The candidate scores of the records of a list. *)
Definition candidate_scores (fuzzy_threshold : FloatEngine.float A)
    (query_clean : string) (props : list GAProperty)
    : list (FloatEngine.float A) :=
  List.concat
    (List.map
       (fun prop =>
          List.map fst (candidates fuzzy_threshold query_clean prop))
       props).

(** The conditional replacement of [best_match] each gate performs. *)
Definition offer (gate : bool) (prop : GAProperty)
    (score : FloatEngine.float A) (tag : string)
    (best : FloatEngine.best_match A) : FloatEngine.best_match A :=
  if gate && FloatEngine.improves A score best
  then Some (prop, score, tag) else best.

Definition score_of (best : FloatEngine.best_match A)
    : option (FloatEngine.float A) :=
  match best with
  | Some (_, score, _) => Some score
  | None => None
  end.

(** The score of a [best_match], if any, is among the floats [S]. *)
Definition scored (S : FloatEngine.float A -> Prop)
    (best : FloatEngine.best_match A) : Prop :=
  forall s0, score_of best = Some s0 -> S s0.

End Search.

End FloatSpec.

(** Two display names whose scores for the query "go" differ in the
    last binary digit. *)
Module SampleFloats.

Definition go_home : GAProperty := build_property "601" "Go Home" "1001" None.
Definition geo : GAProperty := build_property "602" "Geo" "1001" None.
Definition sites : list GAProperty := [go_home; geo].

End SampleFloats.

(** ** The directory listing behind [discover_properties]

    Lines 159-203 of ga_client.py: the client is initialised, the
    accounts are listed, the properties of each account are listed, and
    a record is built for each.  In [records] and [fetch] a call of
    the Admin API either answers or fails ([None]), and a failure is
    taken for one the handler of line 202 converts; [discover] below
    tells the exceptions apart. *)

Module Directory.

(** An account of the listing: its "name" key, if present. *)
Record account : Type := {
  account_name : option string
}.

(** A property of the listing: its "name", "displayName" and
    "websiteUrl" keys, if present. *)
Record entry : Type := {
  entry_name : option string;
  entry_displayName : option string;
  entry_websiteUrl : option string
}.

(** The remote side: whether [_initialize] succeeds, the accounts
    listed, and the properties listed under an account name. *)
Record api : Type := {
  initialize : bool;
  accounts : option (list account);
  properties_of : string -> option (list entry)
}.

Fixpoint has_slash (s : string) : bool :=
  match s with
  | EmptyString => false
  | String c s' => Ascii.eqb c "/" || has_slash s'
  end.

(** [s.split("/")[-1]] *)
Fixpoint last_segment (s : string) : string :=
  match s with
  | EmptyString => EmptyString
  | String c s' =>
      if has_slash s' then last_segment s'
      else if Ascii.eqb c "/" then s' else s
  end.

(** [x.split("/")[-1] if x else ""] *)
Definition resource_id (x : string) : string :=
  match x with
  | EmptyString => EmptyString
  | _ => last_segment x
  end.

(** [d.get(key, "")] *)
Definition get_or_empty (x : option string) : string :=
  match x with
  | Some s => s
  | None => EmptyString
  end.

(** The record appended for one listed property (lines 178-196). *)
Definition record_of (account_id : string) (prop : entry) : GAProperty :=
  let prop_name := get_or_empty (entry_name prop) in
  let display_name := get_or_empty (entry_displayName prop) in
  {| id := resource_id prop_name;
     name := PyStr.take 30 (PyStr.alnum_only (PyStr.lower display_name));
     display_name := display_name;
     account_id := account_id;
     website_url := entry_websiteUrl prop |}.

(** The loop over the accounts (lines 167-196). *)
Fixpoint records (properties_of : string -> option (list entry))
    (accounts : list account) : result (list GAProperty) :=
  match accounts with
  | [] => Ok []
  | account :: rest =>
      let account_name := get_or_empty (account_name account) in
      let account_id := resource_id account_name in
      match properties_of account_name with
      | None => Raise GAClientError
      | Some props =>
          more ← records properties_of rest;
          Ok (List.map (record_of account_id) props ++ more)
      end
  end.

(** What the fetch of [discover_properties] produces. *)
Definition fetch (remote : api) : result (list GAProperty) :=
  if initialize remote then
    match accounts remote with
    | None => Raise GAClientError
    | Some listed => records (properties_of remote) listed
    end
  else Raise GAClientError.

(** ** The exceptions of the listing

    The calls of lines 165 and 172-176 go through the discovery client
    of googleapiclient, and the handler of line 202 catches
    [GoogleAPIError] of google.api_core only: an exception a call
    raises is converted to [GAClientError] when it is a
    [GoogleAPIError], and leaves [discover_properties] as it is
    otherwise.  The exceptions are a parameter, with the test
    [isinstance(e, GoogleAPIError)]. *)

Section Calls.

Variable error : Type.
Variable is_google_api_error : error -> bool.

(** What a call does: it answers, or raises. *)
Inductive call (A : Type) : Type :=
| Answers (a : A)
| Fails (e : error).

Arguments Answers {A} a.
Arguments Fails {A} e.

(** The remote side: whether [_initialize] succeeds (it raises
    [GAClientError] for every exception otherwise), what listing the
    accounts does, and what listing the properties under an account
    name does. *)
Record service : Type := {
  service_initialize : bool;
  list_accounts : call (list account);
  list_properties : string -> call (list entry)
}.

(** How the fetch ends. *)
Inductive ending : Type :=
| Returned (properties : list GAProperty)
| RaisedGAClientError
| Escaped (e : error).

(** The loop over the accounts (lines 167-196), up to the first call
    that raises. *)
Fixpoint listing (list_properties : string -> call (list entry))
    (accounts : list account) : call (list GAProperty) :=
  match accounts with
  | [] => Answers []
  | account :: rest =>
      let account_name := get_or_empty (account_name account) in
      let account_id := resource_id account_name in
      match list_properties account_name with
      | Fails e => Fails e
      | Answers props =>
          match listing list_properties rest with
          | Fails e => Fails e
          | Answers more =>
              Answers (List.map (record_of account_id) props ++ more)
          end
      end
  end.

(** [except GoogleAPIError as e: raise GAClientError(...)] *)
Definition handler (e : error) : ending :=
  if is_google_api_error e then RaisedGAClientError else Escaped e.

(** Lines 159-203, without the cache. *)
Definition discover (remote : service) : ending :=
  if service_initialize remote then
    match list_accounts remote with
    | Fails e => handler e
    | Answers listed =>
        match listing (list_properties remote) listed with
        | Fails e => handler e
        | Answers properties => Returned properties
        end
    end
  else RaisedGAClientError.

(** The same remote side with the exceptions forgotten. *)
Definition answered {A : Type} (c : call A) : option A :=
  match c with
  | Answers a => Some a
  | Fails _ => None
  end.

Definition forget (remote : service) : api :=
  {| initialize := service_initialize remote;
     accounts := answered (list_accounts remote);
     properties_of := fun name => answered (list_properties remote name) |}.

End Calls.

Arguments Answers {error A} a.
Arguments Fails {error A} e.
Arguments Returned {error} properties.
Arguments RaisedGAClientError {error}.
Arguments Escaped {error} e.
Arguments service_initialize {error} _.
Arguments list_accounts {error} _.
Arguments list_properties {error} _ _.

End Directory.

Module SampleDirectory.

(** One account holding the two Acme properties. *)
Definition acme_api : Directory.api :=
  {| Directory.initialize := true;
     Directory.accounts :=
       Some [ {| Directory.account_name := Some "accounts/1001" |} ];
     Directory.properties_of := fun _ =>
       Some [ {| Directory.entry_name := Some "properties/111";
                 Directory.entry_displayName := Some "Acme Blog";
                 Directory.entry_websiteUrl := None |};
              {| Directory.entry_name := Some "properties/222";
                 Directory.entry_displayName := Some "Acme Shop";
                 Directory.entry_websiteUrl := None |} ] |}.

(** Two exceptions: [HttpError] of googleapiclient, which is not a
    [GoogleAPIError], and [PermissionDenied] of google.api_core, which
    is one. *)
Inductive error : Type :=
| HttpError
| PermissionDenied.

Definition is_google_api_error (e : error) : bool :=
  match e with
  | HttpError => false
  | PermissionDenied => true
  end.

(** Two accounts; listing the properties of the second raises [e]. *)
Definition second_fails (e : error) : Directory.service error :=
  {| Directory.service_initialize := true;
     Directory.list_accounts :=
       Directory.Answers
         [ {| Directory.account_name := Some "accounts/1001" |};
           {| Directory.account_name := Some "accounts/1002" |} ];
     Directory.list_properties := fun name =>
       if String.eqb name "accounts/1001" then
         Directory.Answers
           [ {| Directory.entry_name := Some "properties/111";
                Directory.entry_displayName := Some "Acme Blog";
                Directory.entry_websiteUrl := None |} ]
       else Directory.Fails e |}.

End SampleDirectory.

(** A text in canonical form: letters and digits only, none upper
    case. *)
Fixpoint canonical_text (s : string) : bool :=
  match s with
  | EmptyString => true
  | String c s' =>
      PyStr.isalnum c && Ascii.eqb (PyStr.to_lower c) c && canonical_text s'
  end.

(** ** Loading the configuration (config.py, [Config.from_env]) *)

Module Env.

(** What [from_env] returns: the settings the resolver and the client
    read, and the two others. *)
Record settings : Type := {
  base : Config.t;
  default_limit : Z;
  mask_error_details : bool
}.

Section FromEnv.

(** [os.getenv]. *)
Variable getenv : string -> option string.
(** [Path(p).exists()]. *)
Variable path_exists : string -> bool.
(** [int(s)] and [float(s)]; [None] when they raise [ValueError].  A
    text [float] reads as not-a-number or as an infinity fails the
    range test of line 116 and is [None] here. *)
Variable py_int : string -> option Z.
Variable py_float : string -> option Q.
(** [json.loads(s)] followed by the [dict] test of line 129; [None]
    when either raises. *)
Variable json_object : string -> option alias_table.

(** The value of a variable when it is set and not empty: the truth
    test of [x or y] and of [if v := os.getenv(...)]. *)
Definition set_and_non_empty (variable : string) : option string :=
  match getenv variable with
  | Some (String c s) => Some (String c s)
  | _ => None
  end.

Definition or_else (x y : option string) : option string :=
  match x with
  | Some v => Some v
  | None => y
  end.

(** An optional integer setting (lines 94-99, 102-109). *)
Definition int_setting (variable : string) (default : Z) : result Z :=
  match set_and_non_empty variable with
  | None => Ok default
  | Some text =>
      match py_int text with
      | Some n => Ok n
      | None => Raise ConfigError
      end
  end.

Definition from_env : result settings :=
  match or_else (set_and_non_empty "GOOGLE_APPLICATION_CREDENTIALS")
          (or_else (set_and_non_empty "GA_CREDENTIALS_PATH")
                   (set_and_non_empty "GA_SERVICE_ACCOUNT_PATH")) with
  | None => Raise ConfigError
  | Some credentials_path =>
    if negb (path_exists credentials_path) then Raise ConfigError else
    cache_ttl ← int_setting "GA_CACHE_TTL" 300;
    property_cache_ttl ← int_setting "GA_PROPERTY_CACHE_TTL" 3600;
    fuzzy_threshold ←
      match set_and_non_empty "GA_FUZZY_THRESHOLD" with
      | None => Ok 0.6%Q
      | Some text =>
          match py_float text with
          | Some x =>
              if Qle_bool 0 x && Qle_bool x 1 then Ok x
              else Raise ConfigError
          | None => Raise ConfigError
          end
      end;
    custom_aliases ←
      match set_and_non_empty "GA_PROPERTY_ALIASES" with
      | None => Ok []
      | Some text =>
          match json_object text with
          | Some table => Ok table
          | None => Raise ConfigError
          end
      end;
    default_limit ←
      match set_and_non_empty "GA_DEFAULT_LIMIT" with
      | None => Ok 1000%Z
      | Some text =>
          match py_int text with
          | Some n => if (n <? 1)%Z then Raise ConfigError else Ok n
          | None => Raise ConfigError
          end
      end;
    let mask :=
      let text := PyStr.lower
                    (match getenv "GA_MASK_ERRORS" with
                     | Some v => v
                     | None => EmptyString
                     end) in
      String.eqb text "true" || String.eqb text "1" || String.eqb text "yes" in
    Ok {| base :=
            {| Config.credentials_path := credentials_path;
               Config.cache_ttl := cache_ttl;
               Config.property_cache_ttl := property_cache_ttl;
               Config.fuzzy_threshold := fuzzy_threshold;
               Config.custom_aliases := custom_aliases |};
          default_limit := default_limit;
          mask_error_details := mask |}
  end.

End FromEnv.

End Env.

(** ** The tools of the server that work on the resolver (server.py) *)

Module Server.

(** How a tool call ends: with its result, or with a [ToolError] made
    from a [ConfigError] or a [GAClientError]; any other exception
    leaves the tool as it is. *)
Inductive outcome (A : Type) : Type :=
| Returned (a : A)
| ToolError (cause : exn)
| Unhandled (e : exn).

Arguments Returned {A} a.
Arguments ToolError {A} cause.
Arguments Unhandled {A} e.

(** The two [except] clauses every tool ends with. *)
Definition as_tool_outcome {A : Type} (x : result A) : outcome A :=
  match x with
  | Ok a => Returned a
  | Raise ConfigError => ToolError ConfigError
  | Raise GAClientError => ToolError GAClientError
  | Raise e => Unhandled e
  end.

(** The result of [search_properties], the matches before [to_dict]. *)
Record search_response : Type := {
  response_query : string;
  response_matches : list PropertyMatch;
  response_count : nat;
  response_best_match : option PropertyMatch
}.

(** The result of [list_properties], the records before [to_dict]. *)
Record list_response : Type := {
  listed_properties : list GAProperty;
  listed_count : nat
}.

Section Tools.

Variable ratio : string -> string -> Q.

(** [list_properties] (lines 53-75). *)
Definition list_properties (now : Q) (remote : result (list GAProperty))
    (r : PropertyResolver.t) : outcome list_response * PropertyResolver.t :=
  let '(res, r) := PropertyResolver.list_all now remote r in
  (as_tool_outcome
     (properties ← res;
      Ok {| listed_properties := properties;
            listed_count := List.length properties |}),
   r).

(** [search_properties] (lines 79-111). *)
Definition search_properties (now : Q) (remote : result (list GAProperty))
    (query : string) (r : PropertyResolver.t)
    : outcome search_response * PropertyResolver.t :=
  let '(res, r) := PropertyResolver.search ratio now remote query 5 r in
  (as_tool_outcome
     (matches ← res;
      Ok {| response_query := query;
            response_matches := matches;
            response_count := List.length matches;
            response_best_match := List.head matches |}),
   r).

End Tools.

(** [clear_cache] (lines 402-434): the number of entries cleared, and
    the resolver after; the resolver's client is the process-wide
    client the tool clears. *)
Definition clear_cache (pattern : option string) (r : PropertyResolver.t)
    : nat * PropertyResolver.t :=
  let '(cleared, c) := GAClient.clear_cache pattern (PropertyResolver.client r) in
  let r := PropertyResolver.with_state r c (PropertyResolver._properties r) in
  (cleared,
   match pattern with
   | None => PropertyResolver.clear_cache r
   | Some _ => r
   end).

(** [get_cache_status] (lines 384-398). *)
Definition get_cache_status (now : Q) (r : PropertyResolver.t)
    : nat * nat * nat :=
  GAClient.get_cache_stats now (PropertyResolver.client r).

End Server.

(** ** Report filters (ga_client.py, lines 433-495) *)

Module Report.

Definition to_upper (c : ascii) : ascii :=
  if PyStr.in_range 97 122 c then ascii_of_nat (nat_of_ascii c - 32) else c.

(** [s.upper()] *)
Fixpoint upper (s : string) : string :=
  match s with
  | EmptyString => EmptyString
  | String c s' => String (to_upper c) (upper s')
  end.

Inductive match_type : Type :=
| EXACT | CONTAINS | BEGINS_WITH | ENDS_WITH | FULL_REGEXP.

Inductive operation : Type :=
| GREATER_THAN | LESS_THAN | EQUAL.

Inductive OrderBy : Type :=
| ByMetric (metric_name : string) (desc : bool)
| ByDimension (dimension_name : string) (desc : bool).

Section Building.

(** The values a filter specification may carry and Python's floats,
    with [str(v)], [float(v)] ([None] when it raises) and the list test
    [isinstance(v, list)]. *)
Variable Value : Type.
Variable Float : Type.
Variable str_of : Value -> string.
Variable float_of : Value -> option Float.
Variable as_list : Value -> option (list Value).
(** The default [""] of [filter_spec.get("value", "")]. *)
Variable empty_text : Value.
(** The text of a value that is a [str]; [None] for a value of another
    type (null, a number, a boolean, a list, a dict), which has no
    [upper] method. *)
Variable as_str : Value -> option string.
(** The field name [Filter(field_name=v)] holds; [None] when the
    constructor raises. *)
Variable field_name_of : Value -> option string.

(** The one condition a [Filter] carries, if any. *)
Inductive condition : Type :=
| StringFilter (kind : match_type) (value : string)
| NumericFilter (op : operation) (double_value : Float)
| InListFilter (values : list string).

Record Filter : Type := {
  field_name : string;
  filter_condition : option condition
}.

Inductive FilterExpression : Type :=
| OfFilter (f : Filter)
| AndGroup (expressions : list FilterExpression).

(** A filter specification, a dict as the tool passes it on: the
    values under the keys "field", "operator" and "value", where
    present. *)
Record filter_spec : Type := {
  spec_field : option Value;
  spec_operator : option Value;
  spec_value : option Value
}.

Definition one_of (names : list string) (x : string) : bool :=
  existsb (String.eqb x) names.

(** [filter_spec.get("operator", "EXACT").upper()] (line 450); [None]
    is the AttributeError of a value without that method. *)
Definition operator_of (spec : filter_spec) : option string :=
  match spec_operator spec with
  | Some v =>
      match as_str v with
      | Some o => Some (upper o)
      | None => None
      end
  | None => Some (upper "EXACT")
  end.

(** The field name of [Filter(field_name=filter_spec.get("field", ""))]
    (lines 449 and 453). *)
Definition field_of (spec : filter_spec) : option string :=
  match spec_field spec with
  | Some v => field_name_of v
  | None => Some ""
  end.

(** Lines 455-482: the condition set on the filter, by operator. *)
Definition conditioned (field operator : string) (value : Value)
    : option Filter :=
  if one_of ["EXACT"; "CONTAINS"; "BEGINS_WITH"; "ENDS_WITH"; "REGEXP"] operator
  then
    let kind :=
      if String.eqb operator "EXACT" then EXACT
      else if String.eqb operator "CONTAINS" then CONTAINS
      else if String.eqb operator "BEGINS_WITH" then BEGINS_WITH
      else if String.eqb operator "ENDS_WITH" then ENDS_WITH
      else FULL_REGEXP in
    Some {| field_name := field;
            filter_condition := Some (StringFilter kind (str_of value)) |}
  else if one_of ["GREATER_THAN"; "LESS_THAN"; "EQUAL"] operator then
    let op :=
      if String.eqb operator "GREATER_THAN" then GREATER_THAN
      else if String.eqb operator "LESS_THAN" then LESS_THAN
      else EQUAL in
    match float_of value with
    | Some x =>
        Some {| field_name := field;
                filter_condition := Some (NumericFilter op x) |}
    | None => None
    end
  else if String.eqb operator "IN_LIST" then
    let values := match as_list value with Some l => l | None => [value] end in
    Some {| field_name := field;
            filter_condition := Some (InListFilter (List.map str_of values)) |}
  else Some {| field_name := field; filter_condition := None |}.

(** [_build_single_filter]; [None] when it raises: at [.upper()], in
    the [Filter] constructor or at [float(value)]. *)
Definition _build_single_filter (spec : filter_spec) : option Filter :=
  match operator_of spec with
  | None => None
  | Some operator =>
      let value :=
        match spec_value spec with Some v => v | None => empty_text end in
      match field_of spec with
      | None => None
      | Some field => conditioned field operator value
      end
  end.

Fixpoint build_all (filters : list filter_spec) : option (list FilterExpression) :=
  match filters with
  | [] => Some []
  | spec :: rest =>
      match _build_single_filter spec with
      | Some f =>
          match build_all rest with
          | Some more => Some (OfFilter f :: more)
          | None => None
          end
      | None => None
      end
  end.

(** [_build_filter_expression] *)
Definition _build_filter_expression (filters : list filter_spec)
    : option FilterExpression :=
  match filters with
  | [spec] =>
      match _build_single_filter spec with
      | Some f => Some (OfFilter f)
      | None => None
      end
  | _ =>
      match build_all filters with
      | Some expressions => Some (AndGroup expressions)
      | None => None
      end
  end.

End Building.

(** [_build_order_by]: the "field" and "desc" keys, where present. *)
Definition _build_order_by (field : option string) (desc : option bool)
    (metrics : list string) : OrderBy :=
  let field := match field with Some f => f | None => "" end in
  let desc := match desc with Some d => d | None => true end in
  if existsb (String.eqb field) metrics
  then ByMetric field desc
  else ByDimension field desc.

End Report.

(** ** Regular expressions ([re.match])

    The fragment of Python's regular expressions that the date parser
    and [strptime] use: character classes, greedy bounded repetition
    of a class, sequence, ordered alternation, capture groups and the
    end anchor.  Matching starts at the first character and
    backtracks as [re] does: a repetition first takes as many
    characters as it can and gives them back one by one, and an
    alternation tries its branches from left to right.  Groups are
    never nested here, so they are numbered in the order in which they
    close. *)

Module Re.

Inductive t : Type :=
| Empty
| Class (p : ascii -> bool)
| Repeat (p : ascii -> bool) (min : nat) (max : option nat)
| Seq (a b : t)
| Alt (a b : t)
| Group (a : t)
| Dollar.

(** A literal character. *)
Definition Char (c : ascii) : t := Class (Ascii.eqb c).

(** [\d{n}] *)
Definition Digits (n : nat) : t := Repeat PyStr.isdigit n (Some n).

Fixpoint seq (l : list t) : t :=
  match l with
  | [] => Empty
  | [r] => r
  | r :: l' => Seq r (seq l')
  end.

(** A literal text. *)
Fixpoint lit (s : string) : t :=
  match s with
  | EmptyString => Empty
  | String c EmptyString => Char c
  | String c s' => Seq (Char c) (lit s')
  end.

(** [$]: the end of the text, or the line feed that ends it. *)
Definition at_end (s : string) : bool :=
  match s with
  | EmptyString => true
  | String c EmptyString => Ascii.eqb c "010"
  | _ => false
  end.

Definition below (max : option nat) (count : nat) : bool :=
  match max with
  | Some m => (count <? m)%nat
  | None => true
  end.

(** What a match of [s] that left [rest] has consumed. *)
Definition consumed (s rest : string) : string :=
  PyStr.take (String.length s - String.length rest) s.

Section Matcher.

Context {R : Type}.

Fixpoint greedy (p : ascii -> bool) (min : nat) (max : option nat)
    (count : nat) (s : string) (k : string -> option R) : option R :=
  let stop := if (min <=? count)%nat then k s else None in
  match s with
  | String c s' =>
      if p c && below max count then
        match greedy p min max (S count) s' k with
        | Some r => Some r
        | None => stop
        end
      else stop
  | EmptyString => stop
  end.

Fixpoint run (r : t) (s : string) (groups : list string)
    (k : string -> list string -> option R) : option R :=
  match r with
  | Empty => k s groups
  | Class p =>
      match s with
      | String c s' => if p c then k s' groups else None
      | EmptyString => None
      end
  | Repeat p min max => greedy p min max 0 s (fun rest => k rest groups)
  | Seq a b => run a s groups (fun rest groups' => run b rest groups' k)
  | Alt a b =>
      match run a s groups k with
      | Some x => Some x
      | None => run b s groups k
      end
  | Group a =>
      run a s groups
        (fun rest groups' => k rest (groups' ++ [consumed s rest]))
  | Dollar => if at_end s then k s groups else None
  end.

End Matcher.

(** [re.match(r, s)]: the groups of the match, if there is one. *)
Definition re_match (r : t) (s : string) : option (list string) :=
  run r s [] (fun _ groups => Some groups).

(** The match together with the text it left unread. *)
Definition match_prefix (r : t) (s : string) : option (string * list string) :=
  run r s [] (fun rest groups => Some (rest, groups)).

End Re.

(** ** The calendar of [datetime]

    The proleptic Gregorian calendar as Python's [datetime] module
    computes it, with the names of its helper functions. *)

Module Calendar.

Local Open Scope Z_scope.

Record date : Type := {
  year : Z;
  month : Z;
  day : Z
}.

Definition _is_leap (y : Z) : bool :=
  (y mod 4 =? 0) && (negb (y mod 100 =? 0) || (y mod 400 =? 0)).

Definition _days_before_year (year : Z) : Z :=
  let y := year - 1 in
  y * 365 + y / 4 - y / 100 + y / 400.

Definition _DAYS_IN_MONTH (month : Z) : Z :=
  match month with
  | 1 => 31 | 2 => 28 | 3 => 31 | 4 => 30 | 5 => 31 | 6 => 30
  | 7 => 31 | 8 => 31 | 9 => 30 | 10 => 31 | 11 => 30 | 12 => 31
  | _ => -1
  end.

Definition _DAYS_BEFORE_MONTH (month : Z) : Z :=
  match month with
  | 1 => 0 | 2 => 31 | 3 => 59 | 4 => 90 | 5 => 120 | 6 => 151
  | 7 => 181 | 8 => 212 | 9 => 243 | 10 => 273 | 11 => 304 | 12 => 334
  | _ => -1
  end.

Definition _days_in_month (year month : Z) : Z :=
  if (month =? 2) && _is_leap year then 29 else _DAYS_IN_MONTH month.

Definition _days_before_month (year month : Z) : Z :=
  _DAYS_BEFORE_MONTH month + (if (2 <? month) && _is_leap year then 1 else 0).

Definition _ymd2ord (year month day : Z) : Z :=
  _days_before_year year + _days_before_month year month + day.

Definition _MAXORDINAL : Z := 3652059.

Definition _ord2ymd (n : Z) : Z * Z * Z :=
  let n := n - 1 in
  let n400 := n / 146097 in
  let n := n mod 146097 in
  let year := n400 * 400 + 1 in
  let n100 := n / 36524 in
  let n := n mod 36524 in
  let n4 := n / 1461 in
  let n := n mod 1461 in
  let n1 := n / 365 in
  let n := n mod 365 in
  let year := year + n100 * 100 + n4 * 4 + n1 in
  if (n1 =? 4) || (n100 =? 4) then (year - 1, 12, 31)
  else
    let leapyear := (n1 =? 3) && (negb (n4 =? 24) || (n100 =? 3)) in
    let month := Z.shiftr (n + 50) 5 in
    let preceding :=
      _DAYS_BEFORE_MONTH month + (if (2 <? month) && leapyear then 1 else 0) in
    if n <? preceding then
      let month := month - 1 in
      let preceding :=
        preceding
        - (_DAYS_IN_MONTH month + (if (month =? 2) && leapyear then 1 else 0)) in
      (year, month, n - preceding + 1)
    else (year, month, n - preceding + 1).

(** [_check_date_fields]: what the constructor accepts. *)
Definition valid (d : date) : bool :=
  (1 <=? year d) && (year d <=? 9999)
  && (1 <=? month d) && (month d <=? 12)
  && (1 <=? day d) && (day d <=? _days_in_month (year d) (month d)).

Definition toordinal (d : date) : Z := _ymd2ord (year d) (month d) (day d).

Definition fromordinal (n : Z) : date :=
  let '(y, m, d) := _ord2ymd n in {| year := y; month := m; day := d |}.

(** [d.weekday()]: Monday is 0. *)
Definition weekday (d : date) : Z := (toordinal d + 6) mod 7.

(** [d - timedelta(days=n)] for [0 <= n]; [None] is OverflowError. *)
Definition minus_days (d : date) (n : Z) : option date :=
  let days := toordinal d - n in
  if (0 <? days) && (days <=? _MAXORDINAL) then Some (fromordinal days)
  else None.

(** [datetime(y, m, d)]; [None] is the ValueError of
    [_check_date_fields]. *)
Definition new (y m d : Z) : option date :=
  let r := {| year := y; month := m; day := d |} in
  if valid r then Some r else None.

(** [t.replace(year=y, month=m, day=d)], each field optional: the date
    is built anew. *)
Definition replace (t : date) (y m d : option Z) : option date :=
  new (default (year t) y) (default (month t) m) (default (day t) d).

(** [a > b] on dates *)
Definition later (a b : date) : bool :=
  (year b <? year a)
  || ((year a =? year b)
      && ((month b <? month a)
          || ((month a =? month b) && (day b <? day a)))).

End Calendar.

(** ** date_parser.py *)

Module DateParser.

Import Calendar.

(** [DateParseError] is the parser's own exception; [OtherError] stands
    for a ValueError or OverflowError of the standard library that the
    parser does not catch. *)
Inductive error : Type :=
| DateParseError
| OtherError.

Inductive outcome (A : Type) : Type :=
| Returns (a : A)
| Raises (e : error).

Arguments Returns {A} a.
Arguments Raises {A} e.

#[global] Instance outcome_ret : MRet outcome := fun _ a => Returns a.

#[global] Instance outcome_bind : MBind outcome :=
  fun _ _ f m => match m with Returns a => f a | Raises e => Raises e end.

Definition uncaught {A : Type} (x : option A) : outcome A :=
  match x with
  | Some a => Returns a
  | None => Raises OtherError
  end.

(** The number [int(s)] gives for the texts the patterns capture:
    decimal digits, after a blank in one case. *)
Definition py_int (s : string) : Z :=
  fold_left
    (fun acc c =>
       if PyStr.isdigit c then (acc * 10 + (Z.of_nat (nat_of_ascii c) - 48))%Z
       else acc)
    (list_ascii_of_string s) 0%Z.

(** The interpreter's limit on the conversion of a text to an [int]
    (CPython 3.11, and the security releases of earlier versions): a
    text of more than 640 digits is refused with ValueError when a
    limit is set and the text has more digits than the limit; leading
    zeros are digits.  [max_str_digits] is
    [sys.get_int_max_str_digits()], 4300 unless set otherwise, and 0
    where there is no limit. *)
Definition over_limit (max_str_digits : nat) (s : string) : bool :=
  (640 <? String.length s)%nat
  && (0 <? max_str_digits)%nat
  && (max_str_digits <? String.length s)%nat.

(** [int(s)] on a text of decimal digits of any length. *)
Definition int_str (max_str_digits : nat) (s : string) : outcome Z :=
  if over_limit max_str_digits s then Raises OtherError
  else Returns (py_int s).

Definition digit (n : Z) : ascii := ascii_of_nat (48 + Z.to_nat n).

(** Two decimal digits, as [%m] and [%d] print them. *)
Definition two (n : Z) : string :=
  String (digit (n / 10)) (String (digit (n mod 10)) EmptyString).

Definition four (n : Z) : string :=
  String (digit (n / 1000)) (String (digit (n / 100 mod 10)) (two (n mod 100))).

(** [^\d{4}-\d{2}-\d{2}$]; [re.match] starts at the first character, so
    the leading [^] adds nothing. *)
Definition iso_pattern : Re.t :=
  Re.seq [Re.Digits 4; Re.Char "-"; Re.Digits 2; Re.Char "-"; Re.Digits 2;
          Re.Dollar].

(** [^(\d{1,2})/(\d{1,2})/(\d{4})$] *)
Definition us_pattern : Re.t :=
  Re.seq [Re.Group (Re.Repeat PyStr.isdigit 1%nat (Some 2%nat)); Re.Char "/";
          Re.Group (Re.Repeat PyStr.isdigit 1%nat (Some 2%nat)); Re.Char "/";
          Re.Group (Re.Digits 4); Re.Dollar].

(** [^(\d+)\s*<unit>s?\s*ago$] *)
Definition ago_pattern (unit : string) : Re.t :=
  Re.seq [Re.Group (Re.Repeat PyStr.isdigit 1%nat None);
          Re.Repeat PyStr.isspace 0%nat None;
          Re.lit unit; Re.Repeat (Ascii.eqb "s") 0%nat (Some 1%nat);
          Re.Repeat PyStr.isspace 0%nat None;
          Re.lit "ago"; Re.Dollar].

Definition one_of (names : list string) (x : string) : bool :=
  existsb (String.eqb x) names.

(** The regular expressions [strptime] has for [%Y], [%m] and [%d], and
    the one it builds for ["%Y-%m-%d"]. *)
Definition year_group : Re.t :=
  Re.Group (Re.seq [Re.Class PyStr.isdigit; Re.Class PyStr.isdigit;
                    Re.Class PyStr.isdigit; Re.Class PyStr.isdigit]).

Definition month_group : Re.t :=
  Re.Group
    (Re.Alt (Re.Seq (Re.Char "1") (Re.Class (PyStr.in_range 48 50)))
       (Re.Alt (Re.Seq (Re.Char "0") (Re.Class (PyStr.in_range 49 57)))
          (Re.Class (PyStr.in_range 49 57)))).

Definition day_group : Re.t :=
  Re.Group
    (Re.Alt (Re.Seq (Re.Char "3") (Re.Class (PyStr.in_range 48 49)))
       (Re.Alt (Re.Seq (Re.Class (PyStr.in_range 49 50))
                  (Re.Class PyStr.isdigit))
          (Re.Alt (Re.Seq (Re.Char "0") (Re.Class (PyStr.in_range 49 57)))
             (Re.Alt (Re.Class (PyStr.in_range 49 57))
                (Re.Seq (Re.Char " ") (Re.Class (PyStr.in_range 49 57))))))).

Definition ymd_format : Re.t :=
  Re.seq [year_group; Re.Char "-"; month_group; Re.Char "-"; day_group].

(** [datetime.strptime(s, "%Y-%m-%d")]; [None] is ValueError. *)
Definition strptime (s : string) : option date :=
  match Re.match_prefix ymd_format s with
  | Some (EmptyString, y :: m :: d :: _) =>
      new (py_int y) (py_int m) (py_int d)
  | _ => None
  end.

Section Parser.

(** How the C library prints [%Y] for a year below 1000. *)
Variable short_year : Z -> string.

(** The interpreter's limit on [int(text)], 0 for none. *)
Variable max_str_digits : nat.

(** [d.strftime("%Y-%m-%d")] *)
Definition strftime (d : date) : string :=
  (if (1000 <=? year d)%Z then four (year d) else short_year (year d))
  +:+ "-" +:+ two (month d) +:+ "-" +:+ two (day d).

(** [(today - timedelta(days=days)).strftime("%Y-%m-%d")] *)
Definition days_before (today : date) (days : Z) : outcome string :=
  d ← uncaught (minus_days today days); Returns (strftime d).

(** [parse_date], with the value of [datetime.now()] as [today]. *)
Definition parse_date (today : date) (date_str : string) : outcome string :=
  if String.eqb date_str "" then Raises DateParseError else
  let date_str := PyStr.lower (PyStr.strip date_str) in
  if bool_decide (is_Some (Re.re_match iso_pattern date_str)) then
    Returns date_str
  else
  match Re.re_match us_pattern date_str with
  | Some (month :: day :: year :: _) =>
      match new (py_int year) (py_int month) (py_int day) with
      | Some parsed => Returns (strftime parsed)
      | None => Raises DateParseError
      end
  | _ =>
  if String.eqb date_str "today" then Returns (strftime today) else
  if String.eqb date_str "yesterday" then days_before today 1 else
  match Re.re_match (ago_pattern "day") date_str with
  | Some (n :: _) =>
      days ← int_str max_str_digits n; days_before today days
  | _ =>
  match Re.re_match (ago_pattern "week") date_str with
  | Some (n :: _) =>
      weeks ← int_str max_str_digits n; days_before today (7 * weeks)
  | _ =>
  match Re.re_match (ago_pattern "month") date_str with
  | Some (n :: _) =>
      months ← int_str max_str_digits n; days_before today (months * 30)
  | _ =>
  if one_of ["last week"; "lastweek"] date_str then
    let days_since_monday := weekday today in
    start_of_week ← uncaught (minus_days today days_since_monday);
    last_week_start ← uncaught (minus_days start_of_week 7);
    Returns (strftime last_week_start)
  else if one_of ["last month"; "lastmonth"] date_str then
    first_of_current_month ← uncaught (replace today None None (Some 1%Z));
    last_month ← uncaught (minus_days first_of_current_month 1);
    first ← uncaught (replace last_month None None (Some 1%Z));
    Returns (strftime first)
  else if one_of ["this week"; "thisweek"] date_str then
    let days_since_monday := weekday today in
    start_of_week ← uncaught (minus_days today days_since_monday);
    Returns (strftime start_of_week)
  else if one_of ["this month"; "thismonth"] date_str then
    first ← uncaught (replace today None None (Some 1%Z));
    Returns (strftime first)
  else if one_of ["this year"; "thisyear"; "ytd"] date_str then
    first ← uncaught (replace today None (Some 1%Z) (Some 1%Z));
    Returns (strftime first)
  else if one_of ["last year"; "lastyear"] date_str then
    first ← uncaught
              (replace today (Some (year today - 1)%Z) (Some 1%Z) (Some 1%Z));
    Returns (strftime first)
  else Raises DateParseError
  end end end end.

(** [parse_date_range]; each of the two [parse_date] calls reads the
    clock itself. *)
Definition parse_date_range (today_start today_end : date)
    (start_date end_date : string) : outcome (string * string) :=
  start ← parse_date today_start start_date;
  end_ ← parse_date today_end end_date;
  start_dt ← uncaught (strptime start);
  end_dt ← uncaught (strptime end_);
  if later start_dt end_dt then Raises DateParseError
  else Returns (start, end_).

End Parser.

End DateParser.

(** Vocabulary of the calendar properties: the tail of [_ord2ymd] from
    the month estimate on, and the leap test on the pieces of a year. *)
Definition ord2ymd_finish (year : Z) (leapyear : bool) (n : Z) : Z * Z * Z :=
  let month := Z.shiftr (n + 50) 5 in
  let preceding :=
    (Calendar._DAYS_BEFORE_MONTH month
     + (if (2 <? month)%Z && leapyear then 1 else 0))%Z in
  if (n <? preceding)%Z then
    let month := (month - 1)%Z in
    let preceding :=
      (preceding
       - (Calendar._DAYS_IN_MONTH month
          + (if (month =? 2)%Z && leapyear then 1 else 0)))%Z in
    (year, month, (n - preceding + 1)%Z)
  else (year, month, (n - preceding + 1)%Z).

Definition leap_of (b c e : Z) : bool :=
  (e =? 3)%Z && (negb (c =? 24)%Z || (b =? 3)%Z).

(** Vocabulary of the text properties. *)
Fixpoint every (p : ascii -> bool) (s : string) : bool :=
  match s with
  | EmptyString => true
  | String c s' => p c && every p s'
  end.

Definition starts (p : ascii -> bool) (s : string) : bool :=
  match s with
  | EmptyString => false
  | String c _ => p c
  end.

(** Every character class of [r] lies within [q]. *)
Fixpoint within (q : ascii -> bool) (r : Re.t) : Prop :=
  match r with
  | Re.Class p | Re.Repeat p _ _ => forall c, p c = true -> q c = true
  | Re.Seq a b | Re.Alt a b => within q a /\ within q b
  | Re.Group a => within q a
  | Re.Empty | Re.Dollar => True
  end.

Fixpoint ends_with_dollar (r : Re.t) : Prop :=
  match r with
  | Re.Dollar => True
  | Re.Seq _ b => ends_with_dollar b
  | _ => False
  end.

Definition or_line_feed (q : ascii -> bool) (c : ascii) : bool :=
  q c || Ascii.eqb c "010".

Definition within_max (max : option nat) (n : nat) : Prop :=
  match max with
  | Some m => (n <= m)%nat
  | None => True
  end.

(** The texts [^(\d+)\s*<unit>s?\s*ago$] is written for. *)
Definition spelled (ds sp1 unit : string) (plural : bool) (sp2 : string)
    : string :=
  ds +:+ sp1 +:+ unit +:+ (if plural then "s" else "") +:+ sp2 +:+ "ago".

(** [n] decimal digits. *)
Definition digits (n : nat) (s : string) : bool :=
  (String.length s =? n)%nat && every PyStr.isdigit s.

Definition iso_text (y m d : string) : string :=
  y +:+ "-" +:+ m +:+ "-" +:+ d.

Definition us_text (m d y : string) : string :=
  m +:+ "/" +:+ d +:+ "/" +:+ y.

Definition in_chars (l : string) (c : ascii) : bool :=
  existsb (Ascii.eqb c) (list_ascii_of_string l).

(** A text that [rstrip] leaves as it is, and that is not empty. *)
Definition kept (s : string) : Prop := PyStr.rstrip s = s /\ s <> "".

(** The characters the date patterns can read. *)
Definition iso_class (c : ascii) : bool := PyStr.isdigit c || in_chars "-" c.

Definition us_class (c : ascii) : bool := PyStr.isdigit c || in_chars "/" c.

Definition ago_class (unit : string) (c : ascii) : bool :=
  PyStr.isdigit c || PyStr.isspace c || in_chars (unit +:+ "sago") c.

(** The number a text of digits stands for lies between 1 and [hi]. *)
Definition in_1_to (hi : Z) (s : string) : bool :=
  (1 <=? DateParser.py_int s)%Z && (DateParser.py_int s <=? hi)%Z.

(** Sample dates. *)
Module SampleDates.

(** A C library that prints years below 1000 without padding. *)
Definition short_year (y : Z) : string :=
  if (100 <=? y)%Z then
    String (DateParser.digit (y / 100)) (DateParser.two (y mod 100))
  else if (10 <=? y)%Z then DateParser.two y
  else String (DateParser.digit y) EmptyString.

(** Friday, 15 March 2024. *)
Definition friday : Calendar.date :=
  {| Calendar.year := 2024; Calendar.month := 3; Calendar.day := 15 |}.

(** The limit of an interpreter as it starts. *)
Definition max_str_digits : nat := 4300.

(** The number 1 in 5000 digits. *)
Definition long_count : string :=
  string_of_list_ascii (List.repeat "0"%char 4999) +:+ "1".

End SampleDates.

(** * Properties *)

(** ** Comparisons *)

Lemma Qltb_lt (x y : Q) : Qltb x y = true <-> (x < y)%Q.
Proof.
  unfold Qltb. rewrite negb_true_iff, <- not_true_iff_false, Qle_bool_iff.
  split; [apply Qnot_le_lt | apply Qlt_not_le].
Qed.

Lemma Qltb_ge (x y : Q) : Qltb x y = false <-> (y <= x)%Q.
Proof.
  unfold Qltb. rewrite negb_false_iff. apply Qle_bool_iff.
Qed.

Lemma Qltb_irrefl (x : Q) : Qltb x x = false.
Proof. apply Qltb_ge, Qle_refl. Qed.

(** ** The constructor of the resolver *)

(** C10: an explicit threshold of 0.0, a value the configuration layer
    accepts, does not take effect: the resolver falls back to the
    configured threshold (0.6 when the environment does not set one).
    An explicit threshold is used exactly when it is non-zero, and an
    explicit empty alias mapping falls back to the configured one in the
    same way. *)
Theorem init_falsy_arguments_fall_back
    (config : Config.t) (global_client : GAClient.t (list GAProperty))
    (client : option (GAClient.t (list GAProperty)))
    (threshold : Q) (given : option Q) (aliases : option alias_table)
    (entry : string * list string) (rest : alias_table) :
  Config.fuzzy_threshold_from_env (Some (Some 0%Q)) = Ok 0%Q
  /\ Config.fuzzy_threshold_from_env None = Ok 0.6%Q
  /\ PropertyResolver.fuzzy_threshold
       (PropertyResolver.init config global_client client (Some 0%Q) aliases)
     = Config.fuzzy_threshold config
  /\ PropertyResolver.fuzzy_threshold
       (PropertyResolver.init config global_client client (Some threshold) aliases)
     = (if Qeq_bool threshold 0 then Config.fuzzy_threshold config
        else threshold)
  /\ PropertyResolver.fuzzy_threshold
       (PropertyResolver.init config global_client client None aliases)
     = Config.fuzzy_threshold config
  /\ PropertyResolver.custom_aliases
       (PropertyResolver.init config global_client client given (Some []))
     = Config.custom_aliases config
  /\ PropertyResolver.custom_aliases
       (PropertyResolver.init config global_client client given
          (Some (entry :: rest)))
     = entry :: rest.
Proof. repeat split. Qed.

(** ** The time-bounded cache *)

Section CacheFacts.

Context {V : Type}.
Implicit Types (c : GAClient.t V) (key : string) (now : Q).

Lemma get_cached_Some now key c (v : V) :
  (GAClient._get_cached now key c).1 = Some v
  <-> exists entry,
        GAClient._cache c !! key = Some entry
        /\ (now < GAClient.expires_at entry)%Q
        /\ GAClient.data entry = v.
Proof.
  unfold GAClient._get_cached, GAClient.is_valid.
  destruct (GAClient._cache c !! key) as [entry|] eqn:Hk.
  - destruct (Qltb now (GAClient.expires_at entry)) eqn:Hv; simpl.
    + apply Qltb_lt in Hv. split.
      * intros [= <-]. exists entry. auto.
      * intros (e' & [= <-] & _ & <-). reflexivity.
    + apply Qltb_ge in Hv. split; [discriminate|].
      intros (e' & [= <-] & Hlt & _).
      exfalso. exact (Qlt_not_le _ _ Hlt Hv).
  - simpl. split; [discriminate|]. intros (e' & [=] & _).
Qed.

Lemma get_cached_valid now key c entry :
  GAClient._cache c !! key = Some entry ->
  (now < GAClient.expires_at entry)%Q ->
  GAClient._get_cached now key c = (Some (GAClient.data entry), c).
Proof.
  intros Hk Hlt. unfold GAClient._get_cached, GAClient.is_valid.
  rewrite Hk. apply Qltb_lt in Hlt. rewrite Hlt. reflexivity.
Qed.

Lemma get_cached_expired now key c entry :
  GAClient._cache c !! key = Some entry ->
  (GAClient.expires_at entry <= now)%Q ->
  GAClient._get_cached now key c
  = (None, GAClient.with_cache c (delete key (GAClient._cache c))).
Proof.
  intros Hk Hle. unfold GAClient._get_cached, GAClient.is_valid.
  rewrite Hk. apply Qltb_ge in Hle. rewrite Hle. reflexivity.
Qed.

Lemma get_cached_missing now key c :
  GAClient._cache c !! key = None ->
  GAClient._get_cached now key c = (None, c).
Proof.
  intros Hk. unfold GAClient._get_cached. rewrite Hk. reflexivity.
Qed.

Lemma set_cached_lookup now key (v : V) ttl c :
  GAClient._cache (GAClient._set_cached now key v ttl c) !! key
  = Some {| GAClient.data := v;
            GAClient.expires_at :=
              (now + inject_Z (GAClient.effective_ttl ttl c))%Q |}.
Proof. unfold GAClient._set_cached. simpl. apply lookup_insert_eq. Qed.

Lemma get_cached_expired_size now key c entry :
  GAClient._cache c !! key = Some entry ->
  (GAClient.expires_at entry <= now)%Q ->
  S (GAClient.total_entries (GAClient._get_cached now key c).2)
  = GAClient.total_entries c.
Proof.
  intros Hk Hle. rewrite (get_cached_expired now key c entry Hk Hle).
  unfold GAClient.total_entries. simpl.
  rewrite map_size_delete, Hk.
  assert (size (GAClient._cache c) <> 0%nat) as Hne.
  { apply map_size_ne_0_lookup_2 with key. rewrite Hk. eauto. }
  simpl. lia.
Qed.

End CacheFacts.

(** C8: [_get_cached key] returns the stored value exactly when an
    entry for [key] is present and the read time is strictly before its
    expiry.  A present but expired entry is deleted by the read, which
    returns absent, and the total entry count goes down by one.  After
    [_set_cached key v ttl] with a positive [ttl], a read at the same
    instant, or at any time before [ttl] has elapsed, yields [v]; a read
    once [ttl] has elapsed is absent and leaves one entry fewer. *)
Theorem cache_read_write_expiry {V : Type}
    (c : GAClient.t V) (key : string) (v : V) (ttl : Z) (written now : Q) :
  (0 < ttl)%Z ->
  (forall x,
      (GAClient._get_cached now key c).1 = Some x
      <-> exists entry,
            GAClient._cache c !! key = Some entry
            /\ (now < GAClient.expires_at entry)%Q
            /\ GAClient.data entry = x)
  /\ (forall entry,
        GAClient._cache c !! key = Some entry ->
        (GAClient.expires_at entry <= now)%Q ->
        (GAClient._get_cached now key c).1 = None
        /\ GAClient._cache (GAClient._get_cached now key c).2 !! key = None
        /\ GAClient._cache (GAClient._get_cached now key c).2
           = delete key (GAClient._cache c)
        /\ S (GAClient.total_entries (GAClient._get_cached now key c).2)
           = GAClient.total_entries c)
  /\ (let c' := GAClient._set_cached written key v (Some ttl) c in
      GAClient._get_cached written key c' = (Some v, c')
      /\ ((now < written + inject_Z ttl)%Q ->
          GAClient._get_cached now key c' = (Some v, c'))
      /\ ((written + inject_Z ttl <= now)%Q ->
          (GAClient._get_cached now key c').1 = None
          /\ S (GAClient.total_entries (GAClient._get_cached now key c').2)
             = GAClient.total_entries c')).
Proof.
  intros Httl. split; [|split].
  - intros x. apply get_cached_Some.
  - intros entry Hk Hle.
    split; [|split; [|split]].
    + rewrite (get_cached_expired now key c entry Hk Hle). reflexivity.
    + rewrite (get_cached_expired now key c entry Hk Hle). simpl.
      apply lookup_delete_eq.
    + rewrite (get_cached_expired now key c entry Hk Hle). reflexivity.
    + exact (get_cached_expired_size now key c entry Hk Hle).
  - intros c'.
    assert (GAClient.effective_ttl (Some ttl) c = ttl) as Heff.
    { unfold GAClient.effective_ttl.
      destruct (ttl =? 0)%Z eqn:E; [lia|reflexivity]. }
    pose proof (set_cached_lookup written key v (Some ttl) c) as Hk.
    fold c' in Hk. rewrite Heff in Hk.
    assert (forall t, (t < written + inject_Z ttl)%Q ->
              GAClient._get_cached t key c' = (Some v, c')) as Hfresh.
    { intros t Ht. apply (get_cached_valid t key c' _ Hk). simpl. exact Ht. }
    split; [|split].
    + apply Hfresh.
      assert (0 < inject_Z ttl)%Q by (change 0%Q with (inject_Z 0);
        rewrite <- Zlt_Qlt; exact Httl).
      lra.
    + apply Hfresh.
    + intros Hle. split.
      * rewrite (get_cached_expired now key c' _ Hk) by (simpl; exact Hle).
        reflexivity.
      * apply (get_cached_expired_size now key c' _ Hk). simpl. exact Hle.
Qed.

Lemma cache_read_write_expiry_witness :
  GAClient._get_cached 0 "k"
    (GAClient._set_cached 0 "k" 7%nat (Some 1%Z) (GAClient.init Sample.config))
  = (Some 7%nat,
     GAClient._set_cached 0 "k" 7%nat (Some 1%Z) (GAClient.init Sample.config)).
Proof.
  exact (proj1 (proj2 (proj2
    (cache_read_write_expiry (GAClient.init Sample.config) "k" 7%nat 1 0 2
       ltac:(lia))))).
Defined.

(** ** The directory fetch behind the cache *)

Section DirectoryFetch.

Implicit Types (c : GAClient.t (list GAProperty)) (now : Q).

(** A valid, non-empty cached list is served: no remote call, and
    the client is left as it was. *)
Lemma discover_served_from_cache now remote c entry prop rest :
  GAClient._cache c !! "properties" = Some entry ->
  (now < GAClient.expires_at entry)%Q ->
  GAClient.data entry = prop :: rest ->
  GAClient.discover_properties now remote c = (Ok (prop :: rest), c).
Proof.
  intros Hk Hlt Hd. unfold GAClient.discover_properties, GAClient.discover_properties_at.
  rewrite (get_cached_valid now "properties" c entry Hk Hlt), Hd.
  reflexivity.
Qed.

(** A valid cached list that is empty is not served: the truth test
    of line 156 fails on it and the remote directory is asked again. *)
Lemma discover_empty_cached_refetches now remote c entry :
  GAClient._cache c !! "properties" = Some entry ->
  (now < GAClient.expires_at entry)%Q ->
  GAClient.data entry = [] ->
  GAClient.fetches (GAClient.discover_properties now remote c).2
  = S (GAClient.fetches c)
  /\ (GAClient.discover_properties now remote c).1 = remote.
Proof.
  intros Hk Hlt Hd. unfold GAClient.discover_properties, GAClient.discover_properties_at.
  rewrite (get_cached_valid now "properties" c entry Hk Hlt), Hd.
  destruct remote; simpl; auto.
Qed.

(** A first fetch stores whatever list it got, the empty one too,
    for the property-list TTL. *)
Lemma discover_first_fetch_caches now (props : list GAProperty) c :
  GAClient._cache c !! "properties" = None ->
  GAClient.property_cache_ttl c <> 0%Z ->
  let out := GAClient.discover_properties now (Ok props) c in
  out.1 = Ok props
  /\ GAClient.fetches out.2 = S (GAClient.fetches c)
  /\ GAClient._cache out.2 !! "properties"
     = Some {| GAClient.data := props;
               GAClient.expires_at :=
                 (now + inject_Z (GAClient.property_cache_ttl c))%Q |}.
Proof.
  intros Hk Httl. unfold GAClient.discover_properties, GAClient.discover_properties_at.
  rewrite (get_cached_missing now "properties" c Hk). simpl.
  split; [reflexivity|]. split; [reflexivity|].
  unfold GAClient._set_cached. simpl. rewrite lookup_insert_eq.
  unfold GAClient.effective_ttl. simpl.
  destruct (GAClient.property_cache_ttl c =? 0)%Z eqn:E; [lia|reflexivity].
Qed.

End DirectoryFetch.

Section FacadeLoading.

Variable ratio : string -> string -> Q.
Implicit Types (r : PropertyResolver.t) (now : Q).

Lemma resolve_loaded now remote query r props :
  PropertyResolver._properties r = Some props ->
  PropertyResolver.resolve ratio now remote query r
  = (resolve_body ratio (PropertyResolver.fuzzy_threshold r)
       (PropertyResolver.custom_aliases r) query props, r).
Proof.
  intros Hp. unfold PropertyResolver.resolve,
    PropertyResolver._ensure_properties_loaded.
  rewrite Hp. rewrite Hp. reflexivity.
Qed.

Lemma search_loaded now remote query max_results r props :
  PropertyResolver._properties r = Some props ->
  PropertyResolver.search ratio now remote query max_results r
  = (search_body ratio query max_results props, r).
Proof.
  intros Hp. unfold PropertyResolver.search,
    PropertyResolver._ensure_properties_loaded.
  rewrite Hp. rewrite Hp. reflexivity.
Qed.

Lemma list_all_loaded now remote r props :
  PropertyResolver._properties r = Some props ->
  PropertyResolver.list_all now remote r = (Ok props, r).
Proof.
  intros Hp. unfold PropertyResolver.list_all,
    PropertyResolver._ensure_properties_loaded.
  rewrite Hp. rewrite Hp. reflexivity.
Qed.

(** What the three methods do on a resolver that is not loaded, in
    terms of the directory fetch they start with. *)
Lemma ensure_not_loaded now remote r :
  PropertyResolver._properties r = None ->
  PropertyResolver._ensure_properties_loaded now remote r
  = let out := GAClient.discover_properties now remote
                 (PropertyResolver.client r) in
    match out.1 with
    | Ok ps => (Ok tt, PropertyResolver.with_state r out.2 (Some ps))
    | Raise e => (Raise e, PropertyResolver.with_state r out.2 None)
    end.
Proof.
  intros Hp. unfold PropertyResolver._ensure_properties_loaded.
  rewrite Hp.
  destruct (GAClient.discover_properties now remote
              (PropertyResolver.client r)) as [[ps|e] c]; reflexivity.
Qed.

(** For a non-empty list the cache shields the directory: while the
    entry is valid, a resolver that is not loaded, or that holds this
    very list, answers from it and issues no remote call. *)
Lemma served_from_cache_when_non_empty now remote query max_results
    r entry prop rest :
  GAClient._cache (PropertyResolver.client r) !! "properties" = Some entry ->
  (now < GAClient.expires_at entry)%Q ->
  GAClient.data entry = prop :: rest ->
  PropertyResolver._properties r = None
  \/ PropertyResolver._properties r = Some (prop :: rest) ->
  let r' := PropertyResolver.with_state r (PropertyResolver.client r)
              (Some (prop :: rest)) in
  PropertyResolver.resolve ratio now remote query r
  = (resolve_body ratio (PropertyResolver.fuzzy_threshold r)
       (PropertyResolver.custom_aliases r) query (prop :: rest), r')
  /\ PropertyResolver.search ratio now remote query max_results r
     = (search_body ratio query max_results (prop :: rest), r')
  /\ PropertyResolver.list_all now remote r = (Ok (prop :: rest), r').
Proof.
  intros Hk Hlt Hd [Hp|Hp] r'.
  - unfold PropertyResolver.resolve, PropertyResolver.search,
      PropertyResolver.list_all.
    rewrite (ensure_not_loaded now remote r Hp).
    rewrite (discover_served_from_cache now remote _ entry prop rest Hk Hlt Hd).
    simpl. auto.
  - assert (r' = r) as ->.
    { unfold r', PropertyResolver.with_state. rewrite <- Hp.
      destruct r; reflexivity. }
    rewrite (resolve_loaded now remote query r _ Hp).
    rewrite (search_loaded now remote query max_results r _ Hp).
    rewrite (list_all_loaded now remote r _ Hp). auto.
Qed.

End FacadeLoading.

Lemma unloaded_resolver_refetches_empty
    (ratio : string -> string -> Q) (now : Q)
    (remote : result (list GAProperty)) (query : string) (max_results : Z)
    (r : PropertyResolver.t) (entry : GAClient.CacheEntry (list GAProperty)) :
  GAClient._cache (PropertyResolver.client r) !! "properties" = Some entry ->
  (now < GAClient.expires_at entry)%Q ->
  GAClient.data entry = [] ->
  PropertyResolver._properties r = None ->
  let before := GAClient.fetches (PropertyResolver.client r) in
  GAClient.fetches
    (PropertyResolver.client
       (PropertyResolver.resolve ratio now remote query r).2) = S before
  /\ GAClient.fetches
       (PropertyResolver.client
          (PropertyResolver.search ratio now remote query max_results r).2)
     = S before
  /\ GAClient.fetches
       (PropertyResolver.client (PropertyResolver.list_all now remote r).2)
     = S before.
Proof.
  intros Hk Hlt Hd Hp before.
  destruct (discover_empty_cached_refetches now remote _ entry Hk Hlt Hd)
    as [Hf Hr].
  unfold PropertyResolver.resolve, PropertyResolver.search,
    PropertyResolver.list_all.
  rewrite (ensure_not_loaded now remote r Hp).
  destruct (GAClient.discover_properties now remote (PropertyResolver.client r))
    as [[ps|e] c] eqn:Hdisc; simpl in *;
    repeat split; try assumption;
    destruct ps; simpl; assumption.
Qed.

(** C3: the property list is cached for its TTL, yet a cached list
    that is empty is never served.  On a resolver that is not loaded
    (a fresh one over the same client, or one reset by [clear_cache]),
    with the empty list cached and its entry still valid, each of
    [resolve], [search] and [list_all] issues another remote directory
    call. *)
Theorem empty_cached_list_is_fetched_again
    (ratio : string -> string -> Q) (now : Q)
    (remote : result (list GAProperty)) (query : string) (max_results : Z)
    (r : PropertyResolver.t) (entry : GAClient.CacheEntry (list GAProperty)) :
  GAClient._cache (PropertyResolver.client r) !! "properties" = Some entry ->
  (now < GAClient.expires_at entry)%Q ->
  GAClient.data entry = [] ->
  PropertyResolver._properties r = None ->
  let before := GAClient.fetches (PropertyResolver.client r) in
  GAClient.fetches
    (PropertyResolver.client
       (PropertyResolver.resolve ratio now remote query r).2) = S before
  /\ GAClient.fetches
       (PropertyResolver.client
          (PropertyResolver.search ratio now remote query max_results r).2)
     = S before
  /\ GAClient.fetches
       (PropertyResolver.client (PropertyResolver.list_all now remote r).2)
     = S before.
Proof.
  exact (unloaded_resolver_refetches_empty ratio now remote query
           max_results r entry).
Qed.

Lemma empty_cached_list_is_fetched_again_witness :
  GAClient.fetches (PropertyResolver.client Trace.first_call) = 1%nat
  /\ GAClient._cache (PropertyResolver.client Trace.cleared) !! "properties"
     = Some Trace.cached_empty
  /\ GAClient.fetches
       (PropertyResolver.client
          (PropertyResolver.resolve Difflib.ratio 1 (Ok []) "acme"
             Trace.cleared).2) = 2%nat.
Proof.
  split; [reflexivity|]. split; [reflexivity|].
  exact (proj1 (empty_cached_list_is_fetched_again Difflib.ratio 1 (Ok [])
                  "acme" 5 Trace.cleared Trace.cached_empty
                  eq_refl eq_refl eq_refl eq_refl)).
Defined.

(** C9: [PropertyResolver.clear_cache] touches nothing but the
    in-memory list, which it resets to not-loaded: the client, and with
    it every cache entry, the one under "properties" included, is left
    as it was.  The next [resolve] is then served from that entry while
    it is valid and its list is non-empty; when the cached list is
    empty, the next [resolve] fetches from the remote directory again
    although the entry is still valid. *)
Theorem clear_cache_keeps_backing_cache
    (ratio : string -> string -> Q) (now : Q)
    (remote : result (list GAProperty)) (query : string)
    (r : PropertyResolver.t) (entry : GAClient.CacheEntry (list GAProperty)) :
  GAClient._cache (PropertyResolver.client r) !! "properties" = Some entry ->
  (now < GAClient.expires_at entry)%Q ->
  let r' := PropertyResolver.clear_cache r in
  let next := PropertyResolver.resolve ratio now remote query r' in
  PropertyResolver.client r' = PropertyResolver.client r
  /\ PropertyResolver._properties r' = None
  /\ PropertyResolver.fuzzy_threshold r' = PropertyResolver.fuzzy_threshold r
  /\ PropertyResolver.custom_aliases r' = PropertyResolver.custom_aliases r
  /\ (GAClient.data entry <> [] ->
      PropertyResolver.client next.2 = PropertyResolver.client r
      /\ PropertyResolver._properties next.2 = Some (GAClient.data entry)
      /\ next.1 = resolve_body ratio (PropertyResolver.fuzzy_threshold r)
                    (PropertyResolver.custom_aliases r) query
                    (GAClient.data entry))
  /\ (GAClient.data entry = [] ->
      GAClient.fetches (PropertyResolver.client next.2)
      = S (GAClient.fetches (PropertyResolver.client r))).
Proof.
  intros Hk Hlt r' next.
  repeat (split; [reflexivity|]). split.
  - intros Hne.
    destruct (GAClient.data entry) as [|prop rest] eqn:Hd; [congruence|].
    destruct (served_from_cache_when_non_empty ratio now remote query 0 r'
                entry prop rest Hk Hlt Hd (or_introl eq_refl)) as [Hres _].
    unfold next. rewrite Hres. simpl. auto.
  - intros Hd.
    exact (proj1 (unloaded_resolver_refetches_empty ratio now remote
                    query 0 r' entry Hk Hlt Hd eq_refl)).
Qed.

Lemma clear_cache_keeps_backing_cache_witness :
  GAClient._cache
    (PropertyResolver.client (PropertyResolver.clear_cache Trace.first_call))
    !! "properties" = Some Trace.cached_empty
  /\ PropertyResolver.client (PropertyResolver.clear_cache Trace.first_call)
     = PropertyResolver.client Trace.first_call
  /\ GAClient.fetches
       (PropertyResolver.client
          (PropertyResolver.resolve Difflib.ratio 1 (Ok []) "acme"
             (PropertyResolver.clear_cache Trace.first_call)).2) = 2%nat.
Proof.
  split; [reflexivity|].
  pose proof (clear_cache_keeps_backing_cache Difflib.ratio 1 (Ok []) "acme"
                Trace.first_call Trace.cached_empty eq_refl eq_refl) as H.
  split; [exact (proj1 H)|].
  exact (proj2 (proj2 (proj2 (proj2 (proj2 H)))) eq_refl).
Defined.

(** ** Text *)

Lemma len_zero (s : string) : PyStr.len s = 0%nat -> s = "".
Proof. destruct s; [reflexivity|discriminate]. Qed.

Lemma prefix_len (a b : string) :
  String.prefix a b = true -> (PyStr.len a <= PyStr.len b)%nat.
Proof.
  revert b. induction a as [|x a IH]; intros b H; simpl in *; [lia|].
  destruct b as [|y b]; simpl in H; [discriminate H|].
  destruct (ascii_dec x y); [|discriminate H].
  specialize (IH b H). unfold PyStr.len in *. simpl. lia.
Qed.

Lemma contains_len (a b : string) :
  PyStr.contains a b = true -> (PyStr.len a <= PyStr.len b)%nat.
Proof.
  induction b as [|y b IH]; intros H; cbn [PyStr.contains] in H.
  - rewrite orb_false_r in H. apply prefix_len in H. exact H.
  - apply orb_true_iff in H. destruct H as [H|H].
    + apply prefix_len in H. exact H.
    + specialize (IH H). unfold PyStr.len in *. simpl. lia.
Qed.

Lemma contains_empty (a : string) : PyStr.contains a "" = true -> a = "".
Proof. intros H. apply contains_len in H. apply len_zero. simpl in H. lia. Qed.

(** ** Loops that return at the first hit *)

Lemma find_first {A : Type} (f : A -> bool) (l : list A) (x : A) :
  List.find f l = Some x ->
  exists pre post,
    l = pre ++ x :: post /\ f x = true /\ forall y, In y pre -> f y = false.
Proof.
  induction l as [|a l IH]; simpl; [discriminate|].
  destruct (f a) eqn:Ha.
  - intros [= <-]. exists [], l. simpl. tauto.
  - intros H. destruct (IH H) as (pre & post & -> & Hx & Hpre).
    exists (a :: pre), post. simpl. split; [reflexivity|]. split; [exact Hx|].
    intros y [<-|Hy]; auto.
Qed.

Lemma find_hit {A : Type} (f : A -> bool) (l : list A) (x : A) :
  In x l -> f x = true -> exists y, List.find f l = Some y.
Proof.
  intros Hin Hx. destruct (List.find f l) as [y|] eqn:Hf; [eauto|].
  rewrite (find_none f l Hf x Hin) in Hx. discriminate.
Qed.

Lemma same_key_same_element {A B : Type} (f : A -> B) (l : list A) (x y : A) :
  List.NoDup (List.map f l) -> In x l -> In y l -> f x = f y -> x = y.
Proof.
  induction l as [|a l IH]; simpl; [tauto|].
  intros Hnd Hx Hy Hxy.
  pose proof (proj1 (List.NoDup_cons_iff _ _) Hnd) as [Hna Hnd'].
  destruct Hx as [<-|Hx], Hy as [<-|Hy]; auto.
  - exfalso. apply Hna. rewrite Hxy. apply List.in_map. exact Hy.
  - exfalso. apply Hna. rewrite <- Hxy. apply List.in_map. exact Hx.
Qed.

(** ** Stage 1 of [resolve] *)

(** C6, as the code has it: for every record R of the loaded list,
    [resolve (id R)] returns, with confidence 1.0 and stage exact_id,
    the first record in list order whose id is that of R, whatever the
    other stages would find; this is R itself whenever the ids of the
    list are pairwise distinct.  Stage 1 compares the query as given,
    character by character. *)
Theorem resolve_id_first_with_that_id
    (ratio : string -> string -> Q) (now : Q)
    (remote : result (list GAProperty)) (r : PropertyResolver.t)
    (props : list GAProperty) (R : GAProperty) :
  PropertyResolver._properties r = Some props ->
  In R props ->
  exists pre P post,
    props = pre ++ P :: post
    /\ id P = id R
    /\ (forall x, In x pre -> id x <> id R)
    /\ PropertyResolver.resolve ratio now remote (id R) r
       = (Ok (Some {| property := P; confidence := 1;
                      matched_on := "exact_id" |}), r)
    /\ (List.NoDup (List.map id props) -> P = R).
Proof.
  intros Hp HR.
  destruct (find_hit (fun prop => String.eqb (id prop) (id R)) props R HR
              (String.eqb_refl _)) as [P HP].
  destruct (find_first _ _ _ HP) as (pre & post & Hsplit & HidP & Hpre).
  apply String.eqb_eq in HidP.
  exists pre, P, post. split; [exact Hsplit|]. split; [exact HidP|].
  split; [|split].
  - intros x Hx. apply String.eqb_neq. apply Hpre. exact Hx.
  - rewrite (resolve_loaded ratio now remote (id R) r props Hp).
    unfold resolve_body. destruct props as [|p0 ps]; [destruct HR|].
    rewrite HP. reflexivity.
  - intros Hnd. apply (same_key_same_element id props P R Hnd); auto.
    rewrite Hsplit. apply List.in_or_app. right. left. reflexivity.
Qed.

Lemma resolve_id_first_with_that_id_witness :
  exists pre P post,
    Sample.acme = pre ++ P :: post
    /\ id P = "222"
    /\ (forall x, In x pre -> id x <> "222")
    /\ PropertyResolver.resolve Difflib.ratio 0 (Ok []) "222"
         (Sample.loaded None None Sample.acme)
       = (Ok (Some {| property := P; confidence := 1;
                      matched_on := "exact_id" |}),
          Sample.loaded None None Sample.acme)
    /\ (List.NoDup (List.map id Sample.acme)
        -> P = build_property "222" "Acme Shop" "1001" None).
Proof.
  exact (resolve_id_first_with_that_id Difflib.ratio 0 (Ok [])
           (Sample.loaded None None Sample.acme) Sample.acme
           (build_property "222" "Acme Shop" "1001" None)
           eq_refl (or_intror (or_introl eq_refl))).
Defined.

(** C6 as stated fails when two records carry the same id: asked for
    the id of the second, [resolve] returns the first. *)
Lemma resolve_id_of_twin_returns_other :
  In Sample.twin_b [Sample.twin_a; Sample.twin_b]
  /\ (PropertyResolver.resolve Difflib.ratio 0 (Ok []) (id Sample.twin_b)
        (Sample.loaded None None [Sample.twin_a; Sample.twin_b])).1
     = Ok (Some {| property := Sample.twin_a; confidence := 1;
                   matched_on := "exact_id" |})
  /\ Sample.twin_a <> Sample.twin_b.
Proof.
  split; [right; left; reflexivity|]. split; [reflexivity|].
  intros H. apply (f_equal display_name) in H. discriminate H.
Qed.

(** ** The fuzzy loop *)

Section FuzzyLoop.

Variable ratio : string -> string -> Q.
Implicit Types (best : best_match) (prop : GAProperty) (props : list GAProperty).

(** The divisor of line 146 is never zero where it is evaluated: a
    record with both texts empty contains only the empty query, and
    stage 2 has then returned that record, or an earlier one. *)
Lemma partial_divisor_positive query_clean prop :
  contained query_clean prop = true ->
  name prop <> query_clean ->
  (1 <= Nat.max (PyStr.len (name prop)) (PyStr.len (display_clean_of prop)))%nat.
Proof.
  intros Hc Hne.
  destruct (Nat.max (PyStr.len (name prop)) (PyStr.len (display_clean_of prop)))
    as [|n] eqn:Hmax; [|lia].
  exfalso. apply Hne.
  assert (name prop = "") as Hn by (apply len_zero; lia).
  assert (display_clean_of prop = "") as Hd by (apply len_zero; lia).
  unfold contained in Hc. rewrite Hn, Hd in Hc. rewrite Hn.
  apply orb_true_iff in Hc. symmetry.
  destruct Hc as [Hc|Hc]; apply contains_empty; exact Hc.
Qed.

Lemma partial_candidate_value query_clean prop :
  name prop <> query_clean ->
  partial_candidate query_clean prop
  = Ok (if contained query_clean prop
           && Qltb 0.3 (partial_quotient query_clean prop)
        then Some (0.7 + partial_quotient query_clean prop * 0.3)%Q
        else None).
Proof.
  intros Hne. unfold partial_candidate. fold (contained query_clean prop).
  destruct (contained query_clean prop) eqn:Hc; [|reflexivity].
  pose proof (partial_divisor_positive query_clean prop Hc Hne) as Hpos.
  unfold py_truediv, partial_quotient.
  destruct (Nat.max (PyStr.len (name prop)) (PyStr.len (display_clean_of prop)))
    as [|n]; [lia|].
  simpl.
  destruct (Qltb _ _); reflexivity.
Qed.

Lemma fuzzy_step_offers fuzzy_threshold query_clean best prop :
  name prop <> query_clean ->
  fuzzy_step ratio fuzzy_threshold query_clean best prop
  = Ok (offer (contained query_clean prop
               && Qltb 0.3 (partial_quotient query_clean prop))
          prop (0.7 + partial_quotient query_clean prop * 0.3)%Q "partial"
          (offer (Qltb fuzzy_threshold
                    (ratio query_clean (display_clean_of prop)))
             prop (ratio query_clean (display_clean_of prop)) "fuzzy_display"
             (offer (Qltb fuzzy_threshold (ratio query_clean (name prop)))
                prop (ratio query_clean (name prop)) "fuzzy_name" best))).
Proof.
  intros Hne. unfold fuzzy_step.
  rewrite (partial_candidate_value query_clean prop Hne).
  unfold offer.
  destruct (contained query_clean prop
            && Qltb 0.3 (partial_quotient query_clean prop));
    cbn [mbind result_bind andb]; [|reflexivity].
  destruct (improves (0.7 + partial_quotient query_clean prop * 0.3)%Q _);
    reflexivity.
Qed.

Lemma offer_none gate prop score tag best :
  offer gate prop score tag best = None <-> best = None /\ gate = false.
Proof.
  unfold offer. destruct gate, best as [[[p s] t]|]; simpl;
    try destruct (Qltb s score); split; intros H;
    try discriminate; try (destruct H; discriminate); auto.
Qed.

Lemma offer_some gate prop score tag best x :
  offer gate prop score tag best = Some x ->
  best = Some x \/ (x = (prop, score, tag) /\ gate = true).
Proof.
  unfold offer. destruct (gate && improves score best) eqn:E.
  - intros [= <-]. right. apply andb_true_iff in E. tauto.
  - auto.
Qed.

Lemma fuzzy_step_outcome fuzzy_threshold query_clean best prop :
  name prop <> query_clean ->
  exists best',
    fuzzy_step ratio fuzzy_threshold query_clean best prop = Ok best'
    /\ (best' = None
        <-> best = None /\ passes ratio fuzzy_threshold query_clean prop = false)
    /\ (forall x, best' = Some x ->
          best = Some x
          \/ exists score tag,
               x = (prop, score, tag)
               /\ candidate ratio fuzzy_threshold query_clean prop score tag).
Proof.
  intros Hne. eexists. split; [apply fuzzy_step_offers, Hne|]. split.
  - rewrite !offer_none. unfold passes. rewrite !orb_false_iff. tauto.
  - intros x Hx.
    apply offer_some in Hx. destruct Hx as [Hx|[-> Hg]].
    + apply offer_some in Hx. destruct Hx as [Hx|[-> Hg]].
      * apply offer_some in Hx. destruct Hx as [Hx|[-> Hg]]; [auto|].
        right. do 2 eexists. split; [reflexivity|].
        apply by_name, Qltb_lt, Hg.
      * right. do 2 eexists. split; [reflexivity|].
        apply by_display, Qltb_lt, Hg.
    + right. do 2 eexists. split; [reflexivity|].
      apply andb_true_iff in Hg. destruct Hg as [Hc Hq].
      apply by_containment; [exact Hc|apply Qltb_lt, Hq].
Qed.

Lemma fuzzy_loop_outcome fuzzy_threshold query_clean props :
  (forall prop, In prop props -> name prop <> query_clean) ->
  forall best,
  exists best',
    fuzzy_loop ratio fuzzy_threshold query_clean best props = Ok best'
    /\ (best' = None
        <-> best = None
            /\ forall prop, In prop props ->
                 passes ratio fuzzy_threshold query_clean prop = false)
    /\ (forall prop score tag, best' = Some (prop, score, tag) ->
          best = Some (prop, score, tag)
          \/ (In prop props
              /\ candidate ratio fuzzy_threshold query_clean prop score tag)).
Proof.
  induction props as [|p ps IH]; intros Hne best.
  - exists best. simpl. split; [reflexivity|]. split; [|auto].
    split; [intros ->; split; [reflexivity|intros ? []]|tauto].
  - destruct (fuzzy_step_outcome fuzzy_threshold query_clean best p
                (Hne p (or_introl eq_refl))) as (b1 & Hstep & Hnone1 & Hsome1).
    destruct (IH (fun x Hx => Hne x (or_intror Hx)) b1)
      as (b2 & Hloop & Hnone2 & Hsome2).
    exists b2. split; [|split].
    + simpl. rewrite Hstep. exact Hloop.
    + rewrite Hnone2, Hnone1. split.
      * intros [[Hb Hp] Hps]. split; [exact Hb|].
        intros x [<-|Hx]; auto.
      * intros [Hb Hall]. split; [split|]; auto.
        -- apply Hall. left. reflexivity.
        -- intros x Hx. apply Hall. right. exact Hx.
    + intros prop score tag Hb2.
      destruct (Hsome2 prop score tag Hb2) as [Hb1|[Hin Hc]].
      * destruct (Hsome1 _ Hb1) as [Hb|(s & t & [= -> -> ->] & Hc)]; [auto|].
        right. split; [left; reflexivity|exact Hc].
      * right. split; [right; exact Hin|exact Hc].
Qed.

End FuzzyLoop.

(** ** The alias stage *)

Section AliasStage.

Implicit Types (props : list GAProperty) (aliases : alias_table).

Lemma alias_test (query_lower : string) (names : list string) :
  existsb (String.eqb query_lower) (List.map PyStr.lower names) = true
  <-> In query_lower (List.map PyStr.lower names).
Proof.
  rewrite existsb_exists. split.
  - intros (x & Hx & Heq). apply String.eqb_eq in Heq. subst. exact Hx.
  - intros Hin. exists query_lower. split; [exact Hin|apply String.eqb_refl].
Qed.

Lemma alias_owner_owns (key : string) (prop : GAProperty) :
  alias_owner key prop = true <-> owns key prop.
Proof.
  unfold alias_owner, owns. rewrite orb_true_iff, !String.eqb_eq. tauto.
Qed.

Lemma entry_satisfied_find query props (key : string) (names : list string) :
  entry_satisfied query props (key, names)
  <-> In (PyStr.strip (PyStr.lower query)) (List.map PyStr.lower names)
      /\ exists prop, List.find (alias_owner key) props = Some prop.
Proof.
  unfold entry_satisfied. simpl. split; intros [Hq Hp]; (split; [exact Hq|]).
  - destruct Hp as (prop & Hin & Ho). apply alias_owner_owns in Ho.
    exact (find_hit _ _ _ Hin Ho).
  - destruct Hp as (prop & Hf). exists prop. apply find_some in Hf.
    rewrite <- alias_owner_owns. exact Hf.
Qed.

Lemma alias_stage_none query props aliases :
  alias_stage (PyStr.strip (PyStr.lower query)) props aliases = None
  <-> forall entry, In entry aliases -> ~ entry_satisfied query props entry.
Proof.
  induction aliases as [|[key names] rest IH]; simpl.
  - split; [intros _ ? []|reflexivity].
  - destruct (existsb _ _) eqn:Hq.
    + apply alias_test in Hq.
      destruct (List.find (alias_owner key) props) as [prop|] eqn:Hf.
      * split; [discriminate|]. intros H. exfalso.
        apply (H (key, names) (or_introl eq_refl)).
        apply entry_satisfied_find. eauto.
      * rewrite IH. split.
        -- intros H entry [<-|Hin]; [|auto].
           rewrite entry_satisfied_find, Hf. intros [_ [? [=]]].
        -- intros H entry Hin. apply H. right. exact Hin.
    + rewrite IH. split.
      * intros H entry [<-|Hin]; [|auto].
        rewrite entry_satisfied_find, <- alias_test, Hq. intros [[=] _].
      * intros H entry Hin. apply H. right. exact Hin.
Qed.

Lemma alias_stage_some query props aliases (P : GAProperty) :
  alias_stage (PyStr.strip (PyStr.lower query)) props aliases = Some P ->
  exists before key names after pre post,
    aliases = before ++ (key, names) :: after
    /\ (forall entry, In entry before -> ~ entry_satisfied query props entry)
    /\ entry_satisfied query props (key, names)
    /\ props = pre ++ P :: post
    /\ alias_owner key P = true
    /\ (forall x, In x pre -> alias_owner key x = false).
Proof.
  induction aliases as [|[key names] rest IH]; simpl; [discriminate|].
  assert (alias_stage (PyStr.strip (PyStr.lower query)) props rest = Some P ->
          ~ entry_satisfied query props (key, names) ->
          exists before key' names' after pre post,
            (key, names) :: rest = before ++ (key', names') :: after
            /\ (forall entry, In entry before ->
                  ~ entry_satisfied query props entry)
            /\ entry_satisfied query props (key', names')
            /\ props = pre ++ P :: post
            /\ alias_owner key' P = true
            /\ (forall x, In x pre -> alias_owner key' x = false)) as Hnext.
  { intros Hrest Hnot.
    destruct (IH Hrest) as (before & k & ns & after & pre & post
                            & -> & Hb & Hs & Hsplit & Ho & Hpre).
    exists ((key, names) :: before), k, ns, after, pre, post.
    split; [reflexivity|]. split; [|auto].
    intros entry [<-|Hin]; auto. }
  destruct (existsb _ _) eqn:Hq.
  - apply alias_test in Hq.
    destruct (List.find (alias_owner key) props) as [prop|] eqn:Hf.
    + intros [= ->].
      destruct (find_first _ _ _ Hf) as (pre & post & Hsplit & Ho & Hpre).
      exists [], key, names, rest, pre, post.
      split; [reflexivity|]. split; [intros ? []|].
      split; [apply entry_satisfied_find; eauto|]. auto.
    + intros Hrest. apply Hnext; [exact Hrest|].
      rewrite entry_satisfied_find, Hf. intros [_ [? [=]]].
  - intros Hrest. apply Hnext; [exact Hrest|].
    rewrite entry_satisfied_find, <- alias_test, Hq. intros [[=] _].
Qed.

End AliasStage.

(** ** The stages of [resolve] together *)

Section Stages.

Variable ratio : string -> string -> Q.
Implicit Types (props : list GAProperty) (aliases : alias_table).

Lemma exact_stages_miss_find query props :
  exact_stages_miss query props
  <-> List.find (fun prop => String.eqb (id prop) query) props = None
      /\ List.find (fun prop =>
           String.eqb (name prop)
             (PyStr.alnum_only (PyStr.strip (PyStr.lower query)))) props = None
      /\ List.find (fun prop =>
           String.eqb (PyStr.lower (display_name prop))
             (PyStr.strip (PyStr.lower query))) props = None.
Proof.
  unfold exact_stages_miss. split.
  - intros H. repeat split;
      (match goal with |- List.find ?f ?l = None =>
         destruct (List.find f l) as [x|] eqn:Hf; [|reflexivity] end;
       apply find_some in Hf; destruct Hf as [Hin Heq];
       apply String.eqb_eq in Heq; destruct (H x Hin) as (H1 & H2 & H3);
       congruence).
  - intros (H1 & H2 & H3) prop Hin.
    pose proof (find_none _ _ H1 prop Hin) as E1.
    pose proof (find_none _ _ H2 prop Hin) as E2.
    pose proof (find_none _ _ H3 prop Hin) as E3.
    simpl in *. apply String.eqb_neq in E1, E2, E3. auto.
Qed.

(** Past stages 1 to 4 the result is that of the fuzzy loop, which
    does not raise. *)
Lemma resolve_body_fuzzy fuzzy_threshold aliases query props :
  props <> [] ->
  exact_stages_miss query props ->
  alias_stage (PyStr.strip (PyStr.lower query)) props aliases = None ->
  let query_clean := PyStr.alnum_only (PyStr.strip (PyStr.lower query)) in
  exists best,
    resolve_body ratio fuzzy_threshold aliases query props
    = Ok (match best with
          | Some (prop, score, tag) =>
              Some {| property := prop; confidence := score; matched_on := tag |}
          | None => None
          end)
    /\ (best = None
        <-> forall prop, In prop props ->
              passes ratio fuzzy_threshold query_clean prop = false)
    /\ (forall prop score tag, best = Some (prop, score, tag) ->
          In prop props
          /\ candidate ratio fuzzy_threshold query_clean prop score tag).
Proof.
  intros Hne Hmiss Halias query_clean.
  pose proof (proj1 (exact_stages_miss_find query props) Hmiss)
    as (H1 & H2 & H3).
  destruct (fuzzy_loop_outcome ratio fuzzy_threshold query_clean props
              (fun prop Hin => proj1 (proj2 (Hmiss prop Hin))) None)
    as (best & Hloop & Hnone & Hsome).
  exists best. split; [|split].
  - unfold resolve_body. destruct props as [|p0 ps]; [congruence|].
    rewrite H1, H2, H3, Halias. fold query_clean. rewrite Hloop.
    destruct best as [[[p s] t]|]; reflexivity.
  - rewrite Hnone. tauto.
  - intros prop score tag Hb.
    destruct (Hsome prop score tag Hb) as [[=]|H]. exact H.
Qed.

(** The five ways [resolve] can end on a non-empty list. *)
Lemma resolve_body_stages fuzzy_threshold aliases query props :
  props <> [] ->
  (exists P, List.find (fun prop => String.eqb (id prop) query) props = Some P
     /\ resolve_body ratio fuzzy_threshold aliases query props
        = Ok (Some (found P "exact_id")))
  \/ (exists P, In P props
        /\ name P = PyStr.alnum_only (PyStr.strip (PyStr.lower query))
        /\ resolve_body ratio fuzzy_threshold aliases query props
           = Ok (Some (found P "exact_name")))
  \/ (exists P, In P props
        /\ PyStr.lower (display_name P) = PyStr.strip (PyStr.lower query)
        /\ resolve_body ratio fuzzy_threshold aliases query props
           = Ok (Some (found P "display_name")))
  \/ (exact_stages_miss query props
      /\ exists P,
           alias_stage (PyStr.strip (PyStr.lower query)) props aliases = Some P
           /\ resolve_body ratio fuzzy_threshold aliases query props
              = Ok (Some (found P "alias")))
  \/ (exact_stages_miss query props
      /\ alias_stage (PyStr.strip (PyStr.lower query)) props aliases = None).
Proof.
  intros Hne.
  destruct (List.find (fun prop => String.eqb (id prop) query) props)
    as [P|] eqn:H1.
  { left. exists P. split; [reflexivity|]. unfold resolve_body.
    destruct props; [congruence|]. rewrite H1. reflexivity. }
  destruct (List.find (fun prop => String.eqb (name prop)
               (PyStr.alnum_only (PyStr.strip (PyStr.lower query)))) props)
    as [P|] eqn:H2.
  { right. left. exists P.
    pose proof (find_some _ _ H2) as [Hin Heq]. apply String.eqb_eq in Heq.
    split; [exact Hin|]. split; [exact Heq|].
    unfold resolve_body. destruct props; [congruence|].
    rewrite H1, H2. reflexivity. }
  destruct (List.find (fun prop => String.eqb (PyStr.lower (display_name prop))
               (PyStr.strip (PyStr.lower query))) props) as [P|] eqn:H3.
  { right. right. left. exists P.
    pose proof (find_some _ _ H3) as [Hin Heq]. apply String.eqb_eq in Heq.
    split; [exact Hin|]. split; [exact Heq|].
    unfold resolve_body. destruct props; [congruence|].
    rewrite H1, H2, H3. reflexivity. }
  assert (exact_stages_miss query props) as Hmiss
    by (apply exact_stages_miss_find; auto).
  destruct (alias_stage (PyStr.strip (PyStr.lower query)) props aliases)
    as [P|] eqn:H4.
  - right. right. right. left. split; [exact Hmiss|]. exists P.
    split; [reflexivity|]. unfold resolve_body.
    destruct props; [congruence|]. rewrite H1, H2, H3, H4. reflexivity.
  - right. right. right. right. auto.
Qed.

Lemma resolve_body_total fuzzy_threshold aliases query props :
  exists outcome,
    resolve_body ratio fuzzy_threshold aliases query props = Ok outcome.
Proof.
  destruct props as [|p0 ps]; [exists None; reflexivity|].
  destruct (resolve_body_stages fuzzy_threshold aliases query (p0 :: ps))
    as [(P & _ & H)|[(P & _ & _ & H)|[(P & _ & _ & H)|[(_ & P & _ & H)|[Hm Ha]]]]];
    try discriminate; eauto.
  destruct (resolve_body_fuzzy fuzzy_threshold aliases query (p0 :: ps)
              ltac:(discriminate) Hm Ha) as (best & H & _). eauto.
Qed.

End Stages.

(** ** [resolve]: containment score, exceptions, acceptance *)

Lemma partial_score_above_floor (x : Q) :
  (0.3 < x)%Q -> (0.79 < 0.7 + x * 0.3)%Q.
Proof. intros H. lra. Qed.

Lemma discover_raises_only_remote now remote
    (c : GAClient.t (list GAProperty)) (e : exn) :
  (GAClient.discover_properties now remote c).1 = Raise e -> remote = Raise e.
Proof.
  unfold GAClient.discover_properties, GAClient.discover_properties_at.
  destruct (GAClient._get_cached now "properties" c) as [[[|prop rest]|] c'];
    destruct remote; simpl; congruence.
Qed.

(** C2, as the code has it: in the fuzzy stage of [resolve] a record
    whose canonical name or canonical display name contains the
    canonical query gets a containment score only when
    len(query) / max(len(name), len(display)) strictly exceeds 0.3, and
    the score is then 0.7 + 0.3 times that quotient.  The divisor is
    written without a floor of 1; it is at least 1 wherever the fuzzy
    stage evaluates it, so that it equals max(len, len, 1), and
    [resolve] never divides by zero. *)
Theorem resolve_containment_score
    (ratio : string -> string -> Q) (fuzzy_threshold : Q)
    (aliases : alias_table) (query : string)
    (props : list GAProperty) (prop : GAProperty) :
  let query_clean := PyStr.alnum_only (PyStr.strip (PyStr.lower query)) in
  let divisor := Nat.max (PyStr.len (name prop))
                         (PyStr.len (display_clean_of prop)) in
  let quotient := partial_quotient query_clean prop in
  exact_stages_miss query props ->
  In prop props ->
  contained query_clean prop = true ->
  (1 <= divisor)%nat
  /\ Nat.max divisor 1 = divisor
  /\ partial_candidate query_clean prop
     = Ok (if Qltb 0.3 quotient then Some (0.7 + quotient * 0.3)%Q else None)
  /\ (0.7 + quotient * 0.3
      == 0.7 + 0.3 * inject_Z (Z.of_nat (PyStr.len query_clean))
               / inject_Z (Z.of_nat (Nat.max divisor 1)))%Q
  /\ exists outcome,
       resolve_body ratio fuzzy_threshold aliases query props = Ok outcome.
Proof.
  intros query_clean divisor quotient Hmiss Hin Hc.
  pose proof (proj1 (proj2 (Hmiss prop Hin))) as Hne.
  fold query_clean in Hne.
  pose proof (partial_divisor_positive query_clean prop Hc Hne) as Hpos.
  fold divisor in Hpos.
  assert (Nat.max divisor 1 = divisor) as Hmax by lia.
  split; [exact Hpos|]. split; [exact Hmax|]. split; [|split].
  - rewrite (partial_candidate_value query_clean prop Hne), Hc. reflexivity.
  - rewrite Hmax. unfold quotient, partial_quotient. fold divisor.
    assert (~ inject_Z (Z.of_nat divisor) == 0)%Q as Hnz.
    { change 0%Q with (inject_Z 0). rewrite inject_Z_injective. lia. }
    field. exact Hnz.
  - apply resolve_body_total.
Qed.

(** C5: [resolve] reports "no match" as an absent result.  It raises
    only when the resolver was not loaded and the directory fetch
    raised, and then with that very exception; matching itself never
    raises.  On an empty loaded list, and whenever no stage produces a
    match, the result is [None]. *)
Theorem resolve_no_match_is_absent
    (ratio : string -> string -> Q) (now : Q)
    (remote : result (list GAProperty)) (query : string)
    (r : PropertyResolver.t) :
  let out := PropertyResolver.resolve ratio now remote query r in
  (forall e, out.1 = Raise e ->
     PropertyResolver._properties r = None /\ remote = Raise e)
  /\ (PropertyResolver._properties out.2 = Some [] -> out.1 = Ok None)
  /\ (forall props,
        PropertyResolver._properties out.2 = Some props ->
        exact_stages_miss query props ->
        (forall entry, In entry (PropertyResolver.custom_aliases r) ->
           ~ entry_satisfied query props entry) ->
        (forall prop, In prop props ->
           passes ratio (PropertyResolver.fuzzy_threshold r)
             (PyStr.alnum_only (PyStr.strip (PyStr.lower query))) prop = false) ->
        out.1 = Ok None).
Proof.
  intros out.
  assert (forall props,
            exact_stages_miss query props ->
            (forall entry, In entry (PropertyResolver.custom_aliases r) ->
               ~ entry_satisfied query props entry) ->
            (forall prop, In prop props ->
               passes ratio (PropertyResolver.fuzzy_threshold r)
                 (PyStr.alnum_only (PyStr.strip (PyStr.lower query))) prop
               = false) ->
            resolve_body ratio (PropertyResolver.fuzzy_threshold r)
              (PropertyResolver.custom_aliases r) query props = Ok None)
    as Hbody.
  { intros props Hmiss Hal Hpass.
    destruct props as [|p0 ps]; [reflexivity|].
    apply alias_stage_none in Hal.
    destruct (resolve_body_fuzzy ratio (PropertyResolver.fuzzy_threshold r)
                (PropertyResolver.custom_aliases r) query (p0 :: ps)
                ltac:(discriminate) Hmiss Hal) as (best & Hres & Hnone & _).
    rewrite Hres. apply Hnone in Hpass. rewrite Hpass. reflexivity. }
  destruct (PropertyResolver._properties r) as [props|] eqn:Hp.
  - unfold out. rewrite (resolve_loaded ratio now remote query r props Hp).
    simpl. split; [|split].
    + intros e He.
      destruct (resolve_body_total ratio (PropertyResolver.fuzzy_threshold r)
                  (PropertyResolver.custom_aliases r) query props) as [o Ho].
      congruence.
    + rewrite Hp. intros [= ->]. reflexivity.
    + rewrite Hp. intros ps [= <-]. apply Hbody.
  - unfold out, PropertyResolver.resolve.
    rewrite (ensure_not_loaded now remote r Hp).
    destruct (GAClient.discover_properties now remote (PropertyResolver.client r))
      as [[ps|e'] c] eqn:Hd; simpl.
    + split; [|split].
      * intros e He.
        destruct (resolve_body_total ratio (PropertyResolver.fuzzy_threshold r)
                    (PropertyResolver.custom_aliases r) query ps) as [o Ho].
        congruence.
      * intros [= ->]. reflexivity.
      * intros props [= <-]. apply Hbody.
    + split; [|split].
      * intros e [= <-]. split; [reflexivity|].
        apply (discover_raises_only_remote now remote (PropertyResolver.client r)).
        rewrite Hd. reflexivity.
      * discriminate.
      * discriminate.
Qed.

(** C1, as the code has it: in the fuzzy stage of [resolve] (stages 1
    to 4 all miss, loaded non-empty list) a winner entered by name or
    display similarity has a score strictly above the threshold, for
    every threshold; a winner entered by containment is not compared
    with the threshold: its gate is a quotient strictly above 0.3, and
    its score 0.7 + 0.3 * quotient lies strictly above 0.79.  So every
    returned score strictly exceeds a threshold of at most 0.79, and
    [resolve] returns absence exactly when no record passes any of the
    three gates. *)
Theorem fuzzy_stage_acceptance
    (ratio : string -> string -> Q) (now : Q)
    (remote : result (list GAProperty)) (query : string)
    (r : PropertyResolver.t) (props : list GAProperty) :
  let theta := PropertyResolver.fuzzy_threshold r in
  let query_clean := PyStr.alnum_only (PyStr.strip (PyStr.lower query)) in
  let out := (PropertyResolver.resolve ratio now remote query r).1 in
  PropertyResolver._properties r = Some props ->
  props <> [] ->
  exact_stages_miss query props ->
  (forall entry, In entry (PropertyResolver.custom_aliases r) ->
     ~ entry_satisfied query props entry) ->
  (out = Ok None
   <-> forall prop, In prop props -> passes ratio theta query_clean prop = false)
  /\ (forall m, out = Ok (Some m) ->
        In (property m) props
        /\ candidate ratio theta query_clean
             (property m) (confidence m) (matched_on m))
  /\ (forall m, out = Ok (Some m) -> matched_on m <> "partial" ->
        (theta < confidence m)%Q)
  /\ (forall m, out = Ok (Some m) -> matched_on m = "partial" ->
        (0.79 < confidence m)%Q
        /\ (0.3 < partial_quotient query_clean (property m))%Q)
  /\ ((theta <= 0.79)%Q ->
      forall m, out = Ok (Some m) -> (theta < confidence m)%Q).
Proof.
  intros theta query_clean out Hp Hne Hmiss Hal.
  apply alias_stage_none in Hal.
  destruct (resolve_body_fuzzy ratio theta (PropertyResolver.custom_aliases r)
              query props Hne Hmiss Hal) as (best & Hres & Hnone & Hsome).
  fold query_clean in Hnone, Hsome.
  assert (out = Ok (match best with
                    | Some (prop, score, tag) =>
                        Some {| property := prop; confidence := score;
                                matched_on := tag |}
                    | None => None
                    end)) as Hout.
  { unfold out. rewrite (resolve_loaded ratio now remote query r props Hp).
    exact Hres. }
  assert (forall m, out = Ok (Some m) ->
            In (property m) props
            /\ candidate ratio theta query_clean
                 (property m) (confidence m) (matched_on m)) as Hcand.
  { intros m Hm. rewrite Hout in Hm.
    destruct best as [[[p s] t]|]; [|discriminate].
    injection Hm as <-. simpl. apply Hsome. reflexivity. }
  split; [|split; [exact Hcand|split; [|split]]].
  - rewrite <- Hnone, Hout. destruct best as [[[p s] t]|]; split;
      congruence.
  - intros m Hm Htag. destruct (Hcand m Hm) as [_ Hc].
    inversion Hc as [Hlt Hs Ht|Hlt Hs Ht|Hcon Hlt Hs Ht];
      [exact Hlt|exact Hlt|congruence].
  - intros m Hm Htag. destruct (Hcand m Hm) as [_ Hc].
    inversion Hc as [Hlt Hs Ht|Hlt Hs Ht|Hcon Hlt Hs Ht];
      try (rewrite Htag in Ht; discriminate Ht).
    split; [apply partial_score_above_floor; exact Hlt|exact Hlt].
  - intros Hth m Hm. destruct (Hcand m Hm) as [_ Hc].
    inversion Hc as [Hlt Hs Ht|Hlt Hs Ht|Hcon Hlt Hs Ht];
      [exact Hlt|exact Hlt|].
    apply Qle_lt_trans with (1 := Hth).
    apply partial_score_above_floor. exact Hlt.
Qed.

(** C4, as the code has it: [resolve] returns stage alias, at
    confidence 1.0, exactly when stages 1 to 3 miss and some entry of
    the alias table is satisfied: the lower-cased, stripped query equals
    the lower-cased text of one of the entry's aliases (no canonical
    form is taken on either side), and some record carries the owner key
    as its name, character for character, or as its display name up to
    case.  The first satisfied entry in table order wins, and the record
    returned is the first in list order that carries its key.  With the
    aliases {"mysite": ["primary site", "main"]} and the record named
    "mysite", [resolve "Primary Site"] returns that record at
    confidence 1.0, stage alias. *)
Theorem alias_stage_result
    (ratio : string -> string -> Q) (now : Q)
    (remote : result (list GAProperty)) (query : string)
    (r : PropertyResolver.t) (props : list GAProperty) :
  let aliases := PropertyResolver.custom_aliases r in
  let out := (PropertyResolver.resolve ratio now remote query r).1 in
  PropertyResolver._properties r = Some props ->
  ((exists m, out = Ok (Some m) /\ matched_on m = "alias")
   <-> exact_stages_miss query props
       /\ exists entry, In entry aliases /\ entry_satisfied query props entry)
  /\ (forall m, out = Ok (Some m) -> matched_on m = "alias" ->
        confidence m = 1%Q
        /\ exists before key names after pre post,
             aliases = before ++ (key, names) :: after
             /\ (forall entry, In entry before ->
                   ~ entry_satisfied query props entry)
             /\ entry_satisfied query props (key, names)
             /\ props = pre ++ property m :: post
             /\ owns key (property m)
             /\ (forall x, In x pre -> ~ owns key x))
  /\ (PropertyResolver.resolve ratio now remote "Primary Site"
        (Sample.loaded None (Some Sample.my_site_aliases) [Sample.my_site])).1
     = Ok (Some {| property := Sample.my_site; confidence := 1;
                   matched_on := "alias" |}).
Proof.
  intros aliases out Hp.
  assert (out = resolve_body ratio (PropertyResolver.fuzzy_threshold r)
                  aliases query props) as Hout.
  { unfold out. rewrite (resolve_loaded ratio now remote query r props Hp).
    reflexivity. }
  assert (forall m, out = Ok (Some m) -> matched_on m = "alias" ->
            exact_stages_miss query props
            /\ alias_stage (PyStr.strip (PyStr.lower query)) props aliases
               = Some (property m)
            /\ confidence m = 1%Q) as Hfrom.
  { intros m Hm Htag. rewrite Hout in Hm.
    destruct props as [|p0 ps]; [discriminate Hm|].
    destruct (resolve_body_stages ratio (PropertyResolver.fuzzy_threshold r)
                aliases query (p0 :: ps) ltac:(discriminate))
      as [(P & _ & H)|[(P & _ & _ & H)|[(P & _ & _ & H)
          |[(Hmiss & P & Ha & H)|[Hmiss Ha]]]]];
      try (rewrite H in Hm; injection Hm as <-; discriminate Htag).
    - rewrite H in Hm. injection Hm as <-. auto.
    - destruct (resolve_body_fuzzy ratio (PropertyResolver.fuzzy_threshold r)
                  aliases query (p0 :: ps) ltac:(discriminate) Hmiss Ha)
        as (best & Hres & _ & Hsome).
      rewrite Hres in Hm. destruct best as [[[p s] t]|]; [|discriminate Hm].
      injection Hm as <-. simpl in Htag. subst t.
      destruct (Hsome p s "alias" eq_refl) as [_ Hc]. inversion Hc. }
  split; [|split; [|reflexivity]].
  - split.
    + intros (m & Hm & Htag). destruct (Hfrom m Hm Htag) as (Hmiss & Ha & _).
      split; [exact Hmiss|].
      destruct (alias_stage_some _ _ _ _ Ha)
        as (before & key & names & after & _ & _ & -> & _ & Hs & _).
      exists (key, names). split; [|exact Hs].
      apply List.in_or_app. right. left. reflexivity.
    + intros (Hmiss & entry & Hin & Hs).
      destruct props as [|p0 ps].
      { destruct Hs as [_ (prop & [] & _)]. }
      destruct (resolve_body_stages ratio (PropertyResolver.fuzzy_threshold r)
                  aliases query (p0 :: ps) ltac:(discriminate))
        as [(P & Hf & _)|[(P & HP & Heq & _)|[(P & HP & Heq & _)
            |[(_ & P & Ha & H)|[_ Ha]]]]].
      * apply find_some in Hf. destruct Hf as [HP Heq].
        apply String.eqb_eq in Heq. destruct (Hmiss P HP) as (H1 & _). tauto.
      * destruct (Hmiss P HP) as (_ & H2 & _). tauto.
      * destruct (Hmiss P HP) as (_ & _ & H3). tauto.
      * exists (found P "alias"). rewrite Hout. auto.
      * exfalso. apply (proj1 (alias_stage_none query (p0 :: ps) aliases) Ha entry Hin).
        exact Hs.
  - intros m Hm Htag. destruct (Hfrom m Hm Htag) as (_ & Ha & Hc).
    split; [exact Hc|].
    destruct (alias_stage_some _ _ _ _ Ha)
      as (before & key & names & after & pre & post
          & Hal & Hb & Hs & Hsplit & Ho & Hpre).
    exists before, key, names, after, pre, post.
    repeat (split; [assumption|]). split.
    + apply alias_owner_owns. exact Ho.
    + intros x Hx Hown. apply alias_owner_owns in Hown.
      rewrite (Hpre x Hx) in Hown. discriminate.
Qed.

(** ** The statements at sample inputs *)

Ltac sample_members :=
  repeat match goal with
         | H : In _ _ |- _ =>
             hnf in H; first [destruct H as [<-|H] | destruct H]
         end.

Ltac sample_miss :=
  let prop := fresh "prop" in
  let H := fresh "H" in
  let E := fresh "E" in
  intros prop H; sample_members;
  (split; [|split]); intros E; vm_compute in E; discriminate E.

Lemma fuzzy_stage_acceptance_witness :
  exists m,
    (PropertyResolver.resolve Difflib.ratio 0 (Ok []) "acme"
       (Sample.loaded None None Sample.acme)).1 = Ok (Some m)
    /\ matched_on m = "partial"
    /\ (0.6 < confidence m)%Q.
Proof.
  eexists. split; [vm_compute; reflexivity|]. split; [reflexivity|].
  refine (proj2 (proj2 (proj2 (proj2
    (fuzzy_stage_acceptance Difflib.ratio 0 (Ok []) "acme"
       (Sample.loaded None None Sample.acme) Sample.acme
       eq_refl _ _ _)))) _ _ _).
  - discriminate.
  - sample_miss.
  - intros entry [].
  - vm_compute. discriminate.
  - vm_compute. reflexivity.
Defined.

(** C1 as stated fails for a threshold of 0.9: every score of both
    records for the query "acme" is at most 0.9, the containment score
    0.85 included, yet [resolve] returns the first record, by
    containment, with confidence 0.85. *)
Lemma containment_winner_below_threshold :
  let r := Sample.loaded (Some 0.9%Q) None Sample.acme in
  PropertyResolver.fuzzy_threshold r = 0.9%Q
  /\ exact_stages_miss "acme" Sample.acme
  /\ (forall prop, In prop Sample.acme ->
        (Spec.best_score Difflib.ratio "acme" prop
         <= PropertyResolver.fuzzy_threshold r)%Q)
  /\ exists m,
       (PropertyResolver.resolve Difflib.ratio 0 (Ok []) "acme" r).1
       = Ok (Some m)
       /\ matched_on m = "partial"
       /\ (confidence m == 0.85)%Q
       /\ (confidence m < PropertyResolver.fuzzy_threshold r)%Q.
Proof.
  split; [reflexivity|]. split; [sample_miss|]. split.
  - intros prop H. sample_members; apply Qle_bool_iff; vm_compute; reflexivity.
  - eexists. split; [vm_compute; reflexivity|].
    split; [reflexivity|]. split; [reflexivity|reflexivity].
Qed.

Lemma resolve_containment_score_witness :
  partial_candidate "acme" (build_property "111" "Acme Blog" "1001" None)
  = Ok (if Qltb 0.3 (partial_quotient "acme"
                       (build_property "111" "Acme Blog" "1001" None))
        then Some (0.7 + partial_quotient "acme"
                           (build_property "111" "Acme Blog" "1001" None)
                         * 0.3)%Q
        else None).
Proof.
  refine (proj1 (proj2 (proj2
    (resolve_containment_score Difflib.ratio 0.6 [] "acme" Sample.acme
       (build_property "111" "Acme Blog" "1001" None) _ _ _)))).
  - sample_miss.
  - left. reflexivity.
  - reflexivity.
Defined.

(** C2 as stated fails below the 30% gate: the canonical name
    "acmeblogsite" contains the query "ac", and the formula of the
    claim gives 0.7 + 0.3 * 2 / 12 = 0.75, above the threshold 0.6; the
    code assigns no containment score, and [resolve] returns absence. *)
Lemma containment_below_gate_has_no_score :
  let prop := Sample.acme_blog_site in
  name prop = "acmeblogsite"
  /\ PyStr.contains (Spec.canonical "ac") (name prop) = true
  /\ (0.6 < 0.7 + 0.3 * inject_Z (Z.of_nat (PyStr.len (Spec.canonical "ac")))
                / inject_Z (Z.of_nat
                    (Nat.max (Nat.max (PyStr.len (name prop))
                                (PyStr.len (display_clean_of prop))) 1)))%Q
  /\ partial_candidate "ac" prop = Ok None
  /\ (PropertyResolver.resolve Difflib.ratio 0 (Ok []) "ac"
        (Sample.loaded None None [prop])).1 = Ok None.
Proof.
  repeat split; vm_compute; reflexivity.
Qed.

Lemma alias_stage_result_witness :
  exists m,
    (PropertyResolver.resolve Difflib.ratio 0 (Ok []) "Primary Site"
       (Sample.loaded None (Some Sample.my_site_aliases) [Sample.my_site])).1
    = Ok (Some m) /\ matched_on m = "alias".
Proof.
  refine (proj2 (proj1 (alias_stage_result Difflib.ratio 0 (Ok [])
                          "Primary Site"
                          (Sample.loaded None (Some Sample.my_site_aliases)
                             [Sample.my_site])
                          [Sample.my_site] eq_refl)) _).
  split; [sample_miss|].
  exists ("mysite", ["primary site"; "main"]).
  split; [left; reflexivity|]. split.
  - left. reflexivity.
  - exists Sample.my_site. split; [left; reflexivity|]. left. reflexivity.
Defined.

(** C4 as stated fails for the query "primarysite": its canonical form
    equals that of the alias "primary site" and the record named
    "mysite" carries the owner key, yet no stage-4 match is made, the
    code comparing the lower-cased texts; the record comes back from
    the fuzzy stage instead. *)
Lemma canonical_alias_match_is_not_alias_stage :
  let r := Sample.loaded None (Some Sample.my_site_aliases) [Sample.my_site] in
  PropertyResolver.custom_aliases r = [("mysite", ["primary site"; "main"])]
  /\ Spec.canonical "primarysite" = Spec.canonical "primary site"
  /\ name Sample.my_site = "mysite"
  /\ exists m,
       (PropertyResolver.resolve Difflib.ratio 0 (Ok []) "primarysite" r).1
       = Ok (Some m)
       /\ matched_on m = "fuzzy_name"
       /\ matched_on m <> "alias".
Proof.
  split; [reflexivity|]. split; [reflexivity|]. split; [reflexivity|].
  eexists. split; [vm_compute; reflexivity|]. split; [reflexivity|discriminate].
Qed.

Lemma resolve_no_match_is_absent_witness :
  (PropertyResolver.resolve Difflib.ratio 0 (Ok []) "totally-unrelated"
     (Sample.loaded None None Sample.acme)).1 = Ok None.
Proof.
  refine (proj2 (proj2
    (resolve_no_match_is_absent Difflib.ratio 0 (Ok []) "totally-unrelated"
       (Sample.loaded None None Sample.acme))) Sample.acme eq_refl _ _ _).
  - sample_miss.
  - intros entry [].
  - intros prop H. sample_members; vm_compute; reflexivity.
Defined.

(** ** The similarity ratio is at most 1 *)

Section RatioBound.

Import Difflib.

Lemma common_prefix_le (a b : list ascii) :
  (common_prefix a b <= List.length a)%nat
  /\ (common_prefix a b <= List.length b)%nat.
Proof.
  revert b. induction a as [|x a IH]; intros [|y b]; simpl; try lia.
  destruct (Ascii.eqb x y); [|lia]. specialize (IH b). lia.
Qed.

Lemma scan_b_fits (na nb : nat) (ai b : list ascii) (i j : nat) (best : block) :
  (i + List.length ai <= na)%nat ->
  (j + List.length b <= nb)%nat ->
  fits na nb best ->
  fits na nb (scan_b ai b i j best).
Proof.
  revert j best. induction b as [|y b IH]; intros j best Hi Hj Hb; [exact Hb|].
  cbn [scan_b]. apply IH; [exact Hi|simpl in Hj; lia|].
  destruct (block_size best <? common_prefix ai (y :: b))%nat; [|exact Hb].
  pose proof (common_prefix_le ai (y :: b)) as [H1 H2].
  unfold fits. simpl in *. lia.
Qed.

Lemma scan_a_fits (na : nat) (a b : list ascii) (i : nat) (best : block) :
  (i + List.length a <= na)%nat ->
  fits na (List.length b) best ->
  fits na (List.length b) (scan_a a b i best).
Proof.
  revert i best. induction a as [|x a IH]; intros i best Hi Hb; [exact Hb|].
  cbn [scan_a]. apply IH; [simpl in Hi; lia|].
  apply scan_b_fits; [exact Hi|lia|exact Hb].
Qed.

Lemma find_longest_match_fits (a b : list ascii) :
  fits (List.length a) (List.length b) (find_longest_match a b).
Proof.
  unfold find_longest_match. apply scan_a_fits; [lia|].
  unfold fits. simpl. lia.
Qed.

Lemma matching_total_le (fuel : nat) (a b : list ascii) :
  (matching_total fuel a b <= Nat.min (List.length a) (List.length b))%nat.
Proof.
  revert a b. induction fuel as [|fuel IH]; intros a b; simpl; [lia|].
  pose proof (find_longest_match_fits a b) as Hfit.
  destruct (find_longest_match a b) as [[i j] k].
  unfold fits in Hfit. simpl in Hfit.
  destruct (k =? 0)%nat; [lia|].
  pose proof (IH (firstn i a) (firstn j b)) as Hl.
  pose proof (IH (skipn (i + k) a) (skipn (j + k) b)) as Hr.
  rewrite !List.length_firstn in Hl. rewrite !List.length_skipn in Hr. lia.
Qed.

Lemma difflib_ratio_le_1 (a b : string) : (ratio a b <= 1)%Q.
Proof.
  unfold ratio.
  set (la := list_ascii_of_string a). set (lb := list_ascii_of_string b).
  destruct (List.length la + List.length lb =? 0)%nat eqn:E; [apply Qle_refl|].
  apply Nat.eqb_neq in E.
  pose proof (matching_total_le (S (List.length la)) la lb) as Hm.
  fold (matches la lb) in Hm.
  apply Qle_shift_div_r.
  - change 0%Q with (inject_Z 0). rewrite <- Zlt_Qlt. lia.
  - rewrite Qmult_1_l. change 2%Q with (inject_Z 2).
    rewrite <- inject_Z_mult, <- Zle_Qle. lia.
Qed.

End RatioBound.

(** ** Stripping and the canonical form *)

Lemma space_not_alnum (c : ascii) :
  PyStr.isspace c = true -> PyStr.isalnum c = false.
Proof.
  destruct c as [[] [] [] [] [] [] [] []]; vm_compute; congruence.
Qed.

Lemma alnum_only_lstrip (s : string) :
  PyStr.alnum_only (PyStr.lstrip s) = PyStr.alnum_only s.
Proof.
  induction s as [|c s IH]; simpl; [reflexivity|].
  destruct (PyStr.isspace c) eqn:Hs; [|reflexivity].
  rewrite (space_not_alnum c Hs). exact IH.
Qed.

Lemma alnum_only_rstrip (s : string) :
  PyStr.alnum_only (PyStr.rstrip s) = PyStr.alnum_only s.
Proof.
  induction s as [|c s IH]; [reflexivity|].
  cbn [PyStr.rstrip PyStr.alnum_only].
  destruct (PyStr.rstrip s) as [|c' r] eqn:Hr.
  - simpl in IH. rewrite <- IH.
    destruct (PyStr.isspace c) eqn:Hs.
    + rewrite (space_not_alnum c Hs). reflexivity.
    + reflexivity.
  - cbn [PyStr.alnum_only] in *. rewrite IH. reflexivity.
Qed.

Lemma canonical_of_stripped (query : string) :
  PyStr.alnum_only (PyStr.strip (PyStr.lower query)) = Spec.canonical query.
Proof.
  unfold PyStr.strip, Spec.canonical.
  rewrite alnum_only_rstrip, alnum_only_lstrip. reflexivity.
Qed.

(** ** The stable descending sort *)

Section SortDesc.

Implicit Types (m : PropertyMatch) (ms : list PropertyMatch).

Lemma insert_desc_perm m ms : Permutation (insert_desc m ms) (m :: ms).
Proof.
  induction ms as [|m' ms IH]; simpl; [reflexivity|].
  destruct (Qltb (confidence m) (confidence m')); [|reflexivity].
  rewrite IH. apply perm_swap.
Qed.

Lemma sort_desc_perm ms : Permutation (sort_desc ms) ms.
Proof.
  induction ms as [|m ms IH]; simpl; [reflexivity|].
  rewrite insert_desc_perm. apply perm_skip. exact IH.
Qed.

Lemma insert_desc_descending m ms :
  Spec.descending ms -> Spec.descending (insert_desc m ms).
Proof.
  unfold Spec.descending.
  induction ms as [|m' ms IH]; intros Hs; simpl.
  - constructor; constructor.
  - apply StronglySorted_inv in Hs. destruct Hs as [Hs Hall].
    destruct (Qltb (confidence m) (confidence m')) eqn:Hlt.
    + apply Qltb_lt in Hlt. constructor; [apply IH; exact Hs|].
      apply (Permutation_Forall (Permutation_sym (insert_desc_perm m ms))).
      constructor; [apply Qlt_le_weak; exact Hlt|exact Hall].
    + apply Qltb_ge in Hlt. constructor.
      * constructor; assumption.
      * constructor; [exact Hlt|].
        rewrite List.Forall_forall in *. intros x Hx.
        apply Qle_trans with (1 := Hall x Hx). exact Hlt.
Qed.

Lemma sort_desc_descending ms : Spec.descending (sort_desc ms).
Proof.
  induction ms as [|m ms IH]; simpl.
  - constructor.
  - apply insert_desc_descending. exact IH.
Qed.

Lemma in_firstn {A : Type} (n : nat) (l : list A) (x : A) :
  In x (firstn n l) -> In x l.
Proof.
  revert n. induction l as [|a l IH]; intros [|n]; simpl; try tauto.
  intros [->|H]; [left; reflexivity|right; exact (IH n H)].
Qed.

Lemma descending_firstn (n : nat) ms :
  Spec.descending ms -> Spec.descending (firstn n ms).
Proof.
  unfold Spec.descending. revert n.
  induction ms as [|m ms IH]; intros [|n] Hs; simpl; try constructor.
  - apply IH. apply StronglySorted_inv in Hs. tauto.
  - apply StronglySorted_inv in Hs. destruct Hs as [_ Hall].
    rewrite List.Forall_forall in *. intros x Hx. apply Hall.
    exact (in_firstn n ms x Hx).
Qed.

End SortDesc.

(** ** [search] against the specification's wording *)

Section SearchAgainstSpec.

Variable ratio : string -> string -> Q.
Hypothesis ratio_bounded : forall a b, (ratio a b <= 1)%Q.

Lemma py_max_le_1 (x y : Q) : (x <= 1)%Q -> (y <= 1)%Q -> (py_max x y <= 1)%Q.
Proof. intros Hx Hy. unfold py_max. destruct (Qltb x y); assumption. Qed.

Lemma stage_tag_agrees (s : Q) :
  (s <= 1)%Q ->
  (if Qltb s 1 then "fuzzy" else "exact")
  = (if Qeq_bool s 1 then "exact" else "fuzzy").
Proof.
  intros Hle. destruct (Qltb s 1) eqn:Hlt.
  - apply Qltb_lt in Hlt.
    destruct (Qeq_bool s 1) eqn:Heq; [|reflexivity].
    apply Qeq_bool_iff in Heq. rewrite Heq in Hlt.
    exfalso. exact (Qlt_irrefl _ Hlt).
  - apply Qltb_ge in Hlt.
    assert (s == 1)%Q as Heq by (apply Qle_antisym; assumption).
    apply Qeq_bool_iff in Heq. rewrite Heq. reflexivity.
Qed.

Lemma containment_score_le_1 (query_clean : string) (prop : GAProperty) :
  contained query_clean prop = true ->
  (0.7 + inject_Z (Z.of_nat (PyStr.len query_clean))
         / inject_Z (Z.of_nat
             (Nat.max (Nat.max (PyStr.len (name prop))
                               (PyStr.len (display_clean_of prop))) 1)) * 0.3
   <= 1)%Q.
Proof.
  intros Hc.
  assert (PyStr.len query_clean
          <= Nat.max (Nat.max (PyStr.len (name prop))
                              (PyStr.len (display_clean_of prop))) 1)%nat as Hle.
  { unfold contained in Hc. apply orb_true_iff in Hc.
    destruct Hc as [Hc|Hc]; apply contains_len in Hc; lia. }
  set (d := Nat.max (Nat.max (PyStr.len (name prop))
                             (PyStr.len (display_clean_of prop))) 1) in *.
  assert (inject_Z (Z.of_nat (PyStr.len query_clean))
          / inject_Z (Z.of_nat d) <= 1)%Q as Hq.
  { apply Qle_shift_div_r.
    - change 0%Q with (inject_Z 0). rewrite <- Zlt_Qlt. lia.
    - rewrite Qmult_1_l. rewrite <- Zle_Qle. lia. }
  lra.
Qed.

Lemma search_entry_spec (query : string) (prop : GAProperty) :
  search_entry ratio query
    (PyStr.alnum_only (PyStr.strip (PyStr.lower query))) prop
  = Ok (Spec.entry ratio query prop).
Proof.
  rewrite canonical_of_stripped. unfold search_entry, Spec.entry.
  destruct (String.eqb (id prop) query
            || String.eqb (name prop) (Spec.canonical query));
    [reflexivity|].
  unfold Spec.best_score.
  change (Spec.canonical (display_name prop)) with (display_clean_of prop).
  fold (contained (Spec.canonical query) prop).
  pose proof (ratio_bounded (Spec.canonical query) (name prop)) as Hn.
  pose proof (ratio_bounded (Spec.canonical query) (display_clean_of prop)) as Hd.
  pose proof (py_max_le_1 _ _ Hn Hd) as Hsim.
  destruct (contained (Spec.canonical query) prop) eqn:Hc.
  - pose proof (containment_score_le_1 (Spec.canonical query) prop Hc) as Hp.
    unfold py_truediv.
    destruct (Nat.max (Nat.max (PyStr.len (name prop))
                               (PyStr.len (display_clean_of prop))) 1)
      as [|n] eqn:Hmax; [lia|].
    cbn [Nat.eqb mbind result_bind].
    pose proof (py_max_le_1 _ _ Hsim Hp) as Hbest.
    destruct (Qltb 0.3 _); [|reflexivity].
    rewrite (stage_tag_agrees _ Hbest). reflexivity.
  - cbn [mbind result_bind].
    destruct (Qltb 0.3 _); [|reflexivity].
    rewrite (stage_tag_agrees _ Hsim). reflexivity.
Qed.

Lemma search_loop_spec (query : string) (props : list GAProperty) :
  search_loop ratio query
    (PyStr.alnum_only (PyStr.strip (PyStr.lower query))) props
  = Ok (Spec.included ratio query props).
Proof.
  induction props as [|prop rest IH]; [reflexivity|].
  cbn [search_loop]. rewrite search_entry_spec, IH.
  cbn [mbind result_bind]. unfold Spec.included. cbn [omap list_omap].
  destruct (Spec.entry ratio query prop); reflexivity.
Qed.

End SearchAgainstSpec.

(** ** The engine of rational scores is the float engine at exact
       arithmetic *)

Section ExactArithmetic.

Variable ratio : string -> string -> Q.

Lemma fuzzy_step_exact fuzzy_threshold query_clean best prop :
  FloatEngine.fuzzy_step FloatEngine.exact ratio fuzzy_threshold query_clean best prop
  = fuzzy_step ratio fuzzy_threshold query_clean best prop.
Proof. reflexivity. Qed.

Lemma fuzzy_loop_exact fuzzy_threshold query_clean props :
  forall best,
  FloatEngine.fuzzy_loop FloatEngine.exact ratio fuzzy_threshold query_clean best props
  = fuzzy_loop ratio fuzzy_threshold query_clean best props.
Proof.
  induction props as [|prop rest IH]; intros best; [reflexivity|].
  cbn [FloatEngine.fuzzy_loop fuzzy_loop].
  change (FloatEngine.fuzzy_step FloatEngine.exact ratio fuzzy_threshold query_clean
            best prop)
    with (fuzzy_step ratio fuzzy_threshold query_clean best prop).
  destruct (fuzzy_step ratio fuzzy_threshold query_clean best prop);
    cbn [mbind result_bind]; [apply IH|reflexivity].
Qed.

Lemma resolve_body_exact fuzzy_threshold aliases query props :
  resolve_body ratio fuzzy_threshold aliases query props
  = (m ← FloatEngine.resolve_body FloatEngine.exact ratio fuzzy_threshold aliases query
          props;
     Ok (option_map rational m)).
Proof.
  unfold resolve_body, FloatEngine.resolve_body.
  destruct props as [|p0 ps]; [reflexivity|].
  destruct (List.find _ (p0 :: ps)); [reflexivity|].
  destruct (List.find _ (p0 :: ps)); [reflexivity|].
  destruct (List.find _ (p0 :: ps)); [reflexivity|].
  destruct (alias_stage _ _ _); [reflexivity|].
  set (float_loop := FloatEngine.fuzzy_loop FloatEngine.exact ratio _ _ _ _).
  assert (float_loop = fuzzy_loop ratio fuzzy_threshold
                         (PyStr.alnum_only (PyStr.strip (PyStr.lower query)))
                         None (p0 :: ps)) as ->
    by apply fuzzy_loop_exact.
  destruct (fuzzy_loop _ _ _ _ _) as [[[[p s] t]|]|e]; reflexivity.
Qed.

Lemma search_entry_exact query query_clean prop :
  search_entry ratio query query_clean prop
  = (m ← FloatEngine.search_entry FloatEngine.exact ratio query query_clean prop;
     Ok (option_map rational m)).
Proof.
  unfold search_entry, FloatEngine.search_entry.
  destruct (String.eqb (id prop) query || String.eqb (name prop) query_clean);
    [reflexivity|].
  destruct (PyStr.contains query_clean (name prop)
            || PyStr.contains query_clean (display_clean_of prop)).
  - unfold py_truediv, FloatEngine.py_truediv.
    destruct (Nat.max _ 1 =? 0)%nat; [reflexivity|].
    cbn [mbind result_bind].
    change (FloatEngine.flt FloatEngine.exact) with Qltb.
    change (FloatEngine.f0_3 FloatEngine.exact) with 0.3%Q.
    destruct (Qltb 0.3 _); [|reflexivity].
    cbn [option_map]. unfold rational. cbn. reflexivity.
  - cbn [mbind result_bind].
    change (FloatEngine.flt FloatEngine.exact) with Qltb.
    change (FloatEngine.f0_3 FloatEngine.exact) with 0.3%Q.
    destruct (Qltb 0.3 _); [|reflexivity].
    reflexivity.
Qed.

Lemma search_loop_exact query query_clean props :
  search_loop ratio query query_clean props
  = (ms ← FloatEngine.search_loop FloatEngine.exact ratio query query_clean props;
     Ok (List.map rational ms)).
Proof.
  induction props as [|prop rest IH]; [reflexivity|].
  cbn [search_loop FloatEngine.search_loop].
  rewrite search_entry_exact, IH.
  destruct (FloatEngine.search_entry FloatEngine.exact ratio query query_clean prop)
    as [[m|]|e]; cbn [mbind result_bind option_map];
    destruct (FloatEngine.search_loop FloatEngine.exact ratio query query_clean rest);
    reflexivity.
Qed.

Lemma insert_desc_exact m ms :
  List.map rational (FloatEngine.insert_desc FloatEngine.exact m ms)
  = insert_desc (rational m) (List.map rational ms).
Proof.
  induction ms as [|m' ms IH]; [reflexivity|].
  cbn [FloatEngine.insert_desc insert_desc List.map].
  change (FloatEngine.flt FloatEngine.exact (FloatEngine.confidence m)
            (FloatEngine.confidence m'))
    with (Qltb (confidence (rational m)) (confidence (rational m'))).
  destruct (Qltb _ _); cbn [List.map]; [rewrite IH|]; reflexivity.
Qed.

Lemma sort_desc_exact ms :
  List.map rational (FloatEngine.sort_desc FloatEngine.exact ms)
  = sort_desc (List.map rational ms).
Proof.
  induction ms as [|m ms IH]; [reflexivity|].
  cbn [FloatEngine.sort_desc sort_desc List.fold_right List.map].
  fold (FloatEngine.sort_desc FloatEngine.exact ms). fold (sort_desc (List.map rational ms)).
  rewrite insert_desc_exact, IH. reflexivity.
Qed.

Lemma search_body_exact query max_results props :
  search_body ratio query max_results props
  = (ms ← FloatEngine.search_body FloatEngine.exact ratio query max_results props;
     Ok (List.map rational ms)).
Proof.
  unfold search_body, FloatEngine.search_body.
  destruct props as [|p0 ps]; [reflexivity|].
  rewrite search_loop_exact.
  destruct (FloatEngine.search_loop _ _ _ _ _) as [ms|e]; [|reflexivity].
  cbn [mbind result_bind]. rewrite <- sort_desc_exact.
  unfold py_slice_to. rewrite List.length_map.
  destruct (max_results <? 0)%Z; rewrite List.firstn_map; reflexivity.
Qed.

Lemma resolve_exact now remote query r :
  PropertyResolver.resolve ratio now remote query r
  = let '(found, r') :=
      FloatEngine.resolve FloatEngine.exact ratio now remote query r in
    (m ← found; Ok (option_map rational m), r').
Proof.
  unfold PropertyResolver.resolve, FloatEngine.resolve.
  destruct (PropertyResolver._ensure_properties_loaded now remote r)
    as [[[]|e] r']; [|reflexivity].
  destruct (PropertyResolver._properties r') as [props|]; [|reflexivity].
  rewrite resolve_body_exact. reflexivity.
Qed.

Lemma search_exact now remote query max_results r :
  PropertyResolver.search ratio now remote query max_results r
  = let '(found, r') :=
      FloatEngine.search FloatEngine.exact ratio now remote query
        max_results r in
    (ms ← found; Ok (List.map rational ms), r').
Proof.
  unfold PropertyResolver.search, FloatEngine.search.
  destruct (PropertyResolver._ensure_properties_loaded now remote r)
    as [[[]|e] r']; [|reflexivity].
  destruct (PropertyResolver._properties r') as [props|]; [|reflexivity].
  rewrite search_body_exact. reflexivity.
Qed.

End ExactArithmetic.

(** ** Floats in order *)

Section FloatOrder.

Variable A : FloatEngine.arithmetic.
Variable S : FloatEngine.float A -> Prop.
Hypothesis ordered : FloatSpec.orders A S.

Local Abbreviation flt := (FloatEngine.flt A).

Lemma float_lt_irrefl x : S x -> flt x x = false.
Proof. intros Hx. exact (proj1 ordered x Hx). Qed.

Lemma float_lt_asym x y : S x -> S y -> flt x y = true -> flt y x = false.
Proof.
  intros Hx Hy Hlt. destruct (flt y x) eqn:E; [|reflexivity].
  pose proof (proj1 (proj2 ordered) x y x Hx Hy Hx Hlt E) as Hxx.
  rewrite (float_lt_irrefl x Hx) in Hxx. discriminate Hxx.
Qed.

(** [x <= y] and [y <= z] give [x <= z], where [x <= y] is "[y] is
    not less than [x]". *)
Lemma float_le_trans x y z :
  S x -> S y -> S z ->
  flt y x = false -> flt z y = false -> flt z x = false.
Proof.
  intros Hx Hy Hz Hxy Hyz. destruct (flt z x) eqn:E; [|reflexivity].
  destruct (proj2 (proj2 ordered) z x y Hz Hx Hy E) as [H|H]; congruence.
Qed.

Lemma float_le_lt_trans x y z :
  S x -> S y -> S z ->
  flt y x = false -> flt y z = true -> flt x z = true.
Proof.
  intros Hx Hy Hz Hxy Hyz.
  destruct (proj2 (proj2 ordered) y z x Hy Hz Hx Hyz) as [H|H];
    [congruence|exact H].
Qed.

End FloatOrder.

Lemma orders_subset (A : FloatEngine.arithmetic)
    (S S' : FloatEngine.float A -> Prop) :
  (forall x, S' x -> S x) -> FloatSpec.orders A S -> FloatSpec.orders A S'.
Proof.
  intros Hsub (Hirr & Htrans & Hco). split; [|split].
  - intros x Hx. apply Hirr, Hsub, Hx.
  - intros x y z Hx Hy Hz. apply Htrans; apply Hsub; assumption.
  - intros x y z Hx Hy Hz. apply Hco; apply Hsub; assumption.
Qed.

(** ** Binary64 in order

    [<] on binary64 orders the floats that are not NaN. *)

Lemma SFltb_rank (x y : spec_float) :
  x <> S754_nan -> y <> S754_nan ->
  SFltb x y = true
  <-> FloatEngine.below (FloatEngine.rank x) (FloatEngine.rank y).
Proof.
  intros Hx Hy. unfold SFltb, FloatEngine.below.
  destruct x as [sx|sx| |sx mx ex], y as [sy|sy| |sy my ey];
    try congruence;
    try (destruct sx); try (destruct sy);
    cbn [SFcompare FloatEngine.rank fst snd];
    try (split; [discriminate|lia]);
    try (split; [lia|reflexivity]).
  all: rewrite Pos.compare_cont_spec; cbn [Pos.switch_Eq].
  all: destruct (Z.compare_spec ex ey) as [He|He|He];
    try (split; [discriminate|lia]); try (split; [lia|reflexivity]).
  all: destruct (Pos.compare_spec mx my) as [Hm|Hm|Hm]; cbn [CompOpp];
    try (split; [discriminate|lia]); try (split; [lia|reflexivity]).
Qed.

Lemma number_not_nan (x : PrimFloat.float) :
  PrimFloat.is_nan x = false -> Prim2SF x <> S754_nan.
Proof.
  unfold PrimFloat.is_nan. rewrite FloatAxioms.eqb_spec. intros H E.
  rewrite E in H. discriminate H.
Qed.

Lemma binary64_orders :
  FloatSpec.orders FloatEngine.binary64
    (fun x => PrimFloat.is_nan x = false).
Proof.
  assert (forall x y,
            PrimFloat.is_nan x = false -> PrimFloat.is_nan y = false ->
            PrimFloat.ltb x y = true
            <-> FloatEngine.below (FloatEngine.rank (Prim2SF x))
                  (FloatEngine.rank (Prim2SF y))) as Hlt.
  { intros x y Hx Hy. rewrite FloatAxioms.ltb_spec.
    apply SFltb_rank; apply number_not_nan; assumption. }
  unfold FloatSpec.orders. cbn [FloatEngine.flt FloatEngine.binary64].
  split; [|split].
  - intros x Hx. destruct (PrimFloat.ltb x x) eqn:E; [|reflexivity].
    apply (Hlt x x Hx Hx) in E. unfold FloatEngine.below in E. lia.
  - intros x y z Hx Hy Hz Hxy Hyz.
    apply (Hlt x y Hx Hy) in Hxy. apply (Hlt y z Hy Hz) in Hyz.
    apply (Hlt x z Hx Hz). unfold FloatEngine.below in *. lia.
  - intros x y z Hx Hy Hz Hxy.
    apply (Hlt x y Hx Hy) in Hxy.
    rewrite (Hlt x z Hx Hz), (Hlt z y Hz Hy).
    unfold FloatEngine.below in *. lia.
Qed.

(** ** The descending sort of [search], over floats *)

Section FloatSort.

Variable A : FloatEngine.arithmetic.
Variable S : FloatEngine.float A -> Prop.
Hypothesis ordered : FloatSpec.orders A S.

Implicit Types (m : FloatEngine.PropertyMatch A)
  (ms : list (FloatEngine.PropertyMatch A)).

Local Abbreviation flt := (FloatEngine.flt A).
Local Abbreviation conf := (@FloatEngine.confidence A).
Local Abbreviation insert_desc := (FloatEngine.insert_desc A).
Local Abbreviation sort_desc := (FloatEngine.sort_desc A).










End FloatSort.

(** ** [search] over floats against the specification's wording *)

Section FloatSearch.

Variable A : FloatEngine.arithmetic.
Variable ratio : string -> string -> FloatEngine.float A.

Local Abbreviation flt := (FloatEngine.flt A).


Lemma float_resolve_loaded now remote query r props :
  PropertyResolver._properties r = Some props ->
  FloatEngine.resolve A ratio now remote query r
  = (FloatEngine.resolve_body A ratio (FloatEngine.fuzzy_threshold A r)
       (PropertyResolver.custom_aliases r) query props, r).
Proof.
  intros Hp. unfold FloatEngine.resolve,
    PropertyResolver._ensure_properties_loaded.
  rewrite Hp. rewrite Hp. reflexivity.
Qed.




End FloatSearch.




(** In floats the containment score of "go" in "gohome" is below the
    similarity of "go" and "geo", which equals it as a number. *)
Lemma go_scores :
  FloatEngine.flt FloatEngine.binary64
    (FloatEngine.fadd FloatEngine.binary64
       (FloatEngine.f0_7 FloatEngine.binary64)
       (FloatEngine.fmul FloatEngine.binary64
          (FloatEngine.truediv FloatEngine.binary64 2 6)
          (FloatEngine.f0_3 FloatEngine.binary64)))
    (FloatEngine.ratio64 "go" "geo") = true
  /\ (0.7 + (2 # 6) * 0.3 == Difflib.ratio "go" "geo")%Q.
Proof. split; vm_compute; reflexivity. Qed.

(** The literals of the engine at binary64 are the floats Python reads
    0.3, 0.7, 1.0 and the default threshold 0.6 as. *)
Lemma binary64_literals :
  FloatEngine.f0_3 FloatEngine.binary64 = 0x1.3333333333333p-2%float
  /\ FloatEngine.f0_7 FloatEngine.binary64 = 0x1.6666666666666p-1%float
  /\ FloatEngine.f1_0 FloatEngine.binary64 = 1%float
  /\ FloatEngine.round FloatEngine.binary64 0.6
     = 0x1.3333333333333p-1%float.
Proof. repeat split; vm_compute; reflexivity. Qed.

(** * Further properties of the code *)

(** ** The client cache: clearing, writing, statistics *)

Section CacheOperations.

Context {V : Type}.
Implicit Types (c : GAClient.t V) (key : string) (now : Q).

Lemma contains_empty_pattern (s : string) : PyStr.contains "" s = true.
Proof. destruct s; reflexivity. Qed.

Lemma filter_pattern_split (pattern : string)
    (m : gmap string (GAClient.CacheEntry V)) :
  (size (filter (λ kv, PyStr.contains pattern kv.1 = true) m)
   + size (filter (λ kv, PyStr.contains pattern kv.1 ≠ true) m))%nat
  = size m.
Proof.
  rewrite <- map_size_disj_union
    by apply (map_disjoint_filter_complement
                (λ kv, PyStr.contains pattern kv.1 = true)).
  f_equal.
  apply (map_filter_union_complement
           (λ kv, PyStr.contains pattern kv.1 = true)).
Qed.

(** [clear_cache]: with a pattern, exactly the keys that contain it
    are removed and every other entry is left as it was; the count
    returned and the entries left add up to the entries before.  The
    empty pattern is contained in every key, so it clears the whole
    cache, as no pattern does. *)
Theorem clear_cache_removes_matching_keys (pattern : string) c :
  let out := GAClient.clear_cache (Some pattern) c in
  (forall key,
     GAClient._cache out.2 !! key
     = if PyStr.contains pattern key then None else GAClient._cache c !! key)
  /\ (out.1 + GAClient.total_entries out.2)%nat = GAClient.total_entries c
  /\ GAClient.clear_cache None c
     = (GAClient.total_entries c, GAClient.with_cache c ∅)
  /\ (GAClient.clear_cache (Some "") c).1 = GAClient.total_entries c
  /\ GAClient._cache (GAClient.clear_cache (Some "") c).2 = ∅.
Proof.
  intros out. split; [|split; [|split; [|split]]].
  - intros key. unfold out. cbn [GAClient.clear_cache snd GAClient._cache
      GAClient.with_cache].
    destruct (PyStr.contains pattern key) eqn:Hc.
    + apply map_lookup_filter_None. right. intros x _. simpl. congruence.
    + destruct (GAClient._cache c !! key) as [x|] eqn:Hk.
      * apply map_lookup_filter_Some. split; [exact Hk|]. simpl. congruence.
      * apply map_lookup_filter_None. left. exact Hk.
  - unfold out, GAClient.total_entries.
    cbn [GAClient.clear_cache fst snd GAClient._cache GAClient.with_cache].
    apply filter_pattern_split.
  - reflexivity.
  - unfold GAClient.total_entries.
    cbn [GAClient.clear_cache fst].
    pose proof (filter_pattern_split "" (GAClient._cache c)) as Hs.
    assert (filter (λ kv : string * GAClient.CacheEntry V,
                      PyStr.contains "" kv.1 ≠ true) (GAClient._cache c) = ∅)
      as Hempty.
    { apply map_eq. intros key. rewrite lookup_empty.
      apply map_lookup_filter_None. right. intros x _ Hne. apply Hne.
      apply contains_empty_pattern. }
    rewrite Hempty, map_size_empty in Hs. lia.
  - cbn [GAClient.clear_cache snd GAClient._cache GAClient.with_cache].
    apply map_eq. intros key. rewrite lookup_empty.
    apply map_lookup_filter_None. right. intros x _ Hne. apply Hne.
    apply contains_empty_pattern.
Qed.

(** [_set_cached]: the entry written is the one read back under its
    key, every other key keeps its entry, the entry count grows by one
    exactly when the key was absent, and a second write under the same
    key leaves no trace of the first. *)
Theorem set_cached_last_write_wins now now' key (v v' : V)
    (ttl ttl' : option Z) c :
  let c1 := GAClient._set_cached now key v ttl c in
  (forall key',
     GAClient._cache c1 !! key'
     = if decide (key = key')
       then Some {| GAClient.data := v;
                    GAClient.expires_at :=
                      (now + inject_Z (GAClient.effective_ttl ttl c))%Q |}
       else GAClient._cache c !! key')
  /\ GAClient.total_entries c1
     = match GAClient._cache c !! key with
       | Some _ => GAClient.total_entries c
       | None => S (GAClient.total_entries c)
       end
  /\ GAClient._set_cached now' key v' ttl' c1
     = GAClient._set_cached now' key v' ttl' c.
Proof.
  intros c1. split; [|split].
  - intros key'. unfold c1, GAClient._set_cached.
    cbn [GAClient._cache GAClient.with_cache]. apply lookup_insert.
  - unfold c1, GAClient._set_cached, GAClient.total_entries.
    cbn [GAClient._cache GAClient.with_cache].
    rewrite map_size_insert. destruct (GAClient._cache c !! key); reflexivity.
  - unfold c1, GAClient._set_cached, GAClient.with_cache.
    cbn [GAClient._cache GAClient.cache_ttl GAClient.property_cache_ttl
         GAClient.fetches].
    rewrite insert_insert_eq.
    replace (GAClient.effective_ttl ttl'
               {| GAClient.cache_ttl := GAClient.cache_ttl c;
                  GAClient.property_cache_ttl := GAClient.property_cache_ttl c;
                  GAClient._cache :=
                    <[key:={| GAClient.data := v;
                              GAClient.expires_at :=
                                (now + inject_Z (GAClient.effective_ttl ttl c))%Q
                           |}]> (GAClient._cache c);
                  GAClient.fetches := GAClient.fetches c |})
      with (GAClient.effective_ttl ttl' c) by reflexivity.
    reflexivity.
Qed.

(** An explicit [ttl] of 0 is replaced by the client's [cache_ttl].
    When the lifetime in effect is zero or negative, the entry written
    is never served: any read from the instant of the write on returns
    absent and removes it. *)
Theorem set_cached_without_lifetime now written key (v : V)
    (ttl : option Z) c :
  (GAClient.effective_ttl ttl c <= 0)%Z ->
  (written <= now)%Q ->
  let c1 := GAClient._set_cached written key v ttl c in
  GAClient._set_cached written key v (Some 0%Z) c
  = GAClient._set_cached written key v None c
  /\ (GAClient._get_cached now key c1).1 = None
  /\ GAClient._cache (GAClient._get_cached now key c1).2 !! key = None
  /\ GAClient._cache (GAClient._get_cached now key c1).2
     = delete key (GAClient._cache c).
Proof.
  intros Httl Hnow c1. split; [reflexivity|].
  pose proof (set_cached_lookup written key v ttl c) as Hk. fold c1 in Hk.
  assert (GAClient.expires_at
            {| GAClient.data := v;
               GAClient.expires_at :=
                 (written + inject_Z (GAClient.effective_ttl ttl c))%Q |}
          <= now)%Q as Hexp.
  { cbn [GAClient.expires_at].
    assert (inject_Z (GAClient.effective_ttl ttl c) <= 0)%Q.
    { change 0%Q with (inject_Z 0). rewrite <- Zle_Qle. exact Httl. }
    lra. }
  rewrite (get_cached_expired now key c1 _ Hk Hexp).
  cbn [fst snd GAClient._cache GAClient.with_cache].
  split; [reflexivity|]. split; [apply lookup_delete_eq|].
  unfold c1, GAClient._set_cached. cbn [GAClient._cache GAClient.with_cache].
  apply delete_insert_eq.
Qed.

(** [get_cache_stats]: valid and expired entries add up to the total.
    An expired entry is counted, as expired, until a read of its key
    evicts it; that read lowers the total and the expired count by one
    and leaves the valid count as it was. *)
Theorem cache_stats_and_lazy_eviction now key c
    (entry : GAClient.CacheEntry V) :
  GAClient._cache c !! key = Some entry ->
  (GAClient.expires_at entry <= now)%Q ->
  let '(total, valid, expired) := GAClient.get_cache_stats now c in
  let '(total', valid', expired') :=
    GAClient.get_cache_stats now (GAClient._get_cached now key c).2 in
  (valid + expired)%nat = total
  /\ (valid' + expired')%nat = total'
  /\ S total' = total /\ valid' = valid /\ S expired' = expired.
Proof.
  intros Hk Hexp.
  pose proof (get_cached_expired_size now key c entry Hk Hexp) as Hsize.
  rewrite (get_cached_expired now key c entry Hk Hexp) in *.
  unfold GAClient.get_cache_stats, GAClient.total_entries in *.
  cbn [snd GAClient._cache GAClient.with_cache] in *.
  assert (filter (λ kv : string * GAClient.CacheEntry V,
                    GAClient.is_valid now kv.2 = true)
            (delete key (GAClient._cache c))
          = filter (λ kv : string * GAClient.CacheEntry V,
                      GAClient.is_valid now kv.2 = true) (GAClient._cache c))
    as Hsame.
  { apply map_filter_delete_not. intros y Hy. rewrite Hk in Hy.
    injection Hy as <-. cbn [snd]. unfold GAClient.is_valid.
    apply Qltb_ge in Hexp. congruence. }
  rewrite Hsame.
  pose proof (map_size_filter
                (λ kv : string * GAClient.CacheEntry V,
                   GAClient.is_valid now kv.2 = true)
                (GAClient._cache c)) as Hle.
  pose proof (map_size_filter
                (λ kv : string * GAClient.CacheEntry V,
                   GAClient.is_valid now kv.2 = true)
                (delete key (GAClient._cache c))) as Hle'.
  rewrite Hsame in Hle'. lia.
Qed.

End CacheOperations.

Lemma set_cached_without_lifetime_witness :
  (GAClient._get_cached 0 "k"
     (GAClient._set_cached 0 "k" 7%nat (Some (-5)%Z)
        (GAClient.init Sample.config))).1 = None.
Proof.
  refine (proj1 (proj2
    (set_cached_without_lifetime 0 0 "k" 7%nat (Some (-5)%Z)
       (GAClient.init Sample.config) _ _))).
  - vm_compute. discriminate.
  - apply Qle_refl.
Defined.

Lemma cache_stats_and_lazy_eviction_witness :
  let c := GAClient._set_cached 0 "k" 7%nat (Some 1%Z)
             (GAClient.init Sample.config) in
  let '(total, valid, expired) := GAClient.get_cache_stats 2 c in
  let '(total', valid', expired') :=
    GAClient.get_cache_stats 2 (GAClient._get_cached 2 "k" c).2 in
  (valid + expired)%nat = total
  /\ (valid' + expired')%nat = total'
  /\ S total' = total /\ valid' = valid /\ S expired' = expired.
Proof.
  refine (cache_stats_and_lazy_eviction 2 "k"
            (GAClient._set_cached 0 "k" 7%nat (Some 1%Z)
               (GAClient.init Sample.config))
            {| GAClient.data := 7%nat;
               GAClient.expires_at := (0 + inject_Z 1)%Q |} _ _).
  - reflexivity.
  - vm_compute. discriminate.
Defined.

(** ** The directory fetch: what it stores, when, and what it leaves *)

Section DirectoryFetchWindow.

Implicit Types (c : GAClient.t (list GAProperty)) (now : Q).

Lemma discover_fetch_path now (props : list GAProperty) c :
  (GAClient._get_cached now "properties" c).1 = None ->
  GAClient.discover_properties now (Ok props) c
  = (Ok props,
     GAClient._set_cached now "properties" props
       (Some (GAClient.property_cache_ttl c))
       (GAClient.with_fetch (GAClient._get_cached now "properties" c).2)).
Proof.
  intros Hmiss. unfold GAClient.discover_properties, GAClient.discover_properties_at.
  assert (GAClient.property_cache_ttl
            (GAClient._get_cached now "properties" c).2
          = GAClient.property_cache_ttl c) as Httl.
  { unfold GAClient._get_cached.
    destruct (GAClient._cache c !! "properties") as [entry|]; [|reflexivity].
    destruct (GAClient.is_valid now entry); reflexivity. }
  destruct (GAClient._get_cached now "properties" c) as [cached c'].
  simpl in Hmiss, Httl. subst cached. cbn [snd].
  cbn [GAClient.with_fetch GAClient.property_cache_ttl]. rewrite Httl.
  reflexivity.
Qed.

Lemma get_cached_keeps_other_keys {V : Type} now (key key' : string)
    (c : GAClient.t V) :
  key <> key' ->
  GAClient._cache (GAClient._get_cached now key c).2 !! key'
  = GAClient._cache c !! key'.
Proof.
  intros Hne. unfold GAClient._get_cached.
  destruct (GAClient._cache c !! key) as [entry|]; [|reflexivity].
  destruct (GAClient.is_valid now entry); [reflexivity|].
  cbn [snd GAClient._cache GAClient.with_cache].
  apply lookup_delete_ne. exact Hne.
Qed.

(** [discover_properties] reads and writes the cache under the key
    "properties" only: whatever it returns, every other entry and both
    configured lifetimes are as before. *)
Theorem discover_touches_only_its_key now remote c (key : string) :
  key <> "properties" ->
  let c' := (GAClient.discover_properties now remote c).2 in
  GAClient._cache c' !! key = GAClient._cache c !! key
  /\ GAClient.cache_ttl c' = GAClient.cache_ttl c
  /\ GAClient.property_cache_ttl c' = GAClient.property_cache_ttl c.
Proof.
  intros Hne c'.
  pose proof (get_cached_keeps_other_keys now "properties" key c
                (not_eq_sym Hne)) as Hget.
  assert (GAClient.cache_ttl (GAClient._get_cached now "properties" c).2
          = GAClient.cache_ttl c
          /\ GAClient.property_cache_ttl
               (GAClient._get_cached now "properties" c).2
             = GAClient.property_cache_ttl c) as [Hc Hp].
  { unfold GAClient._get_cached.
    destruct (GAClient._cache c !! "properties") as [entry|]; [|auto].
    destruct (GAClient.is_valid now entry); auto. }
  unfold c', GAClient.discover_properties,
    GAClient.discover_properties_at.
  destruct (GAClient._get_cached now "properties" c) as [cached c1].
  cbn [snd] in Hget, Hc, Hp.
  destruct cached as [[|prop rest]|]; destruct remote as [props|e];
    cbn [snd GAClient._set_cached GAClient.with_fetch GAClient.with_cache
         GAClient._cache GAClient.cache_ttl GAClient.property_cache_ttl];
    try rewrite (lookup_insert_ne _ "properties" key) by (apply not_eq_sym, Hne);
    auto.
Qed.

Lemma discover_touches_only_its_key_witness :
  let c := GAClient._set_cached 0 "metadata:111" [] None Sample.fresh_client in
  GAClient._cache
    (GAClient.discover_properties 1 (Ok Sample.acme) c).2 !! "metadata:111"
  = GAClient._cache c !! "metadata:111".
Proof.
  refine (proj1 (discover_touches_only_its_key 1 (Ok Sample.acme)
                   (GAClient._set_cached 0 "metadata:111" [] None
                      Sample.fresh_client) "metadata:111" _)).
  discriminate.
Defined.

(** A call of [discover_properties] that raises has stored nothing:
    the exception is the one of the remote directory, which was asked,
    and the cache is as before, but for an expired "properties" entry,
    which the read has evicted. *)
Theorem discover_failure_stores_nothing now remote c (e : exn) :
  (GAClient.discover_properties now remote c).1 = Raise e ->
  let c' := (GAClient.discover_properties now remote c).2 in
  remote = Raise e
  /\ GAClient.fetches c' = S (GAClient.fetches c)
  /\ GAClient._cache c' = GAClient._cache (GAClient._get_cached now "properties" c).2
  /\ (GAClient._cache c' = GAClient._cache c
      \/ GAClient._cache c' = delete "properties" (GAClient._cache c))
  /\ (GAClient._get_cached now "properties" c').1
     = (GAClient._get_cached now "properties" c).1.
Proof.
  intros Hraise c'.
  pose proof (discover_raises_only_remote now remote c e Hraise) as ->.
  assert (c' = GAClient.with_fetch (GAClient._get_cached now "properties" c).2)
    as Hc'.
  { unfold c', GAClient.discover_properties,
      GAClient.discover_properties_at in *.
    destruct (GAClient._get_cached now "properties" c)
      as [[[|prop rest]|] c1]; cbn [fst snd] in *;
      try reflexivity; discriminate Hraise. }
  split; [reflexivity|].
  rewrite Hc'. unfold GAClient._get_cached.
  destruct (GAClient._cache c !! "properties") as [entry|] eqn:Hk.
  - destruct (GAClient.is_valid now entry) eqn:Hv;
      cbn [fst snd GAClient.with_fetch GAClient.with_cache GAClient._cache
           GAClient.fetches].
    + rewrite Hk, Hv. auto.
    + rewrite lookup_delete_eq. auto.
  - cbn [fst snd GAClient.with_fetch GAClient._cache GAClient.fetches].
    rewrite Hk. auto.
Qed.

Lemma discover_failure_stores_nothing_witness :
  GAClient._cache
    (GAClient.discover_properties 0 (Raise GAClientError)
       Sample.fresh_client).2
  = GAClient._cache
      (GAClient._get_cached 0 "properties" Sample.fresh_client).2.
Proof.
  exact (proj1 (proj2 (proj2
    (discover_failure_stores_nothing 0 (Raise GAClientError)
       Sample.fresh_client GAClientError eq_refl)))).
Defined.

Lemma discover_fetch_path_at now stored (props : list GAProperty) c :
  (GAClient._get_cached now "properties" c).1 = None ->
  GAClient.discover_properties_at now stored (Ok props) c
  = (Ok props,
     GAClient._set_cached stored "properties" props
       (Some (GAClient.property_cache_ttl c))
       (GAClient.with_fetch (GAClient._get_cached now "properties" c).2)).
Proof.
  intros Hmiss. unfold GAClient.discover_properties_at.
  assert (GAClient.property_cache_ttl
            (GAClient._get_cached now "properties" c).2
          = GAClient.property_cache_ttl c) as Httl.
  { unfold GAClient._get_cached.
    destruct (GAClient._cache c !! "properties") as [entry|]; [|reflexivity].
    destruct (GAClient.is_valid now entry); reflexivity. }
  destruct (GAClient._get_cached now "properties" c) as [cached c'].
  simpl in Hmiss, Httl. subst cached. cbn [snd].
  cbn [GAClient.with_fetch GAClient.property_cache_ttl]. rewrite Httl.
  reflexivity.
Qed.

Lemma discover_served_from_cache_at now stored remote c entry prop rest :
  GAClient._cache c !! "properties" = Some entry ->
  (now < GAClient.expires_at entry)%Q ->
  GAClient.data entry = prop :: rest ->
  GAClient.discover_properties_at now stored remote c = (Ok (prop :: rest), c).
Proof.
  intros Hk Hlt Hd. unfold GAClient.discover_properties_at.
  rewrite (get_cached_valid now "properties" c entry Hk Hlt), Hd.
  reflexivity.
Qed.

(** The property-list window, for a non-empty list.  A call that
    finds no valid entry at its cache test fetches once and stores the
    list for [property_cache_ttl] seconds from the instant [stored] at
    which [_set_cached] reads the clock, after the listing has
    answered; the instant of the cache test does not enter the expiry.
    Every later call whose cache test reads the clock before
    [stored + ttl] returns that list and leaves the client alone,
    whatever the remote directory would answer, failure included; a
    call whose cache test reads [stored + ttl] or later fetches again,
    and the stored list is replaced by the new one, with the expiry
    counted from that call's own write. *)
Theorem discover_window_for_non_empty_list tested stored (prop : GAProperty)
    (rest : list GAProperty) c :
  (GAClient._get_cached tested "properties" c).1 = None ->
  (0 < GAClient.property_cache_ttl c)%Z ->
  let ttl := inject_Z (GAClient.property_cache_ttl c) in
  let first :=
    GAClient.discover_properties_at tested stored (Ok (prop :: rest)) c in
  first.1 = Ok (prop :: rest)
  /\ GAClient.fetches first.2 = S (GAClient.fetches c)
  /\ GAClient._cache first.2 !! "properties"
     = Some {| GAClient.data := prop :: rest;
               GAClient.expires_at := (stored + ttl)%Q |}
  /\ (forall now stored' remote,
        (now < stored + ttl)%Q ->
        GAClient.discover_properties_at now stored' remote first.2
        = (Ok (prop :: rest), first.2))
  /\ (forall now stored' (props : list GAProperty),
        (stored + ttl <= now)%Q ->
        let second :=
          GAClient.discover_properties_at now stored' (Ok props) first.2 in
        second.1 = Ok props
        /\ GAClient.fetches second.2 = S (S (GAClient.fetches c))
        /\ GAClient._cache second.2 !! "properties"
           = Some {| GAClient.data := props;
                     GAClient.expires_at := (stored' + ttl)%Q |}).
Proof.
  intros Hmiss Httl ttl first.
  assert (forall c0 : GAClient.t (list GAProperty),
            GAClient.property_cache_ttl c0 = GAClient.property_cache_ttl c ->
            GAClient.effective_ttl (Some (GAClient.property_cache_ttl c)) c0
            = GAClient.property_cache_ttl c) as Heff.
  { intros c0 _. unfold GAClient.effective_ttl.
    destruct (GAClient.property_cache_ttl c =? 0)%Z eqn:E; [lia|reflexivity]. }
  assert (forall t (c0 : GAClient.t (list GAProperty)),
            GAClient.property_cache_ttl
              (GAClient._get_cached t "properties" c0).2
            = GAClient.property_cache_ttl c0
            /\ GAClient.fetches (GAClient._get_cached t "properties" c0).2
               = GAClient.fetches c0) as Hkeep.
  { intros t c0. unfold GAClient._get_cached.
    destruct (GAClient._cache c0 !! "properties") as [entry|]; [|auto].
    destruct (GAClient.is_valid t entry); auto. }
  assert (first = (Ok (prop :: rest),
                   GAClient._set_cached stored "properties" (prop :: rest)
                     (Some (GAClient.property_cache_ttl c))
                     (GAClient.with_fetch
                        (GAClient._get_cached tested "properties" c).2)))
    as Hfirst by (apply discover_fetch_path_at; exact Hmiss).
  assert (GAClient._cache first.2 !! "properties"
          = Some {| GAClient.data := prop :: rest;
                    GAClient.expires_at := (stored + ttl)%Q |}) as Hentry.
  { rewrite Hfirst. cbn [snd]. rewrite set_cached_lookup.
    rewrite Heff by apply (Hkeep tested c). reflexivity. }
  assert (GAClient.property_cache_ttl first.2 = GAClient.property_cache_ttl c
          /\ GAClient.fetches first.2 = S (GAClient.fetches c)) as [Hp1 Hf1].
  { rewrite Hfirst.
    cbn [snd GAClient._set_cached GAClient.with_cache GAClient.with_fetch
         GAClient.property_cache_ttl GAClient.fetches].
    destruct (Hkeep tested c) as [-> ->]. auto. }
  split; [rewrite Hfirst; reflexivity|]. split; [exact Hf1|].
  split; [exact Hentry|]. split.
  - intros now stored' remote Hlt.
    apply (discover_served_from_cache_at now stored' remote first.2 _ prop rest
             Hentry); [exact Hlt|reflexivity].
  - intros now stored' props Hle second.
    assert ((GAClient._get_cached now "properties" first.2).1 = None) as Hm2.
    { rewrite (get_cached_expired now "properties" first.2 _ Hentry Hle).
      reflexivity. }
    unfold second.
    rewrite (discover_fetch_path_at now stored' props first.2 Hm2).
    cbn [fst snd]. split; [reflexivity|]. split.
    + cbn [GAClient._set_cached GAClient.with_cache GAClient.with_fetch
           GAClient.fetches].
      destruct (Hkeep now first.2) as [_ ->]. rewrite Hf1. reflexivity.
    + rewrite set_cached_lookup. rewrite Hp1.
      rewrite Heff by (cbn [GAClient.with_fetch GAClient.property_cache_ttl];
                       rewrite (proj1 (Hkeep now first.2)); exact Hp1).
      reflexivity.
Qed.

(** The list is fetched at 0 and stored at 5, for 3600 seconds: a call
    at 3604 is still served from the cache. *)
Lemma discover_window_for_non_empty_list_witness :
  GAClient._cache
    (GAClient.discover_properties_at 0 5 (Ok Sample.acme)
       Sample.fresh_client).2 !! "properties"
  = Some {| GAClient.data := Sample.acme;
            GAClient.expires_at := (5 + inject_Z 3600)%Q |}
  /\ GAClient.discover_properties_at 3604 3609 (Raise GAClientError)
       (GAClient.discover_properties_at 0 5 (Ok Sample.acme)
          Sample.fresh_client).2
     = (Ok Sample.acme,
        (GAClient.discover_properties_at 0 5 (Ok Sample.acme)
           Sample.fresh_client).2).
Proof.
  destruct (discover_window_for_non_empty_list 0 5
              (build_property "111" "Acme Blog" "1001" None)
              [build_property "222" "Acme Shop" "1001" None]
              Sample.fresh_client eq_refl ltac:(reflexivity))
    as (_ & _ & Hentry & Hserved & _).
  split; [exact Hentry|].
  apply (Hserved 3604%Q 3609%Q (Raise GAClientError)). reflexivity.
Defined.

End DirectoryFetchWindow.

(** ** The resolver between loads *)

Section ResolverSessions.

Variable ratio : string -> string -> Q.
Implicit Types (r : PropertyResolver.t) (now : Q).

Lemma get_property_id_loaded now remote query r props :
  PropertyResolver._properties r = Some props ->
  PropertyResolver.get_property_id ratio now remote query r
  = (m ← resolve_body ratio (PropertyResolver.fuzzy_threshold r)
           (PropertyResolver.custom_aliases r) query props;
     Ok (match m with
         | Some m => Some (id (property m))
         | None => None
         end),
     r).
Proof.
  intros Hp. unfold PropertyResolver.get_property_id.
  rewrite (resolve_loaded ratio now remote query r props Hp). reflexivity.
Qed.

Lemma perform_loaded r props (ev : Session.event) :
  PropertyResolver._properties r = Some props ->
  Session.perform ratio r ev = r.
Proof.
  intros Hp. unfold Session.perform. destruct (Session.what ev).
  - rewrite (resolve_loaded ratio _ _ _ r props Hp). reflexivity.
  - rewrite (search_loaded ratio _ _ _ _ r props Hp). reflexivity.
  - rewrite (list_all_loaded _ _ r props Hp). reflexivity.
  - rewrite (get_property_id_loaded _ _ _ r props Hp). reflexivity.
Qed.

(** Once loaded, a resolver is never refreshed by its own calls: after
    any sequence of [resolve], [search], [list_all] and
    [get_property_id] calls, at any times and whatever the remote
    directory holds by then, the resolver and its client are exactly as
    before (no remote call, no cache read) and [list_all] still returns
    the list loaded first.  Only [clear_cache] ends this. *)
Theorem loaded_resolver_is_never_refreshed r props
    (events : list Session.event) now remote :
  PropertyResolver._properties r = Some props ->
  Session.run ratio r events = r
  /\ PropertyResolver.list_all now remote (Session.run ratio r events)
     = (Ok props, r)
  /\ GAClient.fetches (PropertyResolver.client (Session.run ratio r events))
     = GAClient.fetches (PropertyResolver.client r).
Proof.
  intros Hp.
  assert (Session.run ratio r events = r) as Hrun.
  { unfold Session.run. induction events as [|ev events IH]; [reflexivity|].
    cbn [List.fold_left]. rewrite (perform_loaded r props ev Hp). exact IH. }
  rewrite Hrun. split; [reflexivity|]. split; [|reflexivity].
  apply list_all_loaded. exact Hp.
Qed.

(** For every record R of the loaded list, [get_property_id (id R)]
    returns the id of R, also when several records carry that id. *)
Theorem get_property_id_of_an_id now remote r props (R : GAProperty) :
  PropertyResolver._properties r = Some props ->
  In R props ->
  PropertyResolver.get_property_id ratio now remote (id R) r
  = (Ok (Some (id R)), r).
Proof.
  intros Hp HR.
  rewrite (get_property_id_loaded now remote (id R) r props Hp).
  destruct (find_hit (fun prop => String.eqb (id prop) (id R)) props R HR
              (String.eqb_refl _)) as [P HP].
  pose proof (find_some _ _ HP) as [_ Heq]. apply String.eqb_eq in Heq.
  unfold resolve_body. destruct props as [|p0 ps]; [destruct HR|].
  rewrite HP. cbn [mbind result_bind found property]. rewrite Heq.
  reflexivity.
Qed.

End ResolverSessions.

Lemma loaded_resolver_is_never_refreshed_witness :
  Session.run Difflib.ratio (Sample.loaded None None Sample.acme)
    [ {| Session.at_time := 10; Session.directory := Ok [];
         Session.what := Session.Resolve "acme" |};
      {| Session.at_time := 99999; Session.directory := Raise GAClientError;
         Session.what := Session.Search "blog" 5 |};
      {| Session.at_time := 100000; Session.directory := Ok [Sample.my_site];
         Session.what := Session.ListAll |} ]
  = Sample.loaded None None Sample.acme.
Proof.
  exact (proj1 (loaded_resolver_is_never_refreshed Difflib.ratio
                  (Sample.loaded None None Sample.acme) Sample.acme _
                  0 (Ok []) eq_refl)).
Defined.

Lemma get_property_id_of_an_id_witness :
  PropertyResolver.get_property_id Difflib.ratio 0 (Ok []) "555"
    (Sample.loaded None None [Sample.twin_a; Sample.twin_b])
  = (Ok (Some "555"), Sample.loaded None None [Sample.twin_a; Sample.twin_b]).
Proof.
  exact (get_property_id_of_an_id Difflib.ratio 0 (Ok [])
           (Sample.loaded None None [Sample.twin_a; Sample.twin_b])
           [Sample.twin_a; Sample.twin_b] Sample.twin_b eq_refl
           (or_intror (or_introl eq_refl))).
Defined.

(** ** The exact stages in order *)

Lemma find_at {A : Type} (f : A -> bool) (pre post : list A) (x : A) :
  f x = true -> (forall y, In y pre -> f y = false) ->
  List.find f (pre ++ x :: post) = Some x.
Proof.
  intros Hx Hpre. induction pre as [|a pre IH]; simpl.
  - rewrite Hx. reflexivity.
  - rewrite (Hpre a (or_introl eq_refl)). apply IH.
    intros y Hy. apply Hpre. right. exact Hy.
Qed.

Lemma find_all_false {A : Type} (f : A -> bool) (l : list A) :
  (forall y, In y l -> f y = false) -> List.find f l = None.
Proof.
  intros H. destruct (List.find f l) as [x|] eqn:Hf; [|reflexivity].
  apply find_some in Hf. destruct Hf as [Hin Hx].
  rewrite (H x Hin) in Hx. discriminate.
Qed.

(** Stages 2 and 3 of [resolve], behind stage 1: when no record has
    the query as its id, the first record whose name is the canonical
    query is returned at confidence 1.0, stage exact_name, before any
    display name, alias or fuzzy score is looked at; when no name
    matches either, the first record whose lower-cased display name is
    the lower-cased, stripped query is returned, stage display_name. *)
Theorem exact_name_then_display_name
    (ratio : string -> string -> Q) (now : Q)
    (remote : result (list GAProperty)) (query : string)
    (r : PropertyResolver.t) (pre post : list GAProperty) (P : GAProperty) :
  let props := pre ++ P :: post in
  let query_lower := PyStr.strip (PyStr.lower query) in
  let query_clean := PyStr.alnum_only query_lower in
  PropertyResolver._properties r = Some props ->
  (forall x, In x props -> id x <> query) ->
  (name P = query_clean ->
   (forall x, In x pre -> name x <> query_clean) ->
   PropertyResolver.resolve ratio now remote query r
   = (Ok (Some {| property := P; confidence := 1;
                  matched_on := "exact_name" |}), r))
  /\ ((forall x, In x props -> name x <> query_clean) ->
      PyStr.lower (display_name P) = query_lower ->
      (forall x, In x pre -> PyStr.lower (display_name x) <> query_lower) ->
      PropertyResolver.resolve ratio now remote query r
      = (Ok (Some {| property := P; confidence := 1;
                     matched_on := "display_name" |}), r)).
Proof.
  intros props query_lower query_clean Hp Hid.
  assert (List.find (fun prop => String.eqb (id prop) query) props = None)
    as H1.
  { apply find_all_false. intros y Hy. apply String.eqb_neq. auto. }
  assert (exists p0 ps, props = p0 :: ps) as (p0 & ps & Hcons).
  { unfold props. destruct pre; simpl; eauto. }
  rewrite (resolve_loaded ratio now remote query r props Hp).
  split.
  - intros HP Hpre.
    assert (List.find (fun prop => String.eqb (name prop) query_clean) props
            = Some P) as H2.
    { apply find_at; [apply String.eqb_eq; exact HP|].
      intros y Hy. apply String.eqb_neq. auto. }
    unfold resolve_body. rewrite Hcons in *.
    fold query_lower. fold query_clean. rewrite H1, H2. reflexivity.
  - intros Hname HP Hpre.
    assert (List.find (fun prop => String.eqb (name prop) query_clean) props
            = None) as H2.
    { apply find_all_false. intros y Hy. apply String.eqb_neq. auto. }
    assert (List.find (fun prop =>
              String.eqb (PyStr.lower (display_name prop)) query_lower) props
            = Some P) as H3.
    { apply find_at; [apply String.eqb_eq; exact HP|].
      intros y Hy. apply String.eqb_neq. auto. }
    unfold resolve_body. rewrite Hcons in *.
    fold query_lower. fold query_clean. rewrite H1, H2, H3. reflexivity.
Qed.

Lemma exact_name_then_display_name_witness :
  PropertyResolver.resolve Difflib.ratio 0 (Ok []) " ACME-shop! "
    (Sample.loaded None None Sample.acme)
  = (Ok (Some {| property := build_property "222" "Acme Shop" "1001" None;
                 confidence := 1; matched_on := "exact_name" |}),
     Sample.loaded None None Sample.acme).
Proof.
  refine (proj1 (exact_name_then_display_name Difflib.ratio 0 (Ok [])
                   " ACME-shop! " (Sample.loaded None None Sample.acme)
                   [build_property "111" "Acme Blog" "1001" None] []
                   (build_property "222" "Acme Shop" "1001" None)
                   eq_refl _) eq_refl _).
  - intros x H E. sample_members; vm_compute in E; discriminate E.
  - intros x H E. sample_members; vm_compute in E; discriminate E.
Defined.

(** ** The winner of the fuzzy stage *)

(** ** The winner of the fuzzy stage, over floats *)

Section FloatWinner.

Variable A : FloatEngine.arithmetic.
Variable ratio : string -> string -> FloatEngine.float A.
Variable S : FloatEngine.float A -> Prop.
Hypothesis ordered : FloatSpec.orders A S.

Implicit Types (best : FloatEngine.best_match A) (prop : GAProperty)
  (props : list GAProperty) (score : FloatEngine.float A).

Local Abbreviation flt := (FloatEngine.flt A).
Local Abbreviation offer := (FloatSpec.offer A).
Local Abbreviation score_of := (FloatSpec.score_of A).
Local Abbreviation candidates := (FloatSpec.candidates A ratio).

Lemma float_partial_candidate_value query_clean prop :
  name prop <> query_clean ->
  FloatEngine.partial_candidate A query_clean prop
  = Ok (if contained query_clean prop
           && flt (FloatEngine.f0_3 A)
                (FloatEngine.truediv A (PyStr.len query_clean)
                   (Nat.max (PyStr.len (name prop))
                            (PyStr.len (display_clean_of prop))))
        then Some (FloatEngine.fadd A (FloatEngine.f0_7 A)
                     (FloatEngine.fmul A
                        (FloatEngine.truediv A (PyStr.len query_clean)
                           (Nat.max (PyStr.len (name prop))
                                    (PyStr.len (display_clean_of prop))))
                        (FloatEngine.f0_3 A)))
        else None).
Proof.
  intros Hne. unfold FloatEngine.partial_candidate.
  fold (contained query_clean prop).
  destruct (contained query_clean prop) eqn:Hc; [|reflexivity].
  pose proof (partial_divisor_positive query_clean prop Hc Hne) as Hpos.
  unfold FloatEngine.py_truediv.
  destruct (Nat.max (PyStr.len (name prop)) (PyStr.len (display_clean_of prop)))
    as [|n]; [lia|].
  cbn [Nat.eqb mbind result_bind andb].
  destruct (flt _ _); reflexivity.
Qed.

Lemma float_fuzzy_step_offers fuzzy_threshold query_clean best prop :
  name prop <> query_clean ->
  let quotient :=
    FloatEngine.truediv A (PyStr.len query_clean)
      (Nat.max (PyStr.len (name prop))
               (PyStr.len (display_clean_of prop))) in
  FloatEngine.fuzzy_step A ratio fuzzy_threshold query_clean best prop
  = Ok (offer (contained query_clean prop
               && flt (FloatEngine.f0_3 A) quotient)
          prop (FloatEngine.fadd A (FloatEngine.f0_7 A)
                  (FloatEngine.fmul A quotient (FloatEngine.f0_3 A)))
          "partial"
          (offer (flt fuzzy_threshold
                    (ratio query_clean (display_clean_of prop)))
             prop (ratio query_clean (display_clean_of prop)) "fuzzy_display"
             (offer (flt fuzzy_threshold (ratio query_clean (name prop)))
                prop (ratio query_clean (name prop)) "fuzzy_name" best))).
Proof.
  intros Hne quotient. unfold FloatEngine.fuzzy_step.
  rewrite (float_partial_candidate_value query_clean prop Hne).
  fold quotient. unfold FloatSpec.offer.
  destruct (contained query_clean prop
            && flt (FloatEngine.f0_3 A) quotient);
    cbn [mbind result_bind andb]; [|reflexivity].
  destruct (FloatEngine.improves A _ _); reflexivity.
Qed.

Lemma float_candidates_in fuzzy_threshold query_clean prop score tag :
  In (score, tag) (candidates fuzzy_threshold query_clean prop)
  <-> (flt fuzzy_threshold (ratio query_clean (name prop)) = true
       /\ (score, tag) = (ratio query_clean (name prop), "fuzzy_name"))
      \/ (flt fuzzy_threshold (ratio query_clean (display_clean_of prop))
          = true
          /\ (score, tag)
             = (ratio query_clean (display_clean_of prop), "fuzzy_display"))
      \/ (contained query_clean prop
          && flt (FloatEngine.f0_3 A)
               (FloatEngine.truediv A (PyStr.len query_clean)
                  (Nat.max (PyStr.len (name prop))
                           (PyStr.len (display_clean_of prop)))) = true
          /\ (score, tag)
             = (FloatEngine.fadd A (FloatEngine.f0_7 A)
                  (FloatEngine.fmul A
                     (FloatEngine.truediv A (PyStr.len query_clean)
                        (Nat.max (PyStr.len (name prop))
                                 (PyStr.len (display_clean_of prop))))
                     (FloatEngine.f0_3 A)), "partial")).
Proof.
  unfold FloatSpec.candidates. rewrite !List.in_app_iff.
  destruct (flt fuzzy_threshold (ratio query_clean (name prop)));
    destruct (flt fuzzy_threshold (ratio query_clean (display_clean_of prop)));
    destruct (contained query_clean prop && _);
    cbn [In]; intuition (try discriminate; try congruence; auto).
Qed.

Lemma float_offer_cases (gate : bool) prop score (tag : string) best :
  offer gate prop score tag best = best
  \/ (offer gate prop score tag best = Some (prop, score, tag)
      /\ gate = true
      /\ forall s0, score_of best = Some s0 -> flt s0 score = true).
Proof.
  unfold FloatSpec.offer. destruct gate; [|left; reflexivity].
  destruct best as [[[p0 s0] t0]|]; simpl.
  - destruct (flt s0 score) eqn:Hlt; [|left; reflexivity].
    right. split; [reflexivity|]. split; [reflexivity|].
    intros s [= <-]. exact Hlt.
  - right. split; [reflexivity|]. split; [reflexivity|]. discriminate.
Qed.

Lemma float_offer_scored (gate : bool) prop score (tag : string) best :
  (gate = true -> S score) -> FloatSpec.scored A S best ->
  FloatSpec.scored A S (offer gate prop score tag best).
Proof.
  intros Hg Hb. destruct (float_offer_cases gate prop score tag best)
    as [->|(-> & G & _)]; [exact Hb|].
  intros s0 [= <-]. exact (Hg G).
Qed.

Lemma float_offer_covers_gate (gate : bool) prop score (tag : string) best :
  S score -> FloatSpec.scored A S best -> gate = true ->
  exists s3, score_of (offer gate prop score tag best) = Some s3
             /\ flt s3 score = false.
Proof.
  intros Hs Hb ->. unfold FloatSpec.offer.
  destruct best as [[[p0 s0] t0]|]; simpl.
  - destruct (flt s0 score) eqn:Hlt; simpl.
    + exists score. split; [reflexivity|].
      exact (float_lt_irrefl A S ordered score Hs).
    + exists s0. split; [reflexivity|exact Hlt].
  - exists score. split; [reflexivity|].
    exact (float_lt_irrefl A S ordered score Hs).
Qed.

Lemma float_offer_keeps_score (gate : bool) prop score (tag : string) best s0 :
  (gate = true -> S score) -> FloatSpec.scored A S best ->
  score_of best = Some s0 ->
  exists s3, score_of (offer gate prop score tag best) = Some s3
             /\ flt s3 s0 = false.
Proof.
  intros Hg Hb Hs. destruct (float_offer_cases gate prop score tag best)
    as [->|(-> & G & Hlt)].
  - exists s0. split; [exact Hs|].
    exact (float_lt_irrefl A S ordered s0 (Hb s0 Hs)).
  - exists score. split; [reflexivity|].
    exact (float_lt_asym A S ordered s0 score (Hb s0 Hs) (Hg G) (Hlt s0 Hs)).
Qed.

Lemma float_fuzzy_step_best fuzzy_threshold query_clean best prop :
  name prop <> query_clean ->
  (forall s t, In (s, t) (candidates fuzzy_threshold query_clean prop) ->
     S s) ->
  FloatSpec.scored A S best ->
  exists b3,
    FloatEngine.fuzzy_step A ratio fuzzy_threshold query_clean best prop
    = Ok b3
    /\ FloatSpec.scored A S b3
    /\ (b3 = best
        \/ exists s t,
             b3 = Some (prop, s, t)
             /\ In (s, t) (candidates fuzzy_threshold query_clean prop)
             /\ forall s0, score_of best = Some s0 -> flt s0 s = true)
    /\ (forall s' t',
          In (s', t') (candidates fuzzy_threshold query_clean prop) ->
          exists s3, score_of b3 = Some s3 /\ flt s3 s' = false)
    /\ (forall s0, score_of best = Some s0 ->
          exists s3, score_of b3 = Some s3 /\ flt s3 s0 = false).
Proof.
  intros Hne Hcand Hbest.
  eexists. split; [apply float_fuzzy_step_offers, Hne|].
  set (quotient := FloatEngine.truediv A (PyStr.len query_clean)
                     (Nat.max (PyStr.len (name prop))
                              (PyStr.len (display_clean_of prop)))).
  set (g1 := flt fuzzy_threshold (ratio query_clean (name prop))).
  set (s1 := ratio query_clean (name prop)).
  set (g2 := flt fuzzy_threshold (ratio query_clean (display_clean_of prop))).
  set (s2 := ratio query_clean (display_clean_of prop)).
  set (g3 := contained query_clean prop
             && flt (FloatEngine.f0_3 A) quotient).
  set (s3 := FloatEngine.fadd A (FloatEngine.f0_7 A)
               (FloatEngine.fmul A quotient (FloatEngine.f0_3 A))).
  assert (g1 = true -> S s1) as M1.
  { intros G. apply (Hcand s1 "fuzzy_name"), float_candidates_in.
    left. split; [exact G|reflexivity]. }
  assert (g2 = true -> S s2) as M2.
  { intros G. apply (Hcand s2 "fuzzy_display"), float_candidates_in.
    right. left. split; [exact G|reflexivity]. }
  assert (g3 = true -> S s3) as M3.
  { intros G. apply (Hcand s3 "partial"), float_candidates_in.
    right. right. split; [exact G|reflexivity]. }
  set (b1 := offer g1 prop s1 "fuzzy_name" best).
  set (b2 := offer g2 prop s2 "fuzzy_display" b1).
  set (b3 := offer g3 prop s3 "partial" b2).
  assert (FloatSpec.scored A S b1) as B1 by (apply float_offer_scored; assumption).
  assert (FloatSpec.scored A S b2) as B2 by (apply float_offer_scored; assumption).
  assert (FloatSpec.scored A S b3) as B3 by (apply float_offer_scored; assumption).
  assert (forall s0, score_of best = Some s0 ->
            exists x, score_of b1 = Some x /\ flt x s0 = false) as K1
    by (intros s0 H; apply float_offer_keeps_score; assumption).
  assert (forall s0, score_of b1 = Some s0 ->
            exists x, score_of b2 = Some x /\ flt x s0 = false) as K2
    by (intros s0 H; apply float_offer_keeps_score; assumption).
  assert (forall s0, score_of b2 = Some s0 ->
            exists x, score_of b3 = Some x /\ flt x s0 = false) as K3
    by (intros s0 H; apply float_offer_keeps_score; assumption).
  assert (forall s0, score_of best = Some s0 ->
            exists x, score_of b2 = Some x /\ flt x s0 = false) as K12.
  { intros s0 H. destruct (K1 s0 H) as (x & Hx & Hle).
    destruct (K2 x Hx) as (y & Hy & Hle'). exists y.
    split; [exact Hy|].
    exact (float_le_trans A S ordered s0 x y (Hbest s0 H) (B1 x Hx)
             (B2 y Hy) Hle Hle'). }
  split; [exact B3|]. split; [|split].
  - destruct (float_offer_cases g3 prop s3 "partial" b2)
      as [E3|(E3 & G3 & L3)].
    + destruct (float_offer_cases g2 prop s2 "fuzzy_display" b1)
        as [E2|(E2 & G2 & L2)].
      * destruct (float_offer_cases g1 prop s1 "fuzzy_name" best)
          as [E1|(E1 & G1 & L1)].
        -- left. unfold b3, b2, b1 in *. congruence.
        -- right. exists s1, "fuzzy_name". split; [|split].
           ++ unfold b3, b2, b1 in *. congruence.
           ++ apply float_candidates_in. left. split; [exact G1|reflexivity].
           ++ exact L1.
      * right. exists s2, "fuzzy_display". split; [|split].
        -- unfold b3, b2 in *. congruence.
        -- apply float_candidates_in. right. left.
           split; [exact G2|reflexivity].
        -- intros s0 H. destruct (K1 s0 H) as (x & Hx & Hle).
           exact (float_le_lt_trans A S ordered s0 x s2 (Hbest s0 H)
                    (B1 x Hx) (M2 G2) Hle (L2 x Hx)).
    + right. exists s3, "partial". split; [exact E3|]. split.
      * apply float_candidates_in. right. right.
        split; [exact G3|reflexivity].
      * intros s0 H. destruct (K12 s0 H) as (x & Hx & Hle).
        exact (float_le_lt_trans A S ordered s0 x s3 (Hbest s0 H)
                 (B2 x Hx) (M3 G3) Hle (L3 x Hx)).
  - intros s' t' Hc. pose proof (Hcand s' t' Hc) as Hs'.
    apply float_candidates_in in Hc.
    destruct Hc as [[G [= -> ->]]|[[G [= -> ->]]|[G [= -> ->]]]].
    + destruct (float_offer_covers_gate g1 prop s1 "fuzzy_name" best
                  Hs' Hbest G) as (x & Hx & Hle).
      destruct (K2 x Hx) as (y & Hy & Hle2).
      destruct (K3 y Hy) as (z & Hz & Hle3).
      exists z. split; [exact Hz|].
      apply (float_le_trans A S ordered s1 y z Hs' (B2 y Hy) (B3 z Hz));
        [|exact Hle3].
      exact (float_le_trans A S ordered s1 x y Hs' (B1 x Hx) (B2 y Hy)
               Hle Hle2).
    + destruct (float_offer_covers_gate g2 prop s2 "fuzzy_display" b1
                  Hs' B1 G) as (x & Hx & Hle).
      destruct (K3 x Hx) as (z & Hz & Hle3).
      exists z. split; [exact Hz|].
      exact (float_le_trans A S ordered s2 x z Hs' (B2 x Hx) (B3 z Hz)
               Hle Hle3).
    + exact (float_offer_covers_gate g3 prop s3 "partial" b2 Hs' B2 G).
  - intros s0 H. destruct (K12 s0 H) as (x & Hx & Hle).
    destruct (K3 x Hx) as (z & Hz & Hle3). exists z.
    split; [exact Hz|].
    exact (float_le_trans A S ordered s0 x z (Hbest s0 H) (B2 x Hx)
             (B3 z Hz) Hle Hle3).
Qed.

Lemma float_fuzzy_loop_best fuzzy_threshold query_clean props :
  forall (done : list GAProperty) best,
  (forall x, In x props -> name x <> query_clean) ->
  (forall x s t, In x (done ++ props) ->
     In (s, t) (candidates fuzzy_threshold query_clean x) -> S s) ->
  (best = None ->
   forall x, In x done -> candidates fuzzy_threshold query_clean x = []) ->
  (forall p s t, best = Some (p, s, t) ->
     exists pre post,
       done = pre ++ p :: post
       /\ In (s, t) (candidates fuzzy_threshold query_clean p)
       /\ (forall x s' t', In x pre ->
             In (s', t') (candidates fuzzy_threshold query_clean x) ->
             flt s' s = true)
       /\ (forall x s' t', In x done ->
             In (s', t') (candidates fuzzy_threshold query_clean x) ->
             flt s s' = false)) ->
  exists best',
    FloatEngine.fuzzy_loop A ratio fuzzy_threshold query_clean best props
    = Ok best'
    /\ (best' = None ->
        forall x, In x (done ++ props) ->
          candidates fuzzy_threshold query_clean x = [])
    /\ (forall p s t, best' = Some (p, s, t) ->
          exists pre post,
            done ++ props = pre ++ p :: post
            /\ In (s, t) (candidates fuzzy_threshold query_clean p)
            /\ (forall x s' t', In x pre ->
                  In (s', t') (candidates fuzzy_threshold query_clean x) ->
                  flt s' s = true)
            /\ (forall x s' t', In x (done ++ props) ->
                  In (s', t') (candidates fuzzy_threshold query_clean x) ->
                  flt s s' = false)).
Proof.
  induction props as [|prop rest IH]; intros done best Hne HS Hnone Hsome.
  - exists best. split; [reflexivity|]. rewrite List.app_nil_r.
    split; [exact Hnone|exact Hsome].
  - assert (FloatSpec.scored A S best) as Hbest.
    { intros s0 Hs0. destruct best as [[[p s] t]|]; [|discriminate Hs0].
      injection Hs0 as <-.
      destruct (Hsome p s t eq_refl) as (pre & post & -> & Hc & _).
      apply (HS p s t); [|exact Hc].
      rewrite <- List.app_assoc. apply List.in_or_app. right. left.
      reflexivity. }
    assert (forall s t,
              In (s, t) (candidates fuzzy_threshold query_clean prop) ->
              S s) as Hprop.
    { intros s t. apply HS. apply List.in_or_app. right. left. reflexivity. }
    destruct (float_fuzzy_step_best fuzzy_threshold query_clean best prop
                (Hne prop (or_introl eq_refl)) Hprop Hbest)
      as (b1 & Hstep & Hb1 & Hcase & Hcover & Hkeep).
    destruct (IH (done ++ [prop]) b1
                (fun x Hx => Hne x (or_intror Hx)))
      as (b' & Hloop & Hres0 & Hres).
    + intros x s t Hx. apply HS. rewrite <- List.app_assoc in Hx. exact Hx.
    + intros -> x Hx.
      apply List.in_app_or in Hx. destruct Hx as [Hx|[<-|[]]].
      * destruct Hcase as [Hb|(s & t & [=] & _)].
        exact (Hnone (eq_sym Hb) x Hx).
      * destruct (candidates fuzzy_threshold query_clean prop)
          as [|[s' t'] l] eqn:E; [reflexivity|].
        destruct (Hcover s' t' (or_introl eq_refl)) as (s3 & [=] & _).
    + intros p s t ->.
      destruct Hcase as [Hb|(s1 & t1 & [= -> -> ->] & Hc1 & Hlt)].
      * destruct (Hsome p s t (eq_sym Hb))
          as (pre & post & -> & Hwin & Hpre & Hall).
        exists pre, (post ++ [prop]). split; [|split; [|split]].
        -- rewrite <- List.app_assoc. reflexivity.
        -- exact Hwin.
        -- exact Hpre.
        -- intros x s' t' Hx Hc. apply List.in_app_or in Hx.
           destruct Hx as [Hx|[<-|[]]]; [exact (Hall x s' t' Hx Hc)|].
           destruct (Hcover s' t' Hc) as (s3 & [= <-] & Hle). exact Hle.
      * assert (forall x s' t', In x done ->
                  In (s', t') (candidates fuzzy_threshold query_clean x) ->
                  flt s' s1 = true) as Hbefore.
        { intros x s' t' Hx Hc. destruct best as [[[p0 s0] t0]|].
          - destruct (Hsome p0 s0 t0 eq_refl)
              as (pre & post & _ & _ & _ & Hall).
            apply (float_le_lt_trans A S ordered s' s0 s1).
            + apply (HS x s' t'); [|exact Hc].
              apply List.in_or_app. left. exact Hx.
            + exact (Hbest s0 eq_refl).
            + exact (Hprop s1 t1 Hc1).
            + exact (Hall x s' t' Hx Hc).
            + apply Hlt. reflexivity.
          - exfalso. rewrite (Hnone eq_refl x Hx) in Hc. exact Hc. }
        exists done, []. split; [reflexivity|]. split; [exact Hc1|].
        split; [exact Hbefore|].
        intros x s' t' Hx Hc. apply List.in_app_or in Hx.
        destruct Hx as [Hx|[<-|[]]].
        -- apply (float_lt_asym A S ordered s' s1);
             [|exact (Hprop s1 t1 Hc1)|exact (Hbefore x s' t' Hx Hc)].
           apply (HS x s' t'); [|exact Hc].
           apply List.in_or_app. left. exact Hx.
        -- destruct (Hcover s' t' Hc) as (s3 & [= <-] & Hle). exact Hle.
    + exists b'. split; [|split].
      * cbn [FloatEngine.fuzzy_loop]. rewrite Hstep. exact Hloop.
      * intros Hb' x Hx. apply (Hres0 Hb').
        rewrite <- List.app_assoc. exact Hx.
      * intros p s t Hb'.
        destruct (Hres p s t Hb') as (pre & post & E & H0 & H1 & H2).
        rewrite <- List.app_assoc in E, H2. cbn [List.app] in E, H2.
        exists pre, post. auto.
Qed.

Lemma float_candidate_scores_in fuzzy_threshold query_clean props x s t :
  In x props ->
  In (s, t) (candidates fuzzy_threshold query_clean x) ->
  In s (FloatSpec.candidate_scores A ratio fuzzy_threshold query_clean props).
Proof.
  intros Hx Hc. unfold FloatSpec.candidate_scores.
  apply List.in_concat.
  exists (List.map fst (candidates fuzzy_threshold query_clean x)).
  split.
  - apply List.in_map_iff. exists x. split; [reflexivity|exact Hx].
  - apply List.in_map_iff. exists (s, t). split; [reflexivity|exact Hc].
Qed.

End FloatWinner.

(** When [resolve] returns from its fuzzy stage, the match
    returned is a candidate of its record (the score and tag of a gate
    the record passes: name similarity or display similarity above the
    threshold, or containment), every candidate of a record earlier in
    the list has a lower score, and no candidate of any record has a
    higher one: the highest score wins, and among equal scores the
    earliest record.  Scores are floats and are compared as the code
    compares them; the candidate scores of the list are assumed to be
    in order under [<] (none is a NaN). *)
Theorem fuzzy_winner_is_highest_and_earliest
    (A : FloatEngine.arithmetic)
    (ratio : string -> string -> FloatEngine.float A) (now : Q)
    (remote : result (list GAProperty)) (query : string)
    (r : PropertyResolver.t) (props : list GAProperty)
    (m : FloatEngine.PropertyMatch A) :
  let theta := FloatEngine.fuzzy_threshold A r in
  let query_clean := PyStr.alnum_only (PyStr.strip (PyStr.lower query)) in
  let candidates := FloatSpec.candidates A ratio theta query_clean in
  PropertyResolver._properties r = Some props ->
  exact_stages_miss query props ->
  (forall entry, In entry (PropertyResolver.custom_aliases r) ->
     ~ entry_satisfied query props entry) ->
  FloatSpec.orders A
    (fun x =>
       In x (FloatSpec.candidate_scores A ratio theta query_clean props)) ->
  (FloatEngine.resolve A ratio now remote query r).1 = Ok (Some m) ->
  exists pre post,
    props = pre ++ FloatEngine.property m :: post
    /\ In (FloatEngine.confidence m, FloatEngine.matched_on m)
         (candidates (FloatEngine.property m))
    /\ (forall x s' t', In x pre -> In (s', t') (candidates x) ->
          FloatEngine.flt A s' (FloatEngine.confidence m) = true)
    /\ (forall x s' t', In x props -> In (s', t') (candidates x) ->
          FloatEngine.flt A (FloatEngine.confidence m) s' = false).
Proof.
  intros theta query_clean candidates Hp Hmiss Hal Hord Hm.
  rewrite (float_resolve_loaded A ratio now remote query r props Hp) in Hm.
  cbn [fst] in Hm.
  destruct props as [|p0 ps]; [discriminate Hm|].
  apply alias_stage_none in Hal.
  pose proof (proj1 (exact_stages_miss_find query (p0 :: ps)) Hmiss)
    as (H1 & H2 & H3).
  destruct (float_fuzzy_loop_best A ratio _ Hord theta query_clean
              (p0 :: ps) [] None
              (fun x Hx => proj1 (proj2 (Hmiss x Hx))))
    as (best & Hloop & _ & Hres).
  { intros x s t Hx Hc.
    exact (float_candidate_scores_in A ratio theta query_clean (p0 :: ps)
             x s t Hx Hc). }
  { intros _ x []. }
  { discriminate. }
  unfold FloatEngine.resolve_body in Hm. rewrite H1, H2, H3, Hal in Hm.
  fold query_clean theta in Hm. rewrite Hloop in Hm.
  cbn [mbind result_bind] in Hm.
  destruct best as [[[p s] t]|]; [|discriminate Hm].
  injection Hm as <-.
  cbn [FloatEngine.property FloatEngine.confidence FloatEngine.matched_on].
  exact (Hres p s t eq_refl).
Qed.

Lemma fuzzy_winner_is_highest_and_earliest_witness :
  exists m pre post,
    (FloatEngine.resolve FloatEngine.binary64 FloatEngine.ratio64 0 (Ok [])
       "go" (Sample.loaded None None SampleFloats.sites)).1 = Ok (Some m)
    /\ display_name (FloatEngine.property m) = "Geo"
    /\ FloatEngine.matched_on m = "fuzzy_name"
    /\ SampleFloats.sites = pre ++ FloatEngine.property m :: post
    /\ (forall x s' t', In x pre ->
          In (s', t')
            (FloatSpec.candidates FloatEngine.binary64 FloatEngine.ratio64
               (FloatEngine.fuzzy_threshold FloatEngine.binary64
                  (Sample.loaded None None SampleFloats.sites)) "go" x) ->
          FloatEngine.flt FloatEngine.binary64 s' (FloatEngine.confidence m)
          = true).
Proof.
  eexists.
  assert ((FloatEngine.resolve FloatEngine.binary64 FloatEngine.ratio64 0
             (Ok []) "go" (Sample.loaded None None SampleFloats.sites)).1
          = Ok (Some _)) as Hm
    by (vm_compute; reflexivity).
  assert (FloatSpec.orders FloatEngine.binary64
            (fun x =>
               In x (FloatSpec.candidate_scores FloatEngine.binary64
                       FloatEngine.ratio64
                       (FloatEngine.fuzzy_threshold FloatEngine.binary64
                          (Sample.loaded None None SampleFloats.sites))
                       (PyStr.alnum_only (PyStr.strip (PyStr.lower "go")))
                       SampleFloats.sites))) as Hord.
  { set (scores := FloatSpec.candidate_scores _ _ _ _ _).
    vm_compute in scores. subst scores.
    split; [|split].
    - intros x Hx; sample_members; vm_compute; reflexivity.
    - intros x y z Hx Hy Hz; sample_members;
        vm_compute; intros H1 H2;
        first [discriminate H1|discriminate H2|reflexivity].
    - intros x y z Hx Hy Hz; sample_members;
        vm_compute; intros H1;
        first [discriminate H1|left; reflexivity|right; reflexivity]. }
  destruct (fuzzy_winner_is_highest_and_earliest FloatEngine.binary64
              FloatEngine.ratio64 0 (Ok []) "go"
              (Sample.loaded None None SampleFloats.sites) SampleFloats.sites
              _ eq_refl ltac:(sample_miss) ltac:(intros entry []) Hord Hm)
    as (pre & post & Hsplit & _ & Hpre & _).
  exists pre, post. split; [exact Hm|].
  split; [reflexivity|]. split; [reflexivity|].
  split; [exact Hsplit|exact Hpre].
Defined.

(** ** What [resolve] and [search] return, and how they agree *)

Lemma py_max_ge_l (x y : Q) : (x <= py_max x y)%Q.
Proof.
  unfold py_max. destruct (Qltb x y) eqn:E; [|apply Qle_refl].
  apply Qlt_le_weak, Qltb_lt, E.
Qed.

Lemma py_max_ge_r (x y : Q) : (y <= py_max x y)%Q.
Proof.
  unfold py_max. destruct (Qltb x y) eqn:E; [apply Qle_refl|].
  apply Qltb_ge, E.
Qed.

Lemma py_max_le (x y b : Q) : (x <= b)%Q -> (y <= b)%Q -> (py_max x y <= b)%Q.
Proof. intros Hx Hy. unfold py_max. destruct (Qltb x y); assumption. Qed.

Lemma partial_quotient_le_1 (query_clean : string) (prop : GAProperty) :
  contained query_clean prop = true ->
  name prop <> query_clean ->
  (partial_quotient query_clean prop <= 1)%Q.
Proof.
  intros Hc Hne.
  pose proof (partial_divisor_positive query_clean prop Hc Hne) as Hpos.
  assert (PyStr.len query_clean
          <= Nat.max (PyStr.len (name prop))
                     (PyStr.len (display_clean_of prop)))%nat as Hle.
  { unfold contained in Hc. apply orb_true_iff in Hc.
    destruct Hc as [Hc|Hc]; apply contains_len in Hc; lia. }
  unfold partial_quotient. apply Qle_shift_div_r.
  - change 0%Q with (inject_Z 0). rewrite <- Zlt_Qlt. lia.
  - rewrite Qmult_1_l. rewrite <- Zle_Qle. lia.
Qed.

Section ResultsAgree.

Variable ratio : string -> string -> Q.
Hypothesis ratio_bounded : forall a b, (ratio a b <= 1)%Q.
Implicit Types (r : PropertyResolver.t) (props : list GAProperty).

Lemma best_score_le_1 (query : string) (prop : GAProperty) :
  (Spec.best_score ratio query prop <= 1)%Q.
Proof.
  unfold Spec.best_score.
  change (Spec.canonical (display_name prop)) with (display_clean_of prop).
  fold (contained (Spec.canonical query) prop).
  pose proof (py_max_le _ _ 1%Q
                (ratio_bounded (Spec.canonical query) (name prop))
                (ratio_bounded (Spec.canonical query) (display_clean_of prop)))
    as Hsim.
  destruct (contained (Spec.canonical query) prop) eqn:Hc; [|exact Hsim].
  apply py_max_le; [exact Hsim|].
  apply containment_score_le_1. exact Hc.
Qed.

Lemma entry_facts (query : string) (prop : GAProperty) (m : PropertyMatch) :
  Spec.entry ratio query prop = Some m ->
  property m = prop
  /\ (0.3 < confidence m)%Q
  /\ (confidence m <= 1)%Q
  /\ ((matched_on m = "exact" /\ (confidence m == 1)%Q)
      \/ (matched_on m = "fuzzy" /\ (confidence m < 1)%Q
          /\ id prop <> query /\ name prop <> Spec.canonical query
          /\ confidence m = Spec.best_score ratio query prop)).
Proof.
  unfold Spec.entry.
  destruct (String.eqb (id prop) query
            || String.eqb (name prop) (Spec.canonical query)) eqn:Hex.
  - intros [= <-]. cbn. repeat split; try reflexivity; try lra.
    left. split; reflexivity.
  - apply orb_false_iff in Hex. destruct Hex as [Hid Hname].
    apply String.eqb_neq in Hid, Hname.
    destruct (Qltb 0.3 (Spec.best_score ratio query prop)) eqn:Hin;
      [|discriminate].
    intros [= <-]. cbn [property confidence matched_on].
    apply Qltb_lt in Hin. pose proof (best_score_le_1 query prop) as Hle.
    split; [reflexivity|]. split; [exact Hin|]. split; [exact Hle|].
    destruct (Qeq_bool (Spec.best_score ratio query prop) 1) eqn:Heq.
    + left. split; [reflexivity|apply Qeq_bool_iff; exact Heq].
    + right. split; [reflexivity|]. split; [|auto].
      apply Qle_lt_or_eq in Hle. destruct Hle as [Hlt|Heq']; [exact Hlt|].
      apply Qeq_bool_iff in Heq'. congruence.
Qed.

Lemma included_member (query : string) props (m : PropertyMatch) :
  In m (Spec.included ratio query props)
  <-> exists prop, In prop props /\ Spec.entry ratio query prop = Some m.
Proof.
  unfold Spec.included. rewrite <- list_elem_of_In, list_elem_of_omap.
  split; intros (prop & H1 & H2); exists prop; split; auto;
    apply list_elem_of_In; exact H1.
Qed.

Lemma search_as_spec now remote query (max_results : Z) r props :
  PropertyResolver._properties r = Some props ->
  (0 <= max_results)%Z ->
  (PropertyResolver.search ratio now remote query max_results r).1
  = Ok (firstn (Z.to_nat max_results)
          (sort_desc (Spec.included ratio query props))).
Proof.
  intros Hp Hn.
  rewrite (search_loaded ratio now remote query max_results r props Hp).
  cbn [fst]. unfold search_body.
  destruct props as [|p0 ps]; [destruct (Z.to_nat max_results); reflexivity|].
  rewrite (search_loop_spec ratio ratio_bounded query (p0 :: ps)).
  cbn [mbind result_bind]. unfold py_slice_to.
  destruct (max_results <? 0)%Z eqn:E; [lia|reflexivity].
Qed.

Lemma search_member now remote query (max_results : Z) r props found m :
  PropertyResolver._properties r = Some props ->
  (0 <= max_results)%Z ->
  (PropertyResolver.search ratio now remote query max_results r).1 = Ok found ->
  In m found ->
  exists prop, In prop props /\ Spec.entry ratio query prop = Some m.
Proof.
  intros Hp Hn Hs Hm.
  rewrite (search_as_spec now remote query max_results r props Hp Hn) in Hs.
  injection Hs as <-. apply in_firstn in Hm.
  apply included_member.
  apply (Permutation_in m (sort_desc_perm _)). exact Hm.
Qed.

Lemma included_length (query : string) props :
  (List.length (Spec.included ratio query props) <= List.length props)%nat.
Proof.
  unfold Spec.included. induction props as [|p ps IH]; [simpl; lia|].
  cbn [omap list_omap]. destruct (Spec.entry ratio query p); simpl in *; lia.
Qed.

End ResultsAgree.

(** Every entry [search] returns is a record of the loaded list, with
    a confidence above 0.3 and at most 1.0; its stage is exact exactly
    when its confidence is 1.0 and fuzzy otherwise; and there are at
    most [max_results] entries, and no more than there are records. *)
Theorem search_results_are_snapshot_records
    (ratio : string -> string -> Q) (now : Q)
    (remote : result (list GAProperty)) (query : string) (max_results : Z)
    (r : PropertyResolver.t) (props : list GAProperty)
    (found : list PropertyMatch) :
  (forall a b, (ratio a b <= 1)%Q) ->
  PropertyResolver._properties r = Some props ->
  (0 <= max_results)%Z ->
  (PropertyResolver.search ratio now remote query max_results r).1 = Ok found ->
  (forall m, In m found ->
     In (property m) props
     /\ (0.3 < confidence m)%Q /\ (confidence m <= 1)%Q
     /\ (matched_on m = "exact" \/ matched_on m = "fuzzy")
     /\ (matched_on m = "exact" <-> (confidence m == 1)%Q))
  /\ (List.length found <= Z.to_nat max_results)%nat
  /\ (List.length found <= List.length props)%nat.
Proof.
  intros Hratio Hp Hn Hs. split; [|split].
  - intros m Hm.
    destruct (search_member ratio Hratio now remote query max_results r props
                found m Hp Hn Hs Hm) as (prop & Hin & He).
    destruct (entry_facts ratio Hratio query prop m He)
      as (Hprop & Hlo & Hhi & Htag).
    rewrite Hprop. split; [exact Hin|]. split; [exact Hlo|].
    split; [exact Hhi|].
    destruct Htag as [[Ht Hc]|(Ht & Hc & _)].
    + split; [left; exact Ht|]. tauto.
    + split; [right; exact Ht|]. split.
      * rewrite Ht. discriminate.
      * intros Heq. rewrite Heq in Hc. exfalso. exact (Qlt_irrefl _ Hc).
  - rewrite (search_as_spec ratio Hratio now remote query max_results r props
               Hp Hn) in Hs.
    injection Hs as <-. rewrite List.length_firstn. lia.
  - rewrite (search_as_spec ratio Hratio now remote query max_results r props
               Hp Hn) in Hs.
    injection Hs as <-. rewrite List.length_firstn.
    pose proof (Permutation_length
                  (sort_desc_perm (Spec.included ratio query props))) as Hl.
    pose proof (included_length ratio query props). lia.
Qed.

Lemma search_results_are_snapshot_records_witness :
  exists found,
    (PropertyResolver.search Difflib.ratio 0 (Ok []) "blog" 5
       (Sample.loaded None None Sample.acme)).1 = Ok found
    /\ (List.length found <= List.length Sample.acme)%nat.
Proof.
  eexists.
  assert ((PropertyResolver.search Difflib.ratio 0 (Ok []) "blog" 5
             (Sample.loaded None None Sample.acme)).1 = Ok _) as Hs
    by (vm_compute; reflexivity).
  split; [exact Hs|].
  exact (proj2 (proj2 (search_results_are_snapshot_records Difflib.ratio 0
                         (Ok []) "blog" 5
                         (Sample.loaded None None Sample.acme) Sample.acme _
                         difflib_ratio_le_1 eq_refl ltac:(lia) Hs))).
Defined.

(** Searching for the id of a record of the loaded list, with room for
    at least one result, puts an entry of confidence 1.0 and stage
    exact at the head of the result. *)
Theorem search_for_an_id_ranks_an_exact_match_first
    (ratio : string -> string -> Q) (now : Q)
    (remote : result (list GAProperty)) (max_results : Z)
    (r : PropertyResolver.t) (props : list GAProperty) (R : GAProperty) :
  (forall a b, (ratio a b <= 1)%Q) ->
  PropertyResolver._properties r = Some props ->
  In R props ->
  (1 <= max_results)%Z ->
  exists m rest,
    (PropertyResolver.search ratio now remote (id R) max_results r).1
    = Ok (m :: rest)
    /\ (confidence m == 1)%Q
    /\ matched_on m = "exact".
Proof.
  intros Hratio Hp HR Hn.
  rewrite (search_as_spec ratio Hratio now remote (id R) max_results r props
             Hp ltac:(lia)).
  set (included := Spec.included ratio (id R) props).
  assert (In {| property := R; confidence := 1; matched_on := "exact" |}
            included) as Hin.
  { apply included_member. exists R. split; [exact HR|].
    unfold Spec.entry. rewrite String.eqb_refl. reflexivity. }
  apply (Permutation_in _ (Permutation_sym (sort_desc_perm included))) in Hin.
  pose proof (sort_desc_descending included) as Hdesc.
  assert (forall x, In x (sort_desc included) ->
            exists prop, Spec.entry ratio (id R) prop = Some x) as Hentry.
  { intros x Hx.
    apply (Permutation_in x (sort_desc_perm included)) in Hx.
    apply included_member in Hx. destruct Hx as (prop & _ & He). eauto. }
  destruct (sort_desc included) as [|m rest] eqn:Hsort; [destruct Hin|].
  destruct (Z.to_nat max_results) as [|k] eqn:Hk; [lia|].
  exists m, (firstn k rest). split; [reflexivity|].
  destruct (Hentry m (or_introl eq_refl)) as (prop & He).
  destruct (entry_facts ratio Hratio (id R) prop m He)
    as (_ & _ & Hhi & Htag).
  assert (1 <= confidence m)%Q as Hlo.
  { destruct Hin as [Hm|Hin]; [rewrite Hm; apply Qle_refl|].
    unfold Spec.descending in Hdesc. apply StronglySorted_inv in Hdesc.
    destruct Hdesc as [_ Hall]. rewrite List.Forall_forall in Hall.
    exact (Hall _ Hin). }
  assert (confidence m == 1)%Q as Heq by (apply Qle_antisym; assumption).
  split; [exact Heq|].
  destruct Htag as [[Ht _]|(_ & Hlt & _)]; [exact Ht|].
  rewrite Heq in Hlt. exfalso. exact (Qlt_irrefl _ Hlt).
Qed.

Lemma search_for_an_id_ranks_an_exact_match_first_witness :
  exists m rest,
    (PropertyResolver.search Difflib.ratio 0 (Ok []) "222" 5
       (Sample.loaded None None Sample.acme)).1 = Ok (m :: rest)
    /\ (confidence m == 1)%Q
    /\ matched_on m = "exact".
Proof.
  exact (search_for_an_id_ranks_an_exact_match_first Difflib.ratio 0 (Ok []) 5
           (Sample.loaded None None Sample.acme) Sample.acme
           (build_property "222" "Acme Shop" "1001" None)
           difflib_ratio_le_1 eq_refl (or_intror (or_introl eq_refl))
           ltac:(lia)).
Defined.

Lemma py_max_cases (x y : Q) : py_max x y = x \/ py_max x y = y.
Proof. unfold py_max. destruct (Qltb x y); auto. Qed.

Section ResolveAndSearch.

Variable ratio : string -> string -> Q.
Hypothesis ratio_bounded : forall a b, (ratio a b <= 1)%Q.
Implicit Types (r : PropertyResolver.t) (props : list GAProperty).

Lemma entry_unforced (query : string) (prop : GAProperty) :
  id prop <> query ->
  name prop <> Spec.canonical query ->
  Spec.entry ratio query prop
  = if Qltb 0.3 (Spec.best_score ratio query prop)
    then Some {| property := prop;
                 confidence := Spec.best_score ratio query prop;
                 matched_on :=
                   if Qeq_bool (Spec.best_score ratio query prop) 1
                   then "exact" else "fuzzy" |}
    else None.
Proof.
  intros Hid Hname. unfold Spec.entry.
  apply String.eqb_neq in Hid, Hname. rewrite Hid, Hname. reflexivity.
Qed.

(** The score [search] gives a record that no gate of the fuzzy loop
    of [resolve] lets through: at most the threshold, or at most 0.79. *)
Lemma best_score_of_rejected fuzzy_threshold (query : string)
    (prop : GAProperty) :
  name prop <> Spec.canonical query ->
  passes ratio fuzzy_threshold (Spec.canonical query) prop = false ->
  (Spec.best_score ratio query prop <= fuzzy_threshold)%Q
  \/ (Spec.best_score ratio query prop <= 0.79)%Q.
Proof.
  intros Hne Hpass. unfold passes in Hpass.
  apply orb_false_iff in Hpass. destruct Hpass as [Hpass Hpart].
  apply orb_false_iff in Hpass. destruct Hpass as [Hn Hd].
  apply Qltb_ge in Hn, Hd.
  unfold Spec.best_score.
  change (Spec.canonical (display_name prop)) with (display_clean_of prop).
  fold (contained (Spec.canonical query) prop).
  pose proof (py_max_le _ _ fuzzy_threshold Hn Hd) as Hsim.
  destruct (contained (Spec.canonical query) prop) eqn:Hc; [|left; exact Hsim].
  cbn [andb] in Hpart. apply Qltb_ge in Hpart.
  pose proof (partial_divisor_positive _ prop Hc Hne) as Hpos.
  replace (Nat.max (Nat.max (PyStr.len (name prop))
                            (PyStr.len (display_clean_of prop))) 1)
    with (Nat.max (PyStr.len (name prop)) (PyStr.len (display_clean_of prop)))
    by lia.
  fold (partial_quotient (Spec.canonical query) prop).
  destruct (py_max_cases
              (py_max (ratio (Spec.canonical query) (name prop))
                      (ratio (Spec.canonical query) (display_clean_of prop)))
              (0.7 + partial_quotient (Spec.canonical query) prop * 0.3)%Q)
    as [-> | ->]; [left; exact Hsim|right; lra].
Qed.

(** The score [search] gives a record is at least the score of any of
    its candidates in the fuzzy loop of [resolve]. *)
Lemma best_score_covers_candidate fuzzy_threshold (query : string)
    (prop : GAProperty) (s : Q) (t : string) :
  name prop <> Spec.canonical query ->
  candidate ratio fuzzy_threshold (Spec.canonical query) prop s t ->
  (s <= Spec.best_score ratio query prop)%Q.
Proof.
  intros Hne Hc. unfold Spec.best_score.
  change (Spec.canonical (display_name prop)) with (display_clean_of prop).
  fold (contained (Spec.canonical query) prop).
  set (sim := py_max (ratio (Spec.canonical query) (name prop))
                     (ratio (Spec.canonical query) (display_clean_of prop))).
  assert (forall x, (x <= sim)%Q ->
            (x <= if contained (Spec.canonical query) prop
                  then py_max sim
                         (0.7 + inject_Z (Z.of_nat (PyStr.len (Spec.canonical query)))
                                / inject_Z (Z.of_nat
                                    (Nat.max (Nat.max (PyStr.len (name prop))
                                                (PyStr.len (display_clean_of prop)))
                                       1)) * 0.3)
                  else sim)%Q) as Hup.
  { intros x Hx. destruct (contained (Spec.canonical query) prop); [|exact Hx].
    apply Qle_trans with (1 := Hx). apply py_max_ge_l. }
  inversion Hc as [Hlt|Hlt|Hcon Hlt]; subst.
  - apply Hup. apply py_max_ge_l.
  - apply Hup. apply py_max_ge_r.
  - rewrite Hcon.
    pose proof (partial_divisor_positive _ prop Hcon Hne) as Hpos.
    replace (Nat.max (Nat.max (PyStr.len (name prop))
                              (PyStr.len (display_clean_of prop))) 1)
      with (Nat.max (PyStr.len (name prop)) (PyStr.len (display_clean_of prop)))
      by lia.
    fold (partial_quotient (Spec.canonical query) prop).
    apply py_max_ge_r.
Qed.

Lemma resolve_none_rejects_all r props (query : string) :
  props <> [] ->
  resolve_body ratio (PropertyResolver.fuzzy_threshold r)
    (PropertyResolver.custom_aliases r) query props = Ok None ->
  exact_stages_miss query props
  /\ forall prop, In prop props ->
       passes ratio (PropertyResolver.fuzzy_threshold r)
         (Spec.canonical query) prop = false.
Proof.
  intros Hne Hres.
  destruct (resolve_body_stages ratio (PropertyResolver.fuzzy_threshold r)
              (PropertyResolver.custom_aliases r) query props Hne)
    as [(P & _ & H)|[(P & _ & _ & H)|[(P & _ & _ & H)
        |[(_ & P & _ & H)|[Hmiss Ha]]]]];
    try (rewrite H in Hres; discriminate Hres).
  split; [exact Hmiss|].
  destruct (resolve_body_fuzzy ratio (PropertyResolver.fuzzy_threshold r)
              (PropertyResolver.custom_aliases r) query props Hne Hmiss Ha)
    as (best & Hb & Hnone & _).
  rewrite Hb in Hres. rewrite <- canonical_of_stripped. apply Hnone.
  destruct best as [[[p s] t]|]; [discriminate Hres|reflexivity].
Qed.

(** When [resolve] finds nothing, what [search] then offers for the
    same query is never an exact-id or exact-name entry, and each
    confidence is at most the resolver's threshold or at most 0.79;
    below a threshold of 1 every such suggestion is tagged fuzzy. *)
Theorem suggestions_after_a_failed_resolve
    (now : Q) (remote : result (list GAProperty)) (query : string)
    (max_results : Z) r props (found : list PropertyMatch) :
  PropertyResolver._properties r = Some props ->
  (0 <= max_results)%Z ->
  (PropertyResolver.resolve ratio now remote query r).1 = Ok None ->
  (PropertyResolver.search ratio now remote query max_results r).1 = Ok found ->
  forall m, In m found ->
    id (property m) <> query
    /\ name (property m) <> Spec.canonical query
    /\ ((confidence m <= PropertyResolver.fuzzy_threshold r)%Q
        \/ (confidence m <= 0.79)%Q)
    /\ ((PropertyResolver.fuzzy_threshold r < 1)%Q -> matched_on m = "fuzzy").
Proof.
  intros Hp Hn Hres Hs m Hm.
  destruct (search_member ratio ratio_bounded now remote query max_results r
              props found m Hp Hn Hs Hm) as (prop & Hin & He).
  rewrite (resolve_loaded ratio now remote query r props Hp) in Hres.
  cbn [fst] in Hres.
  assert (props <> []) as Hne by (intros ->; destruct Hin).
  destruct (resolve_none_rejects_all r props query Hne Hres) as [Hmiss Hrej].
  destruct (Hmiss prop Hin) as (Hid & Hname & _).
  rewrite canonical_of_stripped in Hname.
  rewrite (entry_unforced query prop Hid Hname) in He.
  destruct (Qltb 0.3 (Spec.best_score ratio query prop)); [|discriminate He].
  injection He as <-. cbn [property confidence matched_on].
  pose proof (best_score_of_rejected (PropertyResolver.fuzzy_threshold r)
                query prop Hname (Hrej prop Hin)) as Hbound.
  split; [exact Hid|]. split; [exact Hname|]. split; [exact Hbound|].
  intros Hth.
  destruct (Qeq_bool (Spec.best_score ratio query prop) 1) eqn:Heq;
    [|reflexivity].
  apply Qeq_bool_iff in Heq. exfalso.
  destruct Hbound as [Hb|Hb]; rewrite Heq in Hb; lra.
Qed.

(** What [resolve] returns by id, by name or from its fuzzy stage is
    among the results of [search] for the same query, with at least the
    same confidence, when the threshold is at least 0.3 and
    [max_results] leaves room for every record.  (A display-name or
    alias match need not be.) *)
Theorem resolved_record_is_among_search_results
    (now : Q) (remote : result (list GAProperty)) (query : string)
    (max_results : Z) r props (m : PropertyMatch) :
  PropertyResolver._properties r = Some props ->
  (0.3 <= PropertyResolver.fuzzy_threshold r)%Q ->
  (Z.of_nat (List.length props) <= max_results)%Z ->
  (PropertyResolver.resolve ratio now remote query r).1 = Ok (Some m) ->
  matched_on m <> "display_name" ->
  matched_on m <> "alias" ->
  exists found m',
    (PropertyResolver.search ratio now remote query max_results r).1 = Ok found
    /\ In m' found
    /\ property m' = property m
    /\ (confidence m <= confidence m')%Q.
Proof.
  intros Hp Hth Hroom Hres Hd Ha.
  rewrite (search_as_spec ratio ratio_bounded now remote query max_results r
             props Hp ltac:(lia)).
  rewrite (resolve_loaded ratio now remote query r props Hp) in Hres.
  cbn [fst] in Hres.
  assert (firstn (Z.to_nat max_results)
            (sort_desc (Spec.included ratio query props))
          = sort_desc (Spec.included ratio query props)) as Hall.
  { apply List.firstn_all2.
    rewrite (Permutation_length (sort_desc_perm _)).
    pose proof (included_length ratio query props). lia. }
  rewrite Hall.
  assert (forall prop m',
            In prop props -> Spec.entry ratio query prop = Some m' ->
            In m' (sort_desc (Spec.included ratio query props))) as Hmem.
  { intros prop m' Hin He.
    apply (Permutation_in m' (Permutation_sym (sort_desc_perm _))).
    apply included_member. eauto. }
  destruct props as [|p0 ps]; [discriminate Hres|].
  destruct (resolve_body_stages ratio (PropertyResolver.fuzzy_threshold r)
              (PropertyResolver.custom_aliases r) query (p0 :: ps)
              ltac:(discriminate))
    as [(P & Hf & H)|[(P & HP & Hn & H)|[(P & _ & _ & H)
        |[(_ & P & _ & H)|[Hmiss Hal]]]]];
    try (rewrite H in Hres; injection Hres as <-);
    try (exfalso; apply Hd; reflexivity);
    try (exfalso; apply Ha; reflexivity).
  - pose proof (find_some _ _ Hf) as [HP Heq]. apply String.eqb_eq in Heq.
    eexists. exists {| property := P; confidence := 1; matched_on := "exact" |}.
    split; [reflexivity|]. split; [|split; [reflexivity|apply Qle_refl]].
    apply (Hmem P _ HP). unfold Spec.entry.
    apply String.eqb_eq in Heq. rewrite Heq. reflexivity.
  - eexists. exists {| property := P; confidence := 1; matched_on := "exact" |}.
    split; [reflexivity|]. split; [|split; [reflexivity|apply Qle_refl]].
    apply (Hmem P _ HP). unfold Spec.entry.
    rewrite canonical_of_stripped in Hn. apply String.eqb_eq in Hn.
    rewrite Hn, orb_true_r. reflexivity.
  - destruct (resolve_body_fuzzy ratio (PropertyResolver.fuzzy_threshold r)
                (PropertyResolver.custom_aliases r) query (p0 :: ps)
                ltac:(discriminate) Hmiss Hal) as (best & Hb & _ & Hsome).
    rewrite Hb in Hres. destruct best as [[[p s] t]|]; [|discriminate Hres].
    injection Hres as <-. cbn [property confidence].
    destruct (Hsome p s t eq_refl) as [Hin Hc].
    rewrite canonical_of_stripped in Hc.
    destruct (Hmiss p Hin) as (Hid & Hname & _).
    rewrite canonical_of_stripped in Hname.
    pose proof (best_score_covers_candidate _ query p s t Hname Hc) as Hcover.
    assert (0.3 < s)%Q as Hs.
    { inversion Hc as [Hlt|Hlt|Hcon Hlt]; subst; lra. }
    pose proof (entry_unforced query p Hid Hname) as He.
    assert (Qltb 0.3 (Spec.best_score ratio query p) = true) as Hgate
      by (apply Qltb_lt; lra).
    rewrite Hgate in He.
    eexists. eexists. split; [reflexivity|].
    split; [exact (Hmem p _ Hin He)|]. split; [reflexivity|exact Hcover].
Qed.

(** Every match of [resolve] is a record of the loaded list; its
    confidence is exactly 1.0 at the stages exact_id, exact_name,
    display_name and alias and at most 1.0 at the fuzzy ones, and its
    stage is one of these seven. *)
Theorem resolve_returns_snapshot_records
    (now : Q) (remote : result (list GAProperty)) (query : string)
    r props (m : PropertyMatch) :
  PropertyResolver._properties r = Some props ->
  (PropertyResolver.resolve ratio now remote query r).1 = Ok (Some m) ->
  In (property m) props
  /\ (confidence m <= 1)%Q
  /\ ((confidence m = 1%Q
       /\ In (matched_on m) ["exact_id"; "exact_name"; "display_name"; "alias"])
      \/ In (matched_on m) ["fuzzy_name"; "fuzzy_display"; "partial"]).
Proof.
  intros Hp Hres.
  rewrite (resolve_loaded ratio now remote query r props Hp) in Hres.
  cbn [fst] in Hres.
  destruct props as [|p0 ps]; [discriminate Hres|].
  destruct (resolve_body_stages ratio (PropertyResolver.fuzzy_threshold r)
              (PropertyResolver.custom_aliases r) query (p0 :: ps)
              ltac:(discriminate))
    as [(P & Hf & H)|[(P & HP & _ & H)|[(P & HP & _ & H)
        |[(_ & P & Hal & H)|[Hmiss Hal]]]]];
    try (rewrite H in Hres; injection Hres as <-;
         cbn [found property confidence matched_on];
         split; [|split; [lra|left; split; [reflexivity|simpl; tauto]]]).
  - apply find_some in Hf. tauto.
  - exact HP.
  - exact HP.
  - destruct (alias_stage_some _ _ _ _ Hal)
      as (_ & _ & _ & _ & pre & post & _ & _ & _ & Hsplit & _).
    rewrite Hsplit. apply List.in_or_app. right. left. reflexivity.
  - destruct (resolve_body_fuzzy ratio (PropertyResolver.fuzzy_threshold r)
                (PropertyResolver.custom_aliases r) query (p0 :: ps)
                ltac:(discriminate) Hmiss Hal) as (best & Hb & _ & Hsome).
    rewrite Hb in Hres. destruct best as [[[p s] t]|]; [|discriminate Hres].
    injection Hres as <-. cbn [property confidence matched_on].
    destruct (Hsome p s t eq_refl) as [Hin Hc].
    split; [exact Hin|].
    destruct (Hmiss p Hin) as (_ & Hname & _).
    inversion Hc as [Hlt|Hlt|Hcon Hlt]; subst.
    + split; [apply ratio_bounded|]. right. simpl. tauto.
    + split; [apply ratio_bounded|]. right. simpl. tauto.
    + pose proof (partial_quotient_le_1 _ p Hcon Hname).
      split; [lra|]. right. simpl. tauto.
Qed.

End ResolveAndSearch.

Lemma suggestions_after_a_failed_resolve_witness :
  exists found,
    (PropertyResolver.resolve Difflib.ratio 0 (Ok []) "acmxx"
       (Sample.loaded None None Sample.acme)).1 = Ok None
    /\ (PropertyResolver.search Difflib.ratio 0 (Ok []) "acmxx" 3
          (Sample.loaded None None Sample.acme)).1 = Ok found
    /\ List.length found = 2%nat
    /\ List.Forall
         (fun m => (confidence m <= 0.6)%Q \/ (confidence m <= 0.79)%Q) found.
Proof.
  eexists.
  assert ((PropertyResolver.search Difflib.ratio 0 (Ok []) "acmxx" 3
             (Sample.loaded None None Sample.acme)).1 = Ok _) as Hs
    by (vm_compute; reflexivity).
  assert ((PropertyResolver.resolve Difflib.ratio 0 (Ok []) "acmxx"
             (Sample.loaded None None Sample.acme)).1 = Ok None) as Hr
    by (vm_compute; reflexivity).
  split; [exact Hr|]. split; [exact Hs|]. split; [reflexivity|].
  apply List.Forall_forall. intros m Hm.
  exact (proj1 (proj2 (proj2
    (suggestions_after_a_failed_resolve Difflib.ratio difflib_ratio_le_1
       0 (Ok []) "acmxx" 3 (Sample.loaded None None Sample.acme) Sample.acme _
       eq_refl ltac:(lia) Hr Hs m Hm)))).
Defined.

Lemma resolved_record_is_among_search_results_witness :
  exists m found m',
    (PropertyResolver.resolve Difflib.ratio 0 (Ok []) "acme"
       (Sample.loaded None None Sample.acme)).1 = Ok (Some m)
    /\ (PropertyResolver.search Difflib.ratio 0 (Ok []) "acme" 5
          (Sample.loaded None None Sample.acme)).1 = Ok found
    /\ In m' found
    /\ property m' = property m
    /\ (confidence m <= confidence m')%Q.
Proof.
  eexists.
  assert ((PropertyResolver.resolve Difflib.ratio 0 (Ok []) "acme"
             (Sample.loaded None None Sample.acme)).1 = Ok (Some _)) as Hr
    by (vm_compute; reflexivity).
  destruct (resolved_record_is_among_search_results Difflib.ratio
              difflib_ratio_le_1 0 (Ok []) "acme" 5
              (Sample.loaded None None Sample.acme) Sample.acme _
              eq_refl ltac:(vm_compute; discriminate) ltac:(simpl; lia) Hr
              ltac:(discriminate) ltac:(discriminate))
    as (found & m' & H).
  exists found, m'. split; [exact Hr|exact H].
Defined.

Lemma resolve_returns_snapshot_records_witness :
  exists m,
    (PropertyResolver.resolve Difflib.ratio 0 (Ok []) "acme"
       (Sample.loaded None None Sample.acme)).1 = Ok (Some m)
    /\ In (property m) Sample.acme
    /\ (confidence m <= 1)%Q.
Proof.
  eexists.
  assert ((PropertyResolver.resolve Difflib.ratio 0 (Ok []) "acme"
             (Sample.loaded None None Sample.acme)).1 = Ok (Some _)) as Hr
    by (vm_compute; reflexivity).
  pose proof (resolve_returns_snapshot_records Difflib.ratio
                difflib_ratio_le_1 0 (Ok []) "acme"
                (Sample.loaded None None Sample.acme) Sample.acme _
                eq_refl Hr) as (H1 & H2 & _).
  split; [exact Hr|]. split; [exact H1|exact H2].
Defined.

(** ** Canonical names *)

Lemma to_lower_alnum (c : ascii) :
  PyStr.isalnum (PyStr.to_lower c) = PyStr.isalnum c.
Proof. destruct c as [[] [] [] [] [] [] [] []]; reflexivity. Qed.

Lemma to_lower_fixed (c : ascii) :
  Ascii.eqb (PyStr.to_lower (PyStr.to_lower c)) (PyStr.to_lower c) = true.
Proof. destruct c as [[] [] [] [] [] [] [] []]; reflexivity. Qed.

Lemma canonical_is_canonical_text (s : string) :
  canonical_text (Spec.canonical s) = true.
Proof.
  unfold Spec.canonical. induction s as [|c s IH]; [reflexivity|].
  cbn [PyStr.lower PyStr.alnum_only].
  destruct (PyStr.isalnum (PyStr.to_lower c)) eqn:Ha; [|exact IH].
  cbn [canonical_text]. rewrite Ha, to_lower_fixed, IH. reflexivity.
Qed.

Lemma canonical_text_fixed (s : string) :
  canonical_text s = true -> Spec.canonical s = s.
Proof.
  unfold Spec.canonical. induction s as [|c s IH]; [reflexivity|].
  cbn [canonical_text PyStr.lower PyStr.alnum_only]. intros H.
  apply andb_true_iff in H. destruct H as [H Hs].
  apply andb_true_iff in H. destruct H as [Ha Hl].
  apply Ascii.eqb_eq in Hl. rewrite Hl, Ha, (IH Hs). reflexivity.
Qed.

Lemma canonical_text_take (n : nat) (s : string) :
  canonical_text s = true -> canonical_text (PyStr.take n s) = true.
Proof.
  revert n. induction s as [|c s IH]; intros [|n] H; try reflexivity.
  cbn [canonical_text PyStr.take] in *.
  apply andb_true_iff in H. destruct H as [H Hs].
  rewrite H, (IH n Hs). reflexivity.
Qed.

Lemma take_len (n : nat) (s : string) : (PyStr.len (PyStr.take n s) <= n)%nat.
Proof.
  revert n. induction s as [|c s IH]; intros [|n]; simpl; try lia.
  specialize (IH n). unfold PyStr.len in *. simpl. lia.
Qed.

Lemma take_all (n : nat) (s : string) :
  (PyStr.len s <= n)%nat -> PyStr.take n s = s.
Proof.
  revert n. induction s as [|c s IH]; intros [|n] H; try reflexivity.
  - simpl in H. lia.
  - cbn [PyStr.take]. rewrite IH; [reflexivity|].
    unfold PyStr.len in *. simpl in H. lia.
Qed.

Lemma take_prefix (n : nat) (s : string) :
  String.prefix (PyStr.take n s) s = true.
Proof.
  revert n. induction s as [|c s IH]; intros [|n]; try reflexivity.
  cbn [PyStr.take String.prefix].
  destruct (ascii_dec c c) as [_|Hne]; [apply IH|congruence].
Qed.

(** The canonical form is idempotent, and the name given to a record
    is canonical: it is the canonical form of the display name cut to
    30 characters, so it has at most 30 characters, is a prefix of that
    canonical form and equal to it when that has at most 30, and taking
    its canonical form again changes nothing. *)
Theorem record_name_is_canonical (display : string) :
  Spec.canonical (Spec.canonical display) = Spec.canonical display
  /\ (PyStr.len (clean_name display) <= 30)%nat
  /\ Spec.canonical (clean_name display) = clean_name display
  /\ String.prefix (clean_name display) (Spec.canonical display) = true
  /\ ((PyStr.len (Spec.canonical display) <= 30)%nat ->
      clean_name display = Spec.canonical display).
Proof.
  split; [|split; [|split; [|split]]].
  - apply canonical_text_fixed, canonical_is_canonical_text.
  - apply take_len.
  - apply canonical_text_fixed. unfold clean_name.
    apply canonical_text_take. apply (canonical_is_canonical_text display).
  - apply take_prefix.
  - intros H. apply take_all. exact H.
Qed.

(** A record built from a display name whose canonical form has at
    most 30 characters is found, at confidence 1.0, by its display name
    and by every query with the same canonical form (other case,
    spacing or punctuation): [resolve] answers at stage exact_id if
    some record has the query as its id, and otherwise at stage
    exact_name with a record of that canonical name. *)
Theorem display_name_resolves_exactly
    (ratio : string -> string -> Q) (now : Q)
    (remote : result (list GAProperty)) (query : string)
    (r : PropertyResolver.t) (props : list GAProperty)
    (prop_id display account : string) (url : option string) :
  PropertyResolver._properties r = Some props ->
  In (build_property prop_id display account url) props ->
  (PyStr.len (Spec.canonical display) <= 30)%nat ->
  Spec.canonical query = Spec.canonical display ->
  exists m,
    PropertyResolver.resolve ratio now remote query r = (Ok (Some m), r)
    /\ confidence m = 1%Q
    /\ In (property m) props
    /\ ((matched_on m = "exact_id" /\ id (property m) = query)
        \/ (matched_on m = "exact_name"
            /\ name (property m) = Spec.canonical display
            /\ forall x, In x props -> id x <> query)).
Proof.
  intros Hp Hin Hlen Hq.
  rewrite (resolve_loaded ratio now remote query r props Hp).
  assert (name (build_property prop_id display account url)
          = PyStr.alnum_only (PyStr.strip (PyStr.lower query))) as Hname.
  { rewrite canonical_of_stripped, Hq. cbn [build_property name].
    apply take_all. exact Hlen. }
  destruct props as [|p0 ps]; [destruct Hin|].
  unfold resolve_body.
  destruct (List.find (fun prop => String.eqb (id prop) query) (p0 :: ps))
    as [P|] eqn:H1.
  - pose proof (find_some _ _ H1) as [HP Heq]. apply String.eqb_eq in Heq.
    eexists. split; [reflexivity|]. cbn [found property confidence matched_on].
    split; [reflexivity|]. split; [exact HP|]. left. auto.
  - destruct (find_hit
                (fun prop => String.eqb (name prop)
                   (PyStr.alnum_only (PyStr.strip (PyStr.lower query))))
                (p0 :: ps) _ Hin (proj2 (String.eqb_eq _ _) Hname))
      as [P H2].
    rewrite H2.
    pose proof (find_some _ _ H2) as [HP Heq]. apply String.eqb_eq in Heq.
    eexists. split; [reflexivity|]. cbn [found property confidence matched_on].
    split; [reflexivity|]. split; [exact HP|]. right.
    split; [reflexivity|]. split.
    + rewrite Heq, canonical_of_stripped. exact Hq.
    + intros x Hx. apply String.eqb_neq. exact (find_none _ _ H1 x Hx).
Qed.

Lemma display_name_resolves_exactly_witness :
  exists m,
    PropertyResolver.resolve Difflib.ratio 0 (Ok []) "Acme Shop"
      (Sample.loaded None None Sample.acme)
    = (Ok (Some m), Sample.loaded None None Sample.acme)
    /\ confidence m = 1%Q.
Proof.
  destruct (display_name_resolves_exactly Difflib.ratio 0 (Ok []) "Acme Shop"
              (Sample.loaded None None Sample.acme) Sample.acme
              "222" "Acme Shop" "1001" None eq_refl
              (or_intror (or_introl eq_refl))
              ltac:(vm_compute; lia) eq_refl) as (m & H1 & H2 & _).
  exists m. split; [exact H1|exact H2].
Defined.

(** ** The directory listing *)

Section DirectoryListing.

Import Directory.

Lemma last_segment_no_slash (s : string) : has_slash (last_segment s) = false.
Proof.
  induction s as [|c s IH]; [reflexivity|].
  cbn [last_segment]. destruct (has_slash s) eqn:Hs; [exact IH|].
  destruct (Ascii.eqb c "/") eqn:Hc; [exact Hs|].
  cbn [has_slash]. rewrite Hc, Hs. reflexivity.
Qed.

Lemma resource_id_no_slash (s : string) : has_slash (resource_id s) = false.
Proof. destruct s; [reflexivity|apply last_segment_no_slash]. Qed.

Lemma last_segment_after_prefix (a b : string) :
  has_slash b = false -> last_segment (a +:+ String "/" b) = b.
Proof.
  intros Hb.
  assert (forall a, has_slash (a +:+ String "/" b) = true) as Hs.
  { intros a'. induction a' as [|c a' IH]; simpl; [reflexivity|].
    rewrite IH. apply orb_true_r. }
  induction a as [|c a IH].
  - simpl. rewrite Hb. reflexivity.
  - change (String c a +:+ String "/" b) with (String c (a +:+ String "/" b)).
    cbn [last_segment]. rewrite Hs. exact IH.
Qed.

Lemma records_ok (properties_of : string -> option (list entry))
    (listed : list account) :
  (forall a, In a listed ->
     properties_of (get_or_empty (account_name a)) <> None) ->
  records properties_of listed
  = Ok (List.concat
          (List.map
             (fun a =>
                List.map
                  (record_of (resource_id (get_or_empty (account_name a))))
                  (match properties_of (get_or_empty (account_name a)) with
                   | Some props => props
                   | None => []
                   end))
             listed)).
Proof.
  induction listed as [|a rest IH]; intros Hall; [reflexivity|].
  cbn [records List.map List.concat].
  destruct (properties_of (get_or_empty (account_name a))) as [props|] eqn:Ha.
  - rewrite IH by (intros x Hx; apply Hall; right; exact Hx). reflexivity.
  - exfalso. apply (Hall a (or_introl eq_refl)). exact Ha.
Qed.

Lemma records_fail (properties_of : string -> option (list entry))
    (listed : list account) (a : account) :
  In a listed ->
  properties_of (get_or_empty (account_name a)) = None ->
  records properties_of listed = Raise GAClientError.
Proof.
  induction listed as [|a' rest IH]; intros Hin Hnone; [destruct Hin|].
  cbn [records]. destruct Hin as [->|Hin].
  - rewrite Hnone. reflexivity.
  - destruct (properties_of (get_or_empty (account_name a'))); [|reflexivity].
    rewrite (IH Hin Hnone). reflexivity.
Qed.

Lemma listing_answers {error : Type}
    (list_properties : string -> call error (list entry))
    (listed : list account) :
  (forall a, In a listed ->
     exists props,
       list_properties (get_or_empty (account_name a)) = Answers props) ->
  listing error list_properties listed
  = Answers
      (List.concat
         (List.map
            (fun a =>
               List.map
                 (record_of (resource_id (get_or_empty (account_name a))))
                 (match list_properties (get_or_empty (account_name a)) with
                  | Answers props => props
                  | Fails _ => []
                  end))
            listed)).
Proof.
  induction listed as [|a rest IH]; intros Hall; [reflexivity|].
  cbn [listing List.map List.concat].
  destruct (Hall a (or_introl eq_refl)) as (props & ->).
  rewrite IH by (intros x Hx; apply Hall; right; exact Hx). reflexivity.
Qed.

Lemma listing_fails {error : Type}
    (list_properties : string -> call error (list entry))
    (pre post : list account) (a : account) (e : error) :
  (forall x, In x pre ->
     exists props,
       list_properties (get_or_empty (account_name x)) = Answers props) ->
  list_properties (get_or_empty (account_name a)) = Fails e ->
  listing error list_properties (pre ++ a :: post) = Fails e.
Proof.
  induction pre as [|x pre IH]; intros Hpre Ha.
  - cbn [List.app listing]. rewrite Ha. reflexivity.
  - cbn [List.app listing].
    destruct (Hpre x (or_introl eq_refl)) as (props & ->).
    rewrite IH; [reflexivity| |exact Ha].
    intros y Hy. apply Hpre. right. exact Hy.
Qed.

(** Every list of accounts is answered throughout, or has a first
    account whose listing raises. *)
Lemma listing_cases {error : Type}
    (list_properties : string -> call error (list entry))
    (listed : list account) :
  (forall a, In a listed ->
     exists props,
       list_properties (get_or_empty (account_name a)) = Answers props)
  \/ exists pre a post e,
       listed = pre ++ a :: post
       /\ (forall x, In x pre ->
             exists props,
               list_properties (get_or_empty (account_name x)) = Answers props)
       /\ list_properties (get_or_empty (account_name a)) = Fails e.
Proof.
  induction listed as [|a rest IH]; [left; intros ? []|].
  destruct (list_properties (get_or_empty (account_name a)))
    as [props|e] eqn:Ha.
  - destruct IH as [IH|(pre & x & post & e & -> & Hpre & Hx)].
    + left. intros x [<-|Hx]; [exists props; exact Ha|auto].
    + right. exists (a :: pre), x, post, e. split; [reflexivity|].
      split; [|exact Hx].
      intros y [<-|Hy]; [exists props; exact Ha|auto].
  - right. exists [], a, rest, e. split; [reflexivity|].
    split; [intros ? []|exact Ha].
Qed.

(** The directory fetch is all or nothing, and which exception
    it ends with depends on the one the failing call raises.  It
    yields a list exactly when the client initialises, the accounts
    are listed and the properties of every account are listed; the
    list then holds one record per listed property, account by account
    in the order listed.  A client that does not initialise gives
    [GAClientError].  Otherwise the first call that raises decides, the
    listing of the accounts or the listing of the first account whose
    properties cannot be listed: the records built so far are dropped,
    and the fetch raises [GAClientError] if the exception is a
    [GoogleAPIError], and lets the exception through unchanged if it
    is not. *)
Theorem directory_fetch_is_all_or_nothing {error : Type}
    (is_google_api_error : error -> bool) (remote : service error) :
  let ends_by (e : error) :=
    if is_google_api_error e then RaisedGAClientError else Escaped e in
  (forall props,
     discover error is_google_api_error remote = Returned props
     <-> service_initialize remote = true
         /\ exists listed,
              list_accounts remote = Answers listed
              /\ (forall a, In a listed ->
                    exists listed_props,
                      list_properties remote (get_or_empty (account_name a))
                      = Answers listed_props)
              /\ props
                 = List.concat
                     (List.map
                        (fun a =>
                           List.map
                             (record_of
                                (resource_id (get_or_empty (account_name a))))
                             (match list_properties remote
                                      (get_or_empty (account_name a)) with
                              | Answers listed_props => listed_props
                              | Fails _ => []
                              end))
                        listed))
  /\ (service_initialize remote = false ->
      discover error is_google_api_error remote = RaisedGAClientError)
  /\ (forall e,
        service_initialize remote = true ->
        list_accounts remote = Fails e ->
        discover error is_google_api_error remote = ends_by e)
  /\ (forall pre a post e,
        service_initialize remote = true ->
        list_accounts remote = Answers (pre ++ a :: post) ->
        (forall x, In x pre ->
           exists listed_props,
             list_properties remote (get_or_empty (account_name x))
             = Answers listed_props) ->
        list_properties remote (get_or_empty (account_name a)) = Fails e ->
        discover error is_google_api_error remote = ends_by e).
Proof.
  intros ends_by. split; [|split; [|split]].
  - intros props. unfold discover.
    destruct (service_initialize remote);
      [|split; [discriminate|intros [[=] _]]].
    destruct (list_accounts remote) as [listed|e].
    + split.
      * intros Hok. split; [reflexivity|]. exists listed.
        split; [reflexivity|].
        destruct (listing_cases (list_properties remote) listed)
          as [Hall|(pre & a & post & e & -> & Hpre & Ha)].
        -- split; [exact Hall|]. rewrite (listing_answers _ _ Hall) in Hok.
           injection Hok as <-. reflexivity.
        -- rewrite (listing_fails _ pre post a e Hpre Ha) in Hok.
           unfold handler in Hok.
           destruct (is_google_api_error e); discriminate Hok.
      * intros [_ (l & [= <-] & Hall & ->)].
        rewrite (listing_answers _ _ Hall). reflexivity.
    + split.
      * unfold handler. destruct (is_google_api_error e); discriminate.
      * intros [_ (l & [=] & _)].
  - intros Hinit. unfold discover. rewrite Hinit. reflexivity.
  - intros e Hinit He. unfold discover. rewrite Hinit, He. reflexivity.
  - intros pre a post e Hinit Hl Hpre Ha. unfold discover.
    rewrite Hinit, Hl, (listing_fails _ pre post a e Hpre Ha). reflexivity.
Qed.

(** The listing of the second of two accounts raises: [HttpError]
    leaves [discover_properties] as it is, [PermissionDenied] becomes
    [GAClientError], and the record of the first account is returned
    in neither case. *)
Lemma directory_fetch_second_account_fails :
  discover SampleDirectory.error SampleDirectory.is_google_api_error
    (SampleDirectory.second_fails SampleDirectory.HttpError)
  = Escaped SampleDirectory.HttpError
  /\ discover SampleDirectory.error SampleDirectory.is_google_api_error
       (SampleDirectory.second_fails SampleDirectory.PermissionDenied)
     = RaisedGAClientError.
Proof. split; reflexivity. Qed.

(** Where the fetch returns, it returns what [fetch] does on the same
    remote side with the exceptions forgotten. *)
Lemma discover_returns_as_fetch {error : Type}
    (is_google_api_error : error -> bool) (remote : service error)
    (props : list GAProperty) :
  discover error is_google_api_error remote = Returned props
  <-> fetch (forget error remote) = Ok props.
Proof.
  unfold discover, fetch, forget. cbn [initialize accounts properties_of].
  destruct (service_initialize remote); [|split; discriminate].
  destruct (list_accounts remote) as [listed|e]; cbn [answered].
  - assert (match listing error (list_properties remote) listed with
            | Answers l => records
                             (fun name =>
                                answered error (list_properties remote name))
                             listed = Ok l
            | Fails _ => records
                           (fun name =>
                              answered error (list_properties remote name))
                           listed = Raise GAClientError
            end) as H.
    { induction listed as [|a rest IH]; [reflexivity|].
      cbn [listing records].
      destruct (list_properties remote (get_or_empty (account_name a)))
        as [lp|e]; cbn [answered]; [|reflexivity].
      destruct (listing error (list_properties remote) rest) as [more|e];
        rewrite IH; reflexivity. }
    destruct (listing error (list_properties remote) listed) as [l|e];
      rewrite H.
    + split; intros [= <-]; reflexivity.
    + split; [|discriminate]. unfold handler.
      destruct (is_google_api_error e); discriminate.
  - split; [|discriminate]. unfold handler.
    destruct (is_google_api_error e); discriminate.
Qed.

Lemma records_member (properties_of : string -> option (list entry))
    (listed : list account) (props : list GAProperty) (P : GAProperty) :
  records properties_of listed = Ok props ->
  In P props ->
  exists a listed_props prop,
    In a listed
    /\ properties_of (get_or_empty (account_name a)) = Some listed_props
    /\ In prop listed_props
    /\ P = record_of (resource_id (get_or_empty (account_name a))) prop.
Proof.
  revert props. induction listed as [|a rest IH]; intros props Hok HP.
  - injection Hok as <-. destruct HP.
  - cbn [records] in Hok.
    destruct (properties_of (get_or_empty (account_name a)))
      as [listed_props|] eqn:Ha; [|discriminate Hok].
    destruct (records properties_of rest) as [more|e] eqn:Hrest;
      [|discriminate Hok].
    cbn [mbind result_bind] in Hok. injection Hok as <-.
    apply List.in_app_or in HP. destruct HP as [HP|HP].
    + apply List.in_map_iff in HP. destruct HP as (prop & <- & Hprop).
      exists a, listed_props, prop. split; [left; reflexivity|]. auto.
    + destruct (IH more eq_refl HP) as (a' & lp & prop & Hin & H).
      exists a', lp, prop. split; [right; exact Hin|exact H].
Qed.

(** Every record the directory fetch builds is well formed: its name
    is the canonical form of its display name cut to 30 characters
    (canonical, at most 30 long), and neither its id nor its account id
    contains a slash, each being the last segment of the resource name
    listed; for a resource name "<prefix>/<ident>" that is <ident>, and
    for a missing resource name it is the empty text. *)
Theorem fetched_records_are_well_formed (remote : api)
    (props : list GAProperty) (P : GAProperty) (pre ident : string) :
  fetch remote = Ok props ->
  In P props ->
  name P = clean_name (display_name P)
  /\ (PyStr.len (name P) <= 30)%nat
  /\ Spec.canonical (name P) = name P
  /\ has_slash (id P) = false
  /\ has_slash (account_id P) = false
  /\ (has_slash ident = false ->
      resource_id (pre +:+ String "/" ident) = ident)
  /\ resource_id (get_or_empty None) = "".
Proof.
  intros Hok HP. unfold fetch in Hok.
  destruct (initialize remote); [|discriminate Hok].
  destruct (accounts remote) as [listed|]; [|discriminate Hok].
  destruct (records_member _ _ _ _ Hok HP) as (a & lp & prop & _ & _ & _ & ->).
  cbn [record_of name display_name id account_id].
  fold (clean_name (get_or_empty (entry_displayName prop))).
  split; [reflexivity|]. split; [apply take_len|].
  split; [apply canonical_text_fixed, canonical_text_take,
            (canonical_is_canonical_text
               (get_or_empty (entry_displayName prop)))|].
  split; [apply resource_id_no_slash|].
  split; [apply resource_id_no_slash|].
  split; [|reflexivity].
  intros Hi. unfold resource_id.
  destruct (pre +:+ String "/" ident) eqn:E.
  - destruct pre; discriminate E.
  - rewrite <- E. apply last_segment_after_prefix. exact Hi.
Qed.

End DirectoryListing.

Lemma fetched_records_are_well_formed_witness :
  Directory.fetch SampleDirectory.acme_api = Ok Sample.acme
  /\ Directory.has_slash (id (build_property "111" "Acme Blog" "1001" None))
     = false.
Proof.
  split; [reflexivity|].
  exact (proj1 (proj2 (proj2 (proj2
    (fetched_records_are_well_formed SampleDirectory.acme_api Sample.acme
       (build_property "111" "Acme Blog" "1001" None) "" ""
       eq_refl (or_introl eq_refl)))))).
Defined.

(** ** The server's cache tool and search tool *)

(** The [clear_cache] tool without a pattern clears both layers: it
    reports the number of entries the client held, leaves the cache
    empty and the resolver not loaded, so that the next [resolve] asks
    the remote directory, answers from the list it gets and keeps it;
    if the directory fails then, the failure is what [resolve] raises
    and the resolver stays not loaded. *)
Theorem full_clear_forces_a_fresh_fetch
    (ratio : string -> string -> Q) (now : Q) (listed : list GAProperty)
    (e : exn) (query : string) (r : PropertyResolver.t) :
  let cleared := Server.clear_cache None r in
  let next := PropertyResolver.resolve ratio now (Ok listed) query cleared.2 in
  let failed := PropertyResolver.resolve ratio now (Raise e) query cleared.2 in
  cleared.1 = GAClient.total_entries (PropertyResolver.client r)
  /\ GAClient._cache (PropertyResolver.client cleared.2) = ∅
  /\ PropertyResolver._properties cleared.2 = None
  /\ GAClient.fetches (PropertyResolver.client next.2)
     = S (GAClient.fetches (PropertyResolver.client r))
  /\ PropertyResolver._properties next.2 = Some listed
  /\ next.1 = resolve_body ratio (PropertyResolver.fuzzy_threshold r)
                (PropertyResolver.custom_aliases r) query listed
  /\ failed.1 = Raise e
  /\ PropertyResolver._properties failed.2 = None.
Proof.
  intros cleared next failed.
  assert (PropertyResolver._properties cleared.2 = None) as Hp by reflexivity.
  assert ((GAClient._get_cached now "properties"
             (PropertyResolver.client cleared.2)).1 = None) as Hmiss.
  { apply eq_trans with
      (y := (GAClient._get_cached now "properties"
               (GAClient.with_cache (PropertyResolver.client r) ∅)).1);
      [reflexivity|].
    rewrite get_cached_missing; [reflexivity|]. apply lookup_empty. }
  split; [reflexivity|]. split; [reflexivity|]. split; [exact Hp|].
  unfold next, failed, PropertyResolver.resolve.
  rewrite !(ensure_not_loaded _ _ cleared.2 Hp).
  rewrite (discover_fetch_path now listed _ Hmiss).
  cbn [fst snd PropertyResolver.with_state PropertyResolver._properties
       PropertyResolver.client PropertyResolver.fuzzy_threshold
       PropertyResolver.custom_aliases].
  split.
  { cbn [GAClient._set_cached GAClient.with_cache GAClient.with_fetch
         GAClient.fetches].
    rewrite get_cached_missing by apply lookup_empty. reflexivity. }
  split; [reflexivity|]. split; [reflexivity|].
  unfold GAClient.discover_properties, GAClient.discover_properties_at.
  destruct (GAClient._get_cached now "properties"
              (PropertyResolver.client cleared.2)) as [cached c] eqn:Hg.
  cbn [fst] in Hmiss. subst cached. cbn [fst snd]. auto.
Qed.

(** The [clear_cache] tool with a pattern clears matching cache
    entries only: a loaded resolver keeps its in-memory list, so even
    when the pattern removes the cached property list (as "properties"
    does), the next [resolve] answers from the list loaded before and
    makes no remote call. *)
Theorem pattern_clear_keeps_the_loaded_list
    (ratio : string -> string -> Q) (now : Q)
    (remote : result (list GAProperty)) (pattern query : string)
    (r : PropertyResolver.t) (props : list GAProperty) :
  PropertyResolver._properties r = Some props ->
  let cleared := Server.clear_cache (Some pattern) r in
  PropertyResolver._properties cleared.2 = Some props
  /\ (PyStr.contains pattern "properties" = true ->
      GAClient._cache (PropertyResolver.client cleared.2) !! "properties"
      = None)
  /\ PropertyResolver.resolve ratio now remote query cleared.2
     = (resolve_body ratio (PropertyResolver.fuzzy_threshold r)
          (PropertyResolver.custom_aliases r) query props, cleared.2)
  /\ GAClient.fetches (PropertyResolver.client cleared.2)
     = GAClient.fetches (PropertyResolver.client r).
Proof.
  intros Hp cleared.
  assert (PropertyResolver._properties cleared.2 = Some props) as Hp'.
  { unfold cleared, Server.clear_cache.
    cbn [GAClient.clear_cache snd PropertyResolver.with_state
         PropertyResolver._properties]. exact Hp. }
  split; [exact Hp'|]. split; [|split].
  - intros Hc. unfold cleared, Server.clear_cache.
    cbn [GAClient.clear_cache snd PropertyResolver.with_state
         PropertyResolver.client GAClient.with_cache GAClient._cache].
    apply map_lookup_filter_None. right. intros x _ Hne. apply Hne. exact Hc.
  - rewrite (resolve_loaded ratio now remote query cleared.2 props Hp').
    reflexivity.
  - reflexivity.
Qed.

Lemma pattern_clear_keeps_the_loaded_list_witness :
  let loaded :=
    (PropertyResolver.resolve Difflib.ratio 0 (Ok Sample.acme) "acme"
       (Sample.resolver None None)).2 in
  GAClient._cache (PropertyResolver.client loaded) !! "properties" <> None
  /\ GAClient._cache
       (PropertyResolver.client (Server.clear_cache (Some "properties") loaded).2)
       !! "properties" = None
  /\ (PropertyResolver.resolve Difflib.ratio 1 (Ok [Sample.my_site]) "acme"
        (Server.clear_cache (Some "properties") loaded).2).1
     = resolve_body Difflib.ratio 0.6 [] "acme" Sample.acme.
Proof.
  intros loaded.
  pose proof (pattern_clear_keeps_the_loaded_list Difflib.ratio 1
                (Ok [Sample.my_site]) "properties" "acme" loaded Sample.acme
                eq_refl) as (_ & H2 & H3 & _).
  split; [discriminate|]. split; [exact (H2 eq_refl)|].
  rewrite H3. reflexivity.
Defined.

Section SearchTool.

Variable ratio : string -> string -> Q.

Lemma search_entry_total (query query_clean : string) (prop : GAProperty) :
  exists entry, search_entry ratio query query_clean prop = Ok entry.
Proof.
  unfold search_entry.
  destruct (String.eqb (id prop) query || String.eqb (name prop) query_clean);
    [eauto|].
  destruct (PyStr.contains query_clean (name prop)
            || PyStr.contains query_clean (display_clean_of prop)).
  - unfold py_truediv.
    destruct (Nat.max (Nat.max (PyStr.len (name prop))
                               (PyStr.len (display_clean_of prop))) 1)
      as [|n] eqn:Hmax; [lia|].
    cbn [Nat.eqb mbind result_bind]. destruct (Qltb _ _); eauto.
  - cbn [mbind result_bind]. destruct (Qltb _ _); eauto.
Qed.

Lemma search_loop_total (query query_clean : string)
    (props : list GAProperty) :
  exists matches, search_loop ratio query query_clean props = Ok matches.
Proof.
  induction props as [|prop rest IH]; [exists []; reflexivity|].
  destruct (search_entry_total query query_clean prop) as [entry He].
  destruct IH as [more Hm].
  cbn [search_loop]. rewrite He, Hm. cbn [mbind result_bind]. eauto.
Qed.

(** [search_properties] on a loaded resolver never fails: it returns
    at most five matches in descending order of confidence, reports
    their number, and names as best match the first of them, which no
    other match exceeds in confidence; there is no best match exactly
    when there is no match. *)
Theorem best_match_has_the_highest_confidence (now : Q)
    (remote : result (list GAProperty)) (query : string)
    (r : PropertyResolver.t) (props : list GAProperty) :
  PropertyResolver._properties r = Some props ->
  exists response,
    Server.search_properties ratio now remote query r
    = (Server.Returned response, r)
    /\ Server.response_count response
       = List.length (Server.response_matches response)
    /\ (Server.response_count response <= 5)%nat
    /\ Spec.descending (Server.response_matches response)
    /\ (Server.response_best_match response = None
        <-> Server.response_matches response = [])
    /\ (forall best m,
          Server.response_best_match response = Some best ->
          In m (Server.response_matches response) ->
          (confidence m <= confidence best)%Q).
Proof.
  intros Hp. unfold Server.search_properties.
  rewrite (search_loaded ratio now remote query 5 r props Hp).
  assert (exists matches,
            search_body ratio query 5 props
            = Ok (firstn 5 (sort_desc matches))) as (matches & Hs).
  { unfold search_body. destruct props as [|p0 ps]; [exists []; reflexivity|].
    destruct (search_loop_total query
                (PyStr.alnum_only (PyStr.strip (PyStr.lower query)))
                (p0 :: ps)) as [matches Hm].
    exists matches. rewrite Hm. reflexivity. }
  rewrite Hs. cbn [mbind result_bind Server.as_tool_outcome].
  eexists. split; [reflexivity|].
  cbn [Server.response_count Server.response_matches
       Server.response_best_match].
  pose proof (descending_firstn 5 _ (sort_desc_descending matches)) as Hdesc.
  split; [reflexivity|]. split; [rewrite List.length_firstn; lia|].
  split; [exact Hdesc|].
  destruct (firstn 5 (sort_desc matches)) as [|b rest].
  - split; [tauto|]. intros best m [=].
  - split; [split; discriminate|].
    intros best m [= <-] [<-|Hm]; [apply Qle_refl|].
    unfold Spec.descending in Hdesc. apply StronglySorted_inv in Hdesc.
    destruct Hdesc as [_ Hall]. rewrite List.Forall_forall in Hall.
    exact (Hall m Hm).
Qed.

End SearchTool.

Lemma best_match_has_the_highest_confidence_witness :
  exists response,
    Server.search_properties Difflib.ratio 0 (Ok []) "blog"
      (Sample.loaded None None Sample.acme)
    = (Server.Returned response, Sample.loaded None None Sample.acme)
    /\ Server.response_count response
       = List.length (Server.response_matches response).
Proof.
  destruct (best_match_has_the_highest_confidence Difflib.ratio 0 (Ok [])
              "blog" (Sample.loaded None None Sample.acme) Sample.acme eq_refl)
    as (response & H1 & H2 & _).
  exists response. split; [exact H1|exact H2].
Defined.

(** ** Loading the configuration *)

Section FromEnvFacts.

Variable getenv : string -> option string.
Variable path_exists : string -> bool.
Variable py_int : string -> option Z.
Variable py_float : string -> option Q.
Variable json_object : string -> option alias_table.

Let from_env := Env.from_env getenv path_exists py_int py_float json_object.
Let chosen := Env.set_and_non_empty getenv.

(** What [from_env] returns is validated in part: the credentials path is the first of
    GOOGLE_APPLICATION_CREDENTIALS, GA_CREDENTIALS_PATH and
    GA_SERVICE_ACCOUNT_PATH that is set and not empty, and it exists;
    the fuzzy threshold lies in [0, 1]; the default limit is at least
    1.  The two TTLs are whatever integer the environment gives, with
    no sign test, and 300 and 3600 when it gives none. *)
Theorem from_env_validates (s : Env.settings) :
  from_env = Ok s ->
  let config := Env.base s in
  Env.or_else (chosen "GOOGLE_APPLICATION_CREDENTIALS")
    (Env.or_else (chosen "GA_CREDENTIALS_PATH")
       (chosen "GA_SERVICE_ACCOUNT_PATH"))
  = Some (Config.credentials_path config)
  /\ Config.credentials_path config <> ""
  /\ path_exists (Config.credentials_path config) = true
  /\ (0 <= Config.fuzzy_threshold config)%Q
  /\ (Config.fuzzy_threshold config <= 1)%Q
  /\ (1 <= Env.default_limit s)%Z
  /\ Env.int_setting getenv py_int "GA_CACHE_TTL" 300
     = Ok (Config.cache_ttl config)
  /\ Env.int_setting getenv py_int "GA_PROPERTY_CACHE_TTL" 3600
     = Ok (Config.property_cache_ttl config)
  /\ (chosen "GA_FUZZY_THRESHOLD" = None ->
      Config.fuzzy_threshold config = 0.6%Q)
  /\ (chosen "GA_PROPERTY_ALIASES" = None -> Config.custom_aliases config = [])
  /\ (chosen "GA_DEFAULT_LIMIT" = None -> Env.default_limit s = 1000%Z).
Proof.
  unfold from_env, Env.from_env, chosen.
  destruct (Env.or_else _ _) as [path|] eqn:Hpath; [|discriminate].
  destruct (path_exists path) eqn:Hex; cbn [negb]; [|discriminate].
  destruct (Env.int_setting getenv py_int "GA_CACHE_TTL" 300)
    as [ttl|] eqn:Httl; [|discriminate].
  destruct (Env.int_setting getenv py_int "GA_PROPERTY_CACHE_TTL" 3600)
    as [pttl|] eqn:Hpttl; [|discriminate].
  cbn [mbind result_bind].
  assert (path <> "") as Hne.
  { intros ->. unfold Env.or_else, Env.set_and_non_empty in Hpath.
    repeat match type of Hpath with
           | context [getenv ?v] => destruct (getenv v) as [[|? ?]|]
           end; discriminate Hpath. }
  destruct (Env.set_and_non_empty getenv "GA_FUZZY_THRESHOLD") as [ft|].
  - destruct (py_float ft) as [x|]; [|discriminate].
    destruct (Qle_bool 0 x && Qle_bool x 1) eqn:Hrange; [|discriminate].
    apply andb_true_iff in Hrange. destruct Hrange as [H0 H1].
    apply Qle_bool_iff in H0, H1. cbn [mbind result_bind].
    destruct (Env.set_and_non_empty getenv "GA_PROPERTY_ALIASES") as [al|].
    + destruct (json_object al) as [table|]; [|discriminate].
      cbn [mbind result_bind].
      destruct (Env.set_and_non_empty getenv "GA_DEFAULT_LIMIT") as [dl|].
      * destruct (py_int dl) as [n|]; [|discriminate].
        destruct (n <? 1)%Z eqn:Hn; [discriminate|].
        cbn [mbind result_bind]. intros [= <-]. cbn.
        repeat split; try assumption; try discriminate; lia.
      * cbn [mbind result_bind]. intros [= <-]. cbn.
        repeat split; try assumption; try discriminate; lia.
    + cbn [mbind result_bind].
      destruct (Env.set_and_non_empty getenv "GA_DEFAULT_LIMIT") as [dl|].
      * destruct (py_int dl) as [n|]; [|discriminate].
        destruct (n <? 1)%Z eqn:Hn; [discriminate|].
        cbn [mbind result_bind]. intros [= <-]. cbn.
        repeat split; try assumption; try discriminate; lia.
      * cbn [mbind result_bind]. intros [= <-]. cbn.
        repeat split; try assumption; try discriminate; lia.
  - cbn [mbind result_bind].
    destruct (Env.set_and_non_empty getenv "GA_PROPERTY_ALIASES") as [al|].
    + destruct (json_object al) as [table|]; [|discriminate].
      cbn [mbind result_bind].
      destruct (Env.set_and_non_empty getenv "GA_DEFAULT_LIMIT") as [dl|].
      * destruct (py_int dl) as [n|]; [|discriminate].
        destruct (n <? 1)%Z eqn:Hn; [discriminate|].
        cbn [mbind result_bind]. intros [= <-]. cbn.
        repeat split; try assumption; try discriminate; try lia; lra.
      * cbn [mbind result_bind]. intros [= <-]. cbn.
        repeat split; try assumption; try discriminate; try lia; lra.
    + cbn [mbind result_bind].
      destruct (Env.set_and_non_empty getenv "GA_DEFAULT_LIMIT") as [dl|].
      * destruct (py_int dl) as [n|]; [|discriminate].
        destruct (n <? 1)%Z eqn:Hn; [discriminate|].
        cbn [mbind result_bind]. intros [= <-]. cbn.
        repeat split; try assumption; try discriminate; try lia; lra.
      * cbn [mbind result_bind]. intros [= <-]. cbn.
        repeat split; try assumption; try discriminate; try lia; lra.
Qed.

End FromEnvFacts.

Lemma from_env_validates_witness :
  let getenv := fun variable : string =>
    if String.eqb variable "GA_CREDENTIALS_PATH"
    then Some "/etc/ga/credentials.json"
    else if String.eqb variable "GA_CACHE_TTL" then Some "-5"
    else if String.eqb variable "GOOGLE_APPLICATION_CREDENTIALS" then Some ""
    else None in
  let py_int := fun text : string =>
    if String.eqb text "-5" then Some (-5)%Z else None in
  exists s,
    Env.from_env getenv (fun _ => true) py_int (fun _ => None) (fun _ => None)
    = Ok s
    /\ Config.credentials_path (Env.base s) = "/etc/ga/credentials.json"
    /\ Config.cache_ttl (Env.base s) = (-5)%Z
    /\ (0 <= Config.fuzzy_threshold (Env.base s))%Q.
Proof.
  intros getenv py_int. eexists.
  assert (Env.from_env getenv (fun _ => true) py_int (fun _ => None)
            (fun _ => None) = Ok _) as H by reflexivity.
  split; [exact H|]. split; [reflexivity|]. split; [reflexivity|].
  exact (proj1 (proj2 (proj2 (proj2
    (from_env_validates getenv (fun _ => true) py_int (fun _ => None)
       (fun _ => None) _ H))))).
Defined.

(** ** Report filters *)

Section FilterBuilding.

Variable Value : Type.
Variable Float : Type.
Variable str_of : Value -> string.
Variable float_of : Value -> option Float.
Variable as_list : Value -> option (list Value).
Variable empty_text : Value.
Variable as_str : Value -> option string.
Variable field_name_of : Value -> option string.

Let build :=
  Report._build_single_filter Value Float str_of float_of as_list empty_text
    as_str field_name_of.
Let conditioned :=
  Report.conditioned Value Float str_of float_of as_list.
Let known : list string :=
  ["EXACT"; "CONTAINS"; "BEGINS_WITH"; "ENDS_WITH"; "REGEXP";
   "GREATER_THAN"; "LESS_THAN"; "EQUAL"; "IN_LIST"].

Lemma to_upper_fixed (c : ascii) :
  Report.to_upper (Report.to_upper c) = Report.to_upper c.
Proof. destruct c as [[] [] [] [] [] [] [] []]; reflexivity. Qed.

Lemma upper_fixed (s : string) : Report.upper (Report.upper s) = Report.upper s.
Proof.
  induction s as [|c s IH]; [reflexivity|].
  cbn [Report.upper]. rewrite to_upper_fixed, IH. reflexivity.
Qed.

Lemma conditioned_raises (field name : string) (value : Value) :
  conditioned field name value = None
  <-> In name ["GREATER_THAN"; "LESS_THAN"; "EQUAL"] /\ float_of value = None.
Proof.
  unfold conditioned, Report.conditioned, Report.one_of. cbn [existsb].
  destruct (String.eqb name "EXACT") eqn:E1;
    [apply String.eqb_eq in E1; rewrite E1; cbn;
     split; [discriminate|intros [[H|[H|[H|[]]]] _]; discriminate H]|].
  destruct (String.eqb name "CONTAINS") eqn:E2;
    [apply String.eqb_eq in E2; rewrite E2; cbn;
     split; [discriminate|intros [[H|[H|[H|[]]]] _]; discriminate H]|].
  destruct (String.eqb name "BEGINS_WITH") eqn:E3;
    [apply String.eqb_eq in E3; rewrite E3; cbn;
     split; [discriminate|intros [[H|[H|[H|[]]]] _]; discriminate H]|].
  destruct (String.eqb name "ENDS_WITH") eqn:E4;
    [apply String.eqb_eq in E4; rewrite E4; cbn;
     split; [discriminate|intros [[H|[H|[H|[]]]] _]; discriminate H]|].
  destruct (String.eqb name "REGEXP") eqn:E5;
    [apply String.eqb_eq in E5; rewrite E5; cbn;
     split; [discriminate|intros [[H|[H|[H|[]]]] _]; discriminate H]|].
  cbn [orb].
  destruct (String.eqb name "GREATER_THAN") eqn:E6;
    [apply String.eqb_eq in E6; cbn [orb];
     destruct (float_of _); split; try discriminate; try tauto;
     [intros [_ [=]]|intros _; split; [left; auto|reflexivity]]|].
  destruct (String.eqb name "LESS_THAN") eqn:E7;
    [apply String.eqb_eq in E7; cbn [orb];
     destruct (float_of _); split; try discriminate; try tauto;
     [intros [_ [=]]|intros _; split; [right; left; auto|reflexivity]]|].
  destruct (String.eqb name "EQUAL") eqn:E8;
    [apply String.eqb_eq in E8; cbn [orb];
     destruct (float_of _); split; try discriminate; try tauto;
     [intros [_ [=]]
     |intros _; split; [right; right; left; auto|reflexivity]]|].
  cbn [orb]. apply String.eqb_neq in E6, E7, E8.
  destruct (String.eqb name "IN_LIST");
    (split; [discriminate|]);
    intros [[H|[H|[H|[]]]] _]; congruence.
Qed.

Lemma conditioned_unknown (field name : string) (value : Value) :
  ~ In name known ->
  conditioned field name value
  = Some {| Report.field_name := field; Report.filter_condition := None |}.
Proof.
  intros Hnot. unfold conditioned, Report.conditioned, Report.one_of.
  cbn [existsb].
  assert (forall k, In k known -> String.eqb name k = false) as Hk.
  { intros k Hin. apply String.eqb_neq. intros ->. exact (Hnot Hin). }
  rewrite !Hk by (unfold known; simpl; tauto). reflexivity.
Qed.

(** [_build_single_filter] on a specification whose "field",
    "operator" and "value" are any values, or missing.  An operator
    that is a text is read without regard to case, and a missing
    operator as EXACT.  The call raises exactly when the operator is
    present and is not a text (there is no [upper] to call), or the
    [Filter] constructor refuses the field, or the operator is
    GREATER_THAN, LESS_THAN or EQUAL and [float(value)] raises.  An
    operator that is none of the nine known names, on a field the
    constructor takes, raises nothing and yields a filter that names
    the field but carries no condition. *)
Theorem single_filter_operator_dispatch
    (field operator value : option Value) :
  let spec := {| Report.spec_field := field;
                 Report.spec_operator := operator;
                 Report.spec_value := value |} in
  let with_operator (v : Value) :=
    {| Report.spec_field := field;
       Report.spec_operator := Some v;
       Report.spec_value := value |} in
  let name :=
    match operator with
    | Some v =>
        match as_str v with Some o => Some (Report.upper o) | None => None end
    | None => Some "EXACT"
    end in
  let named :=
    match field with Some v => field_name_of v | None => Some "" end in
  (forall v o v',
     operator = Some v -> as_str v = Some o ->
     as_str v' = Some (Report.upper o) ->
     build spec = build (with_operator v'))
  /\ (forall v',
        operator = None -> as_str v' = Some "EXACT" ->
        build spec = build (with_operator v'))
  /\ (build spec = None
      <-> (exists v, operator = Some v /\ as_str v = None)
          \/ (exists v, field = Some v /\ field_name_of v = None)
          \/ (exists n,
                name = Some n
                /\ In n ["GREATER_THAN"; "LESS_THAN"; "EQUAL"]
                /\ float_of
                     (match value with Some v => v | None => empty_text end)
                   = None))
  /\ (forall n f,
        name = Some n -> named = Some f -> ~ In n known ->
        build spec
        = Some {| Report.field_name := f; Report.filter_condition := None |}).
Proof.
  intros spec with_operator name named.
  assert (build spec
          = match name with
            | None => None
            | Some n =>
                match named with
                | None => None
                | Some f =>
                    conditioned f n
                      (match value with Some v => v | None => empty_text end)
                end
            end) as Hbuild.
  { unfold build, Report._build_single_filter, Report.operator_of,
      Report.field_of, spec, name, named.
    cbn [Report.spec_field Report.spec_operator Report.spec_value].
    destruct operator as [v|]; [destruct (as_str v)|]; reflexivity. }
  split; [|split; [|split]].
  - intros v o v' -> Ho Ho'.
    unfold build, Report._build_single_filter, Report.operator_of,
      spec, with_operator.
    cbn [Report.spec_field Report.spec_operator Report.spec_value].
    rewrite Ho, Ho', upper_fixed. reflexivity.
  - intros v' -> Ho'.
    unfold build, Report._build_single_filter, Report.operator_of,
      spec, with_operator.
    cbn [Report.spec_field Report.spec_operator Report.spec_value].
    rewrite Ho'. reflexivity.
  - rewrite Hbuild. unfold name, named.
    destruct operator as [v|].
    + destruct (as_str v) as [o|] eqn:Ho.
      * destruct field as [w|].
        -- destruct (field_name_of w) as [f|] eqn:Hf.
           ++ rewrite conditioned_raises. split.
              ** intros H. right. right. exists (Report.upper o).
                 split; [reflexivity|exact H].
              ** intros [(v0 & [= <-] & H)|[(w0 & [= <-] & H)
                         |(n & [= <-] & H)]]; [congruence|congruence|exact H].
           ++ split; [|reflexivity]. intros _. right. left. exists w. auto.
        -- rewrite conditioned_raises. split.
           ++ intros H. right. right. exists (Report.upper o).
              split; [reflexivity|exact H].
           ++ intros [(v0 & [= <-] & H)|[(w0 & [=] & _)|(n & [= <-] & H)]];
                [congruence|exact H].
      * split; [|reflexivity]. intros _. left. exists v. auto.
    + destruct field as [w|].
      * destruct (field_name_of w) as [f|] eqn:Hf.
        -- rewrite conditioned_raises. split.
           ++ intros H. right. right. exists "EXACT".
              split; [reflexivity|exact H].
           ++ intros [(v0 & [=] & _)|[(w0 & [= <-] & H)|(n & [= <-] & H)]];
                [congruence|exact H].
        -- split; [|reflexivity]. intros _. right. left. exists w. auto.
      * rewrite conditioned_raises. split.
        -- intros H. right. right. exists "EXACT".
           split; [reflexivity|exact H].
        -- intros [(v0 & [=] & _)|[(w0 & [=] & _)|(n & [= <-] & H)]]; exact H.
  - intros n f Hn Hf Hnot. rewrite Hbuild, Hn, Hf.
    apply conditioned_unknown. exact Hnot.
Qed.

End FilterBuilding.

Section FilterExpressions.

Variable Value : Type.
Variable Float : Type.
Variable str_of : Value -> string.
Variable float_of : Value -> option Float.
Variable as_list : Value -> option (list Value).
Variable empty_text : Value.
Variable as_str : Value -> option string.
Variable field_name_of : Value -> option string.

Let build :=
  Report._build_single_filter Value Float str_of float_of as_list empty_text
    as_str field_name_of.
Let build_all :=
  Report.build_all Value Float str_of float_of as_list empty_text
    as_str field_name_of.
Let build_expression :=
  Report._build_filter_expression Value Float str_of float_of as_list
    empty_text as_str field_name_of.
Let built (spec : Report.filter_spec Value) (e : Report.FilterExpression Float) :=
  exists f, build spec = Some f /\ e = Report.OfFilter Float f.

Lemma build_all_raises (filters : list (Report.filter_spec Value)) :
  build_all filters = None <-> List.Exists (fun spec => build spec = None) filters.
Proof.
  induction filters as [|spec rest IH]; cbn.
  - split; [discriminate|]. intros H. inversion H.
  - fold build build_all. destruct (build spec) as [f|] eqn:Hf.
    + destruct (build_all rest) as [more|] eqn:Hr.
      * split; [discriminate|]. intros H. inversion H as [? ? H1|? ? H1]; subst.
        -- congruence.
        -- apply IH in H1. discriminate H1.
      * split; [|reflexivity]. intros _. apply List.Exists_cons_tl.
        apply IH. reflexivity.
    + split; [|reflexivity]. intros _. apply List.Exists_cons_hd. exact Hf.
Qed.

Lemma build_all_returns (filters : list (Report.filter_spec Value))
    (expressions : list (Report.FilterExpression Float)) :
  build_all filters = Some expressions -> List.Forall2 built filters expressions.
Proof.
  revert expressions. induction filters as [|spec rest IH]; cbn; intros es H.
  - injection H as <-. constructor.
  - fold build build_all in H. destruct (build spec) as [f|] eqn:Hf; [|discriminate H].
    destruct (build_all rest) as [more|] eqn:Hr; [|discriminate H].
    injection H as <-. constructor; [exists f; split; [exact Hf|reflexivity]|].
    apply IH. reflexivity.
Qed.

(** [_build_filter_expression] is all or nothing: it raises exactly when
    building one of the listed filters raises.  When it returns, a
    single specification gives that filter itself, and any other number
    of specifications (none included) gives an AND group holding one
    filter per specification, in the order of the list. *)
Theorem filter_expression_all_or_nothing
    (filters : list (Report.filter_spec Value)) :
  (build_expression filters = None
   <-> List.Exists (fun spec => build spec = None) filters)
  /\ (forall e, build_expression filters = Some e ->
      match filters with
      | [spec] => built spec e
      | _ => exists expressions,
               e = Report.AndGroup Float expressions
               /\ List.Forall2 built filters expressions
      end).
Proof.
  assert (forall l, (match build_all l with
                     | Some es => Some (Report.AndGroup Float es)
                     | None => None
                     end = None
                     <-> List.Exists (fun spec => build spec = None) l)
                    /\ (forall e, match build_all l with
                                  | Some es => Some (Report.AndGroup Float es)
                                  | None => None
                                  end = Some e ->
                        exists es, e = Report.AndGroup Float es
                                   /\ List.Forall2 built l es)) as Hgroup.
  { intros l. destruct (build_all l) as [es|] eqn:Hl.
    - split.
      + split; [discriminate|]. intros H. apply build_all_raises in H.
        congruence.
      + intros e [= <-]. exists es. split; [reflexivity|].
        apply build_all_returns. exact Hl.
    - split.
      + split; [|reflexivity]. intros _. apply build_all_raises. exact Hl.
      + discriminate. }
  destruct filters as [|spec [|spec' rest]].
  - exact (Hgroup []).
  - unfold build_expression, Report._build_filter_expression. fold build.
    destruct (build spec) as [f|] eqn:Hf.
    + split.
      * split; [discriminate|]. intros H.
        inversion H as [? ? H1|? ? H1]; subst; [congruence|inversion H1].
      * intros e [= <-]. exists f. split; [exact Hf|reflexivity].
    + split; [|discriminate]. split; [|reflexivity]. intros _.
      apply List.Exists_cons_hd. exact Hf.
  - exact (Hgroup (spec :: spec' :: rest)).
Qed.

End FilterExpressions.

(** * The date parser *)
(** ** The calendar *)

Section CalendarFacts.

Import Calendar.
Local Open Scope Z_scope.

Lemma triple_eq (a b c a' b' c' : Z) :
  a = a' -> b = b' -> c = c' -> (a, b, c) = (a', b', c').
Proof. congruence. Qed.

Lemma is_leap_pieces (y a b c e : Z) :
  y - 1 = 400 * a + 100 * b + 4 * c + e ->
  0 <= b <= 3 -> 0 <= c <= 24 -> 0 <= e <= 3 ->
  _is_leap y = leap_of b c e.
Proof.
  intros Hy Hb Hc He. unfold _is_leap, leap_of.
  destruct (Z.eqb_spec (y mod 4) 0) as [H4|H4];
    destruct (Z.eqb_spec (y mod 100) 0) as [H100|H100];
    destruct (Z.eqb_spec (y mod 400) 0) as [H400|H400];
    destruct (Z.eqb_spec e 3) as [E|E];
    destruct (Z.eqb_spec c 24) as [C|C];
    destruct (Z.eqb_spec b 3) as [B|B];
    try reflexivity; exfalso; Z.div_mod_to_equations; lia.
Qed.

Lemma days_before_year_pieces (y : Z) :
  exists a b c e,
    y - 1 = 400 * a + 100 * b + 4 * c + e
    /\ 0 <= b <= 3 /\ 0 <= c <= 24 /\ 0 <= e <= 3
    /\ _days_before_year y = 146097 * a + 36524 * b + 1461 * c + 365 * e.
Proof.
  exists ((y - 1) / 400), ((y - 1) mod 400 / 100), ((y - 1) mod 100 / 4),
    ((y - 1) mod 4).
  unfold _days_before_year. Z.div_mod_to_equations. lia.
Qed.

Lemma days_before_year_of_pieces (y a b c e : Z) :
  y - 1 = 400 * a + 100 * b + 4 * c + e ->
  0 <= b <= 3 -> 0 <= c <= 24 -> 0 <= e <= 3 ->
  _days_before_year y = 146097 * a + 36524 * b + 1461 * c + 365 * e.
Proof.
  intros. unfold _days_before_year. Z.div_mod_to_equations. lia.
Qed.

Lemma ord2ymd_pieces (a b c e r : Z) :
  0 <= b <= 3 -> 0 <= c <= 24 -> 0 <= e <= 3 -> 0 <= r < 365 ->
  _ord2ymd (146097 * a + 36524 * b + 1461 * c + 365 * e + r + 1)
  = ord2ymd_finish (400 * a + 100 * b + 4 * c + e + 1) (leap_of b c e) r.
Proof.
  intros Hb Hc He Hr. unfold _ord2ymd.
  set (n := 146097 * a + 36524 * b + 1461 * c + 365 * e + r + 1 - 1).
  assert (n / 146097 = a) as -> by (subst n; Z.div_mod_to_equations; lia).
  assert (n mod 146097 = 36524 * b + 1461 * c + 365 * e + r) as ->
    by (subst n; Z.div_mod_to_equations; lia).
  set (n1 := 36524 * b + 1461 * c + 365 * e + r).
  assert (n1 / 36524 = b) as -> by (subst n1; Z.div_mod_to_equations; lia).
  assert (n1 mod 36524 = 1461 * c + 365 * e + r) as ->
    by (subst n1; Z.div_mod_to_equations; lia).
  set (n2 := 1461 * c + 365 * e + r).
  assert (n2 / 1461 = c) as -> by (subst n2; Z.div_mod_to_equations; lia).
  assert (n2 mod 1461 = 365 * e + r) as ->
    by (subst n2; Z.div_mod_to_equations; lia).
  assert ((365 * e + r) / 365 = e) as -> by (Z.div_mod_to_equations; lia).
  assert ((365 * e + r) mod 365 = r) as -> by (Z.div_mod_to_equations; lia).
  cbv zeta.
  destruct (Z.eqb_spec e 4) as [E|_]; [lia|].
  destruct (Z.eqb_spec b 4) as [B|_]; [lia|].
  cbn [orb]. unfold ord2ymd_finish, leap_of.
  replace (a * 400 + 1 + b * 100 + c * 4 + e)
    with (400 * a + 100 * b + 4 * c + e + 1) by lia.
  reflexivity.
Qed.

Lemma ord2ymd_last_day (a b c e : Z) :
  0 <= b <= 3 -> 0 <= c <= 24 -> 0 <= e <= 3 -> leap_of b c e = true ->
  _ord2ymd (146097 * a + 36524 * b + 1461 * c + 365 * e + 365 + 1)
  = (400 * a + 100 * b + 4 * c + e + 1, 12, 31).
Proof.
  intros Hb Hc He Hl. unfold leap_of in Hl.
  apply andb_true_iff in Hl. destruct Hl as [E Hl].
  apply Z.eqb_eq in E. subst e.
  unfold _ord2ymd.
  set (n := 146097 * a + 36524 * b + 1461 * c + 365 * 3 + 365 + 1 - 1).
  assert (n / 146097 = a) as -> by (subst n; Z.div_mod_to_equations; lia).
  assert (n mod 146097 = 36524 * b + 1461 * c + 1460) as ->
    by (subst n; Z.div_mod_to_equations; lia).
  destruct (Z.eqb_spec c 24) as [C|C].
  - cbn [negb orb] in Hl. apply Z.eqb_eq in Hl. subst b c.
    vm_compute (36524 * 3 + 1461 * 24 + 1460).
    vm_compute (146096 / 36524). vm_compute (146096 mod 36524).
    cbv zeta. cbn [Z.eqb orb]. 
    replace (Z.eqb 4 4) with true by reflexivity.
    rewrite orb_true_r.
    vm_compute (0 / 1461). vm_compute (0 mod 1461 / 365).
    apply triple_eq; lia.
  - set (n1 := 36524 * b + 1461 * c + 1460).
    assert (n1 / 36524 = b) as -> by (subst n1; Z.div_mod_to_equations; lia).
    assert (n1 mod 36524 = 1461 * c + 1460) as ->
      by (subst n1; Z.div_mod_to_equations; lia).
    assert ((1461 * c + 1460) / 1461 = c) as ->
      by (Z.div_mod_to_equations; lia).
    assert ((1461 * c + 1460) mod 1461 = 1460) as ->
      by (Z.div_mod_to_equations; lia).
    vm_compute (1460 / 365). cbv zeta.
    replace (Z.eqb 4 4) with true by reflexivity. cbn [orb].
    apply triple_eq; lia.
Qed.

Lemma ord2ymd_finish_spec (y : Z) (leap : bool) (m d : Z) :
  1 <= m <= 12 ->
  1 <= d <= _DAYS_IN_MONTH m + (if (m =? 2) && leap then 1 else 0) ->
  _DAYS_BEFORE_MONTH m + (if (2 <? m) && leap then 1 else 0) + d - 1 < 365 ->
  ord2ymd_finish y leap
    (_DAYS_BEFORE_MONTH m + (if (2 <? m) && leap then 1 else 0) + d - 1)
  = (y, m, d).
Proof.
  intros Hm Hd Hlast.
  assert (m = 1 \/ m = 2 \/ m = 3 \/ m = 4 \/ m = 5 \/ m = 6 \/ m = 7
          \/ m = 8 \/ m = 9 \/ m = 10 \/ m = 11 \/ m = 12) as Hcases by lia.
  unfold ord2ymd_finish. rewrite Z.shiftr_div_pow2 by lia.
  change (2 ^ 5) with 32.
  destruct leap;
    repeat (destruct Hcases as [->|Hcases]); try subst m;
    cbn in Hd, Hlast; cbn;
    match goal with
    | |- context [(?n + 50) / 32] =>
        let q := fresh "q" in
        let Hq := fresh "Hq" in
        remember ((n + 50) / 32) as q eqn:Hq;
        assert (q = 1 \/ q = 2 \/ q = 3 \/ q = 4 \/ q = 5 \/ q = 6 \/ q = 7
                \/ q = 8 \/ q = 9 \/ q = 10 \/ q = 11 \/ q = 12) as Hqs
          by (subst q; Z.div_mod_to_equations; lia);
        repeat (destruct Hqs as [Hqv|Hqs]); try rename Hqs into Hqv;
        rewrite Hqv in Hq; rewrite Hqv;
        try (exfalso; Z.div_mod_to_equations; lia);
        cbn;
        match goal with
        | |- (if ?t then _ else _) = _ =>
            destruct t eqn:Ht;
            [apply Z.ltb_lt in Ht|apply Z.ltb_ge in Ht];
            try (exfalso; Z.div_mod_to_equations; lia);
            repeat match goal with
                   | |- context [Z.pos ?a - Z.pos ?b] =>
                       let v := eval vm_compute in (Z.pos a - Z.pos b) in
                       change (Z.pos a - Z.pos b) with v
                   end;
            cbn; apply triple_eq; lia
        end
    end.
Qed.

End CalendarFacts.

Section CalendarRoundTrip.

Import Calendar.
Local Open Scope Z_scope.

Lemma valid_fields (d : date) :
  valid d = true <->
  1 <= year d <= 9999 /\ 1 <= month d <= 12
  /\ 1 <= day d <= _days_in_month (year d) (month d).
Proof.
  unfold valid. rewrite !andb_true_iff, !Z.leb_le. tauto.
Qed.

Lemma days_in_month_pieces (y m : Z) (leap : bool) :
  _is_leap y = leap ->
  _days_in_month y m = _DAYS_IN_MONTH m + (if (m =? 2) && leap then 1 else 0).
Proof.
  intros <-. unfold _days_in_month.
  destruct (Z.eqb_spec m 2) as [->|_]; destruct (_is_leap y); cbn; lia.
Qed.

Lemma year_day_bounds (leap : bool) (m d : Z) :
  1 <= m <= 12 ->
  1 <= d <= _DAYS_IN_MONTH m + (if (m =? 2) && leap then 1 else 0) ->
  let r := _DAYS_BEFORE_MONTH m + (if (2 <? m) && leap then 1 else 0) + d - 1 in
  0 <= r < 365 + (if leap then 1 else 0)
  /\ (365 <= r -> leap = true /\ m = 12 /\ d = 31).
Proof.
  intros Hm Hd.
  assert (m = 1 \/ m = 2 \/ m = 3 \/ m = 4 \/ m = 5 \/ m = 6 \/ m = 7
          \/ m = 8 \/ m = 9 \/ m = 10 \/ m = 11 \/ m = 12) as Hcases by lia.
  destruct leap; repeat (destruct Hcases as [->|Hcases]); try subst m;
    cbn in Hd |- *; (split; [lia|]); intros; repeat split; try lia.
Qed.

(** The ordinal of a calendar date names that date. *)
Lemma fromordinal_toordinal (d : date) :
  valid d = true -> fromordinal (toordinal d) = d.
Proof.
  destruct d as [y m dd]. rewrite valid_fields. cbn [year month day].
  intros (Hy & Hm & Hd).
  destruct (days_before_year_pieces y) as (a & b & c & e & Hp & Hb & Hc & He & Hdby).
  pose proof (is_leap_pieces y a b c e Hp Hb Hc He) as Hleap.
  rewrite (days_in_month_pieces y m _ Hleap) in Hd.
  pose proof (year_day_bounds _ m dd Hm Hd) as [Hr Hlast].
  unfold fromordinal, toordinal, _ymd2ord, _days_before_month.
  cbn [year month day]. rewrite Hdby, Hleap.
  set (r := _DAYS_BEFORE_MONTH m + (if (2 <? m) && leap_of b c e then 1 else 0)
            + dd - 1) in *.
  replace (146097 * a + 36524 * b + 1461 * c + 365 * e
           + (_DAYS_BEFORE_MONTH m
              + (if (2 <? m) && leap_of b c e then 1 else 0)) + dd)
    with (146097 * a + 36524 * b + 1461 * c + 365 * e + r + 1)
    by (subst r; lia).
  destruct (Z_lt_le_dec r 365) as [Hlt|Hge].
  - rewrite ord2ymd_pieces by lia.
    subst r. rewrite ord2ymd_finish_spec by assumption.
    f_equal; lia.
  - destruct (Hlast Hge) as (Hl & -> & ->).
    assert (r = 365) as -> by (rewrite Hl in Hr; lia).
    rewrite ord2ymd_last_day by assumption. f_equal; lia.
Qed.

Lemma ordinal_pieces (o : Z) :
  1 <= o ->
  exists a b c e r,
    o = 146097 * a + 36524 * b + 1461 * c + 365 * e + r + 1
    /\ 0 <= a /\ 0 <= b <= 3 /\ 0 <= c <= 24 /\ 0 <= e <= 3
    /\ 0 <= r < 365 + (if leap_of b c e then 1 else 0).
Proof.
  intros Ho.
  set (n := o - 1).
  set (a := n / 146097). set (r1 := n mod 146097).
  set (b := Z.min (r1 / 36524) 3). set (r2 := r1 - 36524 * b).
  set (c := Z.min (r2 / 1461) 24). set (r3 := r2 - 1461 * c).
  set (e := Z.min (r3 / 365) 3). set (r := r3 - 365 * e).
  exists a, b, c, e, r. unfold leap_of.
  destruct (Z.eqb_spec e 3) as [E|E];
    destruct (Z.eqb_spec c 24) as [C|C];
    destruct (Z.eqb_spec b 3) as [B|B]; cbn [negb orb andb];
    subst r e r3 c r2 b r1 a n; Z.div_mod_to_equations; lia.
Qed.

Lemma year_day_split (leap : bool) (r : Z) :
  0 <= r < 365 + (if leap then 1 else 0) ->
  exists m d,
    1 <= m <= 12
    /\ 1 <= d <= _DAYS_IN_MONTH m + (if (m =? 2) && leap then 1 else 0)
    /\ r = _DAYS_BEFORE_MONTH m + (if (2 <? m) && leap then 1 else 0) + d - 1.
Proof.
  intros Hr.
  set (x := if leap then 1 else 0).
  assert (r < 31 \/ 31 <= r < 59 + x \/ 59 + x <= r < 90 + x
          \/ 90 + x <= r < 120 + x \/ 120 + x <= r < 151 + x
          \/ 151 + x <= r < 181 + x \/ 181 + x <= r < 212 + x
          \/ 212 + x <= r < 243 + x \/ 243 + x <= r < 273 + x
          \/ 273 + x <= r < 304 + x \/ 304 + x <= r < 334 + x
          \/ 334 + x <= r) as Hcases by lia.
  destruct Hcases as [H|[H|[H|[H|[H|[H|[H|[H|[H|[H|[H|H]]]]]]]]]]].
  - exists 1, (r + 1). destruct leap; cbn in *; lia.
  - exists 2, (r - 31 + 1). destruct leap; cbn in *; lia.
  - exists 3, (r - 59 - x + 1). destruct leap; cbn in *; lia.
  - exists 4, (r - 90 - x + 1). destruct leap; cbn in *; lia.
  - exists 5, (r - 120 - x + 1). destruct leap; cbn in *; lia.
  - exists 6, (r - 151 - x + 1). destruct leap; cbn in *; lia.
  - exists 7, (r - 181 - x + 1). destruct leap; cbn in *; lia.
  - exists 8, (r - 212 - x + 1). destruct leap; cbn in *; lia.
  - exists 9, (r - 243 - x + 1). destruct leap; cbn in *; lia.
  - exists 10, (r - 273 - x + 1). destruct leap; cbn in *; lia.
  - exists 11, (r - 304 - x + 1). destruct leap; cbn in *; lia.
  - exists 12, (r - 334 - x + 1). destruct leap; cbn in *; lia.
Qed.

(** Every ordinal of the supported range is the ordinal of a calendar
    date. *)
Lemma ordinal_of_some_date (o : Z) :
  1 <= o <= _MAXORDINAL -> exists d, valid d = true /\ toordinal d = o.
Proof.
  unfold _MAXORDINAL. intros Ho.
  destruct (ordinal_pieces o) as (a & b & c & e & r & Hn & Ha & Hb & Hc & He & Hr);
    [lia|].
  destruct (year_day_split (leap_of b c e) r Hr) as (m & d & Hm & Hd & Hrm).
  set (y := 400 * a + 100 * b + 4 * c + e + 1).
  assert (y - 1 = 400 * a + 100 * b + 4 * c + e) as Hp by (subst y; lia).
  pose proof (is_leap_pieces y a b c e Hp Hb Hc He) as Hleap.
  exists {| year := y; month := m; day := d |}. split.
  - apply valid_fields. cbn [year month day].
    rewrite (days_in_month_pieces y m _ Hleap).
    split; [|split; assumption].
    assert (0 <= r) by lia. subst y. lia.
  - unfold toordinal, _ymd2ord, _days_before_month. cbn [year month day].
    rewrite (days_before_year_of_pieces y a b c e Hp Hb Hc He), Hleap. lia.
Qed.

Lemma toordinal_fromordinal (o : Z) :
  1 <= o <= _MAXORDINAL ->
  valid (fromordinal o) = true /\ toordinal (fromordinal o) = o.
Proof.
  intros Ho. destruct (ordinal_of_some_date o Ho) as (d & Hv & <-).
  rewrite (fromordinal_toordinal d Hv). split; [exact Hv|reflexivity].
Qed.

Lemma toordinal_range (d : date) :
  valid d = true -> 1 <= toordinal d <= _MAXORDINAL.
Proof.
  destruct d as [y m dd]. rewrite valid_fields. cbn [year month day].
  intros (Hy & Hm & Hd).
  destruct (days_before_year_pieces y) as (a & b & c & e & Hp & Hb & Hc & He & Hdby).
  pose proof (is_leap_pieces y a b c e Hp Hb Hc He) as Hleap.
  rewrite (days_in_month_pieces y m _ Hleap) in Hd.
  pose proof (year_day_bounds _ m dd Hm Hd) as [Hr _].
  unfold toordinal, _ymd2ord, _days_before_month, _MAXORDINAL.
  cbn [year month day]. rewrite Hdby, Hleap.
  unfold leap_of in *.
  destruct (Z.eqb_spec e 3) as [E|E];
    destruct (Z.eqb_spec c 24) as [C|C];
    destruct (Z.eqb_spec b 3) as [B|B]; cbn [negb orb andb] in *; lia.
Qed.

Lemma minus_days_spec (d : date) (n : Z) :
  valid d = true -> 0 <= n ->
  (n < toordinal d ->
   exists d', minus_days d n = Some d' /\ valid d' = true
              /\ toordinal d' = toordinal d - n)
  /\ (toordinal d <= n -> minus_days d n = None).
Proof.
  intros Hv Hn. pose proof (toordinal_range d Hv) as Hr.
  unfold minus_days. split; intros Hlt.
  - destruct (toordinal_fromordinal (toordinal d - n)) as [Hv' Ho]; [lia|].
    exists (fromordinal (toordinal d - n)).
    destruct (Z.ltb_spec 0 (toordinal d - n)); [|lia].
    destruct (Z.leb_spec (toordinal d - n) _MAXORDINAL); [|lia].
    cbn [andb]. auto.
  - destruct (Z.ltb_spec 0 (toordinal d - n)); [lia|]. reflexivity.
Qed.

Lemma minus_days_to (d d' : date) (n : Z) :
  valid d = true -> valid d' = true -> toordinal d' = toordinal d - n ->
  0 <= n -> minus_days d n = Some d'.
Proof.
  intros Hv Hv' Ho Hn.
  pose proof (toordinal_range d' Hv') as Hr.
  destruct (minus_days_spec d n Hv Hn) as [Hsome _].
  destruct Hsome as (d'' & -> & Hv'' & Ho''); [lia|].
  rewrite <- (fromordinal_toordinal d' Hv'), <- (fromordinal_toordinal d'' Hv'').
  congruence.
Qed.

Lemma days_before_year_step (y : Z) :
  _days_before_year y
  = _days_before_year (y - 1) + 365 + (if _is_leap (y - 1) then 1 else 0).
Proof.
  unfold _days_before_year, _is_leap.
  destruct (Z.eqb_spec ((y - 1) mod 4) 0);
    destruct (Z.eqb_spec ((y - 1) mod 100) 0);
    destruct (Z.eqb_spec ((y - 1) mod 400) 0);
    cbn [negb andb orb]; Z.div_mod_to_equations; lia.
Qed.

Lemma days_before_month_step (y m : Z) :
  2 <= m <= 12 ->
  _days_before_month y m
  = _days_before_month y (m - 1) + _days_in_month y (m - 1).
Proof.
  intros Hm.
  assert (m = 2 \/ m = 3 \/ m = 4 \/ m = 5 \/ m = 6 \/ m = 7
          \/ m = 8 \/ m = 9 \/ m = 10 \/ m = 11 \/ m = 12) as Hcases by lia.
  unfold _days_before_month, _days_in_month.
  destruct (_is_leap y);
    repeat (destruct Hcases as [->|Hcases]); try subst m; reflexivity.
Qed.

Lemma days_in_month_range (y m : Z) :
  1 <= m <= 12 -> 28 <= _days_in_month y m <= 31.
Proof.
  intros Hm.
  assert (m = 1 \/ m = 2 \/ m = 3 \/ m = 4 \/ m = 5 \/ m = 6 \/ m = 7
          \/ m = 8 \/ m = 9 \/ m = 10 \/ m = 11 \/ m = 12) as Hcases by lia.
  unfold _days_in_month.
  destruct (_is_leap y);
    repeat (destruct Hcases as [->|Hcases]); try subst m; cbn; lia.
Qed.

Lemma first_of_month_valid (d : date) :
  valid d = true ->
  new (year d) (month d) 1
  = Some {| year := year d; month := month d; day := 1 |}.
Proof.
  rewrite valid_fields. intros (Hy & Hm & Hd). unfold new.
  assert (valid {| year := year d; month := month d; day := 1 |} = true) as ->;
    [|reflexivity].
  apply valid_fields. cbn [year month day].
  pose proof (days_in_month_range (year d) (month d) Hm). lia.
Qed.

(** The day before the first of a month is the last day of the month
    before; there is none before January of the year 1. *)
Lemma day_before_first (y m : Z) :
  1 <= y <= 9999 -> 1 <= m <= 12 ->
  minus_days {| year := y; month := m; day := 1 |} 1
  = if m =? 1 then
      if y =? 1 then None
      else Some {| year := y - 1; month := 12; day := 31 |}
    else Some {| year := y; month := m - 1;
                 day := _days_in_month y (m - 1) |}.
Proof.
  intros Hy Hm.
  assert (valid {| year := y; month := m; day := 1 |} = true) as Hv.
  { apply valid_fields. cbn [year month day].
    pose proof (days_in_month_range y m Hm). lia. }
  destruct (Z.eqb_spec m 1) as [->|Hm1].
  - destruct (Z.eqb_spec y 1) as [->|Hy1]; [reflexivity|].
    apply minus_days_to; [exact Hv| | |lia].
    + apply valid_fields. cbn [year month day].
      unfold _days_in_month. cbn. lia.
    + unfold toordinal, _ymd2ord. cbn [year month day].
      rewrite (days_before_year_step y). unfold _days_before_month.
      destruct (_is_leap (y - 1)), (_is_leap y); cbn; lia.
  - apply minus_days_to; [exact Hv| | |lia].
    + apply valid_fields. cbn [year month day].
      pose proof (days_in_month_range y (m - 1)). lia.
    + unfold toordinal, _ymd2ord. cbn [year month day].
      rewrite (days_before_month_step y m) by lia. lia.
Qed.

(** The Monday of the week of a date. *)
Lemma start_of_week (d : date) :
  valid d = true ->
  exists monday,
    minus_days d (weekday d) = Some monday /\ valid monday = true
    /\ weekday monday = 0
    /\ toordinal monday = toordinal d - weekday d
    /\ 0 <= weekday d <= 6.
Proof.
  intros Hv. pose proof (toordinal_range d Hv) as Hr.
  assert (0 <= weekday d <= 6 /\ weekday d < toordinal d
          /\ (toordinal d - weekday d + 6) mod 7 = 0) as (Hw & Hlt & Hmon).
  { unfold weekday. Z.div_mod_to_equations. lia. }
  destruct (minus_days_spec d (weekday d) Hv) as [Hsome _]; [lia|].
  destruct (Hsome Hlt) as (monday & Hm & Hvm & Hom).
  exists monday. repeat split; try assumption; try lia.
  unfold weekday at 1. rewrite Hom. exact Hmon.
Qed.

End CalendarRoundTrip.

(** ** Regular expressions *)

Lemma app_cons (c : ascii) (a b : string) :
  String c a +:+ b = String c (a +:+ b).
Proof. reflexivity. Qed.

Lemma app_empty (b : string) : EmptyString +:+ b = b.
Proof. reflexivity. Qed.

Lemma every_app (p : ascii -> bool) (a b : string) :
  every p (a +:+ b) = every p a && every p b.
Proof.
  induction a as [|c a IH]; [reflexivity|].
  rewrite app_cons. cbn [every]. rewrite IH. apply andb_assoc.
Qed.

Lemma every_impl (p q : ascii -> bool) (s : string) :
  (forall c, p c = true -> q c = true) -> every p s = true -> every q s = true.
Proof.
  intros Hpq. induction s as [|c s IH]; [reflexivity|]. cbn.
  rewrite !andb_true_iff. intros [Hc Hs]. split; [apply Hpq, Hc|apply IH, Hs].
Qed.

Lemma starts_app (p q : ascii -> bool) (a b : string) :
  every q a = true -> (forall c, q c = true -> p c = false) ->
  starts p b = false -> starts p (a +:+ b) = false.
Proof.
  destruct a as [|c a]; [intros _ _ H; exact H|].
  rewrite app_cons. cbn [every starts]. rewrite andb_true_iff.
  intros [Hc _] Hqp _. apply Hqp, Hc.
Qed.

Lemma length_app (a b : string) :
  String.length (a +:+ b) = (String.length a + String.length b)%nat.
Proof.
  induction a as [|c a IH]; [reflexivity|].
  rewrite app_cons. cbn [String.length]. rewrite IH. reflexivity.
Qed.

Lemma take_app (a b : string) : PyStr.take (String.length a) (a +:+ b) = a.
Proof.
  induction a as [|c a IH]; [destruct b; reflexivity|].
  rewrite app_cons. cbn [String.length PyStr.take]. rewrite IH. reflexivity.
Qed.

Lemma consumed_app (a b : string) : Re.consumed (a +:+ b) b = a.
Proof.
  unfold Re.consumed. rewrite length_app.
  replace (String.length a + String.length b - String.length b)%nat
    with (String.length a) by lia.
  apply take_app.
Qed.

Section GreedyFacts.

Context {R : Type}.

(** A repetition that can take all of [ds] and must stop there hands
    the rest to what follows; if that accepts, so does the whole. *)
Lemma greedy_app (p : ascii -> bool) (min : nat) (max : option nat)
    (count : nat) (ds tail : string) (k : string -> option R) (r : R) :
  every p ds = true ->
  within_max max (count + String.length ds) ->
  (min <= count + String.length ds)%nat ->
  starts p tail = false \/ Re.below max (count + String.length ds) = false ->
  k tail = Some r ->
  Re.greedy p min max count (ds +:+ tail) k = Some r.
Proof.
  revert count. induction ds as [|c ds IH]; intros count Hall Hfit Hmin Hstop Hk.
  - cbn [String.length] in *. rewrite Nat.add_0_r in *. rewrite app_empty.
    assert ((min <=? count)%nat = true) as Hle by (apply Nat.leb_le; exact Hmin).
    destruct tail as [|c tail]; cbn [Re.greedy]; rewrite Hle.
    + exact Hk.
    + destruct Hstop as [Hs|Hb].
      * cbn in Hs. rewrite Hs. cbn [andb]. exact Hk.
      * rewrite Hb, andb_false_r. exact Hk.
  - cbn in Hall. apply andb_true_iff in Hall. destruct Hall as [Hc Hall].
    cbn [String.length] in *. rewrite app_cons. cbn [Re.greedy]. rewrite Hc.
    assert (Re.below max count = true) as ->.
    { destruct max as [m|]; [|reflexivity]. cbn in *. apply Nat.ltb_lt. lia. }
    cbn [andb].
    rewrite (IH (S count)); [reflexivity|exact Hall| | | |exact Hk].
    + replace (S count + String.length ds)%nat
        with (count + S (String.length ds))%nat by lia. exact Hfit.
    + lia.
    + replace (S count + String.length ds)%nat
        with (count + S (String.length ds))%nat by lia. exact Hstop.
Qed.

Lemma greedy_every (p q : ascii -> bool) (min : nat) (max : option nat)
    (count : nat) (s : string) (k : string -> option R) (x : R) :
  (forall c, p c = true -> q c = true) ->
  (forall rest, k rest = Some x -> every q rest = true) ->
  Re.greedy p min max count s k = Some x -> every q s = true.
Proof.
  intros Hpq Hk. revert count. induction s as [|c s IH]; intros count.
  - cbn. destruct (min <=? count)%nat; [apply Hk|discriminate].
  - cbn [Re.greedy].
    destruct (p c && Re.below max count) eqn:Hc.
    + destruct (Re.greedy p min max (S count) s k) as [r|] eqn:Hin.
      * intros [= ->]. apply andb_true_iff in Hc. destruct Hc as [Hc _].
        cbn. rewrite (Hpq c Hc), (IH _ Hin). reflexivity.
      * destruct (min <=? count)%nat; [apply Hk|discriminate].
    + destruct (min <=? count)%nat; [apply Hk|discriminate].
Qed.

Lemma run_every (q : ascii -> bool) (r : Re.t) :
  within q r ->
  forall (s : string) (groups : list string)
         (k : string -> list string -> option R) (x : R),
    (forall rest groups', k rest groups' = Some x -> every q rest = true) ->
    Re.run r s groups k = Some x -> every q s = true.
Proof.
  induction r as [|p|p min max|a IHa b IHb|a IHa b IHb|a IHa|];
    cbn [within Re.run]; intros Hq s groups k x Hk.
  - apply Hk.
  - destruct s as [|c s]; [discriminate|].
    destruct (p c) eqn:Hc; [|discriminate].
    intros H. cbn. rewrite (Hq c Hc). exact (Hk _ _ H).
  - apply greedy_every with (q := q); [exact Hq|].
    intros rest. apply Hk.
  - destruct Hq as [Ha Hb]. apply (IHa Ha).
    intros rest groups'. apply (IHb Hb). exact Hk.
  - destruct Hq as [Ha Hb].
    destruct (Re.run a s groups k) as [y|] eqn:Hy.
    + intros [= ->]. exact (IHa Ha _ _ _ _ Hk Hy).
    + apply (IHb Hb). exact Hk.
  - apply (IHa Hq). intros rest groups'. apply Hk.
  - destruct (Re.at_end s); [apply Hk|discriminate].
Qed.

Lemma at_end_every (q : ascii -> bool) (s : string) :
  Re.at_end s = true -> every (or_line_feed q) s = true.
Proof.
  destruct s as [|c [|c' s]]; [reflexivity| |discriminate].
  cbn [Re.at_end every]. intros H. unfold or_line_feed.
  rewrite H, orb_true_r. reflexivity.
Qed.

Lemma within_line_feed (q : ascii -> bool) (r : Re.t) :
  within q r -> within (or_line_feed q) r.
Proof.
  induction r; cbn; try tauto;
    intros H c Hc; unfold or_line_feed; rewrite (H c Hc); reflexivity.
Qed.

Lemma run_end (q : ascii -> bool) (r : Re.t) :
  within q r -> ends_with_dollar r ->
  forall (s : string) (groups : list string)
         (k : string -> list string -> option R) (x : R),
    Re.run r s groups k = Some x -> every (or_line_feed q) s = true.
Proof.
  induction r as [|p|p min max|a IHa b IHb|a IHa b IHb|a IHa|];
    cbn [within ends_with_dollar Re.run]; try tauto.
  - intros [Ha Hb] Hend s groups k x.
    apply (run_every (or_line_feed q) a (within_line_feed q a Ha)).
    intros rest groups'. apply (IHb Hb Hend).
  - intros _ _ s groups k x. destruct (Re.at_end s) eqn:He; [|discriminate].
    intros _. apply at_end_every. exact He.
Qed.

End GreedyFacts.

(** A text with a character that no class of the pattern allows does
    not match a pattern that ends with [$]. *)
Lemma no_match (q : ascii -> bool) (r : Re.t) (s : string) :
  within q r -> ends_with_dollar r ->
  every (or_line_feed q) s = false -> Re.re_match r s = None.
Proof.
  intros Hq Hend Hs. unfold Re.re_match.
  destruct (Re.run r s [] (fun _ groups => Some groups)) as [x|] eqn:Hx;
    [|reflexivity].
  rewrite (run_end q r Hq Hend _ _ _ _ Hx) in Hs. discriminate Hs.
Qed.

Lemma run_lit {R : Type} (u rest : string) (groups : list string)
    (k : string -> list string -> option R) :
  Re.run (Re.lit u) (u +:+ rest) groups k = k rest groups.
Proof.
  revert groups k. induction u as [|c u IH]; intros groups k; [reflexivity|].
  destruct u as [|c' u].
  - cbn [Re.lit]. rewrite app_cons, app_empty. unfold Re.Char. cbn [Re.run].
    rewrite Ascii.eqb_refl. reflexivity.
  - cbn [Re.lit]. rewrite app_cons. unfold Re.Char at 1. cbn [Re.run].
    rewrite Ascii.eqb_refl. apply IH.
Qed.

Lemma digit_not_space (c : ascii) :
  PyStr.isdigit c = true -> PyStr.isspace c = false.
Proof. destruct c as [[] [] [] [] [] [] [] []]; cbv; congruence. Qed.

Lemma space_not_digit (c : ascii) :
  PyStr.isspace c = true -> PyStr.isdigit c = false.
Proof. destruct c as [[] [] [] [] [] [] [] []]; cbv; congruence. Qed.

Lemma space_not_s (c : ascii) :
  PyStr.isspace c = true -> Ascii.eqb "s" c = false.
Proof. destruct c as [[] [] [] [] [] [] [] []]; cbv; congruence. Qed.

Lemma ago_match (unit ds sp1 sp2 : string) (plural : bool) :
  every PyStr.isdigit ds = true -> ds <> "" ->
  every PyStr.isspace sp1 = true -> every PyStr.isspace sp2 = true ->
  starts PyStr.isdigit unit = false -> starts PyStr.isspace unit = false ->
  unit <> "" ->
  Re.re_match (DateParser.ago_pattern unit) (spelled ds sp1 unit plural sp2)
  = Some [ds].
Proof.
  intros Hds Hne Hsp1 Hsp2 Hud Hus Hu.
  unfold Re.re_match, DateParser.ago_pattern, spelled.
  cbn [Re.seq Re.run].
  assert (forall rest, starts PyStr.isdigit (unit +:+ rest) = false) as Hud'.
  { intros rest. destruct unit; [congruence|exact Hud]. }
  assert (forall rest, starts PyStr.isspace (unit +:+ rest) = false) as Hus'.
  { intros rest. destruct unit; [congruence|exact Hus]. }
  apply greedy_app; [exact Hds|exact I| | |].
  { destruct ds; [congruence|cbn; lia]. }
  { left. apply starts_app with (q := PyStr.isspace);
      [exact Hsp1|exact space_not_digit|apply Hud']. }
  rewrite consumed_app. cbn [app].
  apply greedy_app; [exact Hsp1|exact I|lia|left; apply Hus'|].
  rewrite run_lit.
  cbn [Re.run].
  apply greedy_app.
  { destruct plural; reflexivity. }
  { destruct plural; cbn; lia. }
  { lia. }
  { left. apply starts_app with (q := PyStr.isspace);
      [exact Hsp2|exact space_not_s|reflexivity]. }
  apply greedy_app; [exact Hsp2|exact I|lia|left; reflexivity|].
  change "ago" with ("ago" +:+ "") at 1.
  rewrite (run_lit "ago" ""). reflexivity.
Qed.

(** ** Normalised texts *)

Lemma isspace_to_lower (c : ascii) :
  PyStr.isspace (PyStr.to_lower c) = PyStr.isspace c.
Proof. destruct c as [[] [] [] [] [] [] [] []]; reflexivity. Qed.

Lemma to_lower_twice (c : ascii) :
  PyStr.to_lower (PyStr.to_lower c) = PyStr.to_lower c.
Proof. destruct c as [[] [] [] [] [] [] [] []]; reflexivity. Qed.

Lemma lower_twice (s : string) : PyStr.lower (PyStr.lower s) = PyStr.lower s.
Proof.
  induction s as [|c s IH]; [reflexivity|].
  cbn [PyStr.lower]. rewrite to_lower_twice, IH. reflexivity.
Qed.

Lemma lstrip_lower (s : string) :
  PyStr.lstrip (PyStr.lower s) = PyStr.lower (PyStr.lstrip s).
Proof.
  induction s as [|c s IH]; [reflexivity|].
  cbn [PyStr.lower PyStr.lstrip]. rewrite isspace_to_lower.
  destruct (PyStr.isspace c); [exact IH|reflexivity].
Qed.

Lemma rstrip_lower (s : string) :
  PyStr.rstrip (PyStr.lower s) = PyStr.lower (PyStr.rstrip s).
Proof.
  induction s as [|c s IH]; [reflexivity|].
  cbn [PyStr.lower PyStr.rstrip]. rewrite IH, isspace_to_lower.
  destruct (PyStr.rstrip s) as [|c' r]; cbn [PyStr.lower].
  - destruct (PyStr.isspace c); reflexivity.
  - reflexivity.
Qed.

Lemma rstrip_twice (s : string) :
  PyStr.rstrip (PyStr.rstrip s) = PyStr.rstrip s.
Proof.
  induction s as [|c s IH]; [reflexivity|].
  cbn [PyStr.rstrip].
  destruct (PyStr.rstrip s) as [|c' r] eqn:Hr.
  - destruct (PyStr.isspace c) eqn:Hc; [reflexivity|].
    cbn [PyStr.rstrip]. rewrite Hc. reflexivity.
  - cbn [PyStr.rstrip] in *. rewrite IH. reflexivity.
Qed.

Lemma rstrip_starts (s : string) :
  starts PyStr.isspace s = false ->
  starts PyStr.isspace (PyStr.rstrip s) = false.
Proof.
  destruct s as [|c s]; [reflexivity|]. cbn [starts PyStr.rstrip].
  intros Hc. destruct (PyStr.rstrip s); [rewrite Hc|]; cbn; auto.
Qed.

Lemma lstrip_starts (s : string) :
  starts PyStr.isspace (PyStr.lstrip s) = false.
Proof.
  induction s as [|c s IH]; [reflexivity|]. cbn [PyStr.lstrip].
  destruct (PyStr.isspace c) eqn:Hc; [exact IH|exact Hc].
Qed.

Lemma lstrip_fixed (s : string) :
  starts PyStr.isspace s = false -> PyStr.lstrip s = s.
Proof.
  destruct s as [|c s]; [reflexivity|]. cbn [starts PyStr.lstrip].
  intros ->. reflexivity.
Qed.

Lemma strip_twice (s : string) : PyStr.strip (PyStr.strip s) = PyStr.strip s.
Proof.
  unfold PyStr.strip.
  rewrite (lstrip_fixed (PyStr.rstrip (PyStr.lstrip s)))
    by apply rstrip_starts, lstrip_starts.
  apply rstrip_twice.
Qed.

Lemma strip_lower (s : string) :
  PyStr.strip (PyStr.lower s) = PyStr.lower (PyStr.strip s).
Proof. unfold PyStr.strip. rewrite lstrip_lower, rstrip_lower. reflexivity. Qed.

(** Stripping and lower-casing a second time changes nothing. *)
Lemma normalise_twice (s : string) :
  PyStr.lower (PyStr.strip (PyStr.lower (PyStr.strip s)))
  = PyStr.lower (PyStr.strip s).
Proof. rewrite strip_lower, strip_twice, lower_twice. reflexivity. Qed.

Lemma lower_fixed (s : string) :
  every (fun c => negb (PyStr.isupper c)) s = true -> PyStr.lower s = s.
Proof.
  induction s as [|c s IH]; [reflexivity|]. cbn [every PyStr.lower].
  rewrite andb_true_iff. intros [Hc Hs]. rewrite (IH Hs).
  unfold PyStr.to_lower. destruct (PyStr.isupper c); [discriminate Hc|reflexivity].
Qed.

Lemma rstrip_fixed (s : string) :
  every (fun c => negb (PyStr.isspace c)) s = true -> PyStr.rstrip s = s.
Proof.
  induction s as [|c s IH]; [reflexivity|]. cbn [every PyStr.rstrip].
  rewrite andb_true_iff. intros [Hc Hs]. rewrite (IH Hs).
  destruct s; [|reflexivity].
  destruct (PyStr.isspace c); [discriminate Hc|reflexivity].
Qed.

Lemma rstrip_app (a b : string) :
  PyStr.rstrip b = b -> b <> "" -> PyStr.rstrip (a +:+ b) = a +:+ b.
Proof.
  intros Hb Hne. induction a as [|c a IH]; [exact Hb|].
  rewrite app_cons. cbn [PyStr.rstrip]. rewrite IH.
  destruct (a +:+ b) eqn:Hab; [|reflexivity].
  destruct a; [rewrite app_empty in Hab; congruence|discriminate Hab].
Qed.

(** A text that starts and ends with characters that are not blank and
    has no capital letter is its own normal form. *)
Lemma normal_form (a b : string) :
  starts PyStr.isspace (a +:+ b) = false ->
  every (fun c => negb (PyStr.isspace c)) b = true -> b <> "" ->
  every (fun c => negb (PyStr.isupper c)) (a +:+ b) = true ->
  PyStr.lower (PyStr.strip (a +:+ b)) = a +:+ b.
Proof.
  intros Hs Hb Hne Hl. unfold PyStr.strip.
  rewrite (lstrip_fixed _ Hs), rstrip_app; [apply lower_fixed, Hl| |exact Hne].
  apply rstrip_fixed, Hb.
Qed.

(** ** The date parser *)

Lemma app_empty_r (s : string) : s +:+ "" = s.
Proof. induction s as [|c s IH]; [reflexivity|]. rewrite app_cons, IH. reflexivity. Qed.

Lemma digits_every (n : nat) (s : string) :
  digits n s = true -> every PyStr.isdigit s = true.
Proof. unfold digits. rewrite andb_true_iff. tauto. Qed.

Lemma digits_length (n : nat) (s : string) :
  digits n s = true -> String.length s = n.
Proof. unfold digits. rewrite andb_true_iff, Nat.eqb_eq. tauto. Qed.

Lemma digits_not_empty (n : nat) (s : string) :
  digits (S n) s = true -> s <> "".
Proof. intros H ->. apply digits_length in H. discriminate H. Qed.

Lemma kept_app (a b : string) : kept b -> kept (a +:+ b).
Proof.
  intros [Hb Hne]. split; [apply rstrip_app; assumption|].
  destruct a; [exact Hne|discriminate].
Qed.

Lemma digit_facts (c : ascii) :
  PyStr.isdigit c = true ->
  PyStr.isspace c = false /\ PyStr.isupper c = false.
Proof. destruct c as [[] [] [] [] [] [] [] []]; cbv; split; congruence. Qed.

Lemma space_facts (c : ascii) :
  PyStr.isspace c = true ->
  PyStr.isdigit c = false /\ PyStr.isupper c = false.
Proof. destruct c as [[] [] [] [] [] [] [] []]; cbv; split; congruence. Qed.

Lemma kept_digits (s : string) :
  every PyStr.isdigit s = true -> s <> "" -> kept s.
Proof.
  intros Hs Hne. split; [|exact Hne]. apply rstrip_fixed.
  apply every_impl with (p := PyStr.isdigit); [|exact Hs].
  intros c Hc. destruct (digit_facts c Hc) as [-> _]. reflexivity.
Qed.

Lemma digits_lower (s : string) :
  every PyStr.isdigit s = true ->
  every (fun c => negb (PyStr.isupper c)) s = true.
Proof.
  apply every_impl. intros c Hc. destruct (digit_facts c Hc) as [_ ->].
  reflexivity.
Qed.

Lemma spaces_lower (s : string) :
  every PyStr.isspace s = true ->
  every (fun c => negb (PyStr.isupper c)) s = true.
Proof.
  apply every_impl. intros c Hc. destruct (space_facts c Hc) as [_ ->].
  reflexivity.
Qed.

Lemma starts_digits (s rest : string) :
  every PyStr.isdigit s = true -> s <> "" ->
  starts PyStr.isspace (s +:+ rest) = false.
Proof.
  destruct s as [|c s]; [congruence|]. rewrite app_cons. cbn [every starts].
  rewrite andb_true_iff. intros [Hc _] _. apply digit_facts, Hc.
Qed.

Lemma normal_text (s : string) :
  starts PyStr.isspace s = false -> kept s ->
  every (fun c => negb (PyStr.isupper c)) s = true ->
  PyStr.lower (PyStr.strip s) = s.
Proof.
  intros Hs [Hk _] Hl. unfold PyStr.strip.
  rewrite (lstrip_fixed _ Hs), Hk. apply lower_fixed, Hl.
Qed.

Lemma not_empty_eqb (s : string) : s <> "" -> String.eqb s "" = false.
Proof. destruct s; [congruence|reflexivity]. Qed.

Lemma differ_by_class (q : ascii -> bool) (s t : string) :
  every q s = false -> every q t = true -> String.eqb s t = false.
Proof.
  intros Hs Ht. apply String.eqb_neq. intros ->. congruence.
Qed.

Lemma unmatched (r : Re.t) (s : string) :
  Re.re_match r s = None -> bool_decide (is_Some (Re.re_match r s)) = false.
Proof. intros ->. reflexivity. Qed.

Lemma iso_match (y m d : string) :
  digits 4 y = true -> digits 2 m = true -> digits 2 d = true ->
  Re.re_match DateParser.iso_pattern (iso_text y m d) = Some [].
Proof.
  intros Hy Hm Hd. unfold Re.re_match, DateParser.iso_pattern, iso_text.
  cbn [Re.seq Re.run Re.Digits].
  apply greedy_app;
    [exact (digits_every _ _ Hy)
    |rewrite (digits_length _ _ Hy); cbn; lia
    |rewrite (digits_length _ _ Hy); lia
    |right; rewrite (digits_length _ _ Hy); reflexivity|].
  rewrite app_cons, app_empty. unfold Re.Char. cbn [Re.run Ascii.eqb Bool.eqb].
  apply greedy_app;
    [exact (digits_every _ _ Hm)
    |rewrite (digits_length _ _ Hm); cbn; lia
    |rewrite (digits_length _ _ Hm); lia
    |right; rewrite (digits_length _ _ Hm); reflexivity|].
  rewrite app_cons, app_empty. cbn [Re.run Ascii.eqb Bool.eqb].
  rewrite <- (app_empty_r d).
  apply greedy_app;
    [exact (digits_every _ _ Hd)
    |rewrite (digits_length _ _ Hd); cbn; lia
    |rewrite (digits_length _ _ Hd); lia
    |right; rewrite (digits_length _ _ Hd); reflexivity|].
  reflexivity.
Qed.

Lemma us_match (m d y : string) :
  digits 1 m || digits 2 m = true -> digits 1 d || digits 2 d = true ->
  digits 4 y = true ->
  Re.re_match DateParser.us_pattern (us_text m d y) = Some [m; d; y].
Proof.
  intros Hm Hd Hy. unfold Re.re_match, DateParser.us_pattern, us_text.
  cbn [Re.seq Re.run Re.Digits].
  assert (every PyStr.isdigit m = true /\ (1 <= String.length m <= 2)%nat)
    as [Hm1 Hm2].
  { apply orb_true_iff in Hm. destruct Hm as [H|H];
      rewrite (digits_every _ _ H), (digits_length _ _ H); split; auto; lia. }
  assert (every PyStr.isdigit d = true /\ (1 <= String.length d <= 2)%nat)
    as [Hd1 Hd2].
  { apply orb_true_iff in Hd. destruct Hd as [H|H];
      rewrite (digits_every _ _ H), (digits_length _ _ H); split; auto; lia. }
  apply greedy_app; [exact Hm1|cbn; lia|lia|left; reflexivity|].
  rewrite consumed_app, app_cons, app_empty. unfold Re.Char.
  cbn [Re.run Ascii.eqb Bool.eqb app].
  apply greedy_app; [exact Hd1|cbn; lia|lia|left; reflexivity|].
  rewrite consumed_app, app_cons, app_empty.
  cbn [Re.run Ascii.eqb Bool.eqb app].
  rewrite <- (app_empty_r y).
  apply greedy_app;
    [exact (digits_every _ _ Hy)
    |rewrite (digits_length _ _ Hy); cbn; lia
    |rewrite (digits_length _ _ Hy); lia
    |right; rewrite (digits_length _ _ Hy); reflexivity|].
  rewrite consumed_app, app_empty_r. reflexivity.
Qed.

Ltac within_solve :=
  cbn [within Re.seq Re.lit Re.Digits Re.Char DateParser.iso_pattern
       DateParser.us_pattern DateParser.ago_pattern];
  repeat split;
  let c := fresh "c" in
  let Hc := fresh "Hc" in
  intros c Hc;
  first [ apply Ascii.eqb_eq in Hc; subst c; reflexivity
        | rewrite Hc; rewrite ?orb_true_r; reflexivity ].


Lemma within_iso : within iso_class DateParser.iso_pattern.
Proof. unfold DateParser.iso_pattern, iso_class. within_solve. Qed.

Lemma within_us : within us_class DateParser.us_pattern.
Proof. unfold DateParser.us_pattern, us_class. within_solve. Qed.

Lemma within_days : within (ago_class "day") (DateParser.ago_pattern "day").
Proof. unfold DateParser.ago_pattern, ago_class. within_solve. Qed.

Lemma within_weeks : within (ago_class "week") (DateParser.ago_pattern "week").
Proof. unfold DateParser.ago_pattern, ago_class. within_solve. Qed.

Lemma within_months : within (ago_class "month") (DateParser.ago_pattern "month").
Proof. unfold DateParser.ago_pattern, ago_class. within_solve. Qed.

Lemma isdigit_digit (k : Z) :
  (0 <= k <= 9)%Z -> PyStr.isdigit (DateParser.digit k) = true.
Proof.
  intros Hk.
  assert (k = 0 \/ k = 1 \/ k = 2 \/ k = 3 \/ k = 4 \/ k = 5 \/ k = 6
          \/ k = 7 \/ k = 8 \/ k = 9)%Z as H by lia.
  repeat (destruct H as [->|H]); try subst k; reflexivity.
Qed.

Lemma two_digits (n : Z) :
  (0 <= n <= 99)%Z -> digits 2 (DateParser.two n) = true.
Proof.
  intros Hn. unfold digits, DateParser.two. cbn [String.length Nat.eqb every andb].
  rewrite !isdigit_digit; [reflexivity| |]; Z.div_mod_to_equations; lia.
Qed.

Lemma four_digits (n : Z) :
  (0 <= n <= 9999)%Z -> digits 4 (DateParser.four n) = true.
Proof.
  intros Hn. unfold digits, DateParser.four, DateParser.two.
  cbn [String.length Nat.eqb every andb].
  rewrite !isdigit_digit; [reflexivity| | | |]; Z.div_mod_to_equations; lia.
Qed.

Section ParserFacts.

Import Calendar DateParser.

Variable short_year : Z -> string.
Variable max_str_digits : nat.

Let parse_date := DateParser.parse_date short_year max_str_digits.
Let strftime := DateParser.strftime short_year.

Lemma parse_date_normalises (today : date) (s : string) :
  parse_date today s = parse_date today (PyStr.lower (PyStr.strip s)).
Proof.
  unfold parse_date, DateParser.parse_date.
  destruct (String.eqb s "") eqn:Es.
  - apply String.eqb_eq in Es. subst s. reflexivity.
  - destruct (String.eqb (PyStr.lower (PyStr.strip s)) "") eqn:Et.
    + apply String.eqb_eq in Et. rewrite Et. reflexivity.
    + rewrite normalise_twice. reflexivity.
Qed.

Lemma iso_text_normal (y m d : string) :
  digits 4 y = true -> digits 2 m = true -> digits 2 d = true ->
  iso_text y m d <> ""
  /\ PyStr.lower (PyStr.strip (iso_text y m d)) = iso_text y m d.
Proof.
  intros Hy Hm Hd.
  pose proof (digits_not_empty _ _ Hy) as Hne.
  split; [unfold iso_text; destruct y; [congruence|discriminate]|].
  apply normal_text.
  - apply starts_digits; [exact (digits_every _ _ Hy)|exact Hne].
  - unfold iso_text. do 4 apply kept_app.
    apply kept_digits; [exact (digits_every _ _ Hd)|].
    exact (digits_not_empty _ _ Hd).
  - unfold iso_text. rewrite !every_app.
    rewrite (digits_lower _ (digits_every _ _ Hy)),
      (digits_lower _ (digits_every _ _ Hm)),
      (digits_lower _ (digits_every _ _ Hd)).
    reflexivity.
Qed.

Lemma parse_date_iso (today : date) (y m d : string) :
  digits 4 y = true -> digits 2 m = true -> digits 2 d = true ->
  parse_date today (iso_text y m d) = Returns (iso_text y m d).
Proof.
  intros Hy Hm Hd.
  destruct (iso_text_normal y m d Hy Hm Hd) as [Hne Hnorm].
  unfold parse_date, DateParser.parse_date.
  rewrite (not_empty_eqb _ Hne), Hnorm. cbv zeta.
  rewrite (iso_match y m d Hy Hm Hd). reflexivity.
Qed.

Lemma us_text_normal (m d y : string) :
  digits 1 m || digits 2 m = true -> digits 1 d || digits 2 d = true ->
  digits 4 y = true ->
  us_text m d y <> ""
  /\ PyStr.lower (PyStr.strip (us_text m d y)) = us_text m d y.
Proof.
  intros Hm Hd Hy.
  assert (every PyStr.isdigit m = true /\ m <> "") as [Hm1 Hm2].
  { apply orb_true_iff in Hm. destruct Hm as [H|H];
      (split; [exact (digits_every _ _ H)|exact (digits_not_empty _ _ H)]). }
  assert (every PyStr.isdigit d = true) as Hd1.
  { apply orb_true_iff in Hd. destruct Hd as [H|H]; exact (digits_every _ _ H). }
  split; [unfold us_text; destruct m; [congruence|discriminate]|].
  apply normal_text.
  - apply starts_digits; assumption.
  - unfold us_text. do 4 apply kept_app.
    apply kept_digits; [exact (digits_every _ _ Hy)|].
    exact (digits_not_empty _ _ Hy).
  - unfold us_text. rewrite !every_app.
    rewrite (digits_lower _ Hm1), (digits_lower _ Hd1),
      (digits_lower _ (digits_every _ _ Hy)).
    reflexivity.
Qed.

Lemma parse_date_us (today : date) (m d y : string) :
  digits 1 m || digits 2 m = true -> digits 1 d || digits 2 d = true ->
  digits 4 y = true ->
  parse_date today (us_text m d y)
  = match new (py_int y) (py_int m) (py_int d) with
    | Some parsed => Returns (strftime parsed)
    | None => Raises DateParseError
    end.
Proof.
  intros Hm Hd Hy.
  destruct (us_text_normal m d y Hm Hd Hy) as [Hne Hnorm].
  unfold parse_date, DateParser.parse_date.
  rewrite (not_empty_eqb _ Hne), Hnorm. cbv zeta.
  rewrite (unmatched iso_pattern).
  2:{ apply (no_match iso_class); [exact within_iso|exact I|].
      unfold us_text. rewrite every_app, app_cons.
      apply andb_false_intro2. reflexivity. }
  rewrite (us_match m d y Hm Hd Hy). reflexivity.
Qed.

Lemma every_blocked (q : ascii -> bool) (a b : string) :
  every q b = false -> every q (a +:+ b) = false.
Proof. intros H. rewrite every_app, H. apply andb_false_r. Qed.

Lemma starts_differ (p : ascii -> bool) (s t : string) :
  starts p s = true -> starts p t = false -> String.eqb s t = false.
Proof. intros Hs Ht. apply String.eqb_neq. intros ->. congruence. Qed.

Lemma spelled_normal (ds sp1 unit : string) (plural : bool) (sp2 : string) :
  every PyStr.isdigit ds = true -> ds <> "" ->
  every PyStr.isspace sp1 = true -> every PyStr.isspace sp2 = true ->
  every (fun c => negb (PyStr.isupper c)) unit = true ->
  spelled ds sp1 unit plural sp2 <> ""
  /\ starts PyStr.isdigit (spelled ds sp1 unit plural sp2) = true
  /\ PyStr.lower (PyStr.strip (spelled ds sp1 unit plural sp2))
     = spelled ds sp1 unit plural sp2.
Proof.
  intros Hds Hne Hsp1 Hsp2 Hu.
  split; [unfold spelled; destruct ds; [congruence|discriminate]|].
  split.
  { unfold spelled. destruct ds as [|c ds]; [congruence|].
    rewrite app_cons. cbn [every starts] in *.
    apply andb_true_iff in Hds. tauto. }
  apply normal_text.
  - apply starts_digits; assumption.
  - unfold spelled. do 5 apply kept_app. split; [reflexivity|discriminate].
  - unfold spelled. rewrite !every_app.
    rewrite (digits_lower _ Hds), (spaces_lower _ Hsp1),
      (spaces_lower _ Hsp2), Hu.
    destruct plural; reflexivity.
Qed.

Lemma parse_date_ago (today : date) (ds sp1 sp2 : string) (plural : bool) :
  every PyStr.isdigit ds = true -> ds <> "" ->
  every PyStr.isspace sp1 = true -> every PyStr.isspace sp2 = true ->
  parse_date today (spelled ds sp1 "day" plural sp2)
  = (n ← int_str max_str_digits ds; days_before short_year today n)
  /\ parse_date today (spelled ds sp1 "week" plural sp2)
     = (n ← int_str max_str_digits ds; days_before short_year today (7 * n))
  /\ parse_date today (spelled ds sp1 "month" plural sp2)
     = (n ← int_str max_str_digits ds; days_before short_year today (n * 30)).
Proof.
  intros Hds Hne Hsp1 Hsp2.
  assert (forall unit q r,
            within q r -> ends_with_dollar r ->
            every (or_line_feed q) (unit +:+ "") = false ->
            Re.re_match r (spelled ds sp1 unit plural sp2) = None) as Hmiss.
  { intros unit q r Hq Hr Hu. rewrite app_empty_r in Hu.
    apply (no_match q); [exact Hq|exact Hr|].
    unfold spelled. do 2 apply every_blocked.
    rewrite every_app, Hu. reflexivity. }
  assert (forall unit,
            every (fun c => negb (PyStr.isupper c)) unit = true ->
            starts PyStr.isdigit unit = false ->
            starts PyStr.isspace unit = false -> unit <> "" ->
            every (or_line_feed iso_class) (unit +:+ "") = false ->
            every (or_line_feed us_class) (unit +:+ "") = false ->
            (forall other,
               other <> unit -> In other ["day"; "week"; "month"] ->
               every (or_line_feed (ago_class other)) (unit +:+ "") = false) ->
            parse_date today (spelled ds sp1 unit plural sp2)
            = (if String.eqb unit "day" then
                 n ← int_str max_str_digits ds;
                 days_before short_year today n
               else if String.eqb unit "week" then
                 n ← int_str max_str_digits ds;
                 days_before short_year today (7 * n)
               else if String.eqb unit "month" then
                 n ← int_str max_str_digits ds;
                 days_before short_year today (n * 30)
               else parse_date today (spelled ds sp1 unit plural sp2)))
    as Hchain.
  { intros unit Hu Hud Hus Hune Hiso Husc Hother.
    destruct (spelled_normal ds sp1 unit plural sp2 Hds Hne Hsp1 Hsp2 Hu)
      as (Hne' & Hstart & Hnorm).
    pose proof (ago_match unit ds sp1 sp2 plural Hds Hne Hsp1 Hsp2 Hud Hus Hune)
      as Hhit.
    destruct (String.eqb unit "day") eqn:E1;
      [|destruct (String.eqb unit "week") eqn:E2;
        [|destruct (String.eqb unit "month") eqn:E3; [|reflexivity]]].
    all: unfold parse_date, DateParser.parse_date.
    all: rewrite (not_empty_eqb _ Hne'), Hnorm; cbv zeta.
    all: rewrite (unmatched iso_pattern)
        by (apply (Hmiss unit iso_class); [exact within_iso|exact I|exact Hiso]).
    all: rewrite (Hmiss unit us_class us_pattern within_us I Husc).
    all: rewrite (starts_differ PyStr.isdigit _ "today" Hstart eq_refl).
    all: rewrite (starts_differ PyStr.isdigit _ "yesterday" Hstart eq_refl).
    - apply String.eqb_eq in E1. subst unit. rewrite Hhit. reflexivity.
    - apply String.eqb_eq in E2. subst unit.
      rewrite (Hmiss "week" (ago_class "day") (ago_pattern "day") within_days I)
        by (apply Hother; [discriminate|cbn; auto]).
      rewrite Hhit. reflexivity.
    - apply String.eqb_eq in E3. subst unit.
      rewrite (Hmiss "month" (ago_class "day") (ago_pattern "day") within_days I)
        by (apply Hother; [discriminate|cbn; auto]).
      rewrite (Hmiss "month" (ago_class "week") (ago_pattern "week")
                 within_weeks I)
        by (apply Hother; [discriminate|cbn; auto]).
      rewrite Hhit. reflexivity. }
  assert (forall unit,
            In unit ["day"; "week"; "month"] ->
            forall other,
              other <> unit -> In other ["day"; "week"; "month"] ->
              every (or_line_feed (ago_class other)) (unit +:+ "") = false)
    as Hothers.
  { intros unit Hin other Hne' Hin'. cbn in Hin, Hin'.
    destruct Hin as [<-|[<-|[<-|[]]]];
      destruct Hin' as [<-|[<-|[<-|[]]]];
      try congruence; reflexivity. }
  split; [|split].
  - rewrite (Hchain "day"); try reflexivity; try discriminate.
    apply Hothers. cbn. auto.
  - rewrite (Hchain "week"); try reflexivity; try discriminate.
    apply Hothers. cbn. auto.
  - rewrite (Hchain "month"); try reflexivity; try discriminate.
    apply Hothers. cbn. auto.
Qed.

Lemma py_int_fold_nonneg (l : list ascii) (acc : Z) :
  (0 <= acc)%Z ->
  (0 <= fold_left
          (fun acc c =>
             if PyStr.isdigit c
             then (acc * 10 + (Z.of_nat (nat_of_ascii c) - 48))%Z
             else acc) l acc)%Z.
Proof.
  revert acc. induction l as [|c l IH]; intros acc Hacc; [exact Hacc|].
  cbn [fold_left]. apply IH.
  destruct (PyStr.isdigit c) eqn:Hc; [|exact Hacc].
  unfold PyStr.isdigit, PyStr.in_range in Hc.
  apply andb_true_iff in Hc. destruct Hc as [Hc _].
  apply Nat.leb_le in Hc. lia.
Qed.

Lemma py_int_nonneg (s : string) : (0 <= py_int s)%Z.
Proof. apply py_int_fold_nonneg. lia. Qed.

Lemma days_before_spec (today : date) (n : Z) :
  valid today = true -> (0 <= n)%Z ->
  ((n < toordinal today)%Z ->
   exists d, days_before short_year today n = Returns (strftime d)
             /\ valid d = true
             /\ toordinal d = (toordinal today - n)%Z)
  /\ ((toordinal today <= n)%Z ->
      days_before short_year today n = Raises OtherError).
Proof.
  intros Hv Hn. destruct (minus_days_spec today n Hv Hn) as [Hsome Hnone].
  unfold days_before. split; intros H.
  - destruct (Hsome H) as (d & -> & Hvd & Hod). exists d. auto.
  - rewrite (Hnone H). reflexivity.
Qed.

End ParserFacts.

Section ParserProperties.

Import Calendar DateParser.

Variable short_year : Z -> string.
Variable max_str_digits : nat.

Let parse_date := DateParser.parse_date short_year max_str_digits.
Let strftime := DateParser.strftime short_year.
Let days_before := DateParser.days_before short_year.

(** [parse_date] reads its argument stripped and in lower case.  A
    text of the shape dddd-dd-dd is returned as it is, without any
    look at the calendar.  A text m/d/yyyy is looked up: it raises
    DateParseError unless it names a day of the calendar, and for a
    year from 1000 on it returns that day as yyyy-mm-dd with month and
    day in two digits, a text that [parse_date] in turn returns as it
    is. *)
Theorem parse_date_absolute_formats (today : date) :
  (forall s,
     parse_date today s = parse_date today (PyStr.lower (PyStr.strip s)))
  /\ (forall y m d,
        digits 4 y = true -> digits 2 m = true -> digits 2 d = true ->
        parse_date today (iso_text y m d) = Returns (iso_text y m d))
  /\ (forall m d y,
        digits 1 m || digits 2 m = true -> digits 1 d || digits 2 d = true ->
        digits 4 y = true ->
        let parsed :=
          {| year := py_int y; month := py_int m; day := py_int d |} in
        let text :=
          iso_text (four (py_int y)) (two (py_int m)) (two (py_int d)) in
        (valid parsed = false ->
         parse_date today (us_text m d y) = Raises DateParseError)
        /\ (valid parsed = true -> (1000 <= py_int y)%Z ->
            parse_date today (us_text m d y) = Returns text
            /\ parse_date today text = Returns text)).
Proof.
  split; [intros s; apply parse_date_normalises|].
  split; [intros y m d; apply parse_date_iso|].
  intros m d y Hm Hd Hy parsed text.
  pose proof (parse_date_us short_year max_str_digits today m d y Hm Hd Hy)
    as Hus.
  fold parse_date in Hus. unfold new in Hus. fold parsed in Hus.
  split; intros Hv; rewrite Hv in Hus; [exact Hus|].
  intros Hyear. apply valid_fields in Hv. unfold parsed in Hv.
  cbn [year month day] in Hv.
  destruct Hv as (Hy' & Hm' & Hd').
  pose proof (days_in_month_range (py_int y) (py_int m) Hm') as Hdim.
  split.
  - rewrite Hus. unfold DateParser.strftime, parsed. cbn [year month day].
    destruct (Z.leb_spec 1000 (py_int y)); [reflexivity|lia].
  - exact (parse_date_iso short_year max_str_digits today _ _ _
             (four_digits (py_int y) ltac:(lia))
             (two_digits (py_int m) ltac:(lia))
             (two_digits (py_int d) ltac:(lia))).
Qed.

(** The relative forms count whole days back from today: N days,
    7 N days for N weeks, 30 N days for N months, one day for
    "yesterday" and none for "today", whatever blanks stand around the
    unit and with or without its plural s.  The count N is what
    [int] makes of the digits, which the interpreter refuses where
    they are more than 640 and more than its limit on such texts
    (leading zeros included): the call then raises an error that is
    not DateParseError, whatever number the digits stand for.
    Counting back fewer days than the ordinal of today gives the text
    of the calendar date that many days earlier; counting back further
    leaves the calendar and raises an error that is not
    DateParseError. *)
Theorem relative_dates_count_days_back
    (today : date) (ds sp1 sp2 : string) (plural : bool) :
  valid today = true ->
  every PyStr.isdigit ds = true -> ds <> "" ->
  every PyStr.isspace sp1 = true -> every PyStr.isspace sp2 = true ->
  let refused :=
    (640 < String.length ds)%nat
    /\ (0 < max_str_digits < String.length ds)%nat in
  (refused ->
   forall unit, In unit ["day"; "week"; "month"] ->
     parse_date today (spelled ds sp1 unit plural sp2) = Raises OtherError)
  /\ (~ refused ->
      parse_date today (spelled ds sp1 "day" plural sp2)
      = days_before today (py_int ds)
      /\ parse_date today (spelled ds sp1 "week" plural sp2)
         = days_before today (7 * py_int ds)
      /\ parse_date today (spelled ds sp1 "month" plural sp2)
         = days_before today (30 * py_int ds))
  /\ parse_date today "yesterday" = days_before today 1
  /\ parse_date today "today" = days_before today 0
  /\ (0 <= py_int ds)%Z
  /\ (forall n,
        (0 <= n < toordinal today)%Z ->
        exists d, days_before today n = Returns (strftime d)
                  /\ valid d = true
                  /\ toordinal d = (toordinal today - n)%Z)
  /\ (forall n,
        (toordinal today <= n)%Z -> days_before today n = Raises OtherError).
Proof.
  intros Hv Hds Hne Hsp1 Hsp2 refused.
  destruct (parse_date_ago short_year max_str_digits today ds sp1 sp2 plural
              Hds Hne Hsp1 Hsp2)
    as (Hd & Hw & Hm).
  fold parse_date in Hd, Hw, Hm.
  pose proof (toordinal_range today Hv) as Hr.
  assert (over_limit max_str_digits ds = true <-> refused) as Hover.
  { unfold over_limit, refused. rewrite !andb_true_iff, !Nat.ltb_lt. tauto. }
  split.
  { intros Href unit Hunit. apply Hover in Href.
    unfold int_str in Hd, Hw, Hm. rewrite Href in Hd, Hw, Hm.
    destruct Hunit as [<-|[<-|[<-|[]]]]; assumption. }
  split.
  { intros Hnot.
    assert (over_limit max_str_digits ds = false) as Hfalse.
    { destruct (over_limit max_str_digits ds); [|reflexivity].
      exfalso. apply Hnot, Hover. reflexivity. }
    unfold int_str in Hd, Hw, Hm. rewrite Hfalse in Hd, Hw, Hm.
    split; [exact Hd|]. split; [exact Hw|].
    rewrite Z.mul_comm. exact Hm. }
  split; [reflexivity|].
  split.
  { unfold days_before, DateParser.days_before, minus_days.
    rewrite Z.sub_0_r.
    destruct (Z.ltb_spec 0 (toordinal today)); [|lia].
    destruct (Z.leb_spec (toordinal today) _MAXORDINAL); [|lia].
    cbn [andb]. rewrite (fromordinal_toordinal today Hv). reflexivity. }
  split; [apply py_int_nonneg|].
  split.
  - intros n [Hn Hlt].
    exact (proj1 (days_before_spec short_year today n Hv Hn) Hlt).
  - intros n Hle.
    apply (days_before_spec short_year today n Hv); lia.
Qed.

(** The named periods.  "this week" is the Monday on or before today,
    at most six days back, and "last week" the Monday seven days
    before that one; "this month" is the first of today's month and
    "last month" the first of the month before, December of the year
    before when today is in January; "this year" and "ytd" are the
    first of January, "last year" the first of January a year earlier.
    Where the day asked for lies before the year 1, the error raised
    is not DateParseError. *)
Theorem named_periods_start (today : date) :
  valid today = true ->
  let first y m := strftime {| year := y; month := m; day := 1 |} in
  (exists monday,
     parse_date today "this week" = Returns (strftime monday)
     /\ parse_date today "thisweek" = Returns (strftime monday)
     /\ valid monday = true /\ weekday monday = 0%Z
     /\ (toordinal today - 6 <= toordinal monday <= toordinal today)%Z
     /\ ((toordinal today < 8)%Z ->
         parse_date today "last week" = Raises OtherError)
     /\ ((8 <= toordinal today)%Z ->
         exists earlier,
           parse_date today "last week" = Returns (strftime earlier)
           /\ parse_date today "lastweek" = Returns (strftime earlier)
           /\ valid earlier = true
           /\ toordinal earlier = (toordinal monday - 7)%Z))
  /\ parse_date today "this month"
     = Returns (first (year today) (month today))
  /\ parse_date today "last month"
     = (if (month today =? 1)%Z then
          if (year today =? 1)%Z then Raises OtherError
          else Returns (first (year today - 1)%Z 12%Z)
        else Returns (first (year today) (month today - 1)%Z))
  /\ parse_date today "this year" = Returns (first (year today) 1%Z)
  /\ parse_date today "ytd" = Returns (first (year today) 1%Z)
  /\ parse_date today "last year"
     = (if (year today =? 1)%Z then Raises OtherError
        else Returns (first (year today - 1)%Z 1%Z)).
Proof.
  intros Hv first.
  pose proof (proj1 (valid_fields today) Hv) as (Hy & Hm & Hd).
  pose proof (toordinal_range today Hv) as Hr.
  assert (forall y m, (1 <= y <= 9999)%Z -> (1 <= m <= 12)%Z ->
                      new y m 1
                      = Some {| year := y; month := m; day := 1 |}) as Hfirst.
  { intros y m Hy' Hm'.
    exact (first_of_month_valid {| year := y; month := m; day := 1 |}
             ltac:(apply valid_fields; cbn [year month day];
                   pose proof (days_in_month_range y m Hm'); lia)). }
  split.
  { destruct (start_of_week today Hv) as (monday & Hmon & Hvm & Hwm & Hom & Hw).
    exists monday.
    assert (parse_date today "this week" = Returns (strftime monday)) as H1.
    { change (parse_date today "this week")
        with (start ← uncaught (minus_days today (weekday today));
              Returns (strftime start)).
      rewrite Hmon. reflexivity. }
    split; [exact H1|]. split; [exact H1|].
    split; [exact Hvm|]. split; [exact Hwm|]. split; [lia|].
    assert (parse_date today "last week"
            = (earlier ← uncaught (minus_days monday 7);
               Returns (strftime earlier))) as H2.
    { change (parse_date today "last week")
        with (start ← uncaught (minus_days today (weekday today));
              earlier ← uncaught (minus_days start 7);
              Returns (strftime earlier)).
      rewrite Hmon. reflexivity. }
    destruct (minus_days_spec monday 7 Hvm) as [Hsome Hnone]; [lia|].
    split.
    - intros Hlt. rewrite H2, Hnone; [reflexivity|].
      unfold weekday in Hom, Hw. Z.div_mod_to_equations. lia.
    - intros Hge. destruct Hsome as (earlier & Hearlier & Hve & Hoe).
      { unfold weekday in Hom, Hw. Z.div_mod_to_equations. lia. }
      exists earlier.
      assert (parse_date today "last week" = Returns (strftime earlier)) as H3
        by (rewrite H2, Hearlier; reflexivity).
      split; [exact H3|]. split; [exact H3|]. split; [exact Hve|exact Hoe]. }
  split.
  { change (parse_date today "this month")
      with (d ← uncaught (new (year today) (month today) 1);
            Returns (strftime d)).
    rewrite (Hfirst _ _ Hy Hm). reflexivity. }
  split.
  { change (parse_date today "last month")
      with (first_of_current ← uncaught (new (year today) (month today) 1);
            last_month ← uncaught (minus_days first_of_current 1);
            d ← uncaught (new (year last_month) (month last_month) 1);
            Returns (strftime d)).
    rewrite (Hfirst _ _ Hy Hm). cbn [uncaught mbind outcome_bind].
    rewrite (day_before_first _ _ Hy Hm).
    destruct (Z.eqb_spec (month today) 1) as [Hm1|Hm1].
    - destruct (Z.eqb_spec (year today) 1) as [Hy1|Hy1]; [reflexivity|].
      cbn [uncaught mbind outcome_bind year month].
      rewrite Hfirst by lia. reflexivity.
    - cbn [uncaught mbind outcome_bind year month].
      rewrite Hfirst by lia. reflexivity. }
  split.
  { change (parse_date today "this year")
      with (d ← uncaught (new (year today) 1 1); Returns (strftime d)).
    rewrite Hfirst by lia. reflexivity. }
  split.
  { change (parse_date today "ytd")
      with (d ← uncaught (new (year today) 1 1); Returns (strftime d)).
    rewrite Hfirst by lia. reflexivity. }
  change (parse_date today "last year")
    with (d ← uncaught (new (year today - 1) 1 1); Returns (strftime d)).
  destruct (Z.eqb_spec (year today) 1) as [Hy1|Hy1].
  - rewrite Hy1. reflexivity.
  - rewrite Hfirst by lia. reflexivity.
Qed.

End ParserProperties.

(** ** [strptime] on texts of the shape dddd-dd-dd *)

Lemma digit_cases (c : ascii) :
  PyStr.isdigit c = true ->
  (c = "0" \/ c = "1" \/ c = "2" \/ c = "3" \/ c = "4" \/ c = "5" \/ c = "6"
   \/ c = "7" \/ c = "8" \/ c = "9")%char.
Proof.
  destruct c as [[] [] [] [] [] [] [] []]; cbv; intros H;
    try discriminate H; auto 11.
Qed.

Lemma digits_2 (s : string) :
  digits 2 s = true ->
  exists a b, s = String a (String b "")
              /\ PyStr.isdigit a = true /\ PyStr.isdigit b = true.
Proof.
  destruct s as [|a [|b [|c s]]]; try discriminate.
  unfold digits. cbn. rewrite !andb_true_iff. intros (Ha & Hb & _).
  exists a, b. auto.
Qed.

Lemma digits_4 (s : string) :
  digits 4 s = true ->
  exists a b c d, s = String a (String b (String c (String d "")))
                  /\ PyStr.isdigit a = true /\ PyStr.isdigit b = true
                  /\ PyStr.isdigit c = true /\ PyStr.isdigit d = true.
Proof.
  destruct s as [|a [|b [|c [|d [|e s]]]]]; try discriminate.
  unfold digits. cbn. rewrite !andb_true_iff. intros (Ha & Hb & Hc & Hd & _).
  exists a, b, c, d. auto.
Qed.


Lemma consumed_2 (a b : ascii) (rest : string) :
  Re.consumed (String a (String b rest)) rest = String a (String b "").
Proof. exact (consumed_app (String a (String b "")) rest). Qed.

Lemma consumed_1 (a : ascii) (rest : string) :
  Re.consumed (String a rest) rest = String a "".
Proof. exact (consumed_app (String a "") rest). Qed.

Lemma month_part {R : Type} (a b : ascii) (rest : string)
    (groups : list string) (k : string -> list string -> option R) :
  PyStr.isdigit a = true -> PyStr.isdigit b = true ->
  (forall c s g, PyStr.isdigit c = true -> k (String c s) g = None) ->
  Re.run DateParser.month_group (String a (String b rest)) groups k
  = if in_1_to 12 (String a (String b ""))
    then k rest (groups ++ [String a (String b "")])
    else None.
Proof.
  intros Ha Hb Hk.
  apply digit_cases in Ha, Hb.
  unfold DateParser.month_group, Re.Char. cbn [Re.run].
  repeat (destruct Ha as [->|Ha]); try subst a;
    repeat (destruct Hb as [->|Hb]); try subst b;
    cbn [Ascii.eqb Bool.eqb PyStr.in_range nat_of_ascii andb];
    rewrite ?consumed_2, ?consumed_1;
    rewrite ?Hk by reflexivity;
    try reflexivity;
    match goal with
    | |- context [k rest ?g] => destruct (k rest g); reflexivity
    end.
Qed.

Lemma day_part (a b : ascii) (groups : list string) :
  PyStr.isdigit a = true -> PyStr.isdigit b = true ->
  match Re.run DateParser.day_group (String a (String b "")) groups
          (fun rest groups' => Some (rest, groups')) with
  | Some (EmptyString, groups') => Some groups'
  | _ => None
  end
  = if in_1_to 31 (String a (String b ""))
    then Some (groups ++ [String a (String b "")])
    else None.
Proof.
  intros Ha Hb.
  apply digit_cases in Ha, Hb.
  repeat (destruct Ha as [->|Ha]); try subst a;
    repeat (destruct Hb as [->|Hb]); try subst b; reflexivity.
Qed.

Lemma digit_not_dash (c : ascii) :
  PyStr.isdigit c = true -> Ascii.eqb "-" c = false.
Proof. destruct c as [[] [] [] [] [] [] [] []]; cbv; congruence. Qed.

Lemma new_out_of_range (y m d : Z) :
  (m < 1 \/ 12 < m \/ d < 1 \/ 31 < d)%Z -> Calendar.new y m d = None.
Proof.
  intros H. unfold Calendar.new.
  destruct (Calendar.valid _) eqn:Hv; [|reflexivity].
  apply valid_fields in Hv.
  cbn [Calendar.year Calendar.month Calendar.day] in Hv.
  destruct Hv as (_ & Hmv & Hdv).
  pose proof (days_in_month_range y m Hmv). lia.
Qed.

Lemma strptime_iso (y m d : string) :
  digits 4 y = true -> digits 2 m = true -> digits 2 d = true ->
  DateParser.strptime (iso_text y m d)
  = Calendar.new (DateParser.py_int y) (DateParser.py_int m)
      (DateParser.py_int d).
Proof.
  intros Hy Hm Hd.
  destruct (digits_4 y Hy) as (y1 & y2 & y3 & y4 & -> & Hy1 & Hy2 & Hy3 & Hy4).
  destruct (digits_2 m Hm) as (m1 & m2 & -> & Hm1 & Hm2).
  destruct (digits_2 d Hd) as (d1 & d2 & -> & Hd1 & Hd2).
  unfold DateParser.strptime, Re.match_prefix, DateParser.ymd_format, iso_text.
  rewrite !app_cons, !app_empty.
  cbn [Re.seq]. cbn [Re.run]. unfold DateParser.year_group at 1.
  cbn [Re.seq Re.run]. rewrite Hy1, Hy2, Hy3, Hy4.
  unfold Re.Char at 1. cbn [Re.run].
  replace (Ascii.eqb "-" "-") with true by reflexivity.
  rewrite month_part; [|exact Hm1|exact Hm2|].
  2:{ intros c s g Hc. unfold Re.Char. cbn [Re.run].
      rewrite (digit_not_dash c Hc). reflexivity. }
  destruct (in_1_to 12 (String m1 (String m2 ""))) eqn:Hmonth.
  - unfold Re.Char. cbn [Re.run].
    replace (Ascii.eqb "-" "-") with true by reflexivity.
    pose proof (day_part d1 d2
                  (([] ++ [Re.consumed
                             (String y1 (String y2 (String y3 (String y4
                                (String "-" (String m1 (String m2
                                   (String "-" (String d1 (String d2 ""))))))))))
                             (String "-" (String m1 (String m2
                                (String "-" (String d1 (String d2 ""))))))])
                   ++ [String m1 (String m2 "")]) Hd1 Hd2) as Hday.
    assert (in_1_to 31 (String d1 (String d2 "")) = false ->
            Calendar.new
              (DateParser.py_int
                 (String y1 (String y2 (String y3 (String y4 "")))))
              (DateParser.py_int (String m1 (String m2 "")))
              (DateParser.py_int (String d1 (String d2 ""))) = None) as Hbad.
    { intros Hd31. apply new_out_of_range.
      unfold in_1_to in Hd31. apply andb_false_iff in Hd31.
      rewrite !Z.leb_gt in Hd31. lia. }
    destruct (Re.run DateParser.day_group _ _ _) as [[rest gs]|].
    + destruct rest as [|c rest].
      * destruct (in_1_to 31 (String d1 (String d2 ""))) eqn:Hd31.
        -- injection Hday as ->. reflexivity.
        -- discriminate Hday.
      * destruct (in_1_to 31 (String d1 (String d2 ""))) eqn:Hd31;
          [discriminate Hday|].
        rewrite Hbad; reflexivity.
    + destruct (in_1_to 31 (String d1 (String d2 ""))) eqn:Hd31;
        [discriminate Hday|].
      rewrite Hbad; reflexivity.
  - symmetry. apply new_out_of_range.
    unfold in_1_to in Hmonth. apply andb_false_iff in Hmonth.
    rewrite !Z.leb_gt in Hmonth. lia.
Qed.

Lemma digit_value (k : Z) :
  (0 <= k <= 9)%Z ->
  (Z.of_nat (nat_of_ascii (DateParser.digit k)) - 48 = k)%Z.
Proof.
  intros Hk.
  assert (k = 0 \/ k = 1 \/ k = 2 \/ k = 3 \/ k = 4 \/ k = 5 \/ k = 6
          \/ k = 7 \/ k = 8 \/ k = 9)%Z as H by lia.
  repeat (destruct H as [->|H]); try subst k; reflexivity.
Qed.

Lemma py_int_two (n : Z) :
  (0 <= n <= 99)%Z -> DateParser.py_int (DateParser.two n) = n.
Proof.
  intros Hn. unfold DateParser.py_int, DateParser.two.
  cbn [list_ascii_of_string fold_left].
  rewrite !isdigit_digit, !digit_value by (Z.div_mod_to_equations; lia).
  Z.div_mod_to_equations. lia.
Qed.

Lemma four_pieces (n : Z) :
  (0 <= n <= 9999)%Z ->
  exists a b c e,
    (n = 1000 * a + 100 * b + 10 * c + e
     /\ 0 <= a <= 9 /\ 0 <= b <= 9 /\ 0 <= c <= 9 /\ 0 <= e <= 9
     /\ n / 1000 = a /\ n / 100 mod 10 = b /\ n mod 100 / 10 = c
     /\ n mod 100 mod 10 = e)%Z.
Proof.
  intros Hn.
  exists (n / 1000)%Z, (n / 100 mod 10)%Z, (n mod 100 / 10)%Z,
    (n mod 100 mod 10)%Z.
  assert (n / 100 = 10 * (n / 1000) + (n mod 1000) / 100)%Z as H1.
  { Z.div_mod_to_equations. lia. }
  repeat split; try reflexivity; try (Z.div_mod_to_equations; lia).
Qed.

Lemma py_int_four (n : Z) :
  (0 <= n <= 9999)%Z -> DateParser.py_int (DateParser.four n) = n.
Proof.
  intros Hn.
  destruct (four_pieces n Hn)
    as (a & b & c & e & Hsum & Ha & Hb & Hc & He & E1 & E2 & E3 & E4).
  unfold DateParser.py_int, DateParser.four, DateParser.two.
  rewrite E1, E2, E3, E4.
  cbn [list_ascii_of_string fold_left].
  rewrite !isdigit_digit, !digit_value by lia. lia.
Qed.

Section RangeProperties.

Import Calendar DateParser.

Variable short_year : Z -> string.
Variable max_str_digits : nat.

Let parse_date_range :=
  DateParser.parse_date_range short_year max_str_digits.
Let strftime := DateParser.strftime short_year.

(** [parse_date_range] reads both texts back with [strptime].  Two
    texts of the shape dddd-dd-dd, which [parse_date] has passed
    unchecked, come back unchanged when both name days of the calendar
    and the first is not after the second; they raise DateParseError
    when the first is after the second; and when one of them names no
    day of the calendar (a month 13, a 30th of February, the year 0),
    the error is the ValueError of [strptime], which is not
    DateParseError.  The text [parse_date] prints for a calendar date
    from the year 1000 on is read back as that date. *)
Theorem date_range_of_iso_texts
    (today_start today_end : date) (y1 m1 d1 y2 m2 d2 : string) :
  digits 4 y1 = true -> digits 2 m1 = true -> digits 2 d1 = true ->
  digits 4 y2 = true -> digits 2 m2 = true -> digits 2 d2 = true ->
  let start :=
    {| year := py_int y1; month := py_int m1; day := py_int d1 |} in
  let end_ :=
    {| year := py_int y2; month := py_int m2; day := py_int d2 |} in
  parse_date_range today_start today_end
    (iso_text y1 m1 d1) (iso_text y2 m2 d2)
  = (if valid start && valid end_ then
       if later start end_ then Raises DateParseError
       else Returns (iso_text y1 m1 d1, iso_text y2 m2 d2)
     else Raises OtherError)
  /\ (forall d,
        valid d = true -> (1000 <= year d)%Z ->
        strptime (strftime d) = Some d).
Proof.
  intros Hy1 Hm1 Hd1 Hy2 Hm2 Hd2 start end_. split.
  - unfold parse_date_range, DateParser.parse_date_range.
    rewrite (parse_date_iso short_year max_str_digits today_start y1 m1 d1
               Hy1 Hm1 Hd1).
    rewrite (parse_date_iso short_year max_str_digits today_end y2 m2 d2
               Hy2 Hm2 Hd2).
    cbn [mbind outcome_bind].
    rewrite (strptime_iso y1 m1 d1 Hy1 Hm1 Hd1).
    rewrite (strptime_iso y2 m2 d2 Hy2 Hm2 Hd2).
    unfold new. subst start end_.
    destruct (valid {| year := py_int y1; month := py_int m1;
                       day := py_int d1 |});
      destruct (valid {| year := py_int y2; month := py_int m2;
                         day := py_int d2 |}); reflexivity.
  - intros d Hv Hyear.
    pose proof (proj1 (valid_fields d) Hv) as (Hy & Hm & Hd).
    pose proof (days_in_month_range (year d) (month d) Hm) as Hdim.
    assert (strftime d
            = iso_text (four (year d)) (two (month d)) (two (day d))) as ->.
    { unfold strftime, DateParser.strftime, iso_text.
      destruct (Z.leb_spec 1000 (year d)); [reflexivity|lia]. }
    rewrite (strptime_iso _ _ _
               (four_digits (year d) ltac:(lia))
               (two_digits (month d) ltac:(lia))
               (two_digits (day d) ltac:(lia))).
    rewrite (py_int_four (year d)), (py_int_two (month d)),
      (py_int_two (day d)) by lia.
    unfold new. destruct d as [y m dd].
    cbn [year month day] in *. rewrite Hv. reflexivity.
Qed.

End RangeProperties.

(** Seven days, weeks and months before Friday, 15 March 2024. *)
Lemma relative_dates_count_days_back_witness :
  DateParser.parse_date SampleDates.short_year SampleDates.max_str_digits
    SampleDates.friday "7daysago"
  = DateParser.Returns "2024-03-08"
  /\ DateParser.parse_date SampleDates.short_year SampleDates.max_str_digits
       SampleDates.friday "7weeksago"
     = DateParser.Returns "2024-01-26"
  /\ DateParser.parse_date SampleDates.short_year SampleDates.max_str_digits
       SampleDates.friday "7monthsago"
     = DateParser.Returns "2023-08-18".
Proof.
  destruct (relative_dates_count_days_back SampleDates.short_year
              SampleDates.max_str_digits SampleDates.friday "7" "" "" true
              eq_refl eq_refl ltac:(discriminate) eq_refl eq_refl)
    as (_ & Hcount & _).
  destruct Hcount as (Hd & Hw & Hm).
  { intros [Hlong _]. cbn in Hlong. lia. }
  split; [exact (eq_trans Hd eq_refl)|].
  split; [exact (eq_trans Hw eq_refl)|exact (eq_trans Hm eq_refl)].
Defined.

(** One day ago, the 1 written in 5000 digits: an interpreter with the
    limit of 4300 digits raises, one without a limit returns
    yesterday. *)
Lemma relative_date_over_the_digit_limit :
  DateParser.py_int SampleDates.long_count = 1%Z
  /\ DateParser.parse_date SampleDates.short_year SampleDates.max_str_digits
       SampleDates.friday (SampleDates.long_count +:+ "daysago")
     = DateParser.Raises DateParser.OtherError
  /\ DateParser.parse_date SampleDates.short_year 0 SampleDates.friday
       (SampleDates.long_count +:+ "daysago")
     = DateParser.Returns "2024-03-14".
Proof. vm_compute. repeat split. Qed.

(** The periods named on Friday, 15 March 2024. *)
Lemma named_periods_start_witness :
  DateParser.parse_date SampleDates.short_year SampleDates.max_str_digits
    SampleDates.friday "last month"
  = DateParser.Returns "2024-02-01"
  /\ DateParser.parse_date SampleDates.short_year SampleDates.max_str_digits
       SampleDates.friday "last year"
     = DateParser.Returns "2023-01-01".
Proof.
  destruct (named_periods_start SampleDates.short_year
              SampleDates.max_str_digits SampleDates.friday eq_refl)
    as (_ & _ & Hmonth & _ & _ & Hyear).
  split; [exact Hmonth|exact Hyear].
Defined.

(** A start date in a month 13. *)
Lemma date_range_of_iso_texts_witness :
  DateParser.parse_date_range SampleDates.short_year
    SampleDates.max_str_digits SampleDates.friday SampleDates.friday
    "2024-13-45" "2024-03-15"
  = DateParser.Raises DateParser.OtherError.
Proof.
  exact (proj1 (date_range_of_iso_texts SampleDates.short_year
                  SampleDates.max_str_digits
                  SampleDates.friday SampleDates.friday
                  "2024" "13" "45" "2024" "03" "15"
                  eq_refl eq_refl eq_refl eq_refl eq_refl eq_refl)).
Defined.
